(** * Motion execution core of the TinyG2 planner (plan_exec.cpp)

    A shallow embedding of [src/TinyG2/plan_exec.cpp]: the forward-difference
    initialiser, the aline executor with its head/body/tail runners, the
    executor entry [mp_exec_move], and the group planner [mp_plan_move] with
    [_attempt_extension].

    Conventions of the embedding.
    - C [float] values are rationals ([Q]) and arithmetic on them is exact;
      infinities and NaN are outside the model ([x / 0] is [0] in [Q]).
      Rounding is modelled where it decides something: a float that is
      turned into a count is rounded to binary32 first ([float32]), and the
      forward-difference initialisers have a second, floating-point
      embedding ([Float]) for the claim that is about their rounding.
    - The globals [mr], [mb], [cm] and the planner queue are the fields of one
      [machine] record that every routine threads through.
    - Pointers into the planner queue are indices into a list of buffers;
      pointers to the two block runtimes and the two group runtimes are
      slots of a two-element store.
    - Calls to collaborators that live outside plan_exec.cpp are appended to
      an event log; those that return values are fields of [collaborators].
    - [while(1);] is the result [Spin]: the routine never returns. *)

From Stdlib Require Import QArith Qabs Qround ZArith List Bool Lia Lqa String.
From Stdlib Require Import SpecFloat.
Import ListNotations.
Open Scope Q_scope.

(* ================================================================== *)
(** ** Record update *)

Class Setter {R T : Type} (proj : R -> T) := set : (T -> T) -> R -> R.
Arguments set {R T} proj {Setter} _ _.

Ltac setter eta proj :=
  let e := eval cbv delta [eta] in eta in
  match eval pattern proj in e with
  | ?F _ =>
      let t := eval cbv beta in (fun f r => F (fun r' => f (proj r')) r) in
      exact t
  end.

Notation "x <| proj := v |>" := (set proj (fun _ => v) x)
  (at level 1, left associativity, only parsing).
Notation "x <| proj ::= f |>" := (set proj f x)
  (at level 1, left associativity, only parsing).
Notation "x <| p1 ; p2 := v |>" := (set p1 (set p2 (fun _ => v)) x)
  (at level 1, left associativity, only parsing).
Notation "x <| p1 ; p2 ::= f |>" := (set p1 (set p2 f) x)
  (at level 1, left associativity, only parsing).
Notation "x <| p1 ; p2 ; p3 := v |>" := (set p1 (set p2 (set p3 (fun _ => v))) x)
  (at level 1, left associativity, only parsing).

(* ================================================================== *)
(** ** Enumerations *)

(** Status codes.  [STAT_CODE n] stands for any other numeric code, such as
    the literal 42 passed to [rpt_exception] or an error of [st_prep_line]. *)
Inductive stat_t :=
| STAT_OK | STAT_EAGAIN | STAT_NOOP
| STAT_INTERNAL_ERROR | STAT_PLANNER_ASSERTION_FAILURE
| STAT_CODE (n : Z).

Definition stat_eqb (a b : stat_t) : bool :=
  match a, b with
  | STAT_OK, STAT_OK | STAT_EAGAIN, STAT_EAGAIN | STAT_NOOP, STAT_NOOP => true
  | STAT_INTERNAL_ERROR, STAT_INTERNAL_ERROR => true
  | STAT_PLANNER_ASSERTION_FAILURE, STAT_PLANNER_ASSERTION_FAILURE => true
  | STAT_CODE n, STAT_CODE m => Z.eqb n m
  | _, _ => false
  end.

(** Modelled from the spec: planner.h is not among the sources; the buffer
    states are those of the spec's data model, in their order
    [EMPTY < PREPPED < PLANNED < RUNNING]. *)
Inductive mpBufferState :=
| MP_BUFFER_EMPTY | MP_BUFFER_PREPPED | MP_BUFFER_PLANNED | MP_BUFFER_RUNNING.

Definition buffer_rank (b : mpBufferState) : nat :=
  match b with
  | MP_BUFFER_EMPTY => 0 | MP_BUFFER_PREPPED => 1
  | MP_BUFFER_PLANNED => 2 | MP_BUFFER_RUNNING => 3
  end%nat.

Inductive moveType :=
| MOVE_TYPE_NULL | MOVE_TYPE_ALINE | MOVE_TYPE_DWELL | MOVE_TYPE_COMMAND.

Inductive moveState := MOVE_OFF | MOVE_NEW | MOVE_RUN.

Inductive moveSection := SECTION_HEAD | SECTION_BODY | SECTION_TAIL.

Inductive sectionState :=
| SECTION_OFF | SECTION_NEW | SECTION_1st_HALF | SECTION_2nd_HALF.

(** Modelled from the spec: the group states in the order of the spec,
    [OFF < RAMPED < HEAD < BODY < TAIL < DONE]. *)
Inductive groupState :=
| GROUP_OFF | GROUP_RAMPED | GROUP_HEAD | GROUP_BODY | GROUP_TAIL | GROUP_DONE.

Definition group_rank (g : groupState) : nat :=
  match g with
  | GROUP_OFF => 0 | GROUP_RAMPED => 1 | GROUP_HEAD => 2
  | GROUP_BODY => 3 | GROUP_TAIL => 4 | GROUP_DONE => 5
  end%nat.

Inductive motionState := MOTION_STOP | MOTION_RUN | MOTION_HOLD.

Inductive feedholdState :=
| FEEDHOLD_OFF | FEEDHOLD_SYNC | FEEDHOLD_DECEL_CONTINUE
| FEEDHOLD_DECEL_TO_ZERO | FEEDHOLD_DECEL_END | FEEDHOLD_PENDING
| FEEDHOLD_HOLD.

Scheme Equality for mpBufferState.
Scheme Equality for moveType.
Scheme Equality for moveState.
Scheme Equality for moveSection.
Scheme Equality for sectionState.
Scheme Equality for groupState.
Scheme Equality for motionState.
Scheme Equality for feedholdState.

(** The callback stored in a buffer: null, the aline executor, or the
    runner of another move type (dwell, command, ...). *)
Inductive bf_func_t := FUNC_NULL | FUNC_mp_exec_aline | FUNC_other (id : nat).

Inductive srRequest := SR_REQUEST_IMMEDIATE | SR_REQUEST_TIMED.

(** Every [__asm__("BKPT")] of the file, named by its place. *)
Inductive bkpt_site :=
| BK_extend_in_tail         (* _attempt_extension: extension while in the tail *)
| BK_extend_eats_body       (* _attempt_extension: tail would eat a started body *)
| BK_extend_negative        (* _attempt_extension: a negative length *)
| BK_ramps_negative         (* mp_plan_move: after mp_calculate_ramps *)
| BK_block_negative_before  (* mp_plan_move: before mp_calculate_block *)
| BK_block_exit_over_cruise (* mp_plan_move: exit_velocity > cruise_velocity *)
| BK_block_too_short        (* mp_plan_move: all sections < 0.001 *)
| BK_block_negative_after   (* mp_plan_move: after mp_calculate_block *)
| BK_exec_not_prepped       (* mp_exec_move: buffer is not prepped *)
| BK_exec_next_empty        (* mp_exec_move: next buffer is empty *)
| BK_exec_running_unplanned (* mp_exec_move: running without a planned block *).

Definition vector := list Q.

(** Calls that leave plan_exec.cpp, in the order they are made. *)
Inductive event :=
| EvBKPT (site : bkpt_site)
| Ev_debug_trap
| Ev_rpt_exception (code : stat_t) (msg : string)
| Ev_cm_panic (code : stat_t) (msg : string)
| Ev_st_prep_null
| Ev_st_request_plan_move
| Ev_st_prep_line (travel_steps following_error : vector) (segment_time : Q)
| Ev_mp_planner_time_accounting
| Ev_cm_set_motion_state (m : motionState)
| Ev_sr_request_status_report (kind : srRequest)
| Ev_mp_free_run_buffer
| Ev_cm_cycle_end.

(* ================================================================== *)
(** ** Two-slot stores

    Modelled from the spec: the runtime keeps two block runtimes ([r], [p])
    and two group runtimes ([r_group], [p_group]); a pointer to one of them
    is a [slot], and [nx] of a slot's content names the slot that follows. *)

Definition slot := bool.

Record store (A : Type) := { slot0 : A; slot1 : A }.
Arguments slot0 {A} _.
Arguments slot1 {A} _.

Definition rd {A} (i : slot) (m : store A) : A :=
  if i then slot1 m else slot0 m.

Definition wr {A} (i : slot) (f : A -> A) (m : store A) : store A :=
  if i then {| slot0 := slot0 m; slot1 := f (slot1 m) |}
  else {| slot0 := f (slot0 m); slot1 := slot1 m |}.

(* ================================================================== *)
(** ** Data model *)

(** The G-code model state copied from a buffer into the runtime.  The
    executor reads and writes only [target]; the remaining fields travel
    with the [memcpy] as [attrs]. *)
Module Gm.
Record t := { target : vector; attrs : list Z }.
Definition eta := fun x => Build_t (target x) (attrs x).
#[global] Instance set_target : Setter target := ltac:(setter eta target).
#[global] Instance set_attrs : Setter attrs := ltac:(setter eta attrs).
End Gm.

(** [mpBuf_t]: one entry of the planner queue.  [nx], [pv], [nx_group] and
    [pv_group] are indices into the queue. *)
Module Buf.
Record t := {
    nx : nat; pv : nat; nx_group : nat; pv_group : nat;
    bf_func : bf_func_t;
    buffer_state : mpBufferState;
    move_type : moveType;
    move_state : moveState;
    plannable : bool;
    gm : Gm.t;
    length : Q;
    unit : vector;
    axis_flags : vector;
    move_time : Q;
    jerk : Q; jerk_sq : Q; recip_jerk : Q; sqrt_j : Q; q_recip_2_sqrt_j : Q;
    cruise_vmax : Q; exit_vmax : Q;
    cruise_velocity : Q; exit_velocity : Q;
    group_length : Q
  }.
Definition eta := fun x =>
    Build_t (nx x) (pv x) (nx_group x) (pv_group x) (bf_func x)
      (buffer_state x) (move_type x) (move_state x) (plannable x) (gm x)
      (length x) (unit x) (axis_flags x) (move_time x)
      (jerk x) (jerk_sq x) (recip_jerk x) (sqrt_j x) (q_recip_2_sqrt_j x)
      (cruise_vmax x) (exit_vmax x) (cruise_velocity x) (exit_velocity x)
      (group_length x).
#[global] Instance set_nx_group : Setter nx_group := ltac:(setter eta nx_group).
#[global] Instance set_pv_group : Setter pv_group := ltac:(setter eta pv_group).
#[global] Instance set_buffer_state : Setter buffer_state := ltac:(setter eta buffer_state).
#[global] Instance set_move_state : Setter move_state := ltac:(setter eta move_state).
#[global] Instance set_plannable : Setter plannable := ltac:(setter eta plannable).
#[global] Instance set_length : Setter length := ltac:(setter eta length).
#[global] Instance set_jerk : Setter jerk := ltac:(setter eta jerk).
#[global] Instance set_jerk_sq : Setter jerk_sq := ltac:(setter eta jerk_sq).
#[global] Instance set_recip_jerk : Setter recip_jerk := ltac:(setter eta recip_jerk).
#[global] Instance set_sqrt_j : Setter sqrt_j := ltac:(setter eta sqrt_j).
#[global] Instance set_q_recip_2_sqrt_j : Setter q_recip_2_sqrt_j := ltac:(setter eta q_recip_2_sqrt_j).
#[global] Instance set_cruise_vmax : Setter cruise_vmax := ltac:(setter eta cruise_vmax).
#[global] Instance set_exit_vmax : Setter exit_vmax := ltac:(setter eta exit_vmax).
#[global] Instance set_cruise_velocity : Setter cruise_velocity := ltac:(setter eta cruise_velocity).
#[global] Instance set_exit_velocity : Setter exit_velocity := ltac:(setter eta exit_velocity).
#[global] Instance set_group_length : Setter group_length := ltac:(setter eta group_length).
End Buf.

(** [mpBlockRuntimeBuf_t]: the head/body/tail plan of one block. *)
Module Blk.
Record t := {
    nx : slot;
    planned : bool;
    head_length : Q; body_length : Q; tail_length : Q;
    head_time : Q; body_time : Q; tail_time : Q;
    cruise_velocity : Q; exit_velocity : Q;
    cruise_acceleration : Q; exit_acceleration : Q;
    cruise_jerk : Q; exit_jerk : Q
  }.
Definition eta := fun x =>
    Build_t (nx x) (planned x) (head_length x) (body_length x) (tail_length x)
      (head_time x) (body_time x) (tail_time x)
      (cruise_velocity x) (exit_velocity x)
      (cruise_acceleration x) (exit_acceleration x)
      (cruise_jerk x) (exit_jerk x).
#[global] Instance set_planned : Setter planned := ltac:(setter eta planned).
#[global] Instance set_head_length : Setter head_length := ltac:(setter eta head_length).
#[global] Instance set_body_length : Setter body_length := ltac:(setter eta body_length).
#[global] Instance set_tail_length : Setter tail_length := ltac:(setter eta tail_length).
#[global] Instance set_head_time : Setter head_time := ltac:(setter eta head_time).
#[global] Instance set_body_time : Setter body_time := ltac:(setter eta body_time).
#[global] Instance set_tail_time : Setter tail_time := ltac:(setter eta tail_time).
End Blk.

(** [mpGroupRuntimeBuf_t]: the ramp of one group of blocks. *)
Module Grp.
Record t := {
    nx : slot;
    group_state : groupState;
    first_block : nat;
    length : Q;
    head_length : Q; body_length : Q; tail_length : Q;
    completed_group_head_length : Q; completed_group_body_length : Q;
    cruise_velocity : Q; exit_velocity : Q;
    body_time : Q; tail_time : Q;
    length_into_section : Q; t_into_section : Q
  }.
Definition eta := fun x =>
    Build_t (nx x) (group_state x) (first_block x) (length x)
      (head_length x) (body_length x) (tail_length x)
      (completed_group_head_length x) (completed_group_body_length x)
      (cruise_velocity x) (exit_velocity x) (body_time x) (tail_time x)
      (length_into_section x) (t_into_section x).
#[global] Instance set_group_state : Setter group_state := ltac:(setter eta group_state).
#[global] Instance set_first_block : Setter first_block := ltac:(setter eta first_block).
#[global] Instance set_length : Setter length := ltac:(setter eta length).
#[global] Instance set_body_length : Setter body_length := ltac:(setter eta body_length).
#[global] Instance set_tail_length : Setter tail_length := ltac:(setter eta tail_length).
#[global] Instance set_completed_group_head_length : Setter completed_group_head_length := ltac:(setter eta completed_group_head_length).
#[global] Instance set_completed_group_body_length : Setter completed_group_body_length := ltac:(setter eta completed_group_body_length).
#[global] Instance set_exit_velocity : Setter exit_velocity := ltac:(setter eta exit_velocity).
#[global] Instance set_body_time : Setter body_time := ltac:(setter eta body_time).
#[global] Instance set_tail_time : Setter tail_time := ltac:(setter eta tail_time).
#[global] Instance set_length_into_section : Setter length_into_section := ltac:(setter eta length_into_section).
#[global] Instance set_t_into_section : Setter t_into_section := ltac:(setter eta t_into_section).
End Grp.

(** [mr]: the move runtime singleton.  [bf] holds the two block runtimes
    that [r] and [p] point into, [groups] the two group runtimes that
    [r_group] and [p_group] point into. *)
Module Mr.
Record t := {
  move_state : moveState;
  section : moveSection;
  section_state : sectionState;
  jerk : Q;
  gm : Gm.t;
  r : slot; p : slot;
  r_group : slot; p_group : slot;
  bf : store Blk.t;
  groups : store Grp.t;
  entry_velocity : Q; entry_acceleration : Q; entry_jerk : Q;
  group_entry_velocity : Q;
  executed_body_length : Q; executed_body_time : Q;
  segments : Q; segment_time : Q;
  segment_count : Z;
  segment_velocity : Q;
  forward_diff_1 : Q; forward_diff_2 : Q; forward_diff_3 : Q;
  forward_diff_4 : Q; forward_diff_5 : Q;
  unit : vector; target : vector; axis_flags : vector;
  position : vector;
  waypoint : moveSection -> vector;
  commanded_steps : vector; position_steps : vector; target_steps : vector;
  encoder_steps : vector; following_error : vector
}.
Definition eta := fun x =>
  Build_t (move_state x) (section x) (section_state x) (jerk x) (gm x)
    (r x) (p x) (r_group x) (p_group x) (bf x) (groups x)
    (entry_velocity x) (entry_acceleration x) (entry_jerk x)
    (group_entry_velocity x) (executed_body_length x) (executed_body_time x)
    (segments x) (segment_time x) (segment_count x) (segment_velocity x)
    (forward_diff_1 x) (forward_diff_2 x) (forward_diff_3 x)
    (forward_diff_4 x) (forward_diff_5 x)
    (unit x) (target x) (axis_flags x) (position x) (waypoint x)
    (commanded_steps x) (position_steps x) (target_steps x)
    (encoder_steps x) (following_error x).
#[global] Instance set_move_state : Setter move_state := ltac:(setter eta move_state).
#[global] Instance set_section : Setter section := ltac:(setter eta section).
#[global] Instance set_section_state : Setter section_state := ltac:(setter eta section_state).
#[global] Instance set_jerk : Setter jerk := ltac:(setter eta jerk).
#[global] Instance set_gm : Setter gm := ltac:(setter eta gm).
#[global] Instance set_r : Setter r := ltac:(setter eta r).
#[global] Instance set_p : Setter p := ltac:(setter eta p).
#[global] Instance set_r_group : Setter r_group := ltac:(setter eta r_group).
#[global] Instance set_p_group : Setter p_group := ltac:(setter eta p_group).
#[global] Instance set_bf : Setter bf := ltac:(setter eta bf).
#[global] Instance set_groups : Setter groups := ltac:(setter eta groups).
#[global] Instance set_entry_velocity : Setter entry_velocity := ltac:(setter eta entry_velocity).
#[global] Instance set_entry_acceleration : Setter entry_acceleration := ltac:(setter eta entry_acceleration).
#[global] Instance set_entry_jerk : Setter entry_jerk := ltac:(setter eta entry_jerk).
#[global] Instance set_group_entry_velocity : Setter group_entry_velocity := ltac:(setter eta group_entry_velocity).
#[global] Instance set_executed_body_length : Setter executed_body_length := ltac:(setter eta executed_body_length).
#[global] Instance set_executed_body_time : Setter executed_body_time := ltac:(setter eta executed_body_time).
#[global] Instance set_segments : Setter segments := ltac:(setter eta segments).
#[global] Instance set_segment_time : Setter segment_time := ltac:(setter eta segment_time).
#[global] Instance set_segment_count : Setter segment_count := ltac:(setter eta segment_count).
#[global] Instance set_segment_velocity : Setter segment_velocity := ltac:(setter eta segment_velocity).
#[global] Instance set_forward_diff_1 : Setter forward_diff_1 := ltac:(setter eta forward_diff_1).
#[global] Instance set_forward_diff_2 : Setter forward_diff_2 := ltac:(setter eta forward_diff_2).
#[global] Instance set_forward_diff_3 : Setter forward_diff_3 := ltac:(setter eta forward_diff_3).
#[global] Instance set_forward_diff_4 : Setter forward_diff_4 := ltac:(setter eta forward_diff_4).
#[global] Instance set_forward_diff_5 : Setter forward_diff_5 := ltac:(setter eta forward_diff_5).
#[global] Instance set_unit : Setter unit := ltac:(setter eta unit).
#[global] Instance set_target : Setter target := ltac:(setter eta target).
#[global] Instance set_axis_flags : Setter axis_flags := ltac:(setter eta axis_flags).
#[global] Instance set_position : Setter position := ltac:(setter eta position).
#[global] Instance set_waypoint : Setter waypoint := ltac:(setter eta waypoint).
#[global] Instance set_commanded_steps : Setter commanded_steps := ltac:(setter eta commanded_steps).
#[global] Instance set_position_steps : Setter position_steps := ltac:(setter eta position_steps).
#[global] Instance set_target_steps : Setter target_steps := ltac:(setter eta target_steps).
#[global] Instance set_encoder_steps : Setter encoder_steps := ltac:(setter eta encoder_steps).
#[global] Instance set_following_error : Setter following_error := ltac:(setter eta following_error).
End Mr.

(** [mb]: the part of the planner queue singleton that plan_exec.cpp writes. *)
Module Mb.
Record t := { run_time_remaining : Q }.
#[global] Instance set_run_time_remaining : Setter run_time_remaining :=
  fun f x => {| run_time_remaining := f (run_time_remaining x) |}.
End Mb.

(** [cm]: the part of the canonical machine that plan_exec.cpp reads and
    writes. *)
Module Cm.
Record t := { motion_state : motionState; hold_state : feedholdState }.
Definition eta := fun x => Build_t (motion_state x) (hold_state x).
#[global] Instance set_motion_state : Setter motion_state := ltac:(setter eta motion_state).
#[global] Instance set_hold_state : Setter hold_state := ltac:(setter eta hold_state).
End Cm.

(** The whole machine: the three singletons, the planner queue and the log
    of calls made to collaborators (oldest first). *)
Record machine := {
  mr : Mr.t;
  mb : Mb.t;
  cm : Cm.t;
  queue : list Buf.t;
  trace : list event
}.
Definition eta_machine := fun x =>
  Build_machine (mr x) (mb x) (cm x) (queue x) (trace x).
#[global] Instance set_mr : Setter mr := ltac:(setter eta_machine mr).
#[global] Instance set_mb : Setter mb := ltac:(setter eta_machine mb).
#[global] Instance set_cm : Setter cm := ltac:(setter eta_machine cm).
#[global] Instance set_queue : Setter queue := ltac:(setter eta_machine queue).
#[global] Instance set_trace : Setter trace := ltac:(setter eta_machine trace).


(* ================================================================== *)
(** ** Binary floating point

    [SpecFloat] of the standard library specifies the IEEE 754 binary
    formats with rounding to nearest, ties to even: [float] is binary32
    (24 bits of precision, [emax = 128]) and [double] is binary64 (53 bits,
    [emax = 1024]). *)

(** The value of a finite float; [d] stands in for an infinity or a NaN,
    which the rationals do not have. *)
Definition SF2Q (d : Q) (x : spec_float) : Q :=
  match x with
  | S754_zero _ => 0
  | S754_finite s m e => inject_Z (cond_Zopp s (Zpos m)) * Qpower 2 e
  | _ => d
  end.

(** The rational [x] as a float of the format [prec], [emax]: the correctly
    rounded quotient of its numerator and its denominator. *)
Definition Q2SF (prec emax : Z) (x : Q) : spec_float :=
  match Qnum x with
  | Z0 => S754_zero false
  | Zpos p =>
      SFdiv prec emax (S754_finite false p 0) (S754_finite false (Qden x) 0)
  | Zneg p =>
      SFdiv prec emax (S754_finite true p 0) (S754_finite false (Qden x) 0)
  end.

(** [float32 x]: the [float] nearest to [x], as a rational.  Where the
    result of a float operation is turned into an integer the model rounds
    it with [float32] first, so that the integer is the one the code gets.
    Beyond the largest float (about 3.4e38) the code has an infinity; the
    model leaves such an [x] as it is. *)
Definition float32 (x : Q) : Q := SF2Q x (Q2SF 24 128 x).

(** *** Values of C expressions

    For the routines whose claim is about float rounding itself: a value
    with its C type. *)
Module Float.

Inductive ctype := c_float | c_double.

Record cval := { ty : ctype; bits : spec_float }.

Definition prec (t : ctype) : Z :=
  match t with c_float => 24 | c_double => 53 end.
Definition emax (t : ctype) : Z :=
  match t with c_float => 128 | c_double => 1024 end.

(** The usual arithmetic conversions: the operation on two floats is a
    float operation; a float that meets a double is converted to double,
    which is exact, and the operation is a double operation. *)
Definition wider (a b : ctype) : ctype :=
  match a, b with c_float, c_float => c_float | _, _ => c_double end.

Definition binop (op : Z -> Z -> spec_float -> spec_float -> spec_float)
    (a b : cval) : cval :=
  let t := wider (ty a) (ty b) in
  {| ty := t; bits := op (prec t) (emax t) (bits a) (bits b) |}.

Definition add : cval -> cval -> cval := binop SFadd.
Definition sub : cval -> cval -> cval := binop SFsub.
Definition mul : cval -> cval -> cval := binop SFmul.
Definition div : cval -> cval -> cval := binop SFdiv.

(** The initialisation of a [float] variable, or the assignment to one:
    a double is rounded to float. *)
Definition to_float (a : cval) : cval :=
  match ty a with
  | c_float => a
  | c_double =>
      {| ty := c_float;
         bits := match bits a with
                 | S754_finite s m e => binary_round 24 128 s m e
                 | x => x
                 end |}
  end.

(** A float with the value nearest to [x]: a [float] argument. *)
Definition of_Q (x : Q) : cval := {| ty := c_float; bits := Q2SF 24 128 x |}.

(** An integer operand.  It is converted to the type of the operand it
    meets; the integers of these routines are small and convert exactly,
    so it is written as the float it becomes. *)
Definition int (z : Z) : cval :=
  {| ty := c_float; bits := binary_normalize 24 128 z 0 false |}.

Definition value (a : cval) : Q := SF2Q 0 (bits a).

Declare Scope cfloat_scope.
Delimit Scope cfloat_scope with cfloat.
Bind Scope cfloat_scope with cval.
Infix "+" := add : cfloat_scope.
Infix "-" := sub : cfloat_scope.
Infix "*" := mul : cfloat_scope.
Infix "/" := div : cfloat_scope.

(** The registers the forward-difference initialisers write. *)
Record registers := {
  forward_diff_1 : cval;
  forward_diff_2 : cval;
  forward_diff_3 : cval;
  forward_diff_4 : cval;
  forward_diff_5 : cval;
  segment_velocity : cval
}.

Section Initialisers.
(** A literal such as [0.2] or [6.0] is a double; with the compiler option
    [-fsingle-precision-constant] it is a float. *)
Variable single_precision_constant : bool.

Definition lit (x : Q) : cval :=
  if single_precision_constant
  then {| ty := c_float; bits := Q2SF 24 128 x |}
  else {| ty := c_double; bits := Q2SF 53 1024 x |}.

Local Open Scope cfloat_scope.

(** [_init_forward_diffs], the version compiled with
    [USE_OLD_FORWARD_DIFFS == 0], with [mr.segments = segments]. *)
Definition _init_forward_diffs (segments v_0 v_1 a_0 a_1 j_0 j_1 T : cval)
  : registers :=
  let fifth_T        := to_float (T * lit 0.2) in
  let two_fifths_T   := to_float (T * lit 0.4) in
  let twentienth_T_2 := to_float (T * T * lit 0.05) in

  let P_0 := v_0 in
  let P_1 := to_float (v_0 +      fifth_T*a_0) in
  let P_2 := to_float (v_0 + two_fifths_T*a_0 + twentienth_T_2*j_0) in
  let P_3 := to_float (v_1 - two_fifths_T*a_1 + twentienth_T_2*j_1) in
  let P_4 := to_float (v_1 -      fifth_T*a_1) in
  let P_5 := v_1 in

  let A := to_float (int 5*( P_1 - P_4 + int 2*(P_3 - P_2) ) + P_5 - P_0) in
  let B := to_float (int 5*( P_0 + P_4 - int 4*(P_3 + P_1) + int 6*P_2 )) in
  let C := to_float (int 10*( P_3 - P_0 + int 3*(P_1 - P_2) )) in
  let D := to_float (int 10*( P_0 + P_2 - int 2*P_1 )) in
  let E := to_float (int 5*( P_1 - P_0 )) in

  let h   := to_float (int 1 / segments) in
  let h_2 := to_float (h   * h) in
  let h_3 := to_float (h_2 * h) in
  let h_4 := to_float (h_3 * h) in
  let h_5 := to_float (h_4 * h) in

  let Ah_5 := to_float (A * h_5) in
  let Bh_4 := to_float (B * h_4) in
  let Ch_3 := to_float (C * h_3) in
  let Dh_2 := to_float (D * h_2) in
  let Eh   := to_float (E * h) in

  let const1 := to_float (lit 7.5625) in
  let const2 := to_float (lit 3.25) in
  let const3 := to_float (lit 82.5) in

  let half_h   := to_float (h * lit 0.5) in
  let half_h_2 := to_float (half_h   * half_h) in
  let half_h_3 := to_float (half_h_2 * half_h) in
  let half_h_4 := to_float (half_h_3 * half_h) in
  let half_h_5 := to_float (half_h_4 * half_h) in

  let half_Eh   := to_float (E * half_h) in
  let half_Dh_2 := to_float (D * half_h_2) in
  let half_Ch_3 := to_float (C * half_h_3) in
  let half_Bh_4 := to_float (B * half_h_4) in
  let half_Ah_5 := to_float (A * half_h_5) in

  {| forward_diff_5 :=
       to_float (const1*Ah_5 + lit 5.0*Bh_4 + const2*Ch_3 + lit 2.0*Dh_2 + Eh);
     forward_diff_4 :=
       to_float (const3*Ah_5 + lit 29.0*Bh_4 + lit 9.0*Ch_3 + lit 2.0*Dh_2);
     forward_diff_3 :=
       to_float (lit 255.0*Ah_5 + lit 48.0*Bh_4 + lit 6.0*Ch_3);
     forward_diff_2 := to_float (lit 300.0*Ah_5 + lit 24.0*Bh_4);
     forward_diff_1 := to_float (lit 120.0*Ah_5);
     segment_velocity :=
       to_float (half_Ah_5 + half_Bh_4 + half_Ch_3 + half_Dh_2 + half_Eh
                 + v_0) |}.

(** [_init_forward_diffs], the version compiled with
    [USE_OLD_FORWARD_DIFFS == 1]. *)
Definition _init_forward_diffs_old (segments Vi Vt a_0 a_1 j_0 j_1 T : cval)
  : registers :=
  let A := to_float (lit (-6.0)*Vi + lit 6.0*Vt) in
  let B := to_float (lit 15.0*Vi - lit 15.0*Vt) in
  let C := to_float (lit (-10.0)*Vi + lit 10.0*Vt) in

  let h := to_float (int 1 / segments) in

  let Ah_5 := to_float (A * h * h * h * h * h) in
  let Bh_4 := to_float (B * h * h * h * h) in
  let Ch_3 := to_float (C * h * h * h) in

  let half_h := to_float (h / lit 2.0) in
  let half_Ch_3 := to_float (C * half_h * half_h * half_h) in
  let half_Bh_4 := to_float (B * half_h * half_h * half_h * half_h) in
  let half_Ah_5 :=
    to_float (A * half_h * half_h * half_h * half_h * half_h) in

  {| forward_diff_5 :=
       to_float ((lit 121.0/lit 16.0)*Ah_5 + lit 5.0*Bh_4
                 + (lit 13.0/lit 4.0)*Ch_3);
     forward_diff_4 :=
       to_float ((lit 165.0/lit 2.0)*Ah_5 + lit 29.0*Bh_4 + lit 9.0*Ch_3);
     forward_diff_3 :=
       to_float (lit 255.0*Ah_5 + lit 48.0*Bh_4 + lit 6.0*Ch_3);
     forward_diff_2 := to_float (lit 300.0*Ah_5 + lit 24.0*Bh_4);
     forward_diff_1 := to_float (lit 120.0*Ah_5);
     segment_velocity :=
       to_float (half_Ah_5 + half_Bh_4 + half_Ch_3 + Vi) |}.

End Initialisers.

End Float.
(* ================================================================== *)
(** ** Forward differences (ForwardDifferenceEvaluator) *)

(** [_init_forward_diffs], the version compiled with
    [USE_OLD_FORWARD_DIFFS == 0]: all six control points. *)
Definition _init_forward_diffs (v_0 v_1 a_0 a_1 j_0 j_1 T : Q) (s : machine)
  : machine :=
  let fifth_T        := T * 0.2 in
  let two_fifths_T   := T * 0.4 in
  let twentienth_T_2 := T * T * 0.05 in

  let P_0 := v_0 in
  let P_1 := v_0 +      fifth_T*a_0 in
  let P_2 := v_0 + two_fifths_T*a_0 + twentienth_T_2*j_0 in
  let P_3 := v_1 - two_fifths_T*a_1 + twentienth_T_2*j_1 in
  let P_4 := v_1 -      fifth_T*a_1 in
  let P_5 := v_1 in

  let A :=  5*( P_1 - P_4 + 2*(P_3 - P_2) ) +   P_5 - P_0 in
  let B :=  5*( P_0 + P_4 - 4*(P_3 + P_1)   + 6*P_2 ) in
  let C := 10*( P_3 - P_0 + 3*(P_1 - P_2) ) in
  let D := 10*( P_0 + P_2 - 2*P_1 ) in
  let E :=  5*( P_1 - P_0 ) in

  let h   := 1 / Mr.segments (mr s) in
  let h_2 := h   * h in
  let h_3 := h_2 * h in
  let h_4 := h_3 * h in
  let h_5 := h_4 * h in

  let Ah_5 := A * h_5 in
  let Bh_4 := B * h_4 in
  let Ch_3 := C * h_3 in
  let Dh_2 := D * h_2 in
  let Eh   := E * h in

  let const1 := 7.5625 in
  let const2 := 3.25 in
  let const3 := 82.5 in

  let s := s <| mr; Mr.forward_diff_5 :=
                 const1*Ah_5 +  5.0*Bh_4 + const2*Ch_3 + 2.0*Dh_2 + Eh |> in
  let s := s <| mr; Mr.forward_diff_4 :=
                 const3*Ah_5 + 29.0*Bh_4 +    9.0*Ch_3 + 2.0*Dh_2 |> in
  let s := s <| mr; Mr.forward_diff_3 := 255.0*Ah_5 + 48.0*Bh_4 + 6.0*Ch_3 |> in
  let s := s <| mr; Mr.forward_diff_2 := 300.0*Ah_5 + 24.0*Bh_4 |> in
  let s := s <| mr; Mr.forward_diff_1 := 120.0*Ah_5 |> in

  let half_h   := h * 0.5 in
  let half_h_2 := half_h   * half_h in
  let half_h_3 := half_h_2 * half_h in
  let half_h_4 := half_h_3 * half_h in
  let half_h_5 := half_h_4 * half_h in

  let half_Eh   := E * half_h in
  let half_Dh_2 := D * half_h_2 in
  let half_Ch_3 := C * half_h_3 in
  let half_Bh_4 := B * half_h_4 in
  let half_Ah_5 := A * half_h_5 in

  s <| mr; Mr.segment_velocity :=
         half_Ah_5 + half_Bh_4 + half_Ch_3 + half_Dh_2 + half_Eh + v_0 |>.

(** [_init_forward_diffs], the version compiled with
    [USE_OLD_FORWARD_DIFFS == 1]: the original cubic-form coefficients.  The
    boundary accelerations, jerks and [T] are accepted and ignored. *)
Definition _init_forward_diffs_old (Vi Vt a_0 a_1 j_0 j_1 T : Q) (s : machine)
  : machine :=
  let A :=  -6.0*Vi +  6.0*Vt in
  let B :=  15.0*Vi - 15.0*Vt in
  let C := -10.0*Vi + 10.0*Vt in

  let h := 1 / Mr.segments (mr s) in

  let Ah_5 := A * h * h * h * h * h in
  let Bh_4 := B * h * h * h * h in
  let Ch_3 := C * h * h * h in

  let s := s <| mr; Mr.forward_diff_5 :=
                 (121.0/16.0)*Ah_5 + 5.0*Bh_4 + (13.0/4.0)*Ch_3 |> in
  let s := s <| mr; Mr.forward_diff_4 :=
                 (165.0/2.0)*Ah_5 + 29.0*Bh_4 + 9.0*Ch_3 |> in
  let s := s <| mr; Mr.forward_diff_3 := 255.0*Ah_5 + 48.0*Bh_4 + 6.0*Ch_3 |> in
  let s := s <| mr; Mr.forward_diff_2 := 300.0*Ah_5 + 24.0*Bh_4 |> in
  let s := s <| mr; Mr.forward_diff_1 := 120.0*Ah_5 |> in

  let half_h := h / 2.0 in
  let half_Ch_3 := C * half_h * half_h * half_h in
  let half_Bh_4 := B * half_h * half_h * half_h * half_h in
  let half_Ah_5 := A * half_h * half_h * half_h * half_h * half_h in
  s <| mr; Mr.segment_velocity := half_Ah_5 + half_Bh_4 + half_Ch_3 + Vi |>.

(** The quintic Bezier velocity curve of the header comment: its six
    control points, its Bernstein form, and its power form
    [V(t) = A t^5 + B t^4 + C t^3 + D t^2 + E t + F]. *)
Record control_points := { P_0 : Q; P_1 : Q; P_2 : Q; P_3 : Q; P_4 : Q; P_5 : Q }.

Definition control (v_0 v_1 a_0 a_1 j_0 j_1 T : Q) : control_points :=
  {| P_0 := v_0;
     P_1 := v_0 + (T/5)*a_0;
     P_2 := v_0 + (2*T/5)*a_0 + (T^2/20)*j_0;
     P_3 := v_1 - (2*T/5)*a_1 + (T^2/20)*j_1;
     P_4 := v_1 - (T/5)*a_1;
     P_5 := v_1 |}.

Definition bernstein (P : control_points) (t : Q) : Q :=
  P_0 P * (1-t)^5 + P_1 P * (5 * (1-t)^4 * t)
  + P_2 P * (10 * (1-t)^3 * t^2) + P_3 P * (10 * (1-t)^2 * t^3)
  + P_4 P * (5 * (1-t) * t^4) + P_5 P * t^5.

Record quintic := { q_A : Q; q_B : Q; q_C : Q; q_D : Q; q_E : Q; q_F : Q }.

Definition power_basis (P : control_points) : quintic :=
  {| q_A :=    - P_0 P +  5*P_1 P - 10*P_2 P + 10*P_3 P - 5*P_4 P + P_5 P;
     q_B :=   5*P_0 P - 20*P_1 P + 30*P_2 P - 20*P_3 P + 5*P_4 P;
     q_C := -10*P_0 P + 30*P_1 P - 30*P_2 P + 10*P_3 P;
     q_D :=  10*P_0 P - 20*P_1 P + 10*P_2 P;
     q_E := - 5*P_0 P +  5*P_1 P;
     q_F :=     P_0 P |}.

Definition V (c : quintic) (t : Q) : Q :=
  q_A c * t^5 + q_B c * t^4 + q_C c * t^3 + q_D c * t^2 + q_E c * t + q_F c.

(** The forward-difference registers the header comment derives for a
    quintic [c] and a step [h], and the first velocity [V(h/2)]. *)
Definition F_5 (c : quintic) (h : Q) : Q :=
  (121#16) * q_A c * h^5 + 5 * q_B c * h^4 + (13#4) * q_C c * h^3
  + 2 * q_D c * h^2 + q_E c * h.
Definition F_4 (c : quintic) (h : Q) : Q :=
  (165#2) * q_A c * h^5 + 29 * q_B c * h^4 + 9 * q_C c * h^3 + 2 * q_D c * h^2.
Definition F_3 (c : quintic) (h : Q) : Q :=
  255 * q_A c * h^5 + 48 * q_B c * h^4 + 6 * q_C c * h^3.
Definition F_2 (c : quintic) (h : Q) : Q :=
  300 * q_A c * h^5 + 24 * q_B c * h^4.
Definition F_1 (c : quintic) (h : Q) : Q :=
  120 * q_A c * h^5.


(* ================================================================== *)
(** ** Results, collaborators and access to the machine *)

(** The result of running a routine: it returns a value and leaves a
    machine, or it reaches a [while(1);] and never returns.  [OutOfFuel] is
    the answer of the bounded model of a [for] loop that was given too few
    steps: the source is still iterating, with the machine as it is. *)
Inductive result (A : Type) :=
| Ret (a : A) (s : machine)
| Spin (s : machine)
| OutOfFuel (s : machine).
Arguments Ret {A} a s.
Arguments Spin {A} s.
Arguments OutOfFuel {A} s.

Definition final {A} (r : result A) : machine :=
  match r with Ret _ s | Spin s | OutOfFuel s => s end.

Definition M (A : Type) := machine -> result A.

Definition ret {A} (a : A) : M A := fun s => Ret a s.

Definition bind {A B} (m : M A) (k : A -> M B) : M B :=
  fun s => match m s with
           | Ret a s' => k a s'
           | Spin s' => Spin s'
           | OutOfFuel s' => OutOfFuel s'
           end.

Notation "x <- m ;; k" := (bind m (fun x => k))
  (at level 61, m at next level, right associativity).

(** A block of statements either returns from the enclosing function
    ([Some status]) or falls through to the statements after it ([None]). *)
Definition fall_through (blk : M (option stat_t)) (rest : M stat_t) : M stat_t :=
  r <- blk ;; match r with Some status => ret status | None => rest end.

Definition log (e : event) (s : machine) : machine :=
  s <| trace ::= fun t => t ++ [e] |>.

(** What plan_exec.cpp takes from files that are not modelled here: the
    tunables and the collaborators that return values.  [uSec] is a macro
    of a header: it scales minutes to microseconds and its result is a
    float, so an instance rounds the product.  The planning
    functions of plan_zoid.cpp receive pointers to a buffer, a group and a
    block runtime; they are given the queue and what those pointers point
    to, and return what they leave there. *)
Record collaborators := {
  EPSILON : Q;
  MIN_SEGMENT_TIME : Q;
  NOM_SEGMENT_USEC : Q;
  uSec : Q -> Q;
  MOTORS : nat;
  st_prep_line : vector -> vector -> Q -> stat_t;
  kn_inverse_kinematics : vector -> vector;
  en_read_encoder : list event -> nat -> Q;
  mp_get_run_buffer : machine -> option nat;
  mp_free_run_buffer : list Buf.t -> list Buf.t * bool;
  cm_cycle_end : Cm.t -> Cm.t;
  mp_get_target_length : Q -> Q -> Buf.t -> Q;
  mp_calculate_ramps : list Buf.t -> nat -> Grp.t -> Q -> list Buf.t * Grp.t;
  mp_calculate_block :
    list Buf.t -> nat -> Grp.t -> Blk.t -> Q -> Q -> Q ->
    stat_t * (list Buf.t * Grp.t * Blk.t);
  other_bf_func : nat -> nat -> M stat_t
}.

Definition Qltb (x y : Q) : bool := negb (Qle_bool y x).

(** Modelled from the spec: util.h is not among the sources; the spec names
    [EPSILON] as the tolerance of the float comparisons [fp_ZERO], [fp_EQ],
    [fp_NE] and [fp_GE]. *)
Definition fp_ZERO (eps a : Q) : bool := Qltb (Qabs a) eps.
Definition fp_EQ (eps a b : Q) : bool := Qltb (Qabs (a - b)) eps.
Definition fp_NE (eps a b : Q) : bool := Qltb eps (Qabs (a - b)).
Definition fp_GE (eps a b : Q) : bool :=
  Qltb (Qabs (a - b)) eps || Qltb eps (a - b).

(** [ceil] of a float, as a float. *)
Definition ceil (x : Q) : Q := inject_Z (Qceiling x).

(** [(uint32_t)x] for a float [x]: the integer part, in 32 bits. *)
Definition to_uint32 (x : Q) : Z := (Qfloor x) mod 2 ^ 32.

(** Component-wise operations on axis and motor arrays. *)
Definition vmap2 (f : Q -> Q -> Q) (a b : vector) : vector :=
  map (fun xy => f (fst xy) (snd xy)) (combine a b).

(** The queue: [buf i s] is the buffer a pointer [i] points to, and
    [set_buf i f s] writes through that pointer.  Pointers of the ring always
    point into it; an index outside the list reads as an empty buffer and is
    not written. *)
Definition empty_buf : Buf.t :=
  Buf.Build_t 0 0 0 0 FUNC_NULL MP_BUFFER_EMPTY MOVE_TYPE_NULL MOVE_OFF false
    (Gm.Build_t [] []) 0 [] [] 0 0 0 0 0 0 0 0 0 0 0.

Fixpoint update_nth {A} (i : nat) (f : A -> A) (l : list A) : list A :=
  match l, i with
  | [], _ => []
  | x :: l', O => f x :: l'
  | x :: l', S i' => x :: update_nth i' f l'
  end.

Definition buf (i : nat) (s : machine) : Buf.t := nth i (queue s) empty_buf.

Definition set_buf (i : nat) (f : Buf.t -> Buf.t) (s : machine) : machine :=
  s <| queue ::= update_nth i f |>.

(** The two block runtimes and the two group runtimes behind their
    pointers. *)
Definition blk (i : slot) (s : machine) : Blk.t := rd i (Mr.bf (mr s)).
Definition set_blk (i : slot) (f : Blk.t -> Blk.t) (s : machine) : machine :=
  s <| mr; Mr.bf ::= wr i f |>.
Definition grp (i : slot) (s : machine) : Grp.t := rd i (Mr.groups (mr s)).
Definition set_grp (i : slot) (f : Grp.t -> Grp.t) (s : machine) : machine :=
  s <| mr; Mr.groups ::= wr i f |>.

(** [mr.r->...], [mr.p->...], [mr.r_group->...], [mr.p_group->...]. *)
Definition mr_r (s : machine) : Blk.t := blk (Mr.r (mr s)) s.
Definition mr_p (s : machine) : Blk.t := blk (Mr.p (mr s)) s.
Definition set_mr_r (f : Blk.t -> Blk.t) (s : machine) : machine :=
  set_blk (Mr.r (mr s)) f s.
Definition set_mr_p (f : Blk.t -> Blk.t) (s : machine) : machine :=
  set_blk (Mr.p (mr s)) f s.
Definition mr_r_group (s : machine) : Grp.t := grp (Mr.r_group (mr s)) s.
Definition mr_p_group (s : machine) : Grp.t := grp (Mr.p_group (mr s)) s.
Definition set_mr_r_group (f : Grp.t -> Grp.t) (s : machine) : machine :=
  set_grp (Mr.r_group (mr s)) f s.
Definition set_mr_p_group (f : Grp.t -> Grp.t) (s : machine) : machine :=
  set_grp (Mr.p_group (mr s)) f s.

(** [--mr.segment_count] on a [uint32_t]. *)
Definition uint32_dec (c : Z) : Z := (c - 1) mod 2 ^ 32.

(* ================================================================== *)
(** ** The aline executor *)

Section Core.
Variable E : collaborators.

Definition set_waypoint (sec : moveSection) (v : vector) (s : machine) : machine :=
  s <| mr; Mr.waypoint ::=
         fun w x => if moveSection_beq x sec then v else w x |>.

(** [_exec_aline_segment()]: the segment runner.  The loops over the axes
    and over the motors are written array-wise; in each of them an iteration
    reads and writes only its own index. *)
Definition _exec_aline_segment (s : machine) : stat_t * machine :=
  let s := s <| mr; Mr.segment_count ::= uint32_dec |> in
  let s :=
    if (Mr.segment_count (mr s) =? 0)%Z
       && sectionState_beq (Mr.section_state (mr s)) SECTION_2nd_HALF
       && negb (motionState_beq (Cm.motion_state (cm s)) MOTION_HOLD)
    then s <| mr; Mr.gm; Gm.target := Mr.waypoint (mr s) (Mr.section (mr s)) |>
    else
      let segment_length := Mr.segment_velocity (mr s) * Mr.segment_time (mr s) in
      s <| mr; Mr.gm; Gm.target :=
             vmap2 (fun p u => p + u * segment_length)
                   (Mr.position (mr s)) (Mr.unit (mr s)) |> in
  let s := s <| mr; Mr.commanded_steps := Mr.position_steps (mr s) |> in
  let s := s <| mr; Mr.position_steps := Mr.target_steps (mr s) |> in
  let s := s <| mr; Mr.encoder_steps :=
                 map (en_read_encoder E (trace s)) (seq 0 (MOTORS E)) |> in
  let s := s <| mr; Mr.following_error :=
                 vmap2 Qminus (Mr.encoder_steps (mr s))
                              (Mr.commanded_steps (mr s)) |> in
  let s := s <| mr; Mr.target_steps :=
                 kn_inverse_kinematics E (Gm.target (Mr.gm (mr s))) |> in
  let travel_steps :=
    vmap2 Qminus (Mr.target_steps (mr s)) (Mr.position_steps (mr s)) in
  let s := s <| mb; Mb.run_time_remaining ::=
                 fun t => t - Mr.segment_time (mr s) |> in
  let s := if Qltb (Mb.run_time_remaining (mb s)) 0
           then s <| mb; Mb.run_time_remaining := 0 |> else s in
  (* ritorno(st_prep_line(...)) *)
  let status := st_prep_line E travel_steps (Mr.following_error (mr s))
                  (Mr.segment_time (mr s)) in
  let s := log (Ev_st_prep_line travel_steps (Mr.following_error (mr s))
                  (Mr.segment_time (mr s))) s in
  if negb (stat_eqb status STAT_OK) then (status, s) else
  let s := s <| mr; Mr.position := Gm.target (Mr.gm (mr s)) |> in
  if (Mr.segment_count (mr s) =? 0)%Z then (STAT_OK, s) else (STAT_EAGAIN, s).

(** The forward-difference step shared by head and tail. *)
Definition advance_forward_diffs (s : machine) : machine :=
  let s := s <| mr; Mr.forward_diff_5 ::= fun f => f + Mr.forward_diff_4 (mr s) |> in
  let s := s <| mr; Mr.forward_diff_4 ::= fun f => f + Mr.forward_diff_3 (mr s) |> in
  let s := s <| mr; Mr.forward_diff_3 ::= fun f => f + Mr.forward_diff_2 (mr s) |> in
  s <| mr; Mr.forward_diff_2 ::= fun f => f + Mr.forward_diff_1 (mr s) |>.

(** The section runners.  Each is three [if] blocks in a row - on
    [SECTION_NEW], on [SECTION_1st_HALF] (not in the body) and on
    [SECTION_2nd_HALF] - and a final [return (STAT_EAGAIN)]; a block that
    does not return falls through to the next one.

    The number of segments of a section,
    [ceil(uSec(time) / NOM_SEGMENT_USEC)], is taken from floats: [uSec]
    hands back a float and the quotient is rounded to a float before
    [ceil] sees it, and so is the time of the body that is left, a float
    variable of its own.  A quotient a hair above a whole number in the
    rationals can be that whole number in the code, and the other way
    round.  A section time of zero on a section that has a length gives no
    segments, and the code then divides by zero: [mr.segment_time] is a NaN
    or an infinity there, which the model does not have (it has 0), so
    below that point the model says nothing of such a section. *)

(** [_exec_aline_tail(bf)] *)
Definition tail_section_new (bf : nat) : M (option stat_t) := fun s =>
  if negb (sectionState_beq (Mr.section_state (mr s)) SECTION_NEW)
  then Ret None s else
  let s := set_buf bf (fun b => b <| Buf.plannable := false |>) s in
  let s :=
    if groupState_beq (Grp.group_state (mr_r_group s)) GROUP_DONE
    then set_mr_r_group (fun g => g <| Grp.group_state := GROUP_OFF |>) s
    else s in
  if fp_ZERO (EPSILON E) (Blk.tail_length (mr_r s))
  then Ret (Some STAT_OK) s else
  let s := s <| mr; Mr.segments :=
                 ceil (float32 (uSec E (Blk.tail_time (mr_r s))
                                / NOM_SEGMENT_USEC E)) |> in
  let s := s <| mr; Mr.segment_time :=
                 Blk.tail_time (mr_r s) / Mr.segments (mr s) |> in
  let s := s <| mr; Mr.segment_count := to_uint32 (Mr.segments (mr s)) |> in
  let s :=
    if (Mr.segment_count (mr s) =? 1)%Z then
      let s := s <| mr; Mr.segment_velocity :=
                     (Blk.cruise_velocity (mr_r s) + Blk.exit_velocity (mr_r s)) / 2 |> in
      let s := s <| mr; Mr.forward_diff_5 := 0 |> in
      s <| mr; Mr.section_state := SECTION_2nd_HALF |>
    else
      let s := _init_forward_diffs
                 (Blk.cruise_velocity (mr_r s)) (Blk.exit_velocity (mr_r s))
                 (Blk.cruise_acceleration (mr_r s)) (Blk.exit_acceleration (mr_r s))
                 (Blk.cruise_jerk (mr_r s)) (Blk.exit_jerk (mr_r s))
                 (Blk.tail_time (mr_r s)) s in
      s <| mr; Mr.section_state := SECTION_1st_HALF |> in
  if Qltb (Mr.segment_time (mr s)) (MIN_SEGMENT_TIME E)
  then Ret (Some STAT_OK) (log Ev_debug_trap s) else
  Ret None (s <| mr; Mr.section := SECTION_TAIL |>).

Definition tail_first_half : M (option stat_t) := fun s =>
  if negb (sectionState_beq (Mr.section_state (mr s)) SECTION_1st_HALF)
  then Ret None s else
  let '(status, s) := _exec_aline_segment s in
  if stat_eqb status STAT_OK
  then Ret (Some STAT_OK) (s <| mr; Mr.section_state := SECTION_2nd_HALF |>)
  else Ret (Some STAT_EAGAIN) (s <| mr; Mr.section_state := SECTION_2nd_HALF |>).

Definition tail_second_half : M stat_t := fun s =>
  if negb (sectionState_beq (Mr.section_state (mr s)) SECTION_2nd_HALF)
  then Ret STAT_EAGAIN s else
  let s := s <| mr; Mr.segment_velocity ::=
                 fun v => v + Mr.forward_diff_5 (mr s) |> in
  let '(status, s) := _exec_aline_segment s in
  if stat_eqb status STAT_OK then Ret STAT_OK s
  else Ret STAT_EAGAIN (advance_forward_diffs s).

Definition _exec_aline_tail (bf : nat) : M stat_t :=
  fall_through (tail_section_new bf)
    (fall_through tail_first_half tail_second_half).

(** [_exec_aline_body(bf)] *)
Definition body_section_new (bf : nat) : M (option stat_t) := fun s =>
  if negb (sectionState_beq (Mr.section_state (mr s)) SECTION_NEW)
  then Ret None s else
  let remaining_body_length :=
    Blk.body_length (mr_r s) - Mr.executed_body_length (mr s) in
  if fp_ZERO (EPSILON E) remaining_body_length then
    (r <- _exec_aline_tail bf ;; ret (Some r))
      (s <| mr; Mr.section := SECTION_TAIL |>)
  else
  let s :=
    if negb (fp_ZERO (EPSILON E) (Mr.executed_body_length (mr s))) then
      let s := set_waypoint SECTION_BODY
                 (vmap2 (fun p u => p + u * remaining_body_length)
                        (Mr.position (mr s)) (Mr.unit (mr s))) s in
      set_waypoint SECTION_TAIL
        (vmap2 (fun p u => p + u * (remaining_body_length + Blk.tail_length (mr_r s)))
               (Mr.position (mr s)) (Mr.unit (mr s))) s
    else s in
  let body_time :=
    float32 (Blk.body_time (mr_r s) - Mr.executed_body_time (mr s)) in
  let s := s <| mr; Mr.segments :=
                 ceil (float32 (uSec E body_time / NOM_SEGMENT_USEC E)) |> in
  let s := s <| mr; Mr.segment_time := body_time / Mr.segments (mr s) |> in
  let s := s <| mr; Mr.segment_velocity := Blk.cruise_velocity (mr_r s) |> in
  let s := s <| mr; Mr.segment_count := to_uint32 (Mr.segments (mr s)) |> in
  if Qltb (Mr.segment_time (mr s)) (MIN_SEGMENT_TIME E)
  then Ret (Some STAT_OK) (log Ev_debug_trap s) else
  let s := s <| mr; Mr.executed_body_length := Blk.body_length (mr_r s) |> in
  let s := s <| mr; Mr.executed_body_time := Blk.body_time (mr_r s) |> in
  let s := s <| mr; Mr.section := SECTION_BODY |> in
  Ret None (s <| mr; Mr.section_state := SECTION_2nd_HALF |>).

Definition body_second_half : M stat_t := fun s =>
  if negb (sectionState_beq (Mr.section_state (mr s)) SECTION_2nd_HALF)
  then Ret STAT_EAGAIN s else
  let '(status, s) := _exec_aline_segment s in
  if stat_eqb status STAT_OK
  then Ret STAT_EAGAIN (s <| mr; Mr.section_state := SECTION_NEW |>)
  else Ret STAT_EAGAIN s.

Definition _exec_aline_body (bf : nat) : M stat_t := fun s =>
  if Qltb (Mr.segment_velocity (mr s)) 0
  then Spin (log Ev_debug_trap s)                      (* while(1); *)
  else fall_through (body_section_new bf) body_second_half s.

(** [_exec_aline_head(bf)] *)
Definition head_section_new (bf : nat) : M (option stat_t) := fun s =>
  if negb (sectionState_beq (Mr.section_state (mr s)) SECTION_NEW)
  then Ret None s else
  if fp_ZERO (EPSILON E) (Blk.head_length (mr_r s)) then
    (r <- _exec_aline_body bf ;; ret (Some r))
      (s <| mr; Mr.section := SECTION_BODY |>)
  else
  let s := s <| mr; Mr.segments :=
                 ceil (float32 (uSec E (Blk.head_time (mr_r s))
                                / NOM_SEGMENT_USEC E)) |> in
  let s := s <| mr; Mr.segment_time :=
                 Blk.head_time (mr_r s) / Mr.segments (mr s) |> in
  let s := s <| mr; Mr.segment_count := to_uint32 (Mr.segments (mr s)) |> in
  let s :=
    if (Mr.segment_count (mr s) =? 1)%Z then
      let s := s <| mr; Mr.segment_velocity :=
                     (Mr.entry_velocity (mr s) + Blk.cruise_velocity (mr_r s)) / 2 |> in
      let s := s <| mr; Mr.forward_diff_5 := 0 |> in
      s <| mr; Mr.section_state := SECTION_2nd_HALF |>
    else
      let s := _init_forward_diffs
                 (Mr.entry_velocity (mr s)) (Blk.cruise_velocity (mr_r s))
                 (Mr.entry_acceleration (mr s)) (Blk.cruise_acceleration (mr_r s))
                 (Mr.entry_jerk (mr s)) (Blk.cruise_jerk (mr_r s))
                 (Blk.head_time (mr_r s)) s in
      s <| mr; Mr.section_state := SECTION_1st_HALF |> in
  if Qltb (Mr.segment_time (mr s)) (MIN_SEGMENT_TIME E)
  then Ret (Some STAT_OK) (log Ev_debug_trap s) else
  Ret None (s <| mr; Mr.section := SECTION_HEAD |>).

Definition head_first_half : M (option stat_t) := fun s =>
  if negb (sectionState_beq (Mr.section_state (mr s)) SECTION_1st_HALF)
  then Ret None s else
  let '(status, s) := _exec_aline_segment s in
  if stat_eqb status STAT_OK then
    let s := s <| mr; Mr.section := SECTION_BODY |> in
    Ret (Some STAT_EAGAIN) (s <| mr; Mr.section_state := SECTION_NEW |>)
  else Ret (Some STAT_EAGAIN) (s <| mr; Mr.section_state := SECTION_2nd_HALF |>).

Definition head_second_half : M stat_t := fun s =>
  if negb (sectionState_beq (Mr.section_state (mr s)) SECTION_2nd_HALF)
  then Ret STAT_EAGAIN s else
  let s := s <| mr; Mr.segment_velocity ::=
                 fun v => v + Mr.forward_diff_5 (mr s) |> in
  let '(status, s) := _exec_aline_segment s in
  if stat_eqb status STAT_OK then
    if fp_ZERO (EPSILON E) (Blk.body_length (mr_r s))
       && fp_ZERO (EPSILON E) (Blk.tail_length (mr_r s))
    then Ret STAT_OK s else
    let s := s <| mr; Mr.section := SECTION_BODY |> in
    Ret STAT_EAGAIN (s <| mr; Mr.section_state := SECTION_NEW |>)
  else Ret STAT_EAGAIN (advance_forward_diffs s).

Definition _exec_aline_head (bf : nat) : M stat_t :=
  fall_through (head_section_new bf)
    (fall_through head_first_half head_second_half).

(** *** Short-section merging

    The three checks of [mp_exec_aline] that make every section at least
    [MIN_SEGMENT_TIME] long, as functions of the block runtime [mr.r] points
    to.  [merge_body] is [None] where the source has [while (1);]. *)
Definition merge_head (b : Blk.t) : Blk.t :=
  if negb (fp_ZERO (EPSILON E) (Blk.head_length b))
     && Qltb (Blk.head_time b) (MIN_SEGMENT_TIME E) then
    let b := b <| Blk.body_time ::= fun t => t + Blk.head_length b / Blk.cruise_velocity b |> in
    let b := b <| Blk.head_time := 0 |> in
    let b := b <| Blk.body_length ::= fun l => l + Blk.head_length b |> in
    b <| Blk.head_length := 0 |>
  else b.

Definition merge_tail (b : Blk.t) : Blk.t :=
  if negb (fp_ZERO (EPSILON E) (Blk.tail_length b))
     && Qltb (Blk.tail_time b) (MIN_SEGMENT_TIME E) then
    let b := b <| Blk.body_time ::= fun t => t + Blk.tail_length b / Blk.cruise_velocity b |> in
    let b := b <| Blk.tail_time := 0 |> in
    let b := b <| Blk.body_length ::= fun l => l + Blk.tail_length b |> in
    b <| Blk.tail_length := 0 |>
  else b.

Definition merge_body (entry_velocity : Q) (b : Blk.t) : option Blk.t :=
  if negb (fp_ZERO (EPSILON E) (Blk.body_length b))
     && Qltb (Blk.body_time b) (MIN_SEGMENT_TIME E) then
    if negb (fp_ZERO (EPSILON E) (Blk.cruise_jerk b)) then
      let b := b <| Blk.body_length := 0 |> in
      Some (b <| Blk.body_time := 0 |>)
    else if Qltb 0 (Blk.tail_length b) then
      if Qltb 0 (Blk.head_length b) then
        let body_split := Blk.body_length b / 2.0 in
        let b := b <| Blk.body_length := 0 |> in
        let b := b <| Blk.head_length ::= fun l => l + body_split |> in
        let b := b <| Blk.tail_length ::= fun l => l + body_split |> in
        let b := b <| Blk.head_time ::= fun t =>
                   t + (2.0 * body_split) / (entry_velocity + Blk.cruise_velocity b) |> in
        let b := b <| Blk.tail_time ::= fun t =>
                   t + (2.0 * body_split) / (Blk.cruise_velocity b + Blk.exit_velocity b) |> in
        Some (b <| Blk.body_time := 0 |>)
      else
        let b := b <| Blk.tail_length ::= fun l => l + Blk.body_length b |> in
        let b := b <| Blk.tail_time ::= fun t =>
                   t + (2.0 * Blk.body_length b) / (Blk.cruise_velocity b + Blk.exit_velocity b) |> in
        let b := b <| Blk.body_length := 0 |> in
        Some (b <| Blk.body_time := 0 |>)
    else if Qltb 0 (Blk.head_length b) then
      let b := b <| Blk.head_length ::= fun l => l + Blk.body_length b |> in
      let b := b <| Blk.head_time ::= fun t =>
                 t + (2.0 * Blk.body_length b) / (entry_velocity + Blk.cruise_velocity b) |> in
      Some (b <| Blk.body_length := 0 |>)
    else None                                           (* while (1); *)
  else Some b.

Definition merge_short_sections (entry_velocity : Q) (b : Blk.t) : option Blk.t :=
  merge_body entry_velocity (merge_tail (merge_head b)).

(** *** [mp_exec_aline]

    The body of [if (mr.move_state == MOVE_OFF)], the setup of a new move,
    is [exec_aline_new_move].  Its statements up to the section merging are
    [new_move_runtime], in the three parts the source comments name: the
    start of the move with the group pointers, the switch of the run and
    plan blocks, and the group pointers of the buffers. *)
Definition new_move_start (bf : nat) (s : machine) : machine :=
  let s :=
    if fp_ZERO (EPSILON E) (Buf.length (buf bf s))
    then log (Ev_rpt_exception STAT_PLANNER_ASSERTION_FAILURE
                "mp_exec_aline() zero length move") s
    else s in
  let s := s <| mr; Mr.gm := Buf.gm (buf bf s) |> in
  let s := set_buf bf (fun b => b <| Buf.move_state := MOVE_RUN |>) s in
  let s := s <| mr; Mr.move_state := MOVE_NEW |> in
  let s := s <| mr; Mr.section := SECTION_HEAD |> in
  let s := s <| mr; Mr.section_state := SECTION_NEW |> in
  let s := s <| mr; Mr.jerk := Buf.jerk (buf bf s) |> in
  (* Handle the group pointers. Do this *before* the run and plan buffers
     are switched. *)
  if groupState_beq (Grp.group_state (mr_r_group s)) GROUP_OFF then
    let s := s <| mr; Mr.group_entry_velocity := Grp.exit_velocity (mr_r_group s) |> in
    let s := s <| mr; Mr.r_group := Mr.p_group (mr s) |> in
    s <| mr; Mr.p_group := Grp.nx (mr_p_group s) |>
  else
    let s := set_mr_r_group (fun g => g <| Grp.completed_group_body_length ::=
                               fun l => l + Blk.body_length (mr_r s) |>) s in
    set_mr_r_group (fun g => g <| Grp.completed_group_head_length ::=
                      fun l => l + Blk.head_length (mr_r s) |>) s.

Definition new_move_switch_blocks (s : machine) : machine :=
  let s := s <| mr; Mr.r := Mr.p (mr s) |> in
  let s := s <| mr; Mr.p := Blk.nx (mr_p s) |> in
  set_mr_p (fun b => b <| Blk.planned := false |>) s.

Definition new_move_buffer_links (bf : nat) (s : machine) : machine :=
  (* Mantain the bf group pointers *)
  let s :=
    if negb (Buf.nx_group (buf bf s) =? Buf.nx (buf bf s))%nat then
      let nx := Buf.nx (buf bf s) in
      let s := set_buf nx (fun b => b <| Buf.nx_group := Buf.nx_group (buf bf s) |>) s in
      let s := set_buf nx (fun b => b <| Buf.plannable := Buf.plannable (buf bf s) |>) s in
      let s := set_buf nx (fun b => b <| Buf.group_length := Buf.group_length (buf bf s) |>) s in
      let s := set_buf nx (fun b => b <| Buf.cruise_vmax := Buf.cruise_vmax (buf bf s) |>) s in
      let s := set_buf nx (fun b => b <| Buf.cruise_velocity := Buf.cruise_velocity (buf bf s) |>) s in
      let s := set_buf nx (fun b => b <| Buf.exit_vmax := Buf.exit_vmax (buf bf s) |>) s in
      let s := set_buf nx (fun b => b <| Buf.exit_velocity := Buf.exit_velocity (buf bf s) |>) s in
      if negb (fp_EQ (EPSILON E) (Buf.jerk (buf nx s)) (Buf.jerk (buf bf s))) then
        let s := set_buf nx (fun b => b <| Buf.jerk := Buf.jerk (buf bf s) |>) s in
        let s := set_buf nx (fun b => b <| Buf.jerk_sq := Buf.jerk_sq (buf bf s) |>) s in
        let s := set_buf nx (fun b => b <| Buf.recip_jerk := Buf.recip_jerk (buf bf s) |>) s in
        let s := set_buf nx (fun b => b <| Buf.sqrt_j := Buf.sqrt_j (buf bf s) |>) s in
        set_buf nx (fun b => b <| Buf.q_recip_2_sqrt_j := Buf.q_recip_2_sqrt_j (buf bf s) |>) s
      else s
    else s in
  let s := set_buf (Buf.nx_group (buf bf s)) (fun b => b <| Buf.pv_group := bf |>) s in
  let s := set_buf bf (fun b => b <| Buf.pv_group := Buf.pv (buf bf s) |>) s in
  let s := set_buf (Buf.pv (buf bf s)) (fun b => b <| Buf.nx_group := bf |>) s in
  let s :=
    if (Grp.first_block (mr_r_group s) =? Buf.pv (buf bf s))%nat
    then set_mr_r_group (fun g => g <| Grp.first_block := bf |>) s
    else s in
  (* reset the executed values *)
  let s := s <| mr; Mr.executed_body_length := 0.0 |> in
  s <| mr; Mr.executed_body_time := 0.0 |>.

Definition new_move_runtime (bf : nat) (s : machine) : machine :=
  new_move_buffer_links bf (new_move_switch_blocks (new_move_start bf s)).

Definition exec_aline_new_move (bf : nat) : M unit := fun s =>
  let s := new_move_runtime bf s in
  (* sections shorter than MIN_SEGMENT_TIME *)
  match merge_short_sections (Mr.entry_velocity (mr s)) (mr_r s) with
  | None => Spin s                                      (* while (1); *)
  | Some b =>
    let s := set_mr_r (fun _ => b) s in
    let s := s <| mr; Mr.unit := Buf.unit (buf bf s) |> in
    let s := s <| mr; Mr.target := Gm.target (Buf.gm (buf bf s)) |> in
    let s := s <| mr; Mr.axis_flags := Buf.axis_flags (buf bf s) |> in
    (* way points for position correction at section ends *)
    let along l := map (fun xy => fst xy + snd xy * l)
                       (combine (Mr.position (mr s)) (Mr.unit (mr s))) in
    let s := set_waypoint SECTION_HEAD (along (Blk.head_length (mr_r s))) s in
    let s := set_waypoint SECTION_BODY
               (along (Blk.head_length (mr_r s) + Blk.body_length (mr_r s))) s in
    let s := set_waypoint SECTION_TAIL
               (along (Blk.head_length (mr_r s) + Blk.body_length (mr_r s)
                       + Blk.tail_length (mr_r s))) s in
    Ret tt (s <| mb; Mb.run_time_remaining := Buf.move_time (buf bf s) |>)
  end.

(** The statements of [mp_exec_aline] after the dispatcher. *)
Definition exec_aline_finish (bf : nat) (status : stat_t) (s : machine)
  : machine :=
  let s :=
    if moveSection_beq (Mr.section (mr s)) SECTION_TAIL
       || (moveSection_beq (Mr.section (mr s)) SECTION_BODY
           && (Mr.segment_count (mr s) <? 3)%Z)
    then set_buf bf (fun b => b <| Buf.plannable := false |>) s
    else s in
  let s :=
    if feedholdState_beq (Cm.hold_state (cm s)) FEEDHOLD_DECEL_TO_ZERO
       && stat_eqb status STAT_OK then
      let s := s <| cm; Cm.hold_state := FEEDHOLD_DECEL_END |> in
      set_buf bf (fun b => b <| Buf.move_state := MOVE_NEW |>) s
    else s in
  if stat_eqb status STAT_EAGAIN then
    log (Ev_sr_request_status_report SR_REQUEST_TIMED) s
  else
    let s := s <| mr; Mr.move_state := MOVE_OFF |> in
    let s := s <| mr; Mr.section_state := SECTION_OFF |> in
    let s := s <| mb; Mb.run_time_remaining := 0.0 |> in
    let s :=
      if groupState_beq (Grp.group_state (mr_r_group s)) GROUP_DONE
      then set_mr_r_group (fun g => g <| Grp.group_state := GROUP_OFF |>) s
      else s in
    let s := s <| mr; Mr.entry_velocity := Blk.exit_velocity (mr_r s) |> in
    let s := s <| mr; Mr.entry_acceleration := Blk.exit_acceleration (mr_r s) |> in
    let s := s <| mr; Mr.entry_jerk := Blk.exit_jerk (mr_r s) |> in
    if moveState_beq (Buf.move_state (buf bf s)) MOVE_RUN then
      let '(q, freed) := mp_free_run_buffer E (queue s) in
      let s := log Ev_mp_free_run_buffer (s <| queue := q |>) in
      if freed && feedholdState_beq (Cm.hold_state (cm s)) FEEDHOLD_OFF
      then log Ev_cm_cycle_end (s <| cm ::= cm_cycle_end E |>)
      else s
    else s.

(** The statements of [mp_exec_aline] from the feedhold check on: the
    dispatcher and what follows it.  The statements that follow [while(1);]
    inside [if (cm.motion_state == MOTION_HOLD)] are never reached and have
    no counterpart here; [moveSection] has exactly the three sections, so
    the last [else] of the dispatcher has none either. *)
Definition exec_aline_run (bf : nat) : M stat_t := fun s =>
  if motionState_beq (Cm.motion_state (cm s)) MOTION_HOLD
  then Spin s                      (* FEEDHOLD IS DISABLED AND BROKEN: while(1); *)
  else
  let s := s <| mr; Mr.move_state := MOVE_RUN |> in
  (status <-
     match Mr.section (mr s) with
     | SECTION_HEAD => _exec_aline_head bf
     | SECTION_BODY => _exec_aline_body bf
     | SECTION_TAIL => _exec_aline_tail bf
     end ;;
   fun s => Ret status (exec_aline_finish bf status s)) s.

(** [mp_exec_aline(bf)] *)
Definition mp_exec_aline (bf : nat) : M stat_t := fun s =>
  if moveState_beq (Buf.move_state (buf bf s)) MOVE_OFF
  then Ret STAT_NOOP s else
  (_ <- (if moveState_beq (Mr.move_state (mr s)) MOVE_OFF
         then exec_aline_new_move bf else ret tt) ;;
   exec_aline_run bf) s.

(** *** [mp_exec_move] *)

(** [cm_set_motion_state(m)] of the canonical machine sets
    [cm.motion_state]. *)
Definition cm_set_motion_state (m : motionState) (s : machine) : machine :=
  log (Ev_cm_set_motion_state m) (s <| cm; Cm.motion_state := m |>).

(** [cm_panic(status, msg)] reports and hands [status] back. *)
Definition cm_panic (status : stat_t) (msg : string) : M stat_t :=
  fun s => Ret status (log (Ev_cm_panic status msg) s).

(** The first-time operations of [mp_exec_move]: the body of
    [if (bf->buffer_state != MP_BUFFER_RUNNING)]. *)
Definition exec_move_first_time (bf : nat) : M (option stat_t) := fun s =>
  if (buffer_rank (Buf.buffer_state (buf bf s))
      <? buffer_rank MP_BUFFER_PREPPED)%nat then
    let s := log (EvBKPT BK_exec_not_prepped) s in
    let s := log (Ev_rpt_exception (STAT_CODE 42)
                    "mp_exec_move() buffer is not prepped") s in
    Ret (Some STAT_NOOP) (log Ev_st_prep_null s)
  else
  let s :=
    if (buffer_rank (Buf.buffer_state (buf (Buf.nx (buf bf s)) s))
        <? buffer_rank MP_BUFFER_PREPPED)%nat then
      let s := log (EvBKPT BK_exec_next_empty) s in
      log (Ev_rpt_exception (STAT_CODE 42)
             "mp_exec_move() next buffer is empty") s
    else s in
  if mpBufferState_beq (Buf.buffer_state (buf bf s)) MP_BUFFER_PREPPED then
    let s :=
      if motionState_beq (Cm.motion_state (cm s)) MOTION_RUN
      then log (EvBKPT BK_exec_running_unplanned) s else s in
    Ret (Some STAT_NOOP) (log Ev_st_request_plan_move s)
  else
  let s := set_buf bf (fun b => b <| Buf.buffer_state := MP_BUFFER_RUNNING |>) s in
  Ret None (log Ev_mp_planner_time_accounting s).

(** The body of [if (bf->move_type == MOVE_TYPE_ALINE)] in [mp_exec_move]. *)
Definition exec_move_aline (bf : nat) : M (option stat_t) :=
  r <- (fun s =>
          if mpBufferState_beq (Buf.buffer_state (buf bf s)) MP_BUFFER_RUNNING
          then Ret None s else exec_move_first_time bf s) ;;
  match r with
  | Some status => ret (Some status)
  | None => fun s =>
    let s := log Ev_st_request_plan_move s in
    let s :=
      if negb (motionState_beq (Cm.motion_state (cm s)) MOTION_RUN)
         && negb (motionState_beq (Cm.motion_state (cm s)) MOTION_HOLD)
      then cm_set_motion_state MOTION_RUN s else s in
    Ret None s
  end.

Definition mp_exec_move : M stat_t := fun s =>
  match mp_get_run_buffer E s with
  | None => Ret STAT_NOOP (log Ev_st_prep_null s)
  | Some bf =>
    fall_through
      (fun s =>
         if moveType_beq (Buf.move_type (buf bf s)) MOVE_TYPE_ALINE
         then exec_move_aline bf s else Ret None s)
      (fun s =>
         match Buf.bf_func (buf bf s) with
         | FUNC_NULL => cm_panic STAT_INTERNAL_ERROR "mp_exec_move()" s
         | FUNC_mp_exec_aline => mp_exec_aline bf s
         | FUNC_other id => other_bf_func E id bf s
         end)
      s
  end.

(* ================================================================== *)
(** ** The group planner *)

(** The check that guards three of the breakpoints. *)
Definition negative_length (g : Grp.t) : bool :=
  Qltb (Grp.head_length g) 0 || Qltb (Grp.body_length g) 0
  || Qltb (Grp.tail_length g) 0.

(** [_attempt_extension(group, group_extended, velocity_changed)]: the two
    reference parameters come back as the returned pair.  Its inner
    [if (fp_NE(...)) ... else ...], which recomputes the tail and the body
    and hands back [velocity_changed], is [extension_new_tail]; the body of
    its last [if (group_extended || velocity_changed)] is
    [extension_replan]. *)
Definition extension_new_tail (group : slot) (bf_first_block : nat)
    (group_extended velocity_changed : bool) (s : machine) : bool * machine :=
  if fp_NE (EPSILON E) (Buf.exit_velocity (buf bf_first_block s))
                       (Grp.cruise_velocity (grp group s)) then
    let tail_length :=
      mp_get_target_length E (Buf.exit_velocity (buf bf_first_block s))
        (Grp.cruise_velocity (grp group s)) (buf bf_first_block s) in
    let s :=
      if group_extended
         && Qle_bool (Grp.length (grp group s) - Grp.tail_length (grp group s))
                     (Buf.group_length (buf bf_first_block s) - tail_length)
      then
        if Bool.eqb group (Mr.r_group (mr s))
           && moveSection_beq (Mr.section (mr s)) SECTION_BODY
        then log (EvBKPT BK_extend_eats_body) s else s
      else s in
    if group_extended || Bool.eqb group (Mr.p_group (mr s))
       || Qltb tail_length (Grp.tail_length (grp group s)) then
      let s :=
        if group_extended
        then set_grp group (fun g => g <| Grp.length :=
                              Buf.group_length (buf bf_first_block s) |>) s
        else s in
      let s := set_grp group (fun g => g <| Grp.exit_velocity :=
                                Buf.exit_velocity (buf bf_first_block s) |>) s in
      let s := set_grp group (fun g => g <| Grp.tail_length := tail_length |>) s in
      let s := set_grp group (fun g => g <| Grp.body_length :=
                 Grp.length g - (Grp.tail_length g + Grp.head_length g) |>) s in
      let s := set_grp group (fun g => g <| Grp.body_time :=
                 Grp.body_length g / Grp.cruise_velocity g |>) s in
      let s := set_grp group (fun g => g <| Grp.tail_time :=
                 (Grp.tail_length g * 2.0)
                 / (Grp.exit_velocity g + Grp.cruise_velocity g) |>) s in
      (velocity_changed, s)
    else
      let s := set_buf bf_first_block
                 (fun b => b <| Buf.exit_velocity :=
                    Grp.exit_velocity (grp group s) |>) s in
      (false, s)
  else
    let s := set_grp group (fun g => g <| Grp.exit_velocity := Grp.cruise_velocity g |>) s in
    let s := set_grp group (fun g => g <| Grp.body_length :=
               Grp.length g - Grp.head_length g |>) s in
    let s := set_grp group (fun g => g <| Grp.body_time :=
               Grp.body_length g / Grp.cruise_velocity g |>) s in
    let s := set_grp group (fun g => g <| Grp.tail_length := 0 |>) s in
    let s := set_grp group (fun g => g <| Grp.tail_time := 0 |>) s in
    (velocity_changed, s).

Definition extension_replan (group : slot) (bf_first_block : nat) (s : machine)
  : machine :=
  let s := set_grp group (fun g => g <| Grp.group_state := GROUP_RAMPED |>) s in
  let s := set_grp group (fun g => g <| Grp.length_into_section := 0 |>) s in
  let s := set_grp group (fun g => g <| Grp.t_into_section := 0 |>) s in
  let s :=
    if mpBufferState_beq (Buf.buffer_state (buf bf_first_block s)) MP_BUFFER_PLANNED
    then set_buf bf_first_block
           (fun b => b <| Buf.buffer_state := MP_BUFFER_PREPPED |>) s
    else s in
  let s :=
    let nx := Buf.nx (buf bf_first_block s) in
    if mpBufferState_beq (Buf.buffer_state (buf nx s)) MP_BUFFER_PLANNED then
      let s := set_buf nx (fun b => b <| Buf.buffer_state := MP_BUFFER_PREPPED |>) s in
      if Bool.eqb group (Mr.r_group (mr s))
      then set_mr_p_group (fun g => g <| Grp.group_state := GROUP_OFF |>) s
      else s
    else s in
  if negative_length (grp group s)
  then log (EvBKPT BK_extend_negative) s else s.

Definition _attempt_extension (group : slot)
    (group_extended velocity_changed : bool) (s : machine)
  : (bool * bool) * machine :=
  if negb (group_extended || velocity_changed)
  then ((group_extended, velocity_changed), s) else
  let bf_first_block := Grp.first_block (grp group s) in
  if Bool.eqb group (Mr.r_group (mr s))
     && moveSection_beq (Mr.section (mr s)) SECTION_TAIL then
    if group_extended
    then ((group_extended, velocity_changed), log (EvBKPT BK_extend_in_tail) s)
    else ((group_extended, false), s)
  else
  let '(velocity_changed, s) :=
    extension_new_tail group bf_first_block group_extended velocity_changed s in
  if group_extended || velocity_changed
  then ((group_extended, velocity_changed),
        extension_replan group bf_first_block s)
  else ((group_extended, velocity_changed), s).

(** The detection of a pending change that [mp_plan_move] runs on the
    running group and then, in the same words, on the planning group:
    [group] is [mr.r_group] or [mr.p_group]. *)
Definition detect_and_extend (group : slot)
    (group_extended velocity_changed : bool) (s : machine)
  : (bool * bool) * machine :=
  let bf_first_block := Grp.first_block (grp group s) in
  let group_extended :=
    if negb (fp_GE (EPSILON E) (Grp.length (grp group s))
                   (Buf.group_length (buf bf_first_block s)))
    then true else group_extended in
  let s :=
    if Qltb (Buf.exit_vmax (buf bf_first_block s))
            (Buf.exit_velocity (buf bf_first_block s))
    then set_buf bf_first_block
           (fun b => b <| Buf.exit_velocity := Buf.exit_vmax b |>) s
    else s in
  let velocity_changed :=
    if negb (fp_GE (EPSILON E) (Grp.exit_velocity (grp group s))
                   (Buf.exit_velocity (buf bf_first_block s)))
    then true else velocity_changed in
  _attempt_extension group group_extended velocity_changed s.

(** The [for] loop of [mp_plan_move] that walks [bf_lookahead] forward to
    the first block of the tail; [None] when [fuel] steps were not enough.
    The loop writes nothing. *)
Fixpoint lookahead (fuel : nat) (s : machine) (bf_lookahead : nat)
    (lock_length_left : Q) : option nat :=
  match fuel with
  | O => None
  | S fuel' =>
    if Qltb (Buf.length (buf bf_lookahead s) + 0.0001) lock_length_left
    then lookahead fuel' s (Buf.nx (buf bf_lookahead s))
           (lock_length_left - Buf.length (buf bf_lookahead s))
    else Some bf_lookahead
  end.

(** The body of [if (group->group_state == GROUP_RAMPED)], after the loop
    has found [bf_lookahead]. *)
Definition plan_lock_group (bf : nat) (group : slot) (bf_lookahead : nat)
    (s : machine) : machine :=
  let s := set_buf (Buf.nx_group (buf bf s))
             (fun b => b <| Buf.pv_group := bf_lookahead |>) s in
  let s := set_grp group (fun g => g <| Grp.first_block := bf_lookahead |>) s in
  let s := set_buf bf_lookahead
             (fun b => b <| Buf.nx_group := Buf.nx_group (buf bf s) |>) s in
  let pv := Buf.pv (buf bf_lookahead s) in
  let s := set_buf pv (fun b => b <| Buf.exit_vmax := 0.0 |>) s in
  let s := set_buf pv (fun b => b <| Buf.exit_velocity := 0.0 |>) s in
  let s := set_buf bf_lookahead
             (fun b => b <| Buf.cruise_vmax := Grp.cruise_velocity (grp group s) |>) s in
  let s := set_buf bf_lookahead
             (fun b => b <| Buf.exit_vmax := Grp.cruise_velocity (grp group s) |>) s in
  let s := set_buf bf_lookahead
             (fun b => b <| Buf.exit_velocity := Grp.exit_velocity (grp group s) |>) s in
  let s := set_buf bf_lookahead
             (fun b => b <| Buf.cruise_velocity := Grp.cruise_velocity (grp group s) |>) s in
  let s := set_buf bf_lookahead
             (fun b => b <| Buf.group_length := Grp.length (grp group s) |>) s in
  set_grp group (fun g => g <| Grp.group_state := GROUP_HEAD |>) s.

(** The last [if] of [mp_plan_move]: the dispersal of the group onto the
    block runtime [block], and the final [return (STAT_NOOP)]. *)
Definition plan_disperse (bf : nat) (group block : slot)
    (entry_velocity entry_acceleration entry_jerk : Q) (s : machine)
  : stat_t * machine :=
  if (group_rank GROUP_RAMPED <? group_rank (Grp.group_state (grp group s)))%nat
     && negb (groupState_beq (Grp.group_state (grp group s)) GROUP_DONE)
     && negb (mpBufferState_beq (Buf.buffer_state (buf bf s)) MP_BUFFER_PLANNED)
  then
    let s :=
      if negative_length (grp group s)
      then log (EvBKPT BK_block_negative_before) s else s in
    let '(status, (q, g, b)) :=
      mp_calculate_block E (queue s) bf (grp group s) (blk block s)
        entry_velocity entry_acceleration entry_jerk in
    let s := s <| queue := q |> in
    let s := set_grp group (fun _ => g) s in
    let s := set_blk block (fun _ => b) s in
    let s :=
      if negb (mpBufferState_beq (Buf.buffer_state (buf bf s)) MP_BUFFER_EMPTY)
      then
        if Qltb (Blk.cruise_velocity (blk block s)) (Blk.exit_velocity (blk block s))
        then log (EvBKPT BK_block_exit_over_cruise) s else s
      else s in
    let s :=
      if Qltb (Blk.head_length (blk block s)) 0.001
         && Qltb (Blk.body_length (blk block s)) 0.001
         && Qltb (Blk.tail_length (blk block s)) 0.001
      then log (EvBKPT BK_block_too_short) s else s in
    let s :=
      if negative_length (grp group s)
      then log (EvBKPT BK_block_negative_after) s else s in
    let s := set_blk block (fun b => b <| Blk.planned := true |>) s in
    let s :=
      if stat_eqb status STAT_OK
      then set_grp group (fun g => g <| Grp.group_state := GROUP_DONE |>) s
      else s in
    let s := set_buf bf (fun b => b <| Buf.buffer_state := MP_BUFFER_PLANNED |>) s in
    (STAT_OK, s)
  else (STAT_NOOP, s).

(** The part of [mp_plan_move] from [if (bf->buffer_state < MP_BUFFER_PREPPED)]
    to the end, once [bf], [group], [block] and the entry values are chosen. *)
Definition plan_block (fuel : nat) (bf : nat) (group block : slot)
    (entry_velocity entry_acceleration entry_jerk : Q) : M stat_t := fun s =>
  if (buffer_rank (Buf.buffer_state (buf bf s)) <? buffer_rank MP_BUFFER_PREPPED)%nat
  then Ret STAT_NOOP s else
  let s :=
    if mpBufferState_beq (Buf.buffer_state (buf bf s)) MP_BUFFER_PREPPED
       && groupState_beq (Grp.group_state (grp group s)) GROUP_OFF then
      let '(q, g) := mp_calculate_ramps E (queue s) bf (grp group s) entry_velocity in
      let s := s <| queue := q |> in
      let s := set_grp group (fun _ => g) s in
      let s :=
        if negative_length (grp group s)
        then log (EvBKPT BK_ramps_negative) s else s in
      let s := set_grp group (fun g => g <| Grp.completed_group_body_length := 0 |>) s in
      let s := set_grp group (fun g => g <| Grp.completed_group_head_length := 0 |>) s in
      let s := set_grp group (fun g => g <| Grp.first_block := bf |>) s in
      let s := set_grp group (fun g => g <| Grp.length := Buf.group_length (buf bf s) |>) s in
      let s := set_grp group (fun g => g <| Grp.length_into_section := 0 |>) s in
      let s := set_grp group (fun g => g <| Grp.t_into_section := 0.0 |>) s in
      set_grp group (fun g => g <| Grp.group_state := GROUP_RAMPED |>) s
    else s in
  if groupState_beq (Grp.group_state (grp group s)) GROUP_RAMPED then
    let g := grp group s in
    let lock_length_left :=
      (Grp.head_length g - Grp.completed_group_head_length g)
      + (Grp.body_length g - Grp.completed_group_body_length g) in
    match lookahead fuel s bf lock_length_left with
    | None => OutOfFuel s
    | Some bf_lookahead =>
      let '(status, s) :=
        plan_disperse bf group block entry_velocity entry_acceleration
          entry_jerk (plan_lock_group bf group bf_lookahead s) in
      Ret status s
    end
  else
    let '(status, s) :=
      plan_disperse bf group block entry_velocity entry_acceleration entry_jerk s in
    Ret status s.

(** The first half of [mp_plan_move]: the choice of the working group,
    with the detection of a pending change on the running group and, where
    the planning group is chosen, on the planning group.  It hands back
    [group], [group_extended] and [velocity_changed]. *)
Definition plan_select_group (s : machine) : slot * (bool * bool) * machine :=
  let velocity_changed := false in
  let group_extended := false in
  let '((group_extended, velocity_changed), s) :=
    if negb (groupState_beq (Grp.group_state (mr_r_group s)) GROUP_OFF)
    then detect_and_extend (Mr.r_group (mr s)) group_extended velocity_changed s
    else ((group_extended, velocity_changed), s) in
  if group_extended || velocity_changed
     || (negb (groupState_beq (Grp.group_state (mr_r_group s)) GROUP_OFF)
         && negb (groupState_beq (Grp.group_state (mr_r_group s)) GROUP_DONE))
  then (Mr.r_group (mr s), (group_extended, velocity_changed), s)
  else
    if negb (groupState_beq (Grp.group_state (mr_p_group s)) GROUP_OFF)
    then
      let '(flags, s) :=
        detect_and_extend (Mr.p_group (mr s)) group_extended velocity_changed s in
      (Mr.p_group (mr s), flags, s)
    else (Mr.p_group (mr s), (group_extended, velocity_changed), s).

(** The second half: the choice of the buffer, the block runtime and the
    entry values, and the planning of the block. *)
Definition plan_choose_buffer (fuel : nat) (bf : nat) (group : slot)
    (group_extended velocity_changed : bool) : M stat_t := fun s =>
  let block := Mr.p (mr s) in
  let entry_velocity := Mr.entry_velocity (mr s) in
  let entry_acceleration := Mr.entry_acceleration (mr s) in
  let entry_jerk := Mr.entry_jerk (mr s) in
  if mpBufferState_beq (Buf.buffer_state (buf bf s)) MP_BUFFER_RUNNING then
    if (group_extended || velocity_changed)
       && Bool.eqb group (Mr.r_group (mr s)) then
      plan_block fuel bf group (Mr.r (mr s))
        entry_velocity entry_acceleration entry_jerk s
    else if Bool.eqb group (Mr.p_group (mr s))
            && groupState_beq (Grp.group_state (grp group s)) GROUP_DONE then
      Ret STAT_NOOP s
    else
      let bf := Buf.nx (buf bf s) in
      if negb (moveType_beq (Buf.move_type (buf bf s)) MOVE_TYPE_ALINE) then
        Ret STAT_OK
          (set_buf bf (fun b => b <| Buf.buffer_state := MP_BUFFER_PLANNED |>) s)
      else
        plan_block fuel bf group block
          (Blk.exit_velocity (mr_r s)) (Blk.exit_acceleration (mr_r s))
          (Blk.exit_jerk (mr_r s)) s
  else
    plan_block fuel bf group block
      entry_velocity entry_acceleration entry_jerk s.

(** [mp_plan_move()] *)
Definition mp_plan_move (fuel : nat) : M stat_t := fun s =>
  match mp_get_run_buffer E s with
  | None => Ret STAT_NOOP (log Ev_st_prep_null s)
  | Some bf =>
    if negb (moveType_beq (Buf.move_type (buf bf s)) MOVE_TYPE_ALINE) then
      Ret STAT_OK (set_buf bf (fun b => b <| Buf.buffer_state := MP_BUFFER_PLANNED |>) s)
    else
    let '(group, (group_extended, velocity_changed), s) := plan_select_group s in
    plan_choose_buffer fuel bf group group_extended velocity_changed s
  end.

End Core.

(* ================================================================== *)
(** * Digital and analog IO (gpio.h)

    A shallow embedding of the classes of [src/g2core/gpio.h].

    Conventions of this part.
    - An object is the record of its fields; a member function takes the
      object and returns it with what it hands back.
    - A pointer to a handler or to a pin is a number, [nullptr] is [None];
      the [next] fields of all the handler objects are one function from
      addresses to pointers, so that two lists that share a handler share
      its [next] field.
    - A [while] loop over a linked list has a fuel argument and is [None]
      when the fuel runs out; an access outside an array is [None] as
      well.
    - The overloads of a member function that take an [nvObj_t *] carry the
      suffix [_nv]. *)

Module Gpio.

(** Status codes: error.h is not among the sources; these are the three
    codes gpio.h returns. *)
Inductive stat_t :=
| STAT_OK | STAT_INPUT_VALUE_RANGE_ERROR | STAT_PARAMETER_IS_READ_ONLY.

Inductive ioEnabled := IO_UNAVAILABLE | IO_DISABLED | IO_ENABLED.

Definition ioEnabled_value (e : ioEnabled) : Z :=
  match e with
  | IO_UNAVAILABLE => -1 | IO_DISABLED => 0 | IO_ENABLED => 1
  end.

Inductive ioPolarity := IO_ACTIVE_HIGH | IO_ACTIVE_LOW.

Definition ioPolarity_value (p : ioPolarity) : Z :=
  match p with IO_ACTIVE_HIGH => 0 | IO_ACTIVE_LOW => 1 end.

Inductive inputAction :=
| INPUT_ACTION_NONE | INPUT_ACTION_STOP | INPUT_ACTION_FAST_STOP
| INPUT_ACTION_HALT | INPUT_ACTION_CYCLE_START | INPUT_ACTION_ALARM
| INPUT_ACTION_SHUTDOWN | INPUT_ACTION_PANIC | INPUT_ACTION_RESET
| INPUT_ACTION_LIMIT | INPUT_ACTION_INTERLOCK | INPUT_ACTION_INTERNAL.

Definition inputAction_value (a : inputAction) : Z :=
  match a with
  | INPUT_ACTION_NONE => 0 | INPUT_ACTION_STOP => 1
  | INPUT_ACTION_FAST_STOP => 2 | INPUT_ACTION_HALT => 3
  | INPUT_ACTION_CYCLE_START => 4 | INPUT_ACTION_ALARM => 5
  | INPUT_ACTION_SHUTDOWN => 6 | INPUT_ACTION_PANIC => 7
  | INPUT_ACTION_RESET => 8 | INPUT_ACTION_LIMIT => 9
  | INPUT_ACTION_INTERLOCK => 10 | INPUT_ACTION_INTERNAL => 11
  end.

Definition INPUT_ACTION_MAX : inputAction := INPUT_ACTION_INTERLOCK.
Definition INPUT_ACTION_ACTUAL_MAX : inputAction := INPUT_ACTION_INTERNAL.

Inductive ioState := INPUT_INACTIVE | INPUT_ACTIVE | INPUT_DISABLED.

Inductive inputEdgeFlag :=
| INPUT_EDGE_NONE | INPUT_EDGE_LEADING | INPUT_EDGE_TRAILING.

(** A cast of a [float] to an integer type drops the fraction. *)
Definition trunc (x : Q) : Z :=
  if Qle_bool 0 x then Qfloor x else Qceiling x.

(** The casts [(ioEnabled)v], [(ioPolarity)v] and [(inputAction)v] of an
    integer.  They are reached behind a range check; an integer that is not
    the value of an enumerator has no counterpart here. *)
Definition ioEnabled_of (z : Z) : option ioEnabled :=
  if (z =? -1)%Z then Some IO_UNAVAILABLE
  else if (z =? 0)%Z then Some IO_DISABLED
  else if (z =? 1)%Z then Some IO_ENABLED
  else None.

Definition ioPolarity_of (z : Z) : option ioPolarity :=
  if (z =? 0)%Z then Some IO_ACTIVE_HIGH
  else if (z =? 1)%Z then Some IO_ACTIVE_LOW
  else None.

Definition inputAction_of (z : Z) : option inputAction :=
  match z with
  | 0%Z => Some INPUT_ACTION_NONE | 1%Z => Some INPUT_ACTION_STOP
  | 2%Z => Some INPUT_ACTION_FAST_STOP | 3%Z => Some INPUT_ACTION_HALT
  | 4%Z => Some INPUT_ACTION_CYCLE_START | 5%Z => Some INPUT_ACTION_ALARM
  | 6%Z => Some INPUT_ACTION_SHUTDOWN | 7%Z => Some INPUT_ACTION_PANIC
  | 8%Z => Some INPUT_ACTION_RESET | 9%Z => Some INPUT_ACTION_LIMIT
  | 10%Z => Some INPUT_ACTION_INTERLOCK | 11%Z => Some INPUT_ACTION_INTERNAL
  | _ => None
  end.

(** [nvObj_t]: config.h is not among the sources; the three fields are the
    ones gpio.h writes. *)
Inductive valueType := TYPE_NULL | TYPE_BOOL | TYPE_INT | TYPE_FLOAT.

Record nvObj_t := { value : Q; valuetype : valueType; precision : Z }.
Definition nv_eta := fun x => Build_nvObj_t (value x) (valuetype x) (precision x).
#[global] Instance set_value : Setter value := ltac:(setter nv_eta value).
#[global] Instance set_valuetype : Setter valuetype := ltac:(setter nv_eta valuetype).
#[global] Instance set_precision : Setter precision := ltac:(setter nv_eta precision).

Definition of_bool (b : bool) : Q := if b then 1 else 0.

(* ---------------------------------------------------------------- *)
(** ** [gpioDigitalInputHandlerList] *)

(** The address of a [gpioDigitalInputHandler]. *)
Definition handler := nat.

(** A list: its [_first_handler], with the [next] fields of the handler
    objects. *)
Record gpioDigitalInputHandlerList := {
  _first_handler : option handler;
  next : handler -> option handler
}.
Definition hl_eta := fun x => Build_gpioDigitalInputHandlerList (_first_handler x) (next x).
#[global] Instance set_first_handler : Setter _first_handler := ltac:(setter hl_eta _first_handler).
#[global] Instance set_next : Setter next := ltac:(setter hl_eta next).

(** [h->next = v] *)
Definition write_next (h : handler) (v : option handler)
    (nx : handler -> option handler) : handler -> option handler :=
  fun a => if (a =? h)%nat then v else nx a.

Section Handlers.
(** The two [const] members of the handler objects. *)
Variable priority : handler -> Z.
Variable callback : handler -> bool -> inputEdgeFlag -> Z -> bool.

(** The [while] loop of [registerHandler]. *)
Fixpoint register_walk (fuel : nat) (new_handler : handler)
    (current_handler : option handler) (l : gpioDigitalInputHandlerList)
  : option gpioDigitalInputHandlerList :=
  match fuel with
  | O => None
  | S fuel' =>
    match current_handler with
    | None => Some l
    | Some c =>
      if (priority new_handler <=? priority c)%Z then
        (* new_handler will be immediately after current_handler *)
        let l := l <| next ::= write_next new_handler (next l c) |> in
        Some (l <| next ::= write_next c (Some new_handler) |>)
      else register_walk fuel' new_handler (next l c) l
    end
  end.

(** [registerHandler(new_handler)] *)
Definition registerHandler (fuel : nat) (new_handler : handler)
    (l : gpioDigitalInputHandlerList) : option gpioDigitalInputHandlerList :=
  match _first_handler l with
  | None =>
    (* there is only one - now *)
    Some (l <| _first_handler := Some new_handler |>)
  | Some f =>
    if (priority new_handler >? priority f)%Z then
      (* this is the new first one *)
      let l := l <| next ::= write_next new_handler (Some f) |> in
      Some (l <| _first_handler := Some new_handler |>)
    else register_walk fuel new_handler (_first_handler l) l
  end.

(** The [while] loop of [deregisterHandler]. *)
Fixpoint deregister_walk (fuel : nat) (old_handler : handler)
    (current_handler : handler) (l : gpioDigitalInputHandlerList)
  : option gpioDigitalInputHandlerList :=
  match fuel with
  | O => None
  | S fuel' =>
    match next l current_handler with
    | None => Some l
    | Some n =>
      if (n =? old_handler)%nat then
        Some (l <| next ::= write_next current_handler (next l old_handler) |>)
      else deregister_walk fuel' old_handler n l
    end
  end.

(** [deregisterHandler(old_handler)] *)
Definition deregisterHandler (fuel : nat) (old_handler : handler)
    (l : gpioDigitalInputHandlerList) : option gpioDigitalInputHandlerList :=
  match _first_handler l with
  | None => Some l
  | Some f =>
    if (f =? old_handler)%nat
    then Some (l <| _first_handler := next l f |>)
    else deregister_walk fuel old_handler f l
  end.

(** The [while] loop of [call]: what it returns and the handlers whose
    callback it has called, in the order of the calls. *)
Fixpoint call_walk (fuel : nat) (nx : handler -> option handler)
    (current_handler : option handler)
    (state : bool) (edge : inputEdgeFlag) (triggering_pin_number : Z)
  : option (bool * list handler) :=
  match fuel with
  | O => None
  | S fuel' =>
    match current_handler with
    | None => Some (false, [])
    | Some c =>
      if callback c state edge triggering_pin_number
      then Some (true, [c])
      else
        match call_walk fuel' nx (nx c) state edge triggering_pin_number with
        | Some (r, called) => Some (r, c :: called)
        | None => None
        end
    end
  end.

(** [call(state, edge, triggering_pin_number)] *)
Definition call (fuel : nat) (l : gpioDigitalInputHandlerList)
    (state : bool) (edge : inputEdgeFlag) (triggering_pin_number : Z)
  : option (bool * list handler) :=
  call_walk fuel (next l) (_first_handler l) state edge triggering_pin_number.

End Handlers.

(* ---------------------------------------------------------------- *)
(** ** [gpioDigitalInputReader] and [gpioDigitalInputPin] *)

(** The address of a [gpioDigitalInput]. *)
Definition pin_ptr := nat.

Record gpioDigitalInputReader := { reader_pin : option pin_ptr }.

(** [setPin(new_pin)]: the assignment is to the parameter. *)
Definition setPin (r : gpioDigitalInputReader) (new_pin : option pin_ptr)
  : gpioDigitalInputReader * bool :=
  let new_pin := reader_pin r in
  (r, true).

Definition getPin (r : gpioDigitalInputReader) : option pin_ptr :=
  reader_pin r.

(** The options [setPolarity] hands to the pin. *)
Inductive pinOptions := kDebounce | kPullUp_kDebounce.

Section DigitalInput.
(** [Motate::Timeout] is not among the sources: its type and its three
    member functions are taken as they come. *)
Variable Timeout : Type.
Variable isSet : Timeout -> bool.
Variable isPast : Timeout -> bool.
Variable timer_set : Z -> Timeout -> Timeout.

Record gpioDigitalInputPin := {
  enabled : ioEnabled;
  polarity : ioPolarity;
  action : inputAction;
  edge : inputEdgeFlag;
  homing_mode : bool;
  probing_mode : bool;
  ext_pin_number : Z;
  proxy_pin_number : Z;
  lockout_ms : Z;
  lockout_timer : Timeout;
  pin : bool;                  (* the level [(bool)pin] reads *)
  pin_options : pinOptions     (* the options last handed to the pin *)
}.
Definition din_eta := fun x =>
  Build_gpioDigitalInputPin (enabled x) (polarity x) (action x) (edge x)
    (homing_mode x) (probing_mode x) (ext_pin_number x) (proxy_pin_number x)
    (lockout_ms x) (lockout_timer x) (pin x) (pin_options x).
#[global] Instance set_enabled : Setter enabled := ltac:(setter din_eta enabled).
#[global] Instance set_polarity : Setter polarity := ltac:(setter din_eta polarity).
#[global] Instance set_action : Setter action := ltac:(setter din_eta action).
#[global] Instance set_edge : Setter edge := ltac:(setter din_eta edge).
#[global] Instance set_proxy_pin_number : Setter proxy_pin_number := ltac:(setter din_eta proxy_pin_number).
#[global] Instance set_lockout_timer : Setter lockout_timer := ltac:(setter din_eta lockout_timer).
#[global] Instance set_pin_options : Setter pin_options := ltac:(setter din_eta pin_options).

(** [getState()] *)
Definition getState (p : gpioDigitalInputPin) : bool :=
  if (ioEnabled_value (enabled p) <=? ioEnabled_value IO_DISABLED)%Z
  then false
  else
    let v := pin p in
    match polarity p with IO_ACTIVE_HIGH => v | IO_ACTIVE_LOW => negb v end.

Definition getAction (p : gpioDigitalInputPin) : inputAction := action p.

Definition setAction (a : inputAction) (p : gpioDigitalInputPin)
  : gpioDigitalInputPin * bool :=
  (p <| action := a |>, true).

Definition getEnabled (p : gpioDigitalInputPin) : ioEnabled := enabled p.

Definition setEnabled (m : ioEnabled) (p : gpioDigitalInputPin)
  : gpioDigitalInputPin * bool :=
  match enabled p with
  | IO_UNAVAILABLE => (p, false)
  | _ => (p <| enabled := m |>, true)
  end.

Definition getPolarity (p : gpioDigitalInputPin) : ioPolarity := polarity p.

Definition setPolarity (new_polarity : ioPolarity) (p : gpioDigitalInputPin)
  : gpioDigitalInputPin * bool :=
  let p := p <| polarity := new_polarity |> in
  let p := p <| pin_options :=
                 match polarity p with
                 | IO_ACTIVE_LOW => kPullUp_kDebounce
                 | IO_ACTIVE_HIGH => kDebounce
                 end |> in
  (p, true).

Definition getExternalNumber (p : gpioDigitalInputPin) : Z :=
  proxy_pin_number p.

(** [in_r[i]->setPin(new_pin)] on the array [in_r] of the readers; [None]
    when [i] is outside the array. *)
Definition reader_setPin (in_r : list gpioDigitalInputReader) (i : Z)
    (new_pin : option pin_ptr) : option (list gpioDigitalInputReader) :=
  if (0 <=? i)%Z && (i <? Z.of_nat (List.length in_r))%Z then
    Some (update_nth (Z.to_nat i) (fun r => fst (setPin r new_pin)) in_r)
  else None.

(** [setExternalNumber(e)] of the pin at address [this]. *)
Definition setExternalNumber (this : pin_ptr) (e : Z)
    (in_r : list gpioDigitalInputReader) (p : gpioDigitalInputPin)
  : option (list gpioDigitalInputReader * gpioDigitalInputPin * bool) :=
  if (e =? proxy_pin_number p)%Z then Some (in_r, p, true) else
  match
    (if (proxy_pin_number p >? 0)%Z
     then reader_setPin in_r (proxy_pin_number p - 1) None  (* clear the old pin *)
     else Some in_r)
  with
  | None => None
  | Some in_r =>
    let p := p <| proxy_pin_number := e |> in
    match
      (if (proxy_pin_number p >? 0)%Z
       then reader_setPin in_r (proxy_pin_number p - 1) (Some this)  (* set the new pin *)
       else Some in_r)
    with
    | None => None
    | Some in_r => Some (in_r, p, true)
    end
  end.

(** The functions of [gpioDigitalInput] that take an [nvObj_t *]. *)
Definition getState_nv (p : gpioDigitalInputPin) (nv : nvObj_t)
  : nvObj_t * stat_t :=
  if (ioEnabled_value (getEnabled p) <=? ioEnabled_value IO_DISABLED)%Z
  then (nv <| valuetype := TYPE_NULL |>, STAT_OK)
  else
    let nv := nv <| value := of_bool (getState p) |> in
    (nv <| valuetype := TYPE_BOOL |>, STAT_OK).

Definition getEnabled_nv (p : gpioDigitalInputPin) (nv : nvObj_t)
  : nvObj_t * stat_t :=
  let nv := nv <| value := inject_Z (ioEnabled_value (getEnabled p)) |> in
  (nv <| valuetype := TYPE_INT |>, STAT_OK).

Definition setEnabled_nv (nv : nvObj_t) (p : gpioDigitalInputPin)
  : option (gpioDigitalInputPin * stat_t) :=
  if Qltb (value nv) (inject_Z (ioEnabled_value IO_DISABLED))
     || Qltb (inject_Z (ioEnabled_value IO_ENABLED)) (value nv)
  then Some (p, STAT_INPUT_VALUE_RANGE_ERROR)
  else
    match ioEnabled_of (trunc (value nv)) with
    | None => None
    | Some m =>
      let '(p, ok) := setEnabled m p in
      if negb ok then Some (p, STAT_PARAMETER_IS_READ_ONLY)
      else Some (p, STAT_OK)
    end.

Definition getPolarity_nv (p : gpioDigitalInputPin) (nv : nvObj_t)
  : nvObj_t * stat_t :=
  let nv := nv <| value := inject_Z (ioPolarity_value (getPolarity p)) |> in
  (nv <| valuetype := TYPE_INT |>, STAT_OK).

Definition setPolarity_nv (nv : nvObj_t) (p : gpioDigitalInputPin)
  : option (gpioDigitalInputPin * stat_t) :=
  if Qltb (value nv) (inject_Z (ioPolarity_value IO_ACTIVE_HIGH))
     || Qltb (inject_Z (ioPolarity_value IO_ACTIVE_LOW)) (value nv)
  then Some (p, STAT_INPUT_VALUE_RANGE_ERROR)
  else
    match ioPolarity_of (trunc (value nv)) with
    | None => None
    | Some po =>
      let '(p, ok) := setPolarity po p in
      if negb ok then Some (p, STAT_PARAMETER_IS_READ_ONLY)
      else Some (p, STAT_OK)
    end.

Definition getAction_nv (p : gpioDigitalInputPin) (nv : nvObj_t)
  : nvObj_t * stat_t :=
  let nv := nv <| value := inject_Z (inputAction_value (getAction p)) |> in
  (nv <| valuetype := TYPE_INT |>, STAT_OK).

Definition setAction_nv (nv : nvObj_t) (p : gpioDigitalInputPin)
  : option (gpioDigitalInputPin * stat_t) :=
  if Qltb (value nv) (inject_Z (inputAction_value INPUT_ACTION_NONE))
     || Qltb (inject_Z (inputAction_value INPUT_ACTION_MAX)) (value nv)
  then Some (p, STAT_INPUT_VALUE_RANGE_ERROR)
  else
    match inputAction_of (trunc (value nv)) with
    | None => None
    | Some a =>
      let '(p, ok) := setAction a p in
      if negb ok then Some (p, STAT_PARAMETER_IS_READ_ONLY)
      else Some (p, STAT_OK)
    end.

Definition getExternalNumber_nv (p : gpioDigitalInputPin) (nv : nvObj_t)
  : nvObj_t * stat_t :=
  let nv := nv <| value := inject_Z (getExternalNumber p) |> in
  (nv <| valuetype := TYPE_INT |>, STAT_OK).

(** [setExternalNumber(nv)]: the [float] is converted to the [uint8_t]
    parameter. *)
Definition setExternalNumber_nv (this : pin_ptr) (nv : nvObj_t)
    (in_r : list gpioDigitalInputReader) (p : gpioDigitalInputPin)
  : option (list gpioDigitalInputReader * gpioDigitalInputPin * stat_t) :=
  if Qltb (value nv) 0 || Qltb 14 (value nv)
  then Some (in_r, p, STAT_INPUT_VALUE_RANGE_ERROR)
  else
    match setExternalNumber this (trunc (value nv) mod 256) in_r p with
    | None => None
    | Some (in_r, p, ok) =>
      if negb ok then Some (in_r, p, STAT_PARAMETER_IS_READ_ONLY)
      else Some (in_r, p, STAT_OK)
    end.

(** What [pin_changed] does to the rest of the firmware: the callbacks it
    has called, and the request for a status report. *)
Inductive din_event :=
| Ev_callback (h : handler) (state : bool) (edge : inputEdgeFlag)
    (triggering_pin_number : Z)
| Ev_sr_request_status_report_timed.

(** [din_handlers]: the first handlers of the lists, one list for each
    [inputAction], with the [next] fields of the handler objects. *)
Record din_handlers_t := {
  first_of : inputAction -> option handler;
  next_of : handler -> option handler
}.

Definition din_list (d : din_handlers_t) (a : inputAction)
  : gpioDigitalInputHandlerList :=
  {| _first_handler := first_of d a; next := next_of d |}.

Variable callback : handler -> bool -> inputEdgeFlag -> Z -> bool.

(** [pin_changed()] *)
Definition pin_changed (fuel : nat) (d : din_handlers_t)
    (p : gpioDigitalInputPin)
  : option (gpioDigitalInputPin * list din_event) :=
  (* return if input is disabled *)
  match enabled p with
  | IO_DISABLED => Some (p, [])
  | _ =>
  (* return if the input is in lockout period *)
  if isSet (lockout_timer p) && negb (isPast (lockout_timer p))
  then Some (p, []) else
  let pin_value := pin p in
  let pin_value_corrected :=
    xorb pin_value
      (match polarity p with IO_ACTIVE_HIGH => false | IO_ACTIVE_LOW => true end) in
  let p := p <| lockout_timer ::= timer_set (lockout_ms p) |> in
  let p :=
    if pin_value_corrected
    then p <| edge := INPUT_EDGE_LEADING |>
    else p <| edge := INPUT_EDGE_TRAILING |> in
  let log called :=
    map (fun h => Ev_callback h pin_value_corrected (edge p) (ext_pin_number p))
        called in
  match call callback fuel (din_list d INPUT_ACTION_INTERNAL)
          pin_value_corrected (edge p) (ext_pin_number p) with
  | None => None
  | Some (true, called) =>
    Some (p, log called ++ [Ev_sr_request_status_report_timed])
  | Some (false, called) =>
    match call callback fuel (din_list d (action p))
            pin_value_corrected (edge p) (ext_pin_number p) with
    | None => None
    | Some (_, called') =>
      Some (p, log called ++ log called' ++ [Ev_sr_request_status_report_timed])
    end
  end
  end.

End DigitalInput.

Arguments enabled {Timeout} _.
Arguments polarity {Timeout} _.
Arguments action {Timeout} _.
Arguments edge {Timeout} _.
Arguments homing_mode {Timeout} _.
Arguments probing_mode {Timeout} _.
Arguments ext_pin_number {Timeout} _.
Arguments proxy_pin_number {Timeout} _.
Arguments lockout_ms {Timeout} _.
Arguments lockout_timer {Timeout} _.
Arguments pin {Timeout} _.
Arguments pin_options {Timeout} _.
Arguments getState {Timeout} _.
Arguments getAction {Timeout} _.
Arguments setAction {Timeout} _ _.
Arguments getEnabled {Timeout} _.
Arguments setEnabled {Timeout} _ _.
Arguments getPolarity {Timeout} _.
Arguments setPolarity {Timeout} _ _.
Arguments getExternalNumber {Timeout} _.
Arguments setExternalNumber {Timeout} _ _ _ _.
Arguments getState_nv {Timeout} _ _.
Arguments getEnabled_nv {Timeout} _ _.
Arguments setEnabled_nv {Timeout} _ _.
Arguments getPolarity_nv {Timeout} _ _.
Arguments setPolarity_nv {Timeout} _ _.
Arguments getAction_nv {Timeout} _ _.
Arguments setAction_nv {Timeout} _ _.
Arguments getExternalNumber_nv {Timeout} _ _.
Arguments setExternalNumber_nv {Timeout} _ _ _ _.
Arguments pin_changed {Timeout} _ _ _ _ _ _ _.

(* ---------------------------------------------------------------- *)
(** ** [gpioAnalogInput], [ValueHistory] and [gpioAnalogInputPin] *)

Inductive AnalogInputType_t :=
| AIN_TYPE_DISABLED | AIN_TYPE_INTERNAL | AIN_TYPE_EXTERNAL.

Definition AnalogInputType_value (t : AnalogInputType_t) : Z :=
  match t with
  | AIN_TYPE_DISABLED => 0 | AIN_TYPE_INTERNAL => 1 | AIN_TYPE_EXTERNAL => 2
  end.

Definition AnalogInputType_of (z : Z) : option AnalogInputType_t :=
  match z with
  | 0%Z => Some AIN_TYPE_DISABLED | 1%Z => Some AIN_TYPE_INTERNAL
  | 2%Z => Some AIN_TYPE_EXTERNAL | _ => None
  end.

Inductive AnalogCircuit_t :=
| AIN_CIRCUIT_DISABLED | AIN_CIRCUIT_PULLUP | AIN_CIRCUIT_EXTERNAL
| AIN_CIRCUIT_INV_OPAMP | AIN_CIRCUIT_CC_INV_OPAMP.

Definition AnalogCircuit_value (c : AnalogCircuit_t) : Z :=
  match c with
  | AIN_CIRCUIT_DISABLED => 0 | AIN_CIRCUIT_PULLUP => 1
  | AIN_CIRCUIT_EXTERNAL => 2 | AIN_CIRCUIT_INV_OPAMP => 3
  | AIN_CIRCUIT_CC_INV_OPAMP => 4
  end.

Definition AnalogCircuit_of (z : Z) : option AnalogCircuit_t :=
  match z with
  | 0%Z => Some AIN_CIRCUIT_DISABLED | 1%Z => Some AIN_CIRCUIT_PULLUP
  | 2%Z => Some AIN_CIRCUIT_EXTERNAL | 3%Z => Some AIN_CIRCUIT_INV_OPAMP
  | 4%Z => Some AIN_CIRCUIT_CC_INV_OPAMP | _ => None
  end.

Definition AIN_CIRCUIT_MAX : AnalogCircuit_t := AIN_CIRCUIT_CC_INV_OPAMP.




Section History.
(** The template parameter. *)
Variable sample_count : Z.




End History.

(** [gpioAnalogInputPin]: the fields its setters and getters use. *)
Record gpioAnalogInputPin := {
  type : AnalogInputType_t;
  circuit : AnalogCircuit_t;
  parameters : list Q
}.
Definition ain_eta := fun x =>
  Build_gpioAnalogInputPin (type x) (circuit x) (parameters x).
#[global] Instance set_type : Setter type := ltac:(setter ain_eta type).
#[global] Instance set_circuit : Setter circuit := ltac:(setter ain_eta circuit).
#[global] Instance set_parameters : Setter parameters := ltac:(setter ain_eta parameters).

Definition getType (a : gpioAnalogInputPin) : AnalogInputType_t := type a.

Definition setType (t : AnalogInputType_t) (a : gpioAnalogInputPin)
  : gpioAnalogInputPin * bool :=
  match t with
  | AIN_TYPE_EXTERNAL => (a, false)
  | _ => (a <| type := t |>, true)
  end.

Definition getCircuit (a : gpioAnalogInputPin) : AnalogCircuit_t := circuit a.

Definition setCircuit (c : AnalogCircuit_t) (a : gpioAnalogInputPin)
  : gpioAnalogInputPin * bool :=
  match c with
  | AIN_CIRCUIT_EXTERNAL => (a, false)
  | _ => (a <| circuit := c |>, true)
  end.

(** [getParameter(p)] and [setParameter(p, v)] for a [uint8_t p]; the
    array has six elements. *)
Definition getParameter (p : Z) (a : gpioAnalogInputPin) : Q :=
  if (p <? 0)%Z || (p >=? 6)%Z then 0
  else nth (Z.to_nat p) (parameters a) 0.

Definition setParameter (p : Z) (v : Q) (a : gpioAnalogInputPin)
  : gpioAnalogInputPin * bool :=
  if (p <? 0)%Z || (p >=? 6)%Z then (a, false)
  else (a <| parameters ::= update_nth (Z.to_nat p) (fun _ => v) |>, true).

Definition getType_nv (a : gpioAnalogInputPin) (nv : nvObj_t)
  : nvObj_t * stat_t :=
  let nv := nv <| value := inject_Z (AnalogInputType_value (getType a)) |> in
  (nv <| valuetype := TYPE_INT |>, STAT_OK).

Definition setType_nv (nv : nvObj_t) (a : gpioAnalogInputPin)
  : option (gpioAnalogInputPin * stat_t) :=
  if Qltb (value nv) (inject_Z (AnalogInputType_value AIN_TYPE_DISABLED))
     || Qltb (inject_Z (AnalogInputType_value AIN_TYPE_EXTERNAL)) (value nv)
  then Some (a, STAT_INPUT_VALUE_RANGE_ERROR)
  else
    match AnalogInputType_of (trunc (value nv)) with
    | None => None
    | Some t =>
      let '(a, ok) := setType t a in
      if negb ok then Some (a, STAT_PARAMETER_IS_READ_ONLY)
      else Some (a, STAT_OK)
    end.

Definition getCircuit_nv (a : gpioAnalogInputPin) (nv : nvObj_t)
  : nvObj_t * stat_t :=
  let nv := nv <| value := inject_Z (AnalogCircuit_value (getCircuit a)) |> in
  (nv <| valuetype := TYPE_INT |>, STAT_OK).

Definition setCircuit_nv (nv : nvObj_t) (a : gpioAnalogInputPin)
  : option (gpioAnalogInputPin * stat_t) :=
  if Qltb (value nv) (inject_Z (AnalogCircuit_value AIN_CIRCUIT_DISABLED))
     || Qltb (inject_Z (AnalogCircuit_value AIN_CIRCUIT_MAX)) (value nv)
  then Some (a, STAT_INPUT_VALUE_RANGE_ERROR)
  else
    match AnalogCircuit_of (trunc (value nv)) with
    | None => None
    | Some c =>
      let '(a, ok) := setCircuit c a in
      if negb ok then Some (a, STAT_PARAMETER_IS_READ_ONLY)
      else Some (a, STAT_OK)
    end.

Definition getParameter_nv (a : gpioAnalogInputPin) (nv : nvObj_t) (p : Z)
  : nvObj_t * stat_t :=
  let nv := nv <| value := getParameter p a |> in
  (nv <| valuetype := TYPE_FLOAT |>, STAT_OK).

Definition setParameter_nv (nv : nvObj_t) (p : Z) (a : gpioAnalogInputPin)
  : gpioAnalogInputPin * stat_t :=
  let '(a, ok) := setParameter p (value nv) a in
  if negb ok then (a, STAT_PARAMETER_IS_READ_ONLY) else (a, STAT_OK).

End Gpio.

(* ================================================================== *)
(** ** Concrete machines

    The inputs at which the theorems below are evaluated.  Times are in
    minutes, as [uSec] expects; the tunables are those of a 5 ms nominal
    segment. *)

Definition idle_blk (nx : slot) : Blk.t :=
  Blk.Build_t nx false 0 0 0 0 0 0 0 0 0 0 0 0.

Definition idle_grp (nx : slot) : Grp.t :=
  Grp.Build_t nx GROUP_OFF 0 0 0 0 0 0 0 0 0 0 0 0 0.

Definition idle_mr : Mr.t :=
  Mr.Build_t MOVE_OFF SECTION_HEAD SECTION_OFF 0 (Gm.Build_t [] [])
    false true false true
    (Build_store _ (idle_blk true) (idle_blk false))
    (Build_store _ (idle_grp true) (idle_grp false))
    0 0 0 0 0 0 0 0 0 0 0 0 0 0 0 [0; 0] [0; 0] [0; 0] [0; 0]
    (fun _ => [0; 0]) [0; 0] [0; 0] [0; 0] [0; 0] [0; 0].

Definition idle_machine : machine :=
  {| mr := idle_mr;
     mb := {| Mb.run_time_remaining := 0 |};
     cm := {| Cm.motion_state := MOTION_STOP; Cm.hold_state := FEEDHOLD_OFF |};
     queue := [];
     trace := [] |}.

(** A machine whose only interest is its segment count. *)
Definition fd_machine (I : Q) : machine :=
  idle_machine <| mr; Mr.segments := I |>.

(** An aline buffer of a ring of two, linked to the other entry [other]. *)
Definition aline_buf (other : nat) (st : mpBufferState) (ms : moveState)
    (len : Q) : Buf.t :=
  Buf.Build_t other other other other FUNC_mp_exec_aline st MOVE_TYPE_ALINE ms
    true (Gm.Build_t [len; 0] []) len [1; 0] [1; 0] (len / 100)
    1000000 0 0 0 (1 # 200) 100 100 100 0 len.

Definition demo_env : collaborators :=
  {| EPSILON := 0.00001;
     MIN_SEGMENT_TIME := 2500 / 60000000;
     NOM_SEGMENT_USEC := 5000;
     uSec := fun t => float32 (t * 60000000);
     MOTORS := 2;
     st_prep_line := fun _ _ _ => STAT_OK;
     kn_inverse_kinematics := map (fun x => x * 80);
     en_read_encoder := fun _ _ => 0;
     mp_get_run_buffer := fun s =>
       match queue s with [] => None | _ => Some 0%nat end;
     mp_free_run_buffer := fun q => (q, false);
     cm_cycle_end := fun c => c <| Cm.motion_state := MOTION_STOP |>;
     mp_get_target_length := fun v_0 v_1 _ =>
       if Qeq_bool v_0 0 then 5 else 5.2178;
     mp_calculate_ramps := fun q _ g _ => (q, g);
     mp_calculate_block := fun q _ g b _ _ _ =>
       (STAT_OK,
        (q, g, b <| Blk.head_length := Grp.head_length g |>
                 <| Blk.body_length := Grp.body_length g |>
                 <| Blk.tail_length := Grp.tail_length g |>));
     other_bf_func := fun _ _ s => Ret STAT_OK s |}.

(** A ring of two aline buffers, the run buffer in state [st0] and the one
    after it in state [st1]. *)
Definition two_alines (st0 st1 : mpBufferState) (ms : moveState) : machine :=
  idle_machine <| queue := [aline_buf 1 st0 ms 10; aline_buf 0 st1 MOVE_NEW 10] |>.

(** A running first buffer whose planned block runtime (the one [mr.p]
    points to) is [b]. *)
Definition with_planned_block (b : Blk.t) : machine :=
  (two_alines MP_BUFFER_RUNNING MP_BUFFER_PREPPED MOVE_NEW)
    <| mr; Mr.bf := Build_store _ (idle_blk true) b |>.

(** The remnant of a tail: a body of length 1 that lasts 0.6 ms, a tail of
    length 5, and a non-zero cruise jerk. *)
Definition remnant_blk : Blk.t :=
  Blk.Build_t false true 0 1 5 0 0.00001 0.1 100 0 0 0 1 0.

(** A head of length 4 that lasts 1.2 ms, then a body and a tail. *)
Definition short_head_blk : Blk.t :=
  Blk.Build_t false true 4 3 3 0.00002 0.03 0.06 100 0 0 0 0 0.

(** A group with a head of 5, a body of [body] and a tail of 5, cruising at
    100 and coming to rest; [first] is its first block. *)
Definition ht_grp (body : Q) (nx : slot) (first : nat) (st : groupState) : Grp.t :=
  Grp.Build_t nx st first (10 + body) 5 body 5 0 0 100 0 (body / 100) 0.1 0 0.

(** A running first buffer and a prepped second one, the group runtime in
    slot [group] being [ht_grp] with first block [first], after the exit
    velocity of that block has been raised from 0 to 10.  The running group
    is slot [false], the planning group slot [true]. *)
Definition raised_exit (body : Q) (group : slot) (first : nat) : machine :=
  let s := two_alines MP_BUFFER_RUNNING MP_BUFFER_PREPPED MOVE_RUN in
  let s := set_buf first (fun b => b <| Buf.exit_velocity := 10 |>) s in
  let s := set_buf first (fun b => b <| Buf.group_length := 10 + body |>) s in
  set_grp group (fun _ => ht_grp body (negb group) first GROUP_HEAD) s.

(** The running group (slot [false]) three units into its section, with a
    body of 2, after a second block has been appended to it: the group
    length of its first block has grown from 12 to 14. *)
Definition extended_running_group : machine :=
  let s := raised_exit 2 false 0 in
  let s := set_buf 0 (fun b => b <| Buf.group_length := 14 |>) s in
  let s := set_grp false (fun g => g <| Grp.length_into_section := 3 |>) s in
  set_grp false (fun g => g <| Grp.t_into_section := 0.25 |>) s.


(** A block runtime that is all body, the body of length 1 lasting 0.6 ms,
    with no cruise jerk. *)
Definition short_body_blk : Blk.t :=
  Blk.Build_t false true 0 1 0 0 0.00001 0 100 0 0 0 0 0.

(** A move under way in its body with a segment velocity below zero. *)
Definition negative_velocity : machine :=
  (with_planned_block short_head_blk)
    <| mr; Mr.move_state := MOVE_RUN |>
    <| mr; Mr.section := SECTION_BODY |>
    <| mr; Mr.section_state := SECTION_2nd_HALF |>
    <| mr; Mr.segment_velocity := -1 |>.

(** A new move while the canonical machine is in a feedhold. *)
Definition in_feedhold : machine :=
  (with_planned_block short_head_blk) <| cm; Cm.motion_state := MOTION_HOLD |>.

(* ================================================================== *)
(** ** Vocabulary of the statements *)

Ltac quintic_unfold :=
  unfold F_5, F_4, F_3, F_2, F_1, V, power_basis, control;
  cbn [q_A q_B q_C q_D q_E q_F P_0 P_1 P_2 P_3 P_4 P_5].

(** Normalisation of reads and writes of a block runtime. *)
Ltac blk_norm :=
  cbv beta iota zeta delta
    [set Blk.set_planned Blk.set_head_length Blk.set_body_length
     Blk.set_tail_length Blk.set_head_time Blk.set_body_time Blk.set_tail_time
     Blk.nx Blk.planned Blk.head_length Blk.body_length Blk.tail_length
     Blk.head_time Blk.body_time Blk.tail_time Blk.cruise_velocity
     Blk.exit_velocity Blk.cruise_acceleration Blk.exit_acceleration
     Blk.cruise_jerk Blk.exit_jerk option_map].

(** Group lengths: what the breakpoints on negative lengths check. *)
Definition lengths_nonneg (g : Grp.t) : Prop :=
  0 <= Grp.head_length g /\ 0 <= Grp.body_length g /\ 0 <= Grp.tail_length g.

(** Normalisation of reads and writes of a group runtime. *)
Ltac grp_norm :=
  cbv beta iota zeta delta
    [set Grp.set_group_state Grp.set_first_block Grp.set_length
     Grp.set_body_length Grp.set_tail_length
     Grp.set_completed_group_head_length Grp.set_completed_group_body_length
     Grp.set_exit_velocity Grp.set_body_time Grp.set_tail_time
     Grp.set_length_into_section Grp.set_t_into_section
     Grp.nx Grp.group_state Grp.first_block Grp.length Grp.head_length
     Grp.body_length Grp.tail_length Grp.completed_group_head_length
     Grp.completed_group_body_length Grp.cruise_velocity Grp.exit_velocity
     Grp.body_time Grp.tail_time Grp.length_into_section Grp.t_into_section
     lengths_nonneg fst snd].

(** Case analysis on a condition that has no condition inside it. *)
Ltac destruct_innermost_if :=
  match goal with
  | |- context [if ?c then _ else _] =>
      lazymatch c with
      | context [if _ then _ else _] => fail
      | _ => destruct c
      end
  end.

(** Proof of [Inv X] for an [X] written as a chain of [let]s and
    conditionals over machines: each bound machine is shown to satisfy [P]
    and then forgotten.  [leaf] proves [P] of one statement applied to a
    machine that satisfies it, and [Inv] of the last expression. *)
Ltac frame_to P Inv leaf :=
  lazymatch goal with
  | |- Inv (let x := ?e in @?body x) =>
      let s' := fresh "s" in
      let H' := fresh "H" in
      lazymatch type of e with
      | machine =>
          assert (H' : P e) by frame_to P P leaf;
          revert H'; generalize e; intros s' H'
      | _ => generalize e; intros s'
      end;
      change (Inv (body s')); cbv beta; frame_to P Inv leaf
  | |- Inv (if ?c then _ else _) => destruct c eqn:?; frame_to P Inv leaf
  | |- Inv _ => first [ assumption | leaf ]
  end.

Ltac frame_by Inv leaf := frame_to Inv Inv leaf.

Ltac frame Inv := frame_by Inv fail.

(** One step of the same: the first [let] of the goal is reduced; where
    it binds a machine, that machine is first shown to satisfy [P] by [tac]
    and then forgotten. *)
Ltac abstract_let P tac :=
  lazymatch goal with
  | |- context C [let x := ?e in @?body x] =>
      let s' := fresh "s" in
      let H := fresh "H" in
      lazymatch type of e with
      | machine =>
          assert (H : P e) by tac;
          revert H; generalize e; intros s' H
      | _ => generalize e; intros s'
      end;
      repeat lazymatch goal with
             | |- context C' [let y := s' in @?body' y] =>
                 let g := context C' [body' s'] in
                 change g; cbv beta
             end
  end.

(** Reduction of the first [let] of the goal, and only of it. *)
Ltac zeta1 :=
  lazymatch goal with
  | |- context C [let x := ?e in @?body x] =>
      let g := context C [body e] in
      change g; cbv beta
  end.

(** Events of a kind in a log. *)
Definition is_prep_line (e : event) : bool :=
  match e with Ev_st_prep_line _ _ _ => true | _ => false end.

Definition prep_lines (s : machine) : nat :=
  List.length (filter is_prep_line (trace s)).

(** The statements of [mp_exec_move] named by what they do, to state what
    the entry does in each buffer state. *)
Definition report_not_prepped (s : machine) : machine :=
  log Ev_st_prep_null
    (log (Ev_rpt_exception (STAT_CODE 42) "mp_exec_move() buffer is not prepped")
       (log (EvBKPT BK_exec_not_prepped) s)).

Definition report_next_empty (bf : nat) (s : machine) : machine :=
  if (buffer_rank (Buf.buffer_state (buf (Buf.nx (buf bf s)) s)) <? 1)%nat
  then log (Ev_rpt_exception (STAT_CODE 42) "mp_exec_move() next buffer is empty")
         (log (EvBKPT BK_exec_next_empty) s)
  else s.

Definition request_plan_of_prepped (s : machine) : machine :=
  log Ev_st_request_plan_move
    (if motionState_beq (Cm.motion_state (cm s)) MOTION_RUN
     then log (EvBKPT BK_exec_running_unplanned) s else s).

Definition promote_to_running (bf : nat) (s : machine) : machine :=
  let s := set_buf bf (fun b => b <| Buf.buffer_state := MP_BUFFER_RUNNING |>) s in
  let s := log Ev_mp_planner_time_accounting s in
  let s := log Ev_st_request_plan_move s in
  if negb (motionState_beq (Cm.motion_state (cm s)) MOTION_RUN)
     && negb (motionState_beq (Cm.motion_state (cm s)) MOTION_HOLD)
  then cm_set_motion_state MOTION_RUN s else s.

Definition run_bf_func (E : collaborators) (bf : nat) : M stat_t := fun s =>
  match Buf.bf_func (buf bf s) with
  | FUNC_NULL => cm_panic STAT_INTERNAL_ERROR "mp_exec_move()" s
  | FUNC_mp_exec_aline => mp_exec_aline E bf s
  | FUNC_other id => other_bf_func E id bf s
  end.

(** Section merging: the length of a block runtime, and the three ways the
    body check of [merge_body] can go when the body is still too short. *)
Definition total_length (b : Blk.t) : Q :=
  Blk.head_length b + Blk.body_length b + Blk.tail_length b.

Definition body_too_short (E : collaborators) (b : Blk.t) : bool :=
  negb (fp_ZERO (EPSILON E) (Blk.body_length b))
  && Qltb (Blk.body_time b) (MIN_SEGMENT_TIME E).

Definition body_discarded (E : collaborators) (b : Blk.t) : bool :=
  body_too_short E b && negb (fp_ZERO (EPSILON E) (Blk.cruise_jerk b)).

Definition all_body_too_short (E : collaborators) (b : Blk.t) : bool :=
  body_too_short E b && fp_ZERO (EPSILON E) (Blk.cruise_jerk b)
  && negb (Qltb 0 (Blk.tail_length b)) && negb (Qltb 0 (Blk.head_length b)).

(** The registers of [mr]: everything but the two block runtimes and the
    two group runtimes. *)
Definition mr_registers (m : Mr.t) : Mr.t :=
  m <| Mr.bf := Build_store _ (idle_blk false) (idle_blk false) |>
    <| Mr.groups := Build_store _ (idle_grp false) (idle_grp false) |>.

(** The planner plans into the block runtime [mr.r] points to when the run
    buffer is an aline that is [RUNNING] and the group it selected is the
    running group with an extension or a velocity change still pending:
    the condition under which [mp_plan_move] sets [block = mr.r]. *)
Definition replans_running_block (E : collaborators) (s : machine) : bool :=
  match mp_get_run_buffer E s with
  | None => false
  | Some bf =>
      moveType_beq (Buf.move_type (buf bf s)) MOVE_TYPE_ALINE
      && (let '(group, (group_extended, velocity_changed), s1) :=
            plan_select_group E s in
          mpBufferState_beq (Buf.buffer_state (buf bf s1)) MP_BUFFER_RUNNING
          && ((group_extended || velocity_changed)
              && Bool.eqb group (Mr.r_group (mr s1))))
  end.

(** The states and the links of the buffers of the queue, in the order of
    the queue. *)
Definition buffer_states (s : machine) : list mpBufferState :=
  map Buf.buffer_state (queue s).

Definition buffer_links (s : machine) : list nat := map Buf.nx (queue s).

(** A buffer state is as it was, or has gone back from [PLANNED] to
    [PREPPED]. *)
Definition downgraded (old new : mpBufferState) : Prop :=
  new = old \/ (old = MP_BUFFER_PLANNED /\ new = MP_BUFFER_PREPPED).

(** What the detection of a pending change does to the queue of [s]: it
    writes no link, and of the buffer states only [PREPPED] over
    [PLANNED]. *)
Definition only_downgrades (s x : machine) : Prop :=
  buffer_links x = buffer_links s /\
  Forall2 downgraded (buffer_states s) (buffer_states x).

(** The buffer states are those of [s]. *)
Definition same_states (s x : machine) : Prop :=
  buffer_states x = buffer_states s.

(** The buffer states are those of [s], or those of [s] with [PLANNED] on
    the buffer [t]. *)
Definition plans_buffer (t : nat) (s x : machine) : Prop :=
  buffer_states x = buffer_states s \/
  buffer_states x
  = update_nth t (fun _ => MP_BUFFER_PLANNED) (buffer_states s).

(** The ramp and block calculations of plan_zoid.cpp leave the states of
    the buffers as they are. *)
Definition keeps_buffer_states (E : collaborators) : Prop :=
  (forall q bf g v,
     map Buf.buffer_state (fst (mp_calculate_ramps E q bf g v))
     = map Buf.buffer_state q) /\
  (forall q bf g b v a j,
     map Buf.buffer_state
       (fst (fst (snd (mp_calculate_block E q bf g b v a j))))
     = map Buf.buffer_state q).

(** The buffers [mp_plan_move] can plan: the run buffer and the one after
    it. *)
Definition planned_buffer (E : collaborators) (s : machine) (i : nat)
  : Prop :=
  exists bf, mp_get_run_buffer E s = Some bf /\
             (i = bf \/ i = Buf.nx (buf bf s)).

(** One call of the executor: it returns, having called [st_prep_line] at
    most once, and exactly once if it returns [STAT_EAGAIN] from a section
    state that is [live]. *)
Definition one_shot (live : bool) (s : machine) (r : result stat_t) : Prop :=
  exists status s', r = Ret status s' /\
    (prep_lines s' <= prep_lines s + 1)%nat /\
    (status = STAT_EAGAIN -> live = true ->
     prep_lines s' = (prep_lines s + 1)%nat).

(** The section states from which a runner emits a segment: a new move,
    or a section that is under way (the body has no first half). *)
Definition live_section (s : machine) : bool :=
  if moveState_beq (Mr.move_state (mr s)) MOVE_OFF then true else
  match Mr.section (mr s), Mr.section_state (mr s) with
  | _, SECTION_OFF => false
  | SECTION_BODY, SECTION_1st_HALF => false
  | _, _ => true
  end.

(** What the setup of a new move leaves alone: the canonical machine, the
    segment velocity and the position. *)
Definition same_motion (s x : machine) : Prop :=
  cm x = cm s /\
  Mr.segment_velocity (mr x) = Mr.segment_velocity (mr s) /\
  Mr.position (mr x) = Mr.position (mr s).



(** The report of [mp_exec_aline] on a buffer of length zero. *)
Definition zero_length_report : event :=
  Ev_rpt_exception STAT_PLANNER_ASSERTION_FAILURE
    "mp_exec_aline() zero length move".

(** What [mp_exec_move] does to a run buffer that is already [RUNNING]
    before it runs the callback of the buffer. *)
Definition request_plan_and_run (s : machine) : machine :=
  let s := log Ev_st_request_plan_move s in
  if negb (motionState_beq (Cm.motion_state (cm s)) MOTION_RUN)
     && negb (motionState_beq (Cm.motion_state (cm s)) MOTION_HOLD)
  then cm_set_motion_state MOTION_RUN s else s.

(* ================================================================== *)
(** ** Statements about the runners over several calls *)

(** The register updates of a second-half call of the head or the tail
    that is not the last one of its section:
    [mr.segment_velocity += mr.forward_diff_5] before the segment, the
    advance of the differences after it. *)
Definition next_segment_velocity (s : machine) : machine :=
  advance_forward_diffs
    (s <| mr; Mr.segment_velocity ::= fun v => v + Mr.forward_diff_5 (mr s) |>).

(** The segment velocity is the quintic [c] at [t], and the five registers
    are its forward differences of step [h] there. *)
Definition fd_tracks (c : quintic) (h t : Q) (m : Mr.t) : Prop :=
  Mr.segment_velocity m == V c t /\
  Mr.forward_diff_5 m == V c (t + h) - V c t /\
  Mr.forward_diff_4 m == V c (t + 2 * h) - 2 * V c (t + h) + V c t /\
  Mr.forward_diff_3 m
  == V c (t + 3 * h) - 3 * V c (t + 2 * h) + 3 * V c (t + h) - V c t /\
  Mr.forward_diff_2 m
  == V c (t + 4 * h) - 4 * V c (t + 3 * h) + 6 * V c (t + 2 * h)
     - 4 * V c (t + h) + V c t /\
  Mr.forward_diff_1 m
  == V c (t + 5 * h) - 5 * V c (t + 4 * h) + 10 * V c (t + 3 * h)
     - 10 * V c (t + 2 * h) + 5 * V c (t + h) - V c t.

(** The middle of segment [k] (counted from 0) when the segments have
    length [h]. *)
Definition midpoint (k : nat) (h : Q) : Q :=
  (inject_Z (Z.of_nat k) + (1 # 2)) * h.

(** [n] calls of a runner in a row, each but possibly the last returning
    [STAT_EAGAIN]: the machine before the last call. *)
Fixpoint again (n : nat) (m : M stat_t) (s : machine) : option machine :=
  match n with
  | O => Some s
  | S n' =>
    match m s with
    | Ret STAT_EAGAIN s' => again n' m s'
    | _ => None
    end
  end.

(* ================================================================== *)
(** ** Statements about the segment runner *)

(** The part of [mr] that [_exec_aline_segment] does not write: [mr] with
    the segment count, the target, the position and the step vectors
    blanked. *)
Definition outside_segment (m : Mr.t) : Mr.t :=
  m <| Mr.segment_count := 0%Z |>
    <| Mr.gm ::= (fun g => g <| Gm.target := [] |>) |>
    <| Mr.position := [] |>
    <| Mr.commanded_steps := [] |>
    <| Mr.position_steps := [] |>
    <| Mr.target_steps := [] |>
    <| Mr.encoder_steps := [] |>
    <| Mr.following_error := [] |>.

(** The segment that is run on [s] is the last of its section. *)
Definition last_segment (s : machine) : bool :=
  (uint32_dec (Mr.segment_count (mr s)) =? 0)%Z.

(** The target of the segment that is run on [s]: the waypoint of the
    section on the last segment of a second half outside a hold, else the
    position advanced by the segment velocity for the segment time. *)
Definition segment_target (s : machine) : vector :=
  if last_segment s
     && sectionState_beq (Mr.section_state (mr s)) SECTION_2nd_HALF
     && negb (motionState_beq (Cm.motion_state (cm s)) MOTION_HOLD)
  then Mr.waypoint (mr s) (Mr.section (mr s))
  else vmap2 (fun p u => p + u * (Mr.segment_velocity (mr s)
                                  * Mr.segment_time (mr s)))
             (Mr.position (mr s)) (Mr.unit (mr s)).

(** What the segment that is run on [s] hands to [st_prep_line], and what
    that returns. *)
Definition segment_travel (E : collaborators) (s : machine) : vector :=
  vmap2 Qminus (kn_inverse_kinematics E (segment_target s))
               (Mr.target_steps (mr s)).

Definition segment_following_error (E : collaborators) (s : machine)
  : vector :=
  vmap2 Qminus (map (en_read_encoder E (trace s)) (seq 0 (MOTORS E)))
               (Mr.position_steps (mr s)).

Definition segment_status (E : collaborators) (s : machine) : stat_t :=
  st_prep_line E (segment_travel E s) (segment_following_error E s)
    (Mr.segment_time (mr s)).

(** [mb.run_time_remaining] after the segment that is run on [s]. *)
Definition segment_time_left (s : machine) : Q :=
  if Qltb (Mb.run_time_remaining (mb s) - Mr.segment_time (mr s)) 0
  then 0 else Mb.run_time_remaining (mb s) - Mr.segment_time (mr s).

(* ================================================================== *)
(** ** Statements about a whole section *)

(** The number of segments [_exec_aline_body] gives the body that is left
    on [s], its time per segment, and where it ends: on the waypoint of the
    body, or, when a part of the body has been run before, the remaining
    length further along the unit vector. *)
Definition body_time_left (s : machine) : Q :=
  float32 (Blk.body_time (mr_r s) - Mr.executed_body_time (mr s)).

Definition body_segments (E : collaborators) (s : machine) : Q :=
  ceil (float32 (uSec E (body_time_left s) / NOM_SEGMENT_USEC E)).

Definition body_end (E : collaborators) (s : machine) : vector :=
  if fp_ZERO (EPSILON E) (Mr.executed_body_length (mr s))
  then Mr.waypoint (mr s) SECTION_BODY
  else vmap2 (fun p u => p + u * (Blk.body_length (mr_r s)
                                  - Mr.executed_body_length (mr s)))
             (Mr.position (mr s)) (Mr.unit (mr s)).

(** The number of segments of the tail of the running block, and the
    control points of its velocity curve, from cruise to exit. *)
Definition tail_segments (E : collaborators) (s : machine) : Q :=
  ceil (float32 (uSec E (Blk.tail_time (mr_r s)) / NOM_SEGMENT_USEC E)).

Definition tail_curve (s : machine) : control_points :=
  control (Blk.cruise_velocity (mr_r s)) (Blk.exit_velocity (mr_r s))
          (Blk.cruise_acceleration (mr_r s)) (Blk.exit_acceleration (mr_r s))
          (Blk.cruise_jerk (mr_r s)) (Blk.exit_jerk (mr_r s))
          (Blk.tail_time (mr_r s)).

(** The same for the head, from the entry values of [mr] to cruise. *)
Definition head_segments (E : collaborators) (s : machine) : Q :=
  ceil (float32 (uSec E (Blk.head_time (mr_r s)) / NOM_SEGMENT_USEC E)).

Definition head_curve (s : machine) : control_points :=
  control (Mr.entry_velocity (mr s)) (Blk.cruise_velocity (mr_r s))
          (Mr.entry_acceleration (mr s)) (Blk.cruise_acceleration (mr_r s))
          (Mr.entry_jerk (mr s)) (Blk.cruise_jerk (mr_r s))
          (Blk.head_time (mr_r s)).

(** [st_prep_line] accepts every segment. *)
Definition prep_always_ok (E : collaborators) : Prop :=
  forall travel_steps following_error segment_time,
    st_prep_line E travel_steps following_error segment_time = STAT_OK.

(** The collaborators of [demo_env] with a stepper that refuses every
    segment. *)
Definition refusing_env : collaborators :=
  {| EPSILON := EPSILON demo_env;
     MIN_SEGMENT_TIME := MIN_SEGMENT_TIME demo_env;
     NOM_SEGMENT_USEC := NOM_SEGMENT_USEC demo_env;
     uSec := uSec demo_env;
     MOTORS := MOTORS demo_env;
     st_prep_line := fun _ _ _ => STAT_INTERNAL_ERROR;
     kn_inverse_kinematics := kn_inverse_kinematics demo_env;
     en_read_encoder := en_read_encoder demo_env;
     mp_get_run_buffer := mp_get_run_buffer demo_env;
     mp_free_run_buffer := mp_free_run_buffer demo_env;
     cm_cycle_end := cm_cycle_end demo_env;
     mp_get_target_length := mp_get_target_length demo_env;
     mp_calculate_ramps := mp_calculate_ramps demo_env;
     mp_calculate_block := mp_calculate_block demo_env;
     other_bf_func := other_bf_func demo_env |}.

(** A machine in the second half of a body with [count] segments left, at
    velocity 100 for 5 ms a segment, along the first axis from the origin;
    the body ends at 7. *)
Definition in_body (count : Z) : machine :=
  (with_planned_block short_head_blk)
    <| mr; Mr.move_state := MOVE_RUN |>
    <| mr; Mr.section := SECTION_BODY |>
    <| mr; Mr.section_state := SECTION_2nd_HALF |>
    <| mr; Mr.segment_velocity := 100 |>
    <| mr; Mr.segment_time := 5000 / 60000000 |>
    <| mr; Mr.segment_count := count |>
    <| mr; Mr.unit := [1; 0] |>
    <| mr; Mr.waypoint := fun _ => [7; 0] |>
    <| mb; Mb.run_time_remaining := 1 / 1000 |>.

(** Normalisation of reads and writes of the runtime: the record updates
    of a straight-line piece of a routine are carried out. *)
Ltac mr_norm :=
  cbv beta iota zeta delta
    [set set_mr set_mb set_cm set_queue set_trace mr mb cm queue trace
          Mr.move_state Mr.set_move_state Mr.section Mr.set_section
     Mr.section_state Mr.set_section_state Mr.jerk Mr.set_jerk Mr.gm
     Mr.set_gm Mr.r Mr.set_r Mr.p Mr.set_p Mr.r_group Mr.set_r_group
     Mr.p_group Mr.set_p_group Mr.bf Mr.set_bf Mr.groups Mr.set_groups
     Mr.entry_velocity Mr.set_entry_velocity Mr.entry_acceleration
     Mr.set_entry_acceleration Mr.entry_jerk Mr.set_entry_jerk
     Mr.group_entry_velocity Mr.set_group_entry_velocity
     Mr.executed_body_length Mr.set_executed_body_length
     Mr.executed_body_time Mr.set_executed_body_time Mr.segments
     Mr.set_segments Mr.segment_time Mr.set_segment_time Mr.segment_count
     Mr.set_segment_count Mr.segment_velocity Mr.set_segment_velocity
     Mr.forward_diff_1 Mr.set_forward_diff_1 Mr.forward_diff_2
     Mr.set_forward_diff_2 Mr.forward_diff_3 Mr.set_forward_diff_3
     Mr.forward_diff_4 Mr.set_forward_diff_4 Mr.forward_diff_5
     Mr.set_forward_diff_5 Mr.unit Mr.set_unit Mr.target Mr.set_target
     Mr.axis_flags Mr.set_axis_flags Mr.position Mr.set_position
     Mr.waypoint Mr.set_waypoint Mr.commanded_steps Mr.set_commanded_steps
     Mr.position_steps Mr.set_position_steps Mr.target_steps
     Mr.set_target_steps Mr.encoder_steps Mr.set_encoder_steps
     Mr.following_error Mr.set_following_error Mb.run_time_remaining
     Mb.set_run_time_remaining Cm.motion_state Cm.set_motion_state
     Cm.hold_state Cm.set_hold_state Gm.target Gm.set_target Gm.attrs
     Gm.set_attrs].
Ltac mr_norm_in H :=
  cbv beta iota zeta delta
    [set set_mr set_mb set_cm set_queue set_trace mr mb cm queue trace
          Mr.move_state Mr.set_move_state Mr.section Mr.set_section
     Mr.section_state Mr.set_section_state Mr.jerk Mr.set_jerk Mr.gm
     Mr.set_gm Mr.r Mr.set_r Mr.p Mr.set_p Mr.r_group Mr.set_r_group
     Mr.p_group Mr.set_p_group Mr.bf Mr.set_bf Mr.groups Mr.set_groups
     Mr.entry_velocity Mr.set_entry_velocity Mr.entry_acceleration
     Mr.set_entry_acceleration Mr.entry_jerk Mr.set_entry_jerk
     Mr.group_entry_velocity Mr.set_group_entry_velocity
     Mr.executed_body_length Mr.set_executed_body_length
     Mr.executed_body_time Mr.set_executed_body_time Mr.segments
     Mr.set_segments Mr.segment_time Mr.set_segment_time Mr.segment_count
     Mr.set_segment_count Mr.segment_velocity Mr.set_segment_velocity
     Mr.forward_diff_1 Mr.set_forward_diff_1 Mr.forward_diff_2
     Mr.set_forward_diff_2 Mr.forward_diff_3 Mr.set_forward_diff_3
     Mr.forward_diff_4 Mr.set_forward_diff_4 Mr.forward_diff_5
     Mr.set_forward_diff_5 Mr.unit Mr.set_unit Mr.target Mr.set_target
     Mr.axis_flags Mr.set_axis_flags Mr.position Mr.set_position
     Mr.waypoint Mr.set_waypoint Mr.commanded_steps Mr.set_commanded_steps
     Mr.position_steps Mr.set_position_steps Mr.target_steps
     Mr.set_target_steps Mr.encoder_steps Mr.set_encoder_steps
     Mr.following_error Mr.set_following_error Mb.run_time_remaining
     Mb.set_run_time_remaining Cm.motion_state Cm.set_motion_state
     Cm.hold_state Cm.set_hold_state Gm.target Gm.set_target Gm.attrs
     Gm.set_attrs] in H.

(** What a call of a section runner leaves as it was. *)
Definition section_kept (x x' : machine) : Prop :=
  (Mr.section (mr x') = Mr.section (mr x) /\
   Mr.waypoint (mr x') = Mr.waypoint (mr x) /\
   Mr.segment_velocity (mr x') = Mr.segment_velocity (mr x)) /\
  (cm x' = cm x /\
   Mr.executed_body_length (mr x') = Mr.executed_body_length (mr x) /\
   mr_r x' = mr_r x).

(** The segment velocity and the five forward differences. *)
Definition fd_regs (m : Mr.t) : list Q :=
  [Mr.segment_velocity m; Mr.forward_diff_5 m; Mr.forward_diff_4 m;
   Mr.forward_diff_3 m; Mr.forward_diff_2 m; Mr.forward_diff_1 m].

(** A running block [b] in slot [mr.r], on a machine that is about to
    start section [sec] along the first axis; the section ends at [goal]. *)
Definition starting_section (b : Blk.t) (sec : moveSection) (goal : Q)
  : machine :=
  (two_alines MP_BUFFER_RUNNING MP_BUFFER_PREPPED MOVE_RUN)
    <| mr; Mr.bf := Build_store _ b (idle_blk false) |>
    <| mr; Mr.move_state := MOVE_RUN |>
    <| mr; Mr.section := sec |>
    <| mr; Mr.section_state := SECTION_NEW |>
    <| mr; Mr.unit := [1; 0] |>
    <| mr; Mr.waypoint := fun _ => [goal; 0] |>.

(** A block that is all body: length 4 in 1/4096 min (14.6 ms) at velocity
    16384, three segments.  The times, lengths and velocities of these
    blocks are binary fractions, so that they are floats as they stand. *)
Definition body_blk : Blk.t :=
  Blk.Build_t true true 0 4 0 0 (1 # 4096) 0 16384 16384 0 0 0 0.

(** A block that is all tail: length 2.5 in 5/16384 min (18.3 ms) from
    16384 to rest, four segments. *)
Definition tail_blk : Blk.t :=
  Blk.Build_t true true 0 0 (5 # 2) 0 0 (5 # 16384) 16384 0 0 0 0 0.

(** A block with a head of length 2.5 in 5/16384 min from rest to 16384,
    four segments, and a body after it. *)
Definition head_blk : Blk.t :=
  Blk.Build_t true true (5 # 2) 4 0 (5 # 16384) (1 # 4096) 0
    16384 16384 0 0 0 0.

(** What a call of the tail or the head leaves as it was. *)
Definition ramp_kept (x x' : machine) : Prop :=
  (Mr.section (mr x') = Mr.section (mr x) /\
   Mr.waypoint (mr x') = Mr.waypoint (mr x) /\
   Mr.segments (mr x') = Mr.segments (mr x)) /\
  (cm x' = cm x /\ mr_r x' = mr_r x).

(** A block that is all tail in one segment: length 1 in 4 ms from 18000
    to 12000. *)
Definition short_tail_blk : Blk.t :=
  Blk.Build_t true true 0 0 1 0 0 (4000 / 60000000) 18000 12000 0 0 0 0.

(* ================================================================== *)
(** ** Statements about a whole call and a whole move *)

(** [bf->plannable = false] *)
Definition unplannable (b : Buf.t) : Buf.t := b <| Buf.plannable := false |>.

(** The part of [mr] that the head and the tail do not write: what the
    segment runner leaves, less the section and its state, the segment
    count and time, the velocity registers and the states of the two
    groups. *)
Definition outside_ramp (m : Mr.t) : Mr.t :=
  (outside_segment m)
    <| Mr.section := SECTION_HEAD |>
    <| Mr.section_state := SECTION_OFF |>
    <| Mr.segments := 0 |>
    <| Mr.segment_time := 0 |>
    <| Mr.segment_velocity := 0 |>
    <| Mr.forward_diff_1 := 0 |>
    <| Mr.forward_diff_2 := 0 |>
    <| Mr.forward_diff_3 := 0 |>
    <| Mr.forward_diff_4 := 0 |>
    <| Mr.forward_diff_5 := 0 |>
    <| Mr.groups ::= fun g =>
         {| slot0 := (slot0 g) <| Grp.group_state := GROUP_OFF |>;
            slot1 := (slot1 g) <| Grp.group_state := GROUP_OFF |> |} |>.

(** The same less what the body writes: the executed body length and
    time, and the waypoints. *)
Definition outside_body (m : Mr.t) : Mr.t :=
  (outside_ramp m)
    <| Mr.executed_body_length := 0 |>
    <| Mr.executed_body_time := 0 |>
    <| Mr.waypoint := fun _ => [] |>.

(** What a call of the tail, and of the head of a block that has one,
    leaves alone: [mr] outside the ramp registers, the canonical machine,
    and the queue but for [bf->plannable]. *)
Definition ramp_frame (bf : nat) (x x' : machine) : Prop :=
  outside_ramp (mr x') = outside_ramp (mr x) /\
  cm x' = cm x /\
  (queue x' = queue x \/ queue x' = update_nth bf unplannable (queue x)).

(** What a call of any section runner leaves alone. *)
Definition body_frame (bf : nat) (x x' : machine) : Prop :=
  outside_body (mr x') = outside_body (mr x) /\
  cm x' = cm x /\
  (queue x' = queue x \/ queue x' = update_nth bf unplannable (queue x)).

(** The dispatcher of [mp_exec_aline]. *)
Definition exec_aline_section (E : collaborators) (bf : nat) : M stat_t :=
  fun s =>
    match Mr.section (mr s) with
    | SECTION_HEAD => _exec_aline_head E bf s
    | SECTION_BODY => _exec_aline_body E bf s
    | SECTION_TAIL => _exec_aline_tail E bf s
    end.

(** A move under way on buffer [bf], outside a hold: the state in which a
    call of [mp_exec_aline] goes straight to the dispatcher. *)
Definition running (bf : nat) (x : machine) : Prop :=
  Buf.move_state (buf bf x) <> MOVE_OFF /\
  Mr.move_state (mr x) = MOVE_RUN /\
  Cm.motion_state (cm x) <> MOTION_HOLD.

(** A block with a head of length 2.5 in 5/16384 min from rest to 16384,
    a body of length 4 in 1/4096 min and a tail of length 2.5 in
    5/16384 min back to rest: four, three and four segments. *)
Definition full_blk : Blk.t :=
  Blk.Build_t true true (5 # 2) 4 (5 # 2) (5 # 16384) (1 # 4096)
    (5 # 16384) 16384 0 0 0 0 0.

(** The machine at the first call of the head of [full_blk] along the
    first axis: the sections end at 2.5, 6.5 and 9. *)
Definition starting_full_blk : machine :=
  (starting_section full_blk SECTION_HEAD (5 # 2))
    <| mr; Mr.waypoint := fun sec =>
         match sec with
         | SECTION_HEAD => [5 # 2; 0]
         | SECTION_BODY => [13 # 2; 0]
         | SECTION_TAIL => [9; 0]
         end |>.

(* ================================================================== *)
(** ** Statements about the lookahead loop of the planner *)

(** The buffer [k] steps down the ring from [b], and the length of the
    [k] buffers before it. *)
Fixpoint ring_walk (k : nat) (s : machine) (b : nat) : nat :=
  match k with
  | O => b
  | S k' => ring_walk k' s (Buf.nx (buf b s))
  end.

Fixpoint ring_length (k : nat) (s : machine) (b : nat) : Q :=
  match k with
  | O => 0
  | S k' => Buf.length (buf b s) + ring_length k' s (Buf.nx (buf b s))
  end.

(** The loop condition at the buffer [k] steps down the ring. *)
Definition locks_on (s : machine) (b : nat) (lock_length : Q) (k : nat)
  : Prop :=
  Buf.length (buf (ring_walk k s b) s) + 0.0001
  < lock_length - ring_length k s b.

(* ================================================================== *)
(** ** Statements about the handler lists of gpio.h *)

(** The handlers of a list in the order of their links: [l] is the
    handlers from the pointer [p] to the null pointer that ends the list. *)
Inductive handler_chain (nx : Gpio.handler -> option Gpio.handler)
  : option Gpio.handler -> list Gpio.handler -> Prop :=
| chain_end : handler_chain nx None []
| chain_link (a : Gpio.handler) (l : list Gpio.handler) :
    handler_chain nx (nx a) l -> handler_chain nx (Some a) (a :: l).

(** The handlers of a list. *)
Definition handlers_of (hl : Gpio.gpioDigitalInputHandlerList)
    (l : list Gpio.handler) : Prop :=
  handler_chain (Gpio.next hl) (Gpio._first_handler hl) l.

(** The handlers of [l] up to and with the first that [taken] holds
    of. *)
Fixpoint upto_first (taken : Gpio.handler -> bool) (l : list Gpio.handler)
  : list Gpio.handler :=
  match l with
  | [] => []
  | a :: l' => if taken a then [a] else a :: upto_first taken l'
  end.

(** Three handlers at the addresses 1, 2 and 3 with the priorities 5, 1 and
    3, none of them linked, and an empty list. *)
Definition demo_priority (h : Gpio.handler) : Z :=
  match h with
  | 1%nat => 5 | 2%nat => 1 | 3%nat => 3 | _ => 0
  end.

Definition no_handlers : Gpio.gpioDigitalInputHandlerList :=
  {| Gpio._first_handler := None; Gpio.next := fun _ => None |}.

(** The list of the handlers 1 and 2, in this order. *)
Definition two_handlers : Gpio.gpioDigitalInputHandlerList :=
  {| Gpio._first_handler := Some 1%nat;
     Gpio.next := fun a => match a with 1%nat => Some 2%nat | _ => None end |}.

(** Callbacks of which only that of handler 2 takes the event. *)
Definition demo_callback (h : Gpio.handler) (state : bool)
    (edge : Gpio.inputEdgeFlag) (pin : Z) : bool :=
  (h =? 2)%nat.

(** [deregisterHandler] of the handlers of [l], one after the other. *)
Fixpoint deregister_each (fuel : nat) (l : list Gpio.handler)
    (hl : Gpio.gpioDigitalInputHandlerList)
  : option Gpio.gpioDigitalInputHandlerList :=
  match l with
  | [] => Some hl
  | h :: l' =>
    match Gpio.deregisterHandler fuel h hl with
    | Some hl' => deregister_each fuel l' hl'
    | None => None
    end
  end.

(* ================================================================== *)
(** ** Statements about the pins of gpio.h *)

(** A timer as two flags, for examples: [set] sets it and it is not past
    then. *)
Record demo_timer := { timer_isSet : bool; timer_isPast : bool }.

Definition demo_timer_set (ms : Z) (t : demo_timer) : demo_timer :=
  {| timer_isSet := true; timer_isPast := false |}.

(** An enabled input on [din3], read as [in3], active low, whose action is
    a limit, outside a lockout, with the pin low. *)
Definition demo_input : Gpio.gpioDigitalInputPin demo_timer :=
  {| Gpio.enabled := Gpio.IO_ENABLED;
     Gpio.polarity := Gpio.IO_ACTIVE_LOW;
     Gpio.action := Gpio.INPUT_ACTION_LIMIT;
     Gpio.edge := Gpio.INPUT_EDGE_NONE;
     Gpio.homing_mode := false;
     Gpio.probing_mode := false;
     Gpio.ext_pin_number := 3;
     Gpio.proxy_pin_number := 3;
     Gpio.lockout_ms := 50;
     Gpio.lockout_timer := {| timer_isSet := false; timer_isPast := false |};
     Gpio.pin := false;
     Gpio.pin_options := Gpio.kPullUp_kDebounce |}.

(** Fourteen readers without a pin. *)
Definition demo_readers : list Gpio.gpioDigitalInputReader :=
  repeat {| Gpio.reader_pin := None |} 14.

(** The lists of [din_handlers]: handler 1 and then handler 3 for the
    internal events, handler 2 for the limits, none for the rest. *)
Definition demo_din_handlers : Gpio.din_handlers_t :=
  {| Gpio.first_of := fun a =>
       match a with
       | Gpio.INPUT_ACTION_INTERNAL => Some 1%nat
       | Gpio.INPUT_ACTION_LIMIT => Some 2%nat
       | _ => None
       end;
     Gpio.next_of := fun h =>
       match h with 1%nat => Some 3%nat | _ => None end |}.

(** The level of an input with its polarity taken into account. *)
Definition corrected_level {Timeout} (p : Gpio.gpioDigitalInputPin Timeout)
  : bool :=
  xorb (Gpio.pin p)
       (match Gpio.polarity p with
        | Gpio.IO_ACTIVE_HIGH => false
        | Gpio.IO_ACTIVE_LOW => true
        end).

Definition edge_of (active : bool) : Gpio.inputEdgeFlag :=
  if active then Gpio.INPUT_EDGE_LEADING else Gpio.INPUT_EDGE_TRAILING.

(** An analog input with its six parameters. *)
Definition demo_analog : Gpio.gpioAnalogInputPin :=
  {| Gpio.type := Gpio.AIN_TYPE_INTERNAL;
     Gpio.circuit := Gpio.AIN_CIRCUIT_PULLUP;
     Gpio.parameters := [4700; 0; 0; 0; 0; 0] |}.

(* ================================================================== *)
(** ** Statements about [ValueHistory] *)








(* ================================================================== *)
(** * Theorems *)

(** ** Reading after writing *)

Lemma nth_update_nth_same {A} (i : nat) (f : A -> A) (l : list A) (d : A) :
  (i < List.length l)%nat -> nth i (update_nth i f l) d = f (nth i l d).
Proof.
  revert i; induction l as [|x l IH]; intros [|i] Hi; cbn in *; try lia.
  - reflexivity.
  - apply IH. lia.
Qed.

Lemma nth_update_nth_other {A} (i j : nat) (f : A -> A) (l : list A) (d : A) :
  i <> j -> nth j (update_nth i f l) d = nth j l d.
Proof.
  revert i j; induction l as [|x l IH]; intros [|i] [|j] Hij; cbn; try reflexivity.
  - congruence.
  - apply IH. congruence.
Qed.

Lemma length_update_nth {A} (i : nat) (f : A -> A) (l : list A) :
  List.length (update_nth i f l) = List.length l.
Proof.
  revert i; induction l as [|x l IH]; intros [|i]; cbn; try reflexivity.
  now rewrite IH.
Qed.

Lemma buf_set_buf_same (i : nat) (f : Buf.t -> Buf.t) (s : machine) :
  (i < List.length (queue s))%nat -> buf i (set_buf i f s) = f (buf i s).
Proof. intros Hi. unfold buf, set_buf; cbn. now apply nth_update_nth_same. Qed.

Lemma buf_set_buf_other (i j : nat) (f : Buf.t -> Buf.t) (s : machine) :
  i <> j -> buf j (set_buf i f s) = buf j s.
Proof. intros Hij. unfold buf, set_buf; cbn. now apply nth_update_nth_other. Qed.

Lemma buf_log (i : nat) (e : event) (s : machine) : buf i (log e s) = buf i s.
Proof. reflexivity. Qed.

Lemma rd_wr_same {A} (i : slot) (f : A -> A) (m : store A) :
  rd i (wr i f m) = f (rd i m).
Proof. now destruct i. Qed.

Lemma rd_wr_other {A} (i j : slot) (f : A -> A) (m : store A) :
  i <> j -> rd j (wr i f m) = rd j m.
Proof. destruct i, j; intros H; try reflexivity; congruence. Qed.

Lemma grp_set_grp_same (i : slot) (f : Grp.t -> Grp.t) (s : machine) :
  grp i (set_grp i f s) = f (grp i s).
Proof. unfold grp, set_grp; cbn. apply rd_wr_same. Qed.

Lemma grp_set_grp_other (i j : slot) (f : Grp.t -> Grp.t) (s : machine) :
  i <> j -> grp j (set_grp i f s) = grp j s.
Proof. intros H. unfold grp, set_grp; cbn. now apply rd_wr_other. Qed.

Lemma blk_set_blk_same (i : slot) (f : Blk.t -> Blk.t) (s : machine) :
  blk i (set_blk i f s) = f (blk i s).
Proof. unfold blk, set_blk; cbn. apply rd_wr_same. Qed.

Lemma blk_set_blk_other (i j : slot) (f : Blk.t -> Blk.t) (s : machine) :
  i <> j -> blk j (set_blk i f s) = blk j s.
Proof. intros H. unfold blk, set_blk; cbn. now apply rd_wr_other. Qed.

Lemma Qltb_false (x y : Q) : Qltb x y = false <-> y <= x.
Proof.
  unfold Qltb. rewrite negb_false_iff. apply Qle_bool_iff.
Qed.

Lemma Qltb_true (x y : Q) : Qltb x y = true <-> x < y.
Proof.
  unfold Qltb. rewrite negb_true_iff. split.
  - intros H. apply Qnot_le_lt. intros Hle.
    apply Qle_bool_iff in Hle. congruence.
  - intros H. destruct (Qle_bool y x) eqn:Hb; [|reflexivity].
    apply Qle_bool_iff in Hb. exfalso. now apply (Qlt_not_le x y).
Qed.


(* ================================================================== *)
(** ** Forward differences *)

(** The power form with the coefficients of [power_basis] is the Bernstein
    form of the curve through the control points: [A..F] are its
    power-basis coefficients. *)
Lemma bernstein_power_basis (P : control_points) (t : Q) :
  bernstein P t == V (power_basis P) t.
Proof.
  unfold bernstein, V, power_basis; cbn [q_A q_B q_C q_D q_E q_F]. ring.
Qed.

(** [_init_forward_diffs] writes the five registers and the segment
    velocity and nothing else. *)
Lemma init_forward_diffs_frame v_0 v_1 a_0 a_1 j_0 j_1 T s :
  let s' := _init_forward_diffs v_0 v_1 a_0 a_1 j_0 j_1 T s in
  Mr.segments (mr s') = Mr.segments (mr s) /\
  Mr.segment_count (mr s') = Mr.segment_count (mr s) /\
  Mr.position (mr s') = Mr.position (mr s) /\
  mb s' = mb s /\ cm s' = cm s /\ queue s' = queue s /\ trace s' = trace s.
Proof. repeat split. Qed.

(** C1: with [mr.segments = I >= 1] and [h = 1/I], the registers after
    [_init_forward_diffs] are exactly [F_5 .. F_1] of the header comment for
    the power-basis coefficients of the quintic Bezier through the six
    control points, and [mr.segment_velocity] is [V(h/2)]. *)
Theorem init_forward_diffs_registers (s : machine) (v_0 v_1 a_0 a_1 j_0 j_1 T : Q) :
  1 <= Mr.segments (mr s) ->
  let h := 1 / Mr.segments (mr s) in
  let c := power_basis (control v_0 v_1 a_0 a_1 j_0 j_1 T) in
  let s' := _init_forward_diffs v_0 v_1 a_0 a_1 j_0 j_1 T s in
  Mr.forward_diff_5 (mr s') == F_5 c h /\
  Mr.forward_diff_4 (mr s') == F_4 c h /\
  Mr.forward_diff_3 (mr s') == F_3 c h /\
  Mr.forward_diff_2 (mr s') == F_2 c h /\
  Mr.forward_diff_1 (mr s') == F_1 c h /\
  Mr.segment_velocity (mr s') == V c (h / 2) /\
  h * Mr.segments (mr s) == 1.
Proof.
  intros HI h c s'. subst c s'.
  assert (Hh : h * Mr.segments (mr s) == 1).
  { unfold h. field. intro H0. rewrite H0 in HI. now apply HI. }
  unfold _init_forward_diffs. cbn.
  fold h. clearbody h. quintic_unfold.
  repeat split; try field. exact Hh.
Qed.

Lemma init_forward_diffs_registers_witness :
  1 <= Mr.segments (mr (fd_machine 4)) /\
  Mr.forward_diff_1 (mr (_init_forward_diffs 0 100 0 0 0 0 1 (fd_machine 4)))
  == F_1 (power_basis (control 0 100 0 0 0 0 1)) (1 / 4).
Proof.
  assert (H : 1 <= Mr.segments (mr (fd_machine 4))) by (vm_compute; discriminate).
  split; [exact H|].
  exact (proj1 (proj2 (proj2 (proj2 (proj2
    (init_forward_diffs_registers (fd_machine 4) 0 100 0 0 0 0 1 H)))))).
Defined.

(** C3, as the code has it: with zero boundary accelerations and jerks the
    quintic initialiser and the cubic-form initialiser
    ([A = -6 v_0 + 6 v_1], [B = 15 v_0 - 15 v_1], [C = -10 v_0 + 10 v_1],
    [D = E = 0], [F = v_0]) are the same functions of [v_0], [v_1] and the
    segment count: in exact arithmetic they leave the same five registers
    and the same initial segment velocity, for every segment count and
    every [T].  What separates them in the code is rounding alone. *)
Theorem init_forward_diffs_matches_cubic_form (s : machine) (v_0 v_1 T : Q) :
  let new := mr (_init_forward_diffs v_0 v_1 0 0 0 0 T s) in
  let old := mr (_init_forward_diffs_old v_0 v_1 0 0 0 0 T s) in
  Mr.forward_diff_5 new == Mr.forward_diff_5 old /\
  Mr.forward_diff_4 new == Mr.forward_diff_4 old /\
  Mr.forward_diff_3 new == Mr.forward_diff_3 old /\
  Mr.forward_diff_2 new == Mr.forward_diff_2 old /\
  Mr.forward_diff_1 new == Mr.forward_diff_1 old /\
  Mr.segment_velocity new == Mr.segment_velocity old.
Proof.
  unfold _init_forward_diffs, _init_forward_diffs_old. cbn.
  generalize (1 / Mr.segments (mr s)). intro h.
  repeat split; field.
Qed.

(** The claim of C3 fails in floats: for three segments from rest to
    velocity 100 the two initialisers, computed in binary32 as the code
    computes them, leave third differences that are further apart than
    [EPSILON] (0.00001), and so are the fourth and the second: by 0.00009
    where the literals are doubles, and by 0.00006 where the compiler
    reads them as floats. *)
Lemma init_forward_diffs_float_exceeds_epsilon :
  let new c := Float._init_forward_diffs c (Float.int 3)
                 (Float.of_Q 0) (Float.of_Q 100) (Float.of_Q 0)
                 (Float.of_Q 0) (Float.of_Q 0) (Float.of_Q 0)
                 (Float.of_Q 1) in
  let old c := Float._init_forward_diffs_old c (Float.int 3)
                 (Float.of_Q 0) (Float.of_Q 100) (Float.of_Q 0)
                 (Float.of_Q 0) (Float.of_Q 0) (Float.of_Q 0)
                 (Float.of_Q 1) in
  let apart (f : Float.registers -> Float.cval) c :=
    Qabs (Float.value (f (new c)) - Float.value (f (old c))) in
  (apart Float.forward_diff_3 false == 46875 # 512000000 /\
   EPSILON demo_env < apart Float.forward_diff_4 false /\
   EPSILON demo_env < apart Float.forward_diff_3 false /\
   EPSILON demo_env < apart Float.forward_diff_2 false) /\
  (apart Float.forward_diff_3 true == 15625 # 256000000 /\
   EPSILON demo_env < apart Float.forward_diff_4 true /\
   EPSILON demo_env < apart Float.forward_diff_3 true /\
   EPSILON demo_env < apart Float.forward_diff_2 true).
Proof.
  intros new old apart. repeat split; vm_compute; reflexivity.
Qed.

(* ================================================================== *)
(** ** The executor entry *)

(** C10: on a buffer whose [move_state] is [MOVE_OFF], [mp_exec_aline]
    returns [STAT_NOOP] at once and hands back the machine it was given: no
    segment is prepped, and [mr], the buffers and the hold state are as they
    were. *)
Theorem exec_aline_move_off_is_noop (E : collaborators) (bf : nat) (s : machine) :
  Buf.move_state (buf bf s) = MOVE_OFF ->
  mp_exec_aline E bf s = Ret STAT_NOOP s.
Proof.
  intros Hoff. unfold mp_exec_aline. rewrite Hoff. reflexivity.
Qed.

Lemma exec_aline_move_off_is_noop_witness :
  Buf.move_state (buf 0 (two_alines MP_BUFFER_RUNNING MP_BUFFER_PREPPED MOVE_OFF))
  = MOVE_OFF /\
  mp_exec_aline demo_env 0 (two_alines MP_BUFFER_RUNNING MP_BUFFER_PREPPED MOVE_OFF)
  = Ret STAT_NOOP (two_alines MP_BUFFER_RUNNING MP_BUFFER_PREPPED MOVE_OFF).
Proof.
  split; [reflexivity|].
  apply exec_aline_move_off_is_noop. reflexivity.
Defined.

Lemma queue_report_next_empty (bf : nat) (s : machine) :
  queue (report_next_empty bf s) = queue s.
Proof. unfold report_next_empty. now destruct (_ <? _)%nat. Qed.

Lemma buf_report_next_empty (i bf : nat) (s : machine) :
  buf i (report_next_empty bf s) = buf i s.
Proof. unfold buf. now rewrite queue_report_next_empty. Qed.

Lemma exec_move_first_time_spec (bf : nat) (s : machine) :
  exec_move_first_time bf s =
  match Buf.buffer_state (buf bf s) with
  | MP_BUFFER_EMPTY => Ret (Some STAT_NOOP) (report_not_prepped s)
  | MP_BUFFER_PREPPED =>
      Ret (Some STAT_NOOP) (request_plan_of_prepped (report_next_empty bf s))
  | _ =>
      Ret None
        (log Ev_mp_planner_time_accounting
           (set_buf bf (fun b => b <| Buf.buffer_state := MP_BUFFER_RUNNING |>)
              (report_next_empty bf s)))
  end.
Proof.
  unfold exec_move_first_time.
  change (buffer_rank MP_BUFFER_PREPPED) with 1%nat.
  fold (report_next_empty bf s).
  rewrite buf_report_next_empty.
  destruct (Buf.buffer_state (buf bf s)); reflexivity.
Qed.

(** C7, as the code has it: for an aline run buffer that is not yet
    [RUNNING], a buffer below [PREPPED] makes the entry report an exception,
    call [st_prep_null] and return [STAT_NOOP] without requesting a plan; a
    next buffer below [PREPPED] is reported and execution continues; a
    [PREPPED] buffer gets a plan request and [STAT_NOOP] and stays in the
    queue as it is; only a [PLANNED] buffer is promoted to [RUNNING] and
    its callback run. *)
Theorem exec_move_by_buffer_state (E : collaborators) (s : machine) (bf : nat) :
  mp_get_run_buffer E s = Some bf ->
  (bf < List.length (queue s))%nat ->
  Buf.move_type (buf bf s) = MOVE_TYPE_ALINE ->
  match Buf.buffer_state (buf bf s) with
  | MP_BUFFER_EMPTY =>
      mp_exec_move E s = Ret STAT_NOOP (report_not_prepped s)
  | MP_BUFFER_PREPPED =>
      mp_exec_move E s
      = Ret STAT_NOOP (request_plan_of_prepped (report_next_empty bf s))
  | MP_BUFFER_PLANNED =>
      mp_exec_move E s
      = run_bf_func E bf (promote_to_running bf (report_next_empty bf s))
      /\ Buf.buffer_state
           (buf bf (promote_to_running bf (report_next_empty bf s)))
         = MP_BUFFER_RUNNING
  | MP_BUFFER_RUNNING => True
  end.
Proof.
  intros Hrun Hbf Htype.
  unfold mp_exec_move, fall_through, bind, exec_move_aline, bind.
  rewrite Hrun, Htype. cbn [moveType_beq].
  rewrite exec_move_first_time_spec.
  destruct (Buf.buffer_state (buf bf s)) eqn:Hst; cbn [mpBufferState_beq ret];
    try reflexivity; try exact I.
  split.
  - unfold promote_to_running, run_bf_func. cbv zeta.
    destruct (negb _ && negb _); reflexivity.
  - unfold promote_to_running. cbv zeta.
    assert (Hset : Buf.buffer_state
              (buf bf (set_buf bf
                 (fun b => b <| Buf.buffer_state := MP_BUFFER_RUNNING |>)
                 (report_next_empty bf s))) = MP_BUFFER_RUNNING).
    { rewrite buf_set_buf_same by (rewrite queue_report_next_empty; exact Hbf).
      reflexivity. }
    destruct (negb _ && negb _); exact Hset.
Qed.

Lemma exec_move_by_buffer_state_witness :
  let s := two_alines MP_BUFFER_PLANNED MP_BUFFER_PREPPED MOVE_NEW in
  mp_get_run_buffer demo_env s = Some 0%nat /\
  (0 < List.length (queue s))%nat /\
  Buf.move_type (buf 0 s) = MOVE_TYPE_ALINE /\
  mp_exec_move demo_env s
  = run_bf_func demo_env 0 (promote_to_running 0 (report_next_empty 0 s)) /\
  Buf.buffer_state (buf 0 (promote_to_running 0 (report_next_empty 0 s)))
  = MP_BUFFER_RUNNING.
Proof.
  intros s.
  assert (H1 : mp_get_run_buffer demo_env s = Some 0%nat) by reflexivity.
  assert (H2 : (0 < List.length (queue s))%nat) by (cbn; lia).
  assert (H3 : Buf.move_type (buf 0 s) = MOVE_TYPE_ALINE) by reflexivity.
  split; [exact H1|]. split; [exact H2|]. split; [exact H3|].
  exact (exec_move_by_buffer_state demo_env s 0 H1 H2 H3).
Defined.

(** The claim of C7 about a buffer below [PREPPED] fails: the entry
    returns [STAT_NOOP] after [st_prep_null], and no plan is requested. *)
Lemma exec_move_not_prepped_requests_no_plan :
  let s := two_alines MP_BUFFER_EMPTY MP_BUFFER_PREPPED MOVE_NEW in
  mp_get_run_buffer demo_env s = Some 0%nat /\
  Buf.move_type (buf 0 s) = MOVE_TYPE_ALINE /\
  Buf.buffer_state (buf 0 s) = MP_BUFFER_EMPTY /\
  trace s = [] /\
  ~ (exists s', mp_exec_move demo_env s = Ret STAT_NOOP s'
                /\ In Ev_st_request_plan_move (trace s')).
Proof.
  intros s. repeat split.
  intros (s' & Hrun & Hin).
  assert (Hs' : trace s' =
                [EvBKPT BK_exec_not_prepped;
                 Ev_rpt_exception (STAT_CODE 42) "mp_exec_move() buffer is not prepped";
                 Ev_st_prep_null]).
  { vm_compute in Hrun. injection Hrun as <-. reflexivity. }
  rewrite Hs' in Hin. cbn in Hin.
  repeat (destruct Hin as [Hin|Hin]; [discriminate Hin|]). exact Hin.
Qed.

(* ================================================================== *)
(** ** Short-section merging *)

Section Merging.
Variable E : collaborators.

Lemma merge_head_keeps (b : Blk.t) :
  total_length (merge_head E b) == total_length b /\
  Blk.exit_velocity (merge_head E b) = Blk.exit_velocity b /\
  Blk.cruise_velocity (merge_head E b) = Blk.cruise_velocity b /\
  Blk.cruise_jerk (merge_head E b) = Blk.cruise_jerk b.
Proof.
  unfold merge_head, total_length.
  destruct (negb _ && _); cbn; repeat split; try reflexivity. ring.
Qed.

Lemma merge_tail_keeps (b : Blk.t) :
  total_length (merge_tail E b) == total_length b /\
  Blk.exit_velocity (merge_tail E b) = Blk.exit_velocity b /\
  Blk.cruise_velocity (merge_tail E b) = Blk.cruise_velocity b /\
  Blk.cruise_jerk (merge_tail E b) = Blk.cruise_jerk b.
Proof.
  unfold merge_tail, total_length.
  destruct (negb _ && _); cbn; repeat split; try reflexivity. ring.
Qed.

(** The body check: it spins exactly on an all-body block that is too
    short, drops the body of a head/tail remnant, and otherwise moves the
    body into the head, the tail, or both. *)
Lemma merge_body_cases (entry_velocity : Q) (b : Blk.t) :
  if all_body_too_short E b then merge_body E entry_velocity b = None
  else exists b', merge_body E entry_velocity b = Some b' /\
    Blk.exit_velocity b' = Blk.exit_velocity b /\
    (if body_discarded E b
     then total_length b' == total_length b - Blk.body_length b
     else total_length b' == total_length b).
Proof.
  unfold all_body_too_short, body_discarded, body_too_short, merge_body, total_length.
  destruct (negb (fp_ZERO (EPSILON E) (Blk.body_length b))
            && Qltb (Blk.body_time b) (MIN_SEGMENT_TIME E)); cbn [andb].
  - destruct (fp_ZERO (EPSILON E) (Blk.cruise_jerk b)); cbn [negb andb].
    + destruct (Qltb 0 (Blk.tail_length b)); cbn [negb andb].
      * destruct (Qltb 0 (Blk.head_length b)); cbn [negb andb];
          eexists; (split; [reflexivity|]); cbn; (split; [reflexivity|]); field.
      * destruct (Qltb 0 (Blk.head_length b)); cbn [negb andb].
        -- eexists; (split; [reflexivity|]); cbn; (split; [reflexivity|]); ring.
        -- reflexivity.
    + eexists; (split; [reflexivity|]); cbn; (split; [reflexivity|]); ring.
  - eexists; (split; [reflexivity|]); (split; [reflexivity|]); reflexivity.
Qed.

Lemma merge_short_sections_cases (entry_velocity : Q) (b : Blk.t) :
  let b2 := merge_tail E (merge_head E b) in
  if all_body_too_short E b2 then merge_short_sections E entry_velocity b = None
  else exists b', merge_short_sections E entry_velocity b = Some b' /\
    Blk.exit_velocity b' = Blk.exit_velocity b /\
    (if body_discarded E b2
     then total_length b' == total_length b - Blk.body_length b2
     else total_length b' == total_length b).
Proof.
  intros b2. unfold merge_short_sections. fold b2.
  pose proof (merge_body_cases entry_velocity b2) as H.
  destruct (merge_head_keeps b) as (Hh & Hhe & _).
  destruct (merge_tail_keeps (merge_head E b)) as (Ht & Hte & _).
  fold b2 in Ht, Hte.
  destruct (all_body_too_short E b2); [exact H|].
  destruct H as (b' & Hb' & He & Hlen). exists b'. split; [exact Hb'|].
  split; [congruence|].
  destruct (body_discarded E b2); rewrite Hlen, Ht, Hh; reflexivity.
Qed.

(** Merging neither reads nor writes the [planned] flag. *)
Lemma merge_short_sections_planned (entry_velocity : Q) (b : Blk.t) (pl : bool) :
  merge_short_sections E entry_velocity (b <| Blk.planned := pl |>)
  = option_map (fun b' => b' <| Blk.planned := pl |>)
      (merge_short_sections E entry_velocity b).
Proof.
  destruct b.
  unfold merge_short_sections, merge_body, merge_tail, merge_head.
  blk_norm.
  repeat (destruct_innermost_if; blk_norm); reflexivity.
Qed.

(** Up to the merge, the setup leaves the block that [mr.p] pointed to as
    the block [mr.r] points to, with at most its [planned] flag cleared, and
    does not touch [mr.entry_velocity]. *)
Lemma new_move_start_blocks (bf : nat) (s : machine) :
  Mr.p (mr (new_move_start E bf s)) = Mr.p (mr s) /\
  Mr.bf (mr (new_move_start E bf s)) = Mr.bf (mr s) /\
  Mr.entry_velocity (mr (new_move_start E bf s)) = Mr.entry_velocity (mr s).
Proof.
  pose (Inv := fun x : machine =>
    Mr.p (mr x) = Mr.p (mr s) /\ Mr.bf (mr x) = Mr.bf (mr s) /\
    Mr.entry_velocity (mr x) = Mr.entry_velocity (mr s)).
  assert (H0 : Inv s) by (repeat split).
  change (Inv (new_move_start E bf s)).
  cbv beta delta [new_move_start].
  frame Inv.
Qed.

Lemma new_move_buffer_links_blocks (bf : nat) (s : machine) :
  Mr.r (mr (new_move_buffer_links E bf s)) = Mr.r (mr s) /\
  Mr.bf (mr (new_move_buffer_links E bf s)) = Mr.bf (mr s) /\
  Mr.entry_velocity (mr (new_move_buffer_links E bf s)) = Mr.entry_velocity (mr s).
Proof.
  pose (Inv := fun x : machine =>
    Mr.r (mr x) = Mr.r (mr s) /\ Mr.bf (mr x) = Mr.bf (mr s) /\
    Mr.entry_velocity (mr x) = Mr.entry_velocity (mr s)).
  assert (H0 : Inv s) by (repeat split).
  change (Inv (new_move_buffer_links E bf s)).
  cbv beta delta [new_move_buffer_links].
  frame Inv.
Qed.

Lemma new_move_switch_blocks_block (s : machine) :
  Mr.entry_velocity (mr (new_move_switch_blocks s)) = Mr.entry_velocity (mr s) /\
  exists pl, mr_r (new_move_switch_blocks s) = (mr_p s) <| Blk.planned := pl |>.
Proof.
  split; [reflexivity|].
  unfold new_move_switch_blocks, set_mr_p, set_blk, mr_r, mr_p, blk; cbn.
  destruct (Mr.p (mr s)), (Mr.bf (mr s)) as [b0 b1]; cbn;
    destruct (Blk.nx _); cbn;
    first [ now exists false
          | (exists (Blk.planned b0); destruct b0; reflexivity)
          | (exists (Blk.planned b1); destruct b1; reflexivity) ].
Qed.

Lemma new_move_runtime_block (bf : nat) (s : machine) :
  Mr.entry_velocity (mr (new_move_runtime E bf s)) = Mr.entry_velocity (mr s) /\
  exists pl, mr_r (new_move_runtime E bf s) = (mr_p s) <| Blk.planned := pl |>.
Proof.
  unfold new_move_runtime.
  destruct (new_move_start_blocks bf s) as (Hp & Hbf & Hev).
  revert Hp Hbf Hev. generalize (new_move_start E bf s). intros s1 Hp Hbf Hev.
  destruct (new_move_switch_blocks_block s1) as (Hev1 & pl & Hr1).
  revert Hev1 Hr1. generalize (new_move_switch_blocks s1). intros s2 Hev1 Hr1.
  destruct (new_move_buffer_links_blocks bf s2) as (Hr2 & Hbf2 & Hev2).
  split; [congruence|].
  exists pl. unfold mr_r, blk in *. rewrite Hr2, Hbf2, Hr1.
  unfold mr_p, blk. now rewrite Hp, Hbf.
Qed.

End Merging.

(** C4, as the code has it: when the setup of a new move returns - that
    is, unless the block is an all-body block still too short, where it
    spins - the block runtime keeps its [exit_velocity], and its total
    length [head + body + tail] is the one it came in with, except where
    the body of a head/tail remnant ([cruise_jerk != 0]) is discarded: then
    the total is short by that body. *)
Theorem new_move_merge_keeps_length (E : collaborators) (bf : nat) (s : machine) :
  let b := mr_p s in
  let b2 := merge_tail E (merge_head E b) in
  all_body_too_short E b2 = false ->
  exists s', exec_aline_new_move E bf s = Ret tt s' /\
    Blk.exit_velocity (mr_r s') = Blk.exit_velocity b /\
    (if body_discarded E b2
     then total_length (mr_r s') == total_length b - Blk.body_length b2
     else total_length (mr_r s') == total_length b).
Proof.
  intros b b2 Htrap.
  destruct (new_move_runtime_block E bf s) as (Hev & pl & Hr).
  pose proof (merge_short_sections_cases E (Mr.entry_velocity (mr s)) b) as Hm.
  cbv zeta in Hm. fold b2 in Hm. rewrite Htrap in Hm.
  destruct Hm as (b' & Hb' & Hexit & Hlen).
  cbv beta delta [exec_aline_new_move].
  revert Hev Hr. generalize (new_move_runtime E bf s). intros s1 Hev Hr.
  cbv beta zeta.
  rewrite Hr, Hev, merge_short_sections_planned.
  fold b. rewrite Hb'. cbn [option_map].
  eexists. split; [reflexivity|].
  pose (Inv := fun x : machine => mr_r x = b' <| Blk.planned := pl |>).
  match goal with
  | |- context [Blk.exit_velocity (mr_r ?X)] => assert (Hfin : Inv X)
  end.
  { assert (H0 : Inv (set_mr_r (fun _ => b' <| Blk.planned := pl |>) s1)).
    { unfold Inv, mr_r, set_mr_r, set_blk, blk; cbn. apply rd_wr_same. }
    revert H0.
    generalize (set_mr_r (fun _ => b' <| Blk.planned := pl |>) s1).
    intros s2 H0. frame Inv. }
  unfold Inv in Hfin. rewrite Hfin.
  split; [exact Hexit|]. exact Hlen.
Qed.

Lemma new_move_merge_keeps_length_witness :
  let s := with_planned_block short_head_blk in
  all_body_too_short demo_env
    (merge_tail demo_env (merge_head demo_env (mr_p s))) = false /\
  exists s', exec_aline_new_move demo_env 0 s = Ret tt s' /\
    Blk.exit_velocity (mr_r s') = Blk.exit_velocity short_head_blk /\
    total_length (mr_r s') == total_length short_head_blk.
Proof.
  intros s.
  assert (H : all_body_too_short demo_env
                (merge_tail demo_env (merge_head demo_env (mr_p s))) = false)
    by (vm_compute; reflexivity).
  split; [exact H|].
  exact (new_move_merge_keeps_length demo_env 0 s H).
Defined.

(** The claim of C4 fails where the body is discarded: a remnant with
    [cruise_jerk != 0], a body of length 1 too short to run and a tail of
    length 5 comes in with total length 6 and leaves the setup with 5. *)
Lemma new_move_merge_discards_body :
  let s := with_planned_block remnant_blk in
  exists s', exec_aline_new_move demo_env 0 s = Ret tt s' /\
    total_length (mr_p s) == 6 /\
    total_length (mr_r s') == 5 /\
    ~ total_length (mr_r s') == total_length (mr_p s).
Proof.
  intros s. eexists. split; [vm_compute; reflexivity|].
  repeat split; try (vm_compute; reflexivity).
  vm_compute. discriminate.
Qed.

(* ================================================================== *)
(** ** Group extension *)

(** C6, as the code has it: a pending exit-velocity change, without an
    extension, on a group that is not the planning group and is not the
    running group in its tail: if the exit velocity differs from cruise and
    [mp_get_target_length] returns a tail that is not shorter than the
    planned one, [_attempt_extension] writes the group's [exit_velocity]
    back into [first_block], clears [velocity_changed] and changes nothing
    else - no event, and the group's lengths and times as they were. *)
Theorem attempt_extension_reverts_in_inversion_zone
    (E : collaborators) (group : slot) (s : machine) :
  let g := grp group s in
  let first := Grp.first_block g in
  let tail_length :=
    mp_get_target_length E (Buf.exit_velocity (buf first s))
      (Grp.cruise_velocity g) (buf first s) in
  group <> Mr.p_group (mr s) ->
  ~ (group = Mr.r_group (mr s) /\ Mr.section (mr s) = SECTION_TAIL) ->
  fp_NE (EPSILON E) (Buf.exit_velocity (buf first s)) (Grp.cruise_velocity g) = true ->
  Qltb tail_length (Grp.tail_length g) = false ->
  _attempt_extension E group false true s
  = ((false, false),
     set_buf first (fun b => b <| Buf.exit_velocity := Grp.exit_velocity g |>) s).
Proof.
  intros g first tail_length Hp Htail Hne Hlong.
  assert (Hp' : Bool.eqb group (Mr.p_group (mr s)) = false)
    by (now apply Bool.eqb_false_iff).
  assert (Htail' : Bool.eqb group (Mr.r_group (mr s))
                   && moveSection_beq (Mr.section (mr s)) SECTION_TAIL = false).
  { apply andb_false_iff.
    destruct (Bool.eqb group (Mr.r_group (mr s))) eqn:Hg; [|now left].
    right. destruct (Mr.section (mr s)) eqn:Hs; try reflexivity.
    exfalso. apply Htail. split; [now apply Bool.eqb_prop|reflexivity]. }
  assert (Hnew : extension_new_tail E group first false true s
                 = (false, set_buf first
                      (fun b => b <| Buf.exit_velocity := Grp.exit_velocity g |>) s)).
  { cbv beta delta [extension_new_tail].
    fold g. rewrite Hne. cbv iota.
    zeta1. fold tail_length.
    change (false && ?x) with false. cbv iota.
    zeta1.
    change (false || ?x) with x.
    rewrite Hp'. fold g. rewrite Hlong.
    cbn [orb]. cbv iota. reflexivity. }
  cbv beta delta [_attempt_extension].
  change (negb (false || true)) with false. cbv iota.
  zeta1. fold g. fold first.
  rewrite Htail', Hnew. reflexivity.
Qed.

(** What the revert leaves: the group and the log are untouched. *)
Lemma revert_leaves_group_and_log (group : slot) (i : nat)
    (f : Buf.t -> Buf.t) (s : machine) :
  grp group (set_buf i f s) = grp group s /\
  trace (set_buf i f s) = trace s /\ mr (set_buf i f s) = mr s.
Proof. repeat split. Qed.

Lemma attempt_extension_reverts_in_inversion_zone_witness :
  let s := raised_exit 0 false 0 in
  let g := grp false s in
  false <> Mr.p_group (mr s) /\
  ~ (false = Mr.r_group (mr s) /\ Mr.section (mr s) = SECTION_TAIL) /\
  fp_NE (EPSILON demo_env) (Buf.exit_velocity (buf 0 s)) (Grp.cruise_velocity g)
  = true /\
  Qltb (mp_get_target_length demo_env (Buf.exit_velocity (buf 0 s))
          (Grp.cruise_velocity g) (buf 0 s)) (Grp.tail_length g) = false /\
  _attempt_extension demo_env false false true s
  = ((false, false),
     set_buf 0 (fun b => b <| Buf.exit_velocity := Grp.exit_velocity g |>) s).
Proof.
  intros s g.
  assert (H1 : false <> Mr.p_group (mr s)) by discriminate.
  assert (H2 : ~ (false = Mr.r_group (mr s) /\ Mr.section (mr s) = SECTION_TAIL))
    by (intros [_ H]; discriminate H).
  assert (H3 : fp_NE (EPSILON demo_env) (Buf.exit_velocity (buf 0 s))
                 (Grp.cruise_velocity g) = true) by reflexivity.
  assert (H4 : Qltb (mp_get_target_length demo_env (Buf.exit_velocity (buf 0 s))
                 (Grp.cruise_velocity g) (buf 0 s)) (Grp.tail_length g) = false)
    by reflexivity.
  repeat (split; [assumption|]).
  exact (attempt_extension_reverts_in_inversion_zone demo_env false s H1 H2 H3 H4).
Defined.

(** The claim of C6 fails for the planning group: with no extension, the
    exit velocity of the first block raised from 0 to 10 and a tail
    returned (5.2178) that is longer than the planned one (5), the longer
    tail is accepted; [velocity_changed] stays set and the exit velocity of
    the first block is not reverted. *)
Lemma attempt_extension_planning_group_accepts_longer_tail :
  let s := raised_exit 0 true 1 in
  let g := grp true s in
  let r := _attempt_extension demo_env true false true s in
  fp_NE (EPSILON demo_env) (Buf.exit_velocity (buf 1 s)) (Grp.cruise_velocity g)
  = true /\
  Qltb (mp_get_target_length demo_env (Buf.exit_velocity (buf 1 s))
          (Grp.cruise_velocity g) (buf 1 s)) (Grp.tail_length g) = false /\
  snd (fst r) = true /\
  Grp.exit_velocity g == 0 /\
  Buf.exit_velocity (buf 1 (snd r)) == 10 /\
  Grp.tail_length g == 5 /\
  Grp.tail_length (grp true (snd r)) == 5.2178.
Proof.
  vm_compute. repeat split.
Qed.

(** C9: the code reaches its own breakpoints.  A planning group with a
    head of 5, no body and a tail of 5, all non-negative, whose first block
    has had its exit velocity raised from 0 to 10: [mp_get_target_length]
    returns 5.2178 for the smaller velocity change (the inversion case the
    source warns of), [_attempt_extension] takes the longer tail because
    the group is the planning group, the body becomes -0.2178, and the
    breakpoint at the end of [_attempt_extension] and the ones before and
    after [mp_calculate_block] are reached. *)
Lemma plan_move_reaches_negative_length_bkpt :
  let s := raised_exit 0 true 1 in
  lengths_nonneg (grp true s) /\ lengths_nonneg (grp false s) /\
  trace s = [] /\
  exists s', mp_plan_move demo_env 5 s = Ret STAT_OK s' /\
    trace s' = [EvBKPT BK_extend_negative; EvBKPT BK_block_negative_before;
                EvBKPT BK_block_negative_after] /\
    Grp.body_length (grp true s') == -0.2178.
Proof.
  intros s.
  split; [vm_compute; repeat split; discriminate|].
  split; [vm_compute; repeat split; discriminate|].
  split; [reflexivity|].
  eexists. split; [vm_compute; reflexivity|].
  split; vm_compute; reflexivity.
Qed.

(* ================================================================== *)
(** ** What the planner writes *)

(** A property [P] of machines that no write to the queue or to the log
    disturbs, nor a write to a group runtime in a slot [okgrp] or to a block
    runtime in a slot [okblk], and that fixes the two group pointers, is kept
    by the parts of the planner when they are given such slots. *)
Section PlannerFrame.
Variable E : collaborators.
Variable P : machine -> Prop.
Variables okgrp okblk : slot -> Prop.
Variables rg0 pg0 r0 p0 : slot.
Hypothesis P_ptr : forall x, P x ->
  Mr.r_group (mr x) = rg0 /\ Mr.p_group (mr x) = pg0.
Hypothesis P_blk_ptr : forall x, P x -> Mr.r (mr x) = r0 /\ Mr.p (mr x) = p0.
Hypothesis ok_pg : forall group, okgrp group -> group = rg0 -> okgrp pg0.
Hypothesis P_buf : forall i f x, P x -> P (set_buf i f x).
Hypothesis P_log : forall e x, P x -> P (log e x).
Hypothesis P_queue : forall q x, P x -> P (x <| queue := q |>).
Hypothesis P_grp : forall i f x, okgrp i -> P x -> P (set_grp i f x).
Hypothesis P_blk : forall i f x, okblk i -> P x -> P (set_blk i f x).

Ltac frame_leaf :=
  first [ assumption
        | apply P_buf; assumption
        | apply P_log; assumption
        | apply P_queue; assumption
        | apply P_grp; assumption
        | apply P_blk; assumption ].

Lemma frame_extension_new_tail (group : slot) (first : nat) (ge vc : bool)
    (s : machine) :
  okgrp group -> P s -> P (snd (extension_new_tail E group first ge vc s)).
Proof.
  intros Hok Hs.
  pose (Inv := fun r : bool * machine => P (snd r)).
  change (Inv (extension_new_tail E group first ge vc s)).
  cbv beta delta [extension_new_tail].
  frame_to P Inv ltac:(idtac; frame_leaf).
Qed.

Lemma frame_extension_replan (group : slot) (first : nat) (s : machine) :
  okgrp group -> P s -> P (extension_replan group first s).
Proof.
  intros Hok Hs.
  cbv beta delta [extension_replan].
  frame_to P P
    ltac:(idtac; first
      [ frame_leaf
      | match goal with
        | H : P ?x, Hc : Bool.eqb group (Mr.r_group (mr ?x)) = true
          |- P (set_mr_p_group _ ?x) =>
            unfold set_mr_p_group;
            destruct (P_ptr x H) as [Hr Hp]; rewrite Hp;
            apply P_grp; [|exact H];
            apply (ok_pg group Hok);
            apply Bool.eqb_prop in Hc; congruence
        end ]).
Qed.

Lemma frame_attempt_extension (group : slot) (ge vc : bool) (s : machine) :
  okgrp group -> P s -> P (snd (_attempt_extension E group ge vc s)).
Proof.
  intros Hok Hs.
  cbv beta delta [_attempt_extension].
  destruct (negb (ge || vc)); [exact Hs|].
  zeta1.
  destruct (Bool.eqb group (Mr.r_group (mr s)) && _).
  - destruct ge; [apply P_log|]; exact Hs.
  - pose proof (frame_extension_new_tail group
                  (Grp.first_block (grp group s)) ge vc s Hok Hs) as H1.
    destruct (extension_new_tail E group _ ge vc s) as [vc1 s1].
    cbn [snd] in H1.
    destruct (ge || vc1); cbn [snd]; [|exact H1].
    now apply frame_extension_replan.
Qed.

Lemma frame_detect_and_extend (group : slot) (ge vc : bool) (s : machine) :
  okgrp group -> P s -> P (snd (detect_and_extend E group ge vc s)).
Proof.
  intros Hok Hs.
  cbv beta delta [detect_and_extend].
  zeta1. zeta1.
  abstract_let P ltac:(idtac; frame_to P P ltac:(idtac; frame_leaf)).
  zeta1.
  now apply frame_attempt_extension.
Qed.

Lemma frame_plan_lock_group (bf : nat) (group : slot) (bf_lookahead : nat)
    (s : machine) :
  okgrp group -> P s -> P (plan_lock_group bf group bf_lookahead s).
Proof.
  intros Hok Hs.
  cbv beta delta [plan_lock_group].
  frame_to P P ltac:(idtac; frame_leaf).
Qed.

Lemma frame_plan_disperse (bf : nat) (group block : slot) (v a j : Q)
    (s : machine) :
  okgrp group -> okblk block -> P s ->
  P (snd (plan_disperse E bf group block v a j s)).
Proof.
  intros Hg Hb Hs.
  cbv beta delta [plan_disperse].
  destruct (_ && _ && _); [|exact Hs].
  abstract_let P ltac:(idtac; frame_to P P ltac:(idtac; frame_leaf)).
  destruct (mp_calculate_block E _ _ _ _ _ _ _) as [status [[q g] b]].
  pose (Inv := fun r : stat_t * machine => P (snd r)).
  match goal with |- P (snd ?X) => change (Inv X) end.
  frame_to P Inv ltac:(idtac; frame_leaf).
Qed.

Lemma frame_plan_block (fuel bf : nat) (group block : slot) (v a j : Q)
    (s : machine) :
  okgrp group -> okblk block -> P s ->
  P (final (plan_block E fuel bf group block v a j s)).
Proof.
  intros Hg Hb Hs.
  cbv beta delta [plan_block].
  destruct (_ <? _)%nat; [exact Hs|].
  abstract_let P ltac:(idtac;
    lazymatch goal with
    | |- P (if ?c then _ else _) => destruct c; [|exact Hs]
    end;
    destruct (mp_calculate_ramps E _ _ _ _) as [q g];
    frame_to P P ltac:(idtac; frame_leaf)).
  destruct (groupState_beq _ _).
  - zeta1. zeta1.
    destruct (lookahead _ _ _ _) as [bf_lookahead|]; [|exact H].
    pose proof (frame_plan_disperse bf group block v a j
                  (plan_lock_group bf group bf_lookahead s0) Hg Hb
                  (frame_plan_lock_group bf group bf_lookahead s0 Hg H)) as Hd.
    destruct (plan_disperse E bf group block v a j _) as [status s1].
    exact Hd.
  - pose proof (frame_plan_disperse bf group block v a j s0 Hg Hb H) as Hd.
    destruct (plan_disperse E bf group block v a j s0) as [status s1].
    exact Hd.
Qed.

Lemma frame_plan_select_group (s : machine) :
  P s -> okgrp pg0 ->
  (Grp.group_state (mr_r_group s) <> GROUP_OFF -> okgrp rg0) ->
  P (snd (plan_select_group E s)) /\
  okgrp (fst (fst (plan_select_group E s))).
Proof.
  intros Hs Hpg Hrg.
  destruct (P_ptr s Hs) as [Hrg_s Hpg_s].
  cbv beta delta [plan_select_group]. zeta1. zeta1.
  destruct (groupState_beq (Grp.group_state (mr_r_group s)) GROUP_OFF) eqn:Hoff;
    cbn [negb]; cbv iota.
  - (* running group OFF: no detection on it *)
    rewrite Hoff. cbn [negb andb orb]. cbv iota.
    destruct (negb _).
    + pose proof (frame_detect_and_extend (Mr.p_group (mr s)) false false s) as Hd.
      rewrite Hpg_s in *.
      destruct (detect_and_extend E pg0 false false s) as [flags s1].
      cbn [fst snd] in *. specialize (Hd Hpg Hs).
      split; [exact Hd|]. now destruct (P_ptr s1 Hd) as [_ ->].
    + cbn [fst snd]. rewrite Hpg_s. now split.
  - assert (Hok : okgrp rg0).
    { apply Hrg. intros H. rewrite H in Hoff. discriminate Hoff. }
    pose proof (frame_detect_and_extend (Mr.r_group (mr s)) false false s) as Hd.
    rewrite Hrg_s in *.
    destruct (detect_and_extend E rg0 false false s) as [[ge vc] s1].
    cbn [fst snd] in Hd. specialize (Hd Hok Hs).
    destruct (P_ptr s1 Hd) as [Hrg1 Hpg1].
    destruct (ge || vc || _).
    + cbn [fst snd]. rewrite Hrg1. now split.
    + destruct (negb _).
      * pose proof (frame_detect_and_extend (Mr.p_group (mr s1)) ge vc s1) as Hd2.
        rewrite Hpg1 in *.
        destruct (detect_and_extend E pg0 ge vc s1) as [flags s2].
        cbn [fst snd] in *. specialize (Hd2 Hpg Hd).
        split; [exact Hd2|]. now destruct (P_ptr s2 Hd2) as [_ ->].
      * cbn [fst snd]. rewrite Hpg1. now split.
Qed.

Lemma frame_plan_choose_buffer (fuel bf : nat) (group : slot) (ge vc : bool)
    (s : machine) :
  P s -> okgrp group -> okblk p0 ->
  (mpBufferState_beq (Buf.buffer_state (buf bf s)) MP_BUFFER_RUNNING
   && ((ge || vc) && Bool.eqb group (Mr.r_group (mr s))) = true -> okblk r0) ->
  P (final (plan_choose_buffer E fuel bf group ge vc s)).
Proof.
  intros Hs Hg Hp0 Hr0.
  destruct (P_blk_ptr s Hs) as [Hr_s Hp_s].
  cbv beta delta [plan_choose_buffer]. zeta1. zeta1. zeta1. zeta1.
  rewrite Hr_s, Hp_s.
  destruct (mpBufferState_beq _ _); cbv iota; [|now apply frame_plan_block].
  cbn [andb] in Hr0.
  destruct ((ge || vc) && Bool.eqb group (Mr.r_group (mr s))); cbv iota.
  - apply frame_plan_block; [exact Hg | now apply Hr0 | exact Hs].
  - clear Hr0.
    destruct (Bool.eqb group (Mr.p_group (mr s)) && _); cbv iota; [exact Hs|].
    zeta1. destruct (negb _); cbv iota; [now apply P_buf|].
    now apply frame_plan_block.
Qed.

Lemma frame_mp_plan_move (fuel : nat) (s : machine) :
  P s -> okgrp pg0 -> okblk p0 ->
  (Grp.group_state (mr_r_group s) <> GROUP_OFF -> okgrp rg0) ->
  (replans_running_block E s = true -> okblk r0) ->
  P (final (mp_plan_move E fuel s)).
Proof.
  intros Hs Hpg Hp0 Hrg Hr0.
  unfold replans_running_block in Hr0.
  cbv beta delta [mp_plan_move].
  destruct (mp_get_run_buffer E s) as [bf|]; [|now apply P_log].
  destruct (moveType_beq (Buf.move_type (buf bf s)) MOVE_TYPE_ALINE);
    cbn [negb andb] in *; cbv iota; [|now apply P_buf].
  destruct (frame_plan_select_group s Hs Hpg Hrg) as [Hsel Hok].
  destruct (plan_select_group E s) as [[group [ge vc]] s1].
  cbn [fst snd] in Hsel, Hok.
  now apply frame_plan_choose_buffer.
Qed.

End PlannerFrame.

(* ================================================================== *)
(** ** What the planner writes in the queue *)

Lemma map_update_nth_keep {A B} (g : A -> B) (i : nat) (f : A -> A)
    (l : list A) :
  (forall a, g (f a) = g a) -> map g (update_nth i f l) = map g l.
Proof.
  intros Hf. revert i. induction l as [| x l IH]; intros [| i]; cbn;
    try reflexivity.
  - now rewrite Hf.
  - now rewrite IH.
Qed.

Lemma map_update_nth_set {A B} (g : A -> B) (i : nat) (f : A -> A) (v : B)
    (l : list A) :
  (forall a, g (f a) = v) ->
  map g (update_nth i f l) = update_nth i (fun _ => v) (map g l).
Proof.
  intros Hf. revert i. induction l as [| x l IH]; intros [| i]; cbn;
    try reflexivity.
  - now rewrite Hf.
  - now rewrite IH.
Qed.

Lemma buffer_state_nth (i : nat) (s : machine) :
  Buf.buffer_state (buf i s) = nth i (buffer_states s) MP_BUFFER_EMPTY.
Proof.
  unfold buf, buffer_states.
  now rewrite <- (map_nth Buf.buffer_state (queue s) empty_buf i).
Qed.

Lemma buffer_link_nth (i : nat) (s : machine) :
  Buf.nx (buf i s) = nth i (buffer_links s) 0%nat.
Proof.
  unfold buf, buffer_links.
  now rewrite <- (map_nth Buf.nx (queue s) empty_buf i).
Qed.

Lemma Forall2_update_nth_r {A B} (R : A -> B -> Prop) (j : nat) (v d : B)
    (l : list A) (l' : list B) :
  Forall2 R l l' ->
  (forall a, R a (nth j l' d) -> R a v) ->
  Forall2 R l (update_nth j (fun _ => v) l').
Proof.
  intros H. revert j. induction H as [| a b l l' Hab H IH]; intros j Hv.
  - destruct j; constructor.
  - destruct j as [| j]; cbn.
    + constructor; [now apply Hv | exact H].
    + constructor; [exact Hab | now apply IH].
Qed.

Lemma Forall2_nth {A B} (R : A -> B -> Prop) (i : nat) (da : A) (db : B)
    (l : list A) (l' : list B) :
  Forall2 R l l' -> R da db -> R (nth i l da) (nth i l' db).
Proof.
  intros H Hd. revert i. induction H as [| a b l l' Hab H IH]; intros [| i];
    cbn; auto.
Qed.

Lemma nth_update_nth_cases {A} (i j : nat) (v d : A) (l : list A) :
  nth i (update_nth j (fun _ => v) l) d = nth i l d \/
  (i = j /\ nth i (update_nth j (fun _ => v) l) d = v).
Proof.
  revert i j. induction l as [| x l IH]; intros i j.
  - left. now destruct j.
  - destruct j as [| j], i as [| i]; cbn; auto.
    destruct (IH i j) as [H | [-> H]]; auto.
Qed.

Lemma only_downgrades_refl (s : machine) : only_downgrades s s.
Proof.
  split; [reflexivity |].
  unfold buffer_states. induction (queue s); constructor; [now left | auto].
Qed.

Lemma only_downgrades_field (s x : machine) (i : nat) (f : Buf.t -> Buf.t) :
  (forall b, Buf.nx (f b) = Buf.nx b) ->
  (forall b, Buf.buffer_state (f b) = Buf.buffer_state b) ->
  only_downgrades s x -> only_downgrades s (set_buf i f x).
Proof.
  intros Hn Hs [Hl Hd]. unfold only_downgrades, buffer_links, buffer_states.
  change (queue (set_buf i f x)) with (update_nth i f (queue x)).
  rewrite !map_update_nth_keep by assumption. now split.
Qed.

Lemma only_downgrades_prepped (s x : machine) (i : nat) :
  Buf.buffer_state (buf i x) = MP_BUFFER_PLANNED ->
  only_downgrades s x ->
  only_downgrades s
    (set_buf i (fun b => b <| Buf.buffer_state := MP_BUFFER_PREPPED |>) x).
Proof.
  intros Hp [Hl Hd]. unfold only_downgrades, buffer_links, buffer_states.
  change (queue (set_buf i ?f x)) with (update_nth i f (queue x)).
  rewrite map_update_nth_keep by (intros b; now destruct b).
  split; [exact Hl |].
  rewrite (map_update_nth_set Buf.buffer_state i _ MP_BUFFER_PREPPED)
    by (intros b; now destruct b).
  apply Forall2_update_nth_r with (d := MP_BUFFER_EMPTY); [exact Hd |].
  intros a Ha. rewrite buffer_state_nth in Hp. unfold buffer_states in Hp.
  rewrite Hp in Ha.
  destruct Ha as [Ha | [_ Ha]]; [| discriminate].
  right. now split.
Qed.

Section PlannerQueue.
Variable E : collaborators.
Variable s : machine.

Ltac downgrade_leaf :=
  lazymatch goal with
  | H : only_downgrades s ?x
    |- only_downgrades s
         (set_buf ?i (fun b => b <| Buf.buffer_state := MP_BUFFER_PREPPED |>)
            ?x) =>
      apply only_downgrades_prepped; [| exact H];
      match goal with
      | Hc : mpBufferState_beq (Buf.buffer_state ?b) MP_BUFFER_PLANNED = true
        |- _ => revert Hc; destruct (Buf.buffer_state b);
                (reflexivity || discriminate)
      end
  | H : only_downgrades s ?x |- only_downgrades s (set_buf _ _ ?x) =>
      apply only_downgrades_field;
      [ intros b; now destruct b | intros b; now destruct b | exact H ]
  | H : only_downgrades s ?x |- only_downgrades s _ => exact H
  end.

Lemma queue_extension_new_tail (group : slot) (first : nat) (ge vc : bool)
    (x : machine) :
  only_downgrades s x ->
  only_downgrades s (snd (extension_new_tail E group first ge vc x)).
Proof.
  intros Hx.
  pose (Inv := fun r : bool * machine => only_downgrades s (snd r)).
  change (Inv (extension_new_tail E group first ge vc x)).
  cbv beta delta [extension_new_tail].
  frame_to (only_downgrades s) Inv ltac:(idtac; downgrade_leaf).
Qed.

Lemma queue_extension_replan (group : slot) (first : nat) (x : machine) :
  only_downgrades s x -> only_downgrades s (extension_replan group first x).
Proof.
  intros Hx.
  cbv beta delta [extension_replan].
  frame_to (only_downgrades s) (only_downgrades s)
    ltac:(idtac; downgrade_leaf).
Qed.

Lemma queue_attempt_extension (group : slot) (ge vc : bool) (x : machine) :
  only_downgrades s x ->
  only_downgrades s (snd (_attempt_extension E group ge vc x)).
Proof.
  intros Hx.
  cbv beta delta [_attempt_extension].
  destruct (negb (ge || vc)); [exact Hx |].
  zeta1.
  destruct (Bool.eqb group (Mr.r_group (mr x)) && _).
  - destruct ge; exact Hx.
  - pose proof (queue_extension_new_tail group
                  (Grp.first_block (grp group x)) ge vc x Hx) as H1.
    destruct (extension_new_tail E group _ ge vc x) as [vc1 x1].
    cbn [snd] in H1.
    destruct (ge || vc1); cbn [snd]; [| exact H1].
    now apply queue_extension_replan.
Qed.

Lemma queue_detect_and_extend (group : slot) (ge vc : bool) (x : machine) :
  only_downgrades s x ->
  only_downgrades s (snd (detect_and_extend E group ge vc x)).
Proof.
  intros Hx.
  cbv beta delta [detect_and_extend].
  zeta1. zeta1.
  abstract_let (only_downgrades s)
    ltac:(idtac; frame_to (only_downgrades s) (only_downgrades s)
                   ltac:(idtac; downgrade_leaf)).
  zeta1.
  now apply queue_attempt_extension.
Qed.

Lemma queue_plan_select_group :
  only_downgrades s (snd (plan_select_group E s)).
Proof.
  pose proof (only_downgrades_refl s) as Hs.
  cbv beta delta [plan_select_group]. zeta1. zeta1.
  destruct (negb (groupState_beq (Grp.group_state (mr_r_group s)) GROUP_OFF)).
  - pose proof (queue_detect_and_extend (Mr.r_group (mr s)) false false s Hs)
      as Hd.
    destruct (detect_and_extend E (Mr.r_group (mr s)) false false s)
      as [[ge vc] s1].
    cbn [snd] in Hd.
    destruct (ge || vc || _); [exact Hd |].
    destruct (negb _); [| exact Hd].
    pose proof (queue_detect_and_extend (Mr.p_group (mr s1)) ge vc s1 Hd)
      as Hd2.
    destruct (detect_and_extend E (Mr.p_group (mr s1)) ge vc s1)
      as [flags s2].
    exact Hd2.
  - destruct (false || false || _); [exact Hs |].
    destruct (negb _); [| exact Hs].
    pose proof (queue_detect_and_extend (Mr.p_group (mr s)) false false s Hs)
      as Hd.
    destruct (detect_and_extend E (Mr.p_group (mr s)) false false s)
      as [flags s1].
    exact Hd.
Qed.

End PlannerQueue.

Lemma buffer_states_field (x : machine) (i : nat) (f : Buf.t -> Buf.t) :
  (forall b, Buf.buffer_state (f b) = Buf.buffer_state b) ->
  buffer_states (set_buf i f x) = buffer_states x.
Proof.
  intros Hs. unfold buffer_states.
  change (queue (set_buf i f x)) with (update_nth i f (queue x)).
  now rewrite map_update_nth_keep.
Qed.

Lemma buffer_states_planned (x : machine) (i : nat) :
  buffer_states
    (set_buf i (fun b => b <| Buf.buffer_state := MP_BUFFER_PLANNED |>) x)
  = update_nth i (fun _ => MP_BUFFER_PLANNED) (buffer_states x).
Proof.
  unfold buffer_states.
  change (queue (set_buf i ?f x)) with (update_nth i f (queue x)).
  apply map_update_nth_set. intros b. now destruct b.
Qed.

Lemma plans_buffer_field (t : nat) (s x : machine) (i : nat)
    (f : Buf.t -> Buf.t) :
  (forall b, Buf.buffer_state (f b) = Buf.buffer_state b) ->
  plans_buffer t s x -> plans_buffer t s (set_buf i f x).
Proof.
  intros Hf. unfold plans_buffer. now rewrite buffer_states_field.
Qed.

Lemma update_nth_twice {A} (i : nat) (v : A) (l : list A) :
  update_nth i (fun _ => v) (update_nth i (fun _ => v) l)
  = update_nth i (fun _ => v) l.
Proof.
  revert i. induction l as [| x l IH]; intros [| i]; cbn; try reflexivity.
  now rewrite IH.
Qed.

Lemma plans_buffer_planned (t : nat) (s x : machine) :
  plans_buffer t s x ->
  plans_buffer t s
    (set_buf t (fun b => b <| Buf.buffer_state := MP_BUFFER_PLANNED |>) x).
Proof.
  unfold plans_buffer. rewrite buffer_states_planned.
  intros [H | H]; rewrite H; right; [reflexivity | apply update_nth_twice].
Qed.

Section PlannerPlans.
Variable E : collaborators.
Hypothesis E_keeps : keeps_buffer_states E.
Variable s : machine.

Ltac states_leaf :=
  lazymatch goal with
  | H : same_states s ?x |- same_states s (set_buf _ _ ?x) =>
      unfold same_states; rewrite buffer_states_field;
      [ exact H | intros b; now destruct b ]
  | H : same_states s ?x |- same_states s _ => exact H
  end.

Ltac plans_leaf bf :=
  lazymatch goal with
  | H : plans_buffer bf s ?x
    |- plans_buffer bf s
         (set_buf bf (fun b => b <| Buf.buffer_state := MP_BUFFER_PLANNED |>)
            ?x) =>
      apply plans_buffer_planned; exact H
  | H : plans_buffer bf s ?x |- plans_buffer bf s (set_buf _ _ ?x) =>
      apply plans_buffer_field; [intros b; now destruct b | exact H]
  | H : plans_buffer bf s ?x |- plans_buffer bf s _ => exact H
  end.

Lemma queue_plan_lock_group (bf : nat) (group : slot) (bf_lookahead : nat)
    (x : machine) :
  same_states s x -> same_states s (plan_lock_group bf group bf_lookahead x).
Proof.
  intros Hx.
  cbv beta delta [plan_lock_group].
  frame_to (same_states s) (same_states s) ltac:(idtac; states_leaf).
Qed.

Lemma queue_plan_disperse (bf : nat) (group block : slot) (v a j : Q)
    (x : machine) :
  same_states s x ->
  plans_buffer bf s (snd (plan_disperse E bf group block v a j x)).
Proof.
  intros Hx.
  cbv beta delta [plan_disperse].
  destruct (_ && _ && _); [| now left].
  abstract_let (same_states s)
    ltac:(idtac; frame_to (same_states s) (same_states s)
                   ltac:(idtac; states_leaf)).
  pose proof (proj2 E_keeps (queue s0) bf (grp group s0) (blk block s0) v a j)
    as Hq.
  destruct (mp_calculate_block E _ _ _ _ _ _ _) as [status [[q g] b]].
  cbn [fst snd] in Hq.
  assert (H1 : same_states s (s0 <| queue := q |>)).
  { unfold same_states, buffer_states in *. cbn [queue set set_queue].
    now rewrite <- H. }
  assert (H2 : plans_buffer bf s (s0 <| queue := q |>)) by now left.
  clear H1. revert H2. generalize (s0 <| queue := q |>). intros s1 H1.
  pose (Inv := fun r : stat_t * machine => plans_buffer bf s (snd r)).
  match goal with |- plans_buffer bf s (snd ?X) => change (Inv X) end.
  frame_to (plans_buffer bf s) Inv ltac:(idtac; plans_leaf bf).
Qed.

Lemma queue_plan_block (fuel bf : nat) (group block : slot) (v a j : Q)
    (x : machine) :
  same_states s x ->
  plans_buffer bf s (final (plan_block E fuel bf group block v a j x)).
Proof.
  intros Hx.
  cbv beta delta [plan_block].
  destruct (_ <? _)%nat; [now left |].
  abstract_let (same_states s) ltac:(idtac;
    lazymatch goal with
    | |- same_states s (if ?c then _ else _) => destruct c; [| exact Hx]
    end;
    pose proof (proj1 E_keeps (queue x) bf (grp group x) v) as Hq;
    destruct (mp_calculate_ramps E _ _ _ _) as [q g];
    cbn [fst] in Hq;
    assert (H1 : same_states s (x <| queue := q |>))
      by (unfold same_states, buffer_states in *; cbn [queue set set_queue];
          now rewrite <- Hx);
    revert H1; generalize (x <| queue := q |>); intros s1 H1;
    frame_to (same_states s) (same_states s) ltac:(idtac; states_leaf)).
  destruct (groupState_beq _ _).
  - zeta1. zeta1.
    destruct (lookahead _ _ _ _) as [bf_lookahead |]; [| now left].
    pose proof (queue_plan_disperse bf group block v a j
                  (plan_lock_group bf group bf_lookahead s0)
                  (queue_plan_lock_group bf group bf_lookahead s0 H)) as Hd.
    destruct (plan_disperse E bf group block v a j _) as [status s1].
    exact Hd.
  - pose proof (queue_plan_disperse bf group block v a j s0 H) as Hd.
    destruct (plan_disperse E bf group block v a j s0) as [status s1].
    exact Hd.
Qed.

Lemma queue_plan_choose_buffer (fuel bf : nat) (group : slot) (ge vc : bool) :
  plans_buffer bf s (final (plan_choose_buffer E fuel bf group ge vc s)) \/
  plans_buffer (Buf.nx (buf bf s)) s
    (final (plan_choose_buffer E fuel bf group ge vc s)).
Proof.
  assert (Hs : same_states s s) by reflexivity.
  cbv beta delta [plan_choose_buffer]. cbv zeta.
  destruct (mpBufferState_beq _ _); cbv iota;
    [| left; now apply queue_plan_block].
  destruct ((ge || vc) && Bool.eqb group (Mr.r_group (mr s))); cbv iota.
  - left. now apply queue_plan_block.
  - lazymatch goal with
    | |- context [if ?c then Ret STAT_NOOP s else _] => destruct c
    end; cbv iota; [left; now left |].
    right.
    lazymatch goal with
    | |- context [if ?c then Ret STAT_OK _ else _] => destruct c
    end; cbv iota.
    + right. apply buffer_states_planned.
    + now apply queue_plan_block.
Qed.

End PlannerPlans.

(** The states of the buffers after [mp_plan_move]: each is as it was, or
    has gone back from [PLANNED] to [PREPPED], or is [PLANNED] and the
    buffer is the run buffer or the one after it. *)
Lemma queue_mp_plan_move (E : collaborators) (fuel : nat) (s : machine)
    (i : nat) :
  keeps_buffer_states E ->
  let old := Buf.buffer_state (buf i s) in
  let new := Buf.buffer_state (buf i (final (mp_plan_move E fuel s))) in
  downgraded old new \/ (new = MP_BUFFER_PLANNED /\ planned_buffer E s i).
Proof.
  intros HE old new. subst old new.
  unfold planned_buffer.
  cbv beta delta [mp_plan_move].
  destruct (mp_get_run_buffer E s) as [bf |]; [| left; now left].
  destruct (negb (moveType_beq (Buf.move_type (buf bf s)) MOVE_TYPE_ALINE)).
  - cbv beta iota delta [final].
    rewrite !buffer_state_nth, buffer_states_planned.
    destruct (nth_update_nth_cases i bf MP_BUFFER_PLANNED MP_BUFFER_EMPTY
                (buffer_states s)) as [H | [Hi H]]; rewrite H.
    + left. now left.
    + right. split; [reflexivity |]. exists bf. split; [reflexivity |].
      now left.
  - pose proof (queue_plan_select_group E s) as H1.
    destruct (plan_select_group E s) as [[group [ge vc]] s1].
    cbn [snd] in H1. destruct H1 as [Hl Hd].
    assert (Hdi : downgraded (Buf.buffer_state (buf i s))
                    (Buf.buffer_state (buf i s1))).
    { rewrite !buffer_state_nth.
      apply Forall2_nth; [exact Hd | now left]. }
    assert (Hnx : Buf.nx (buf bf s1) = Buf.nx (buf bf s))
      by (rewrite !buffer_link_nth; now rewrite Hl).
    pose proof (queue_plan_choose_buffer E HE s1 fuel bf group ge vc) as H2.
    rewrite Hnx in H2.
    rewrite (buffer_state_nth i (final _)).
    assert (Hcase : forall t,
              plans_buffer t s1
                (final (plan_choose_buffer E fuel bf group ge vc s1)) ->
              (t = bf \/ t = Buf.nx (buf bf s)) ->
              downgraded (Buf.buffer_state (buf i s))
                (nth i (buffer_states
                          (final (plan_choose_buffer E fuel bf group ge vc s1)))
                   MP_BUFFER_EMPTY) \/
              (nth i (buffer_states
                        (final (plan_choose_buffer E fuel bf group ge vc s1)))
                 MP_BUFFER_EMPTY = MP_BUFFER_PLANNED /\
               exists bf0, Some bf = Some bf0 /\
                           (i = bf0 \/ i = Buf.nx (buf bf0 s)))).
    { intros t [Hp | Hp] Ht; rewrite Hp.
      - left. now rewrite <- buffer_state_nth.
      - destruct (nth_update_nth_cases i t MP_BUFFER_PLANNED MP_BUFFER_EMPTY
                    (buffer_states s1)) as [H | [Hi H]]; rewrite H.
        + left. now rewrite <- buffer_state_nth.
        + right. split; [reflexivity |]. exists bf.
          split; [reflexivity |]. now subst t. }
    destruct H2 as [H2 | H2]; [apply (Hcase bf) | apply (Hcase _ H2)]; auto.
Qed.

(** The registers of [mr] determine its four pointers. *)
Lemma registers_pointers (m m' : Mr.t) :
  mr_registers m = mr_registers m' ->
  Mr.r_group m = Mr.r_group m' /\ Mr.p_group m = Mr.p_group m' /\
  Mr.r m = Mr.r m' /\ Mr.p m = Mr.p m'.
Proof.
  intros H.
  change (Mr.r_group (mr_registers m) = Mr.r_group (mr_registers m') /\
          Mr.p_group (mr_registers m) = Mr.p_group (mr_registers m') /\
          Mr.r (mr_registers m) = Mr.r (mr_registers m') /\
          Mr.p (mr_registers m) = Mr.p (mr_registers m')).
  now rewrite H.
Qed.

(** C5, as the code has it: [mp_plan_move] never writes the registers of
    [mr] (the section and segment state, the positions, the four pointers),
    nor [mb], nor [cm].  It writes the block runtime [mr.r] points to only
    where it re-plans the running block ([replans_running_block]); and it
    leaves the running group alone only while that group is [GROUP_OFF].
    Of the states of the buffers it writes two, as long as the ramp and
    block calculations write none: [PREPPED] over [PLANNED], the downgrade,
    and [PLANNED] on the buffer it has planned, which is the run buffer or
    the one after it - whatever the state of that buffer was. *)
Theorem plan_move_writes (E : collaborators) (fuel : nat) (s : machine) :
  Mr.r (mr s) <> Mr.p (mr s) ->
  Mr.r_group (mr s) <> Mr.p_group (mr s) ->
  let s' := final (mp_plan_move E fuel s) in
  (mr_registers (mr s') = mr_registers (mr s) /\ mb s' = mb s /\ cm s' = cm s) /\
  (replans_running_block E s = false ->
   blk (Mr.r (mr s)) s' = blk (Mr.r (mr s)) s) /\
  (Grp.group_state (mr_r_group s) = GROUP_OFF ->
   grp (Mr.r_group (mr s)) s' = grp (Mr.r_group (mr s)) s) /\
  (keeps_buffer_states E ->
   forall i,
     downgraded (Buf.buffer_state (buf i s)) (Buf.buffer_state (buf i s')) \/
     (Buf.buffer_state (buf i s') = MP_BUFFER_PLANNED /\
      planned_buffer E s i)).
Proof.
  intros Hrp Hgrp s'. subst s'.
  pose (P1 := fun x : machine =>
    mr_registers (mr x) = mr_registers (mr s) /\ mb x = mb s /\ cm x = cm s).
  assert (P1_ptr : forall x, P1 x ->
            (Mr.r_group (mr x) = Mr.r_group (mr s) /\
             Mr.p_group (mr x) = Mr.p_group (mr s)) /\
            (Mr.r (mr x) = Mr.r (mr s) /\ Mr.p (mr x) = Mr.p (mr s))).
  { intros x (Hx & _). apply registers_pointers in Hx. tauto. }
  split; [|split; [|split]].
  - apply (frame_mp_plan_move E P1 (fun _ => True) (fun _ => True)
             (Mr.r_group (mr s)) (Mr.p_group (mr s)) (Mr.r (mr s)) (Mr.p (mr s)));
      try (intros; exact I); try (intros; assumption).
    + intros x Hx. apply (P1_ptr x Hx).
    + intros x Hx. apply (P1_ptr x Hx).
    + repeat split.
  - intros Hno.
    pose (P2 := fun x : machine =>
      P1 x /\ blk (Mr.r (mr s)) x = blk (Mr.r (mr s)) s).
    apply (frame_mp_plan_move E P2 (fun _ => True)
             (fun i => i <> Mr.r (mr s))
             (Mr.r_group (mr s)) (Mr.p_group (mr s)) (Mr.r (mr s)) (Mr.p (mr s)));
      try (intros; exact I); try (intros; assumption).
    + intros x [Hx _]. apply (P1_ptr x Hx).
    + intros x [Hx _]. apply (P1_ptr x Hx).
    + intros i f x Hi [Hx Hb]. split; [exact Hx|].
      rewrite blk_set_blk_other by exact Hi. exact Hb.
    + repeat split.
    + congruence.
    + congruence.
  - intros Hoff.
    pose (P3 := fun x : machine =>
      P1 x /\ grp (Mr.r_group (mr s)) x = grp (Mr.r_group (mr s)) s).
    apply (frame_mp_plan_move E P3 (fun i => i <> Mr.r_group (mr s))
             (fun _ => True)
             (Mr.r_group (mr s)) (Mr.p_group (mr s)) (Mr.r (mr s)) (Mr.p (mr s)));
      try (intros; exact I); try (intros; assumption).
    + intros x [Hx _]. apply (P1_ptr x Hx).
    + intros x [Hx _]. apply (P1_ptr x Hx).
    + intros group Hg Hgr. now exfalso.
    + intros i f x Hi [Hx Hg]. split; [exact Hx|].
      rewrite grp_set_grp_other by exact Hi. exact Hg.
    + repeat split.
    + congruence.
    + intros Hnot. now exfalso.
  - intros HE i. now apply queue_mp_plan_move.
Qed.

Lemma plan_move_writes_witness :
  let s := raised_exit 0 true 1 in
  let s' := final (mp_plan_move demo_env 5 s) in
  Mr.r (mr s) <> Mr.p (mr s) /\
  Mr.r_group (mr s) <> Mr.p_group (mr s) /\
  (mr_registers (mr s') = mr_registers (mr s) /\ mb s' = mb s /\ cm s' = cm s) /\
  blk (Mr.r (mr s)) s' = blk (Mr.r (mr s)) s /\
  grp (Mr.r_group (mr s)) s' = grp (Mr.r_group (mr s)) s /\
  (downgraded (Buf.buffer_state (buf 1 s)) (Buf.buffer_state (buf 1 s')) \/
   (Buf.buffer_state (buf 1 s') = MP_BUFFER_PLANNED /\
    planned_buffer demo_env s 1)).
Proof.
  intros s s'.
  assert (H1 : Mr.r (mr s) <> Mr.p (mr s)) by discriminate.
  assert (H2 : Mr.r_group (mr s) <> Mr.p_group (mr s)) by discriminate.
  assert (H3 : keeps_buffer_states demo_env)
    by (split; intros; reflexivity).
  destruct (plan_move_writes demo_env 5 s H1 H2) as (Hregs & Hblk & Hgrp & Hq).
  split; [exact H1|]. split; [exact H2|]. split; [exact Hregs|].
  split; [apply Hblk; reflexivity |].
  split; [apply Hgrp; reflexivity | exact (Hq H3 1%nat)].
Defined.

(** The claim of C5 fails: after a block is appended to the running group
    while its first block is [RUNNING], the planner recomputes the running
    group - its length, tail and body, and [length_into_section] from 3 to
    0 - and plans the block into the block runtime [mr.r] points to; and
    the state it writes is that of the buffer that runs, which comes back
    [PLANNED]. *)
Lemma plan_move_writes_running_block_and_group :
  let s := extended_running_group in
  exists s', mp_plan_move demo_env 5 s = Ret STAT_OK s' /\
    Mr.r (mr s') = Mr.r (mr s) /\
    Mr.r_group (mr s') = Mr.r_group (mr s) /\
    Blk.planned (mr_r s) = false /\ Blk.planned (mr_r s') = true /\
    Blk.head_length (mr_r s) == 0 /\ Blk.head_length (mr_r s') == 5 /\
    Grp.length_into_section (mr_r_group s) == 3 /\
    Grp.length_into_section (mr_r_group s') == 0 /\
    Grp.tail_length (mr_r_group s) == 5 /\
    Grp.tail_length (mr_r_group s') == 5.2178 /\
    mp_get_run_buffer demo_env s = Some 0%nat /\
    Buf.buffer_state (buf 0 s) = MP_BUFFER_RUNNING /\
    Buf.buffer_state (buf 0 s') = MP_BUFFER_PLANNED.
Proof.
  intros s. eexists. split; [vm_compute; reflexivity|].
  vm_compute. repeat split.
Qed.

(* ================================================================== *)
(** ** One call of the aline executor *)

Lemma prep_lines_log (e : event) (s : machine) :
  prep_lines (log e s)
  = if is_prep_line e then S (prep_lines s) else prep_lines s.
Proof.
  unfold prep_lines, log; cbn.
  rewrite filter_app, length_app; cbn.
  destruct (is_prep_line e); cbn; lia.
Qed.

(** The leaves of [exec_aline_finish]: a logged event that is no prepared
    line, and the pair [mp_free_run_buffer] returns. *)
Ltac finish_leaf P :=
  lazymatch goal with
  | |- P (log _ _) =>
      unfold P; split;
      [ rewrite prep_lines_log; cbn [is_prep_line]; cbv iota | ];
      match goal with H : P _ |- _ => apply H end
  | |- context [mp_free_run_buffer ?E ?q] =>
      destruct (mp_free_run_buffer E q);
      frame_to P P ltac:(idtac; finish_leaf P)
  end.


Section OneCall.
Variable E : collaborators.

(** The segment runner calls [st_prep_line] once. *)
Lemma exec_aline_segment_preps (s : machine) :
  prep_lines (snd (_exec_aline_segment E s)) = S (prep_lines s).
Proof.
  pose (P := fun x : machine => prep_lines x = prep_lines s).
  pose (P' := fun x : machine => prep_lines x = S (prep_lines s)).
  pose (Inv := fun r : stat_t * machine => P' (snd r)).
  assert (H0 : P s) by reflexivity.
  change (Inv (_exec_aline_segment E s)).
  cbv beta delta [_exec_aline_segment].
  do 11 abstract_let P ltac:(idtac; frame_to P P fail).
  abstract_let P' ltac:(idtac; unfold P'; rewrite prep_lines_log; cbn;
                        f_equal; exact H8).
  frame_to P' Inv ltac:(idtac; first [ exact H9 | assumption ]).
Qed.

(** Advancing the forward differences calls nothing. *)
Lemma prep_lines_advance_forward_diffs (s : machine) :
  prep_lines (advance_forward_diffs s) = prep_lines s.
Proof. reflexivity. Qed.

Lemma prep_lines_init_forward_diffs (v_0 v_1 a_0 a_1 j_0 j_1 T : Q)
    (s : machine) :
  prep_lines (_init_forward_diffs v_0 v_1 a_0 a_1 j_0 j_1 T s)
  = prep_lines s.
Proof. reflexivity. Qed.

(** *** The tail *)

Lemma tail_section_new_spec (bf : nat) (s : machine) :
  match tail_section_new E bf s with
  | Ret (Some st) s1 => st = STAT_OK /\ prep_lines s1 = prep_lines s
  | Ret None s1 =>
      prep_lines s1 = prep_lines s /\
      (if sectionState_beq (Mr.section_state (mr s)) SECTION_NEW
       then Mr.section_state (mr s1) = SECTION_1st_HALF \/
            Mr.section_state (mr s1) = SECTION_2nd_HALF
       else s1 = s)
  | _ => False
  end.
Proof.
  cbv beta delta [tail_section_new].
  destruct (sectionState_beq (Mr.section_state (mr s)) SECTION_NEW) eqn:Hn;
    cbv beta iota delta [negb]; [| now split].
  pose (P := fun x : machine => prep_lines x = prep_lines s).
  pose (P' := fun x : machine =>
    prep_lines x = prep_lines s /\
    (Mr.section_state (mr x) = SECTION_1st_HALF \/
     Mr.section_state (mr x) = SECTION_2nd_HALF)).
  assert (H0 : P s) by reflexivity.
  do 2 abstract_let P ltac:(idtac; frame_to P P fail).
  destruct (fp_ZERO _ _); [now split |].
  do 3 abstract_let P ltac:(idtac; frame_to P P fail).
  abstract_let P' ltac:(idtac; frame_to P P'
    ltac:(idtac; first [ split; [assumption | right; reflexivity]
                       | split; [assumption | left; reflexivity] ])).
  destruct (Qltb _ _).
  - split; [reflexivity |].
    rewrite prep_lines_log; cbn [is_prep_line]; cbv iota.
    match goal with H : P' _ |- _ => apply H end.
  - match goal with H : P' _ |- _ => split; apply H end.
Qed.

Lemma tail_first_half_spec (s : machine) :
  if sectionState_beq (Mr.section_state (mr s)) SECTION_1st_HALF
  then exists st s1, tail_first_half E s = Ret (Some st) s1 /\
                     prep_lines s1 = S (prep_lines s)
  else tail_first_half E s = Ret None s.
Proof.
  cbv beta delta [tail_first_half].
  destruct (sectionState_beq _ _); cbv beta iota delta [negb];
    [| reflexivity].
  pose proof (exec_aline_segment_preps s) as Hs.
  destruct (_exec_aline_segment E s) as [status s1]; cbn [snd] in Hs.
  destruct (stat_eqb status STAT_OK); eexists _, _; (split; [reflexivity |]);
    exact Hs.
Qed.

Lemma tail_second_half_spec (s : machine) :
  if sectionState_beq (Mr.section_state (mr s)) SECTION_2nd_HALF
  then exists st s1, tail_second_half E s = Ret st s1 /\
                     prep_lines s1 = S (prep_lines s)
  else tail_second_half E s = Ret STAT_EAGAIN s.
Proof.
  cbv beta delta [tail_second_half].
  destruct (sectionState_beq _ _); cbv beta iota delta [negb];
    [| reflexivity].
  abstract_let (fun x : machine => prep_lines x = prep_lines s)
    ltac:(idtac; reflexivity).
  pose proof (exec_aline_segment_preps s0) as Hs.
  destruct (_exec_aline_segment E s0) as [status s1]; cbn [snd] in Hs.
  rewrite H in Hs.
  destruct (stat_eqb status STAT_OK); eexists _, _; (split; [reflexivity |]).
  - exact Hs.
  - rewrite prep_lines_advance_forward_diffs. exact Hs.
Qed.

Lemma tail_one_shot (bf : nat) (s : machine) :
  one_shot (negb (sectionState_beq (Mr.section_state (mr s)) SECTION_OFF)) s
    (_exec_aline_tail E bf s).
Proof.
  unfold _exec_aline_tail, fall_through at 1; unfold bind.
  pose proof (tail_section_new_spec bf s) as H1.
  destruct (tail_section_new E bf s) as [[st |] s1 | |]; try contradiction;
    cbv beta iota delta [ret].
  - destruct H1 as [-> H1]. exists STAT_OK, s1. split; [reflexivity |].
    split; [lia | discriminate].
  - destruct H1 as [H1 H2]. unfold fall_through, bind.
    pose proof (tail_first_half_spec s1) as H3.
    pose proof (tail_second_half_spec s1) as H4.
    destruct (Mr.section_state (mr s)) eqn:Hst; cbn in H2 |- *.
    + (* SECTION_OFF *)
      subst s1. rewrite Hst in H3, H4; cbn in H3, H4.
      rewrite H3, H4. exists STAT_EAGAIN, s.
      split; [reflexivity |]. split; [lia | discriminate].
    + (* SECTION_NEW *)
      destruct H2 as [H2 | H2]; rewrite H2 in H3, H4; cbn in H3, H4.
      * destruct H3 as (st & s2 & -> & H3). exists st, s2.
        split; [reflexivity |]. split; lia.
      * rewrite H3. destruct H4 as (st & s2 & -> & H4). exists st, s2.
        split; [reflexivity |]. split; lia.
    + (* SECTION_1st_HALF *)
      subst s1. rewrite Hst in H3; cbn in H3.
      destruct H3 as (st & s2 & -> & H3). exists st, s2.
      split; [reflexivity |]. split; lia.
    + (* SECTION_2nd_HALF *)
      subst s1. rewrite Hst in H3, H4; cbn in H3, H4.
      rewrite H3. destruct H4 as (st & s2 & -> & H4). exists st, s2.
      split; [reflexivity |]. split; lia.
Qed.

(** *** The body *)

Lemma body_section_new_spec (bf : nat) (s : machine) :
  match body_section_new E bf s with
  | Ret (Some st) s1 =>
      Mr.section_state (mr s) = SECTION_NEW /\
      (prep_lines s1 <= prep_lines s + 1)%nat /\
      (st = STAT_EAGAIN -> prep_lines s1 = (prep_lines s + 1)%nat)
  | Ret None s1 =>
      prep_lines s1 = prep_lines s /\
      (if sectionState_beq (Mr.section_state (mr s)) SECTION_NEW
       then Mr.section_state (mr s1) = SECTION_2nd_HALF
       else s1 = s)
  | _ => False
  end.
Proof.
  cbv beta delta [body_section_new].
  destruct (sectionState_beq (Mr.section_state (mr s)) SECTION_NEW) eqn:Hb;
    cbv beta iota delta [negb]; [| now split].
  assert (Hn : Mr.section_state (mr s) = SECTION_NEW)
    by (destruct (Mr.section_state (mr s)); (reflexivity || discriminate)).
  abstract_let (fun x : machine => True) ltac:(idtac; exact I).
  destruct (fp_ZERO _ _).
  - unfold bind.
    destruct (tail_one_shot bf (s <| mr; Mr.section := SECTION_TAIL |>))
      as (st & s1 & -> & Hle & Hex).
    change (Mr.section_state (mr (s <| mr; Mr.section := SECTION_TAIL |>)))
      with (Mr.section_state (mr s)) in Hex.
    rewrite Hn in Hex. cbv beta iota delta [ret].
    split; [exact Hn |]. split; [exact Hle |].
    intros H. now apply Hex.
  - pose (P := fun x : machine => prep_lines x = prep_lines s).
    assert (H0 : P s) by reflexivity.
    do 6 abstract_let P ltac:(idtac; frame_to P P fail).
    destruct (Qltb _ _).
    + split; [exact Hn |]. split.
      * rewrite prep_lines_log; cbn [is_prep_line]; cbv iota.
        unfold P in *; lia.
      * discriminate.
    + split; [| reflexivity].
      match goal with H : P _ |- _ => exact H end.
Qed.

Lemma body_second_half_spec (s : machine) :
  if sectionState_beq (Mr.section_state (mr s)) SECTION_2nd_HALF
  then exists s1, body_second_half E s = Ret STAT_EAGAIN s1 /\
                  prep_lines s1 = S (prep_lines s)
  else body_second_half E s = Ret STAT_EAGAIN s.
Proof.
  cbv beta delta [body_second_half].
  destruct (sectionState_beq _ _); cbv beta iota delta [negb];
    [| reflexivity].
  pose proof (exec_aline_segment_preps s) as Hs.
  destruct (_exec_aline_segment E s) as [status s1]; cbn [snd] in Hs.
  destruct (stat_eqb status STAT_OK); eexists; (split; [reflexivity |]);
    exact Hs.
Qed.

Lemma body_one_shot (bf : nat) (s : machine) :
  0 <= Mr.segment_velocity (mr s) ->
  one_shot (sectionState_beq (Mr.section_state (mr s)) SECTION_NEW
            || sectionState_beq (Mr.section_state (mr s)) SECTION_2nd_HALF) s
    (_exec_aline_body E bf s).
Proof.
  intros Hv. cbv beta delta [_exec_aline_body].
  rewrite (proj2 (Qltb_false _ _) Hv).
  unfold fall_through, bind.
  pose proof (body_section_new_spec bf s) as H1.
  destruct (body_section_new E bf s) as [[st |] s1 | |]; try contradiction;
    cbv beta iota delta [ret].
  - destruct H1 as (Hn & Hle & Hex). exists st, s1.
    split; [reflexivity |]. split; [exact Hle |]. intros H _. now apply Hex.
  - destruct H1 as [H1 H2].
    pose proof (body_second_half_spec s1) as H3.
    destruct (Mr.section_state (mr s)) eqn:Hst; cbn in H2 |- *.
    + subst s1. rewrite Hst in H3; cbn in H3. rewrite H3.
      exists STAT_EAGAIN, s. split; [reflexivity |]. split; [lia | discriminate].
    + rewrite H2 in H3; cbn in H3. destruct H3 as (s2 & -> & H3).
      exists STAT_EAGAIN, s2. split; [reflexivity |]. split; lia.
    + subst s1. rewrite Hst in H3; cbn in H3. rewrite H3.
      exists STAT_EAGAIN, s. split; [reflexivity |]. split; [lia | discriminate].
    + subst s1. rewrite Hst in H3; cbn in H3. destruct H3 as (s2 & -> & H3).
      exists STAT_EAGAIN, s2. split; [reflexivity |]. split; lia.
Qed.

(** *** The head *)

Lemma head_section_new_spec (bf : nat) (s : machine) :
  0 <= Mr.segment_velocity (mr s) ->
  match head_section_new E bf s with
  | Ret (Some st) s1 =>
      Mr.section_state (mr s) = SECTION_NEW /\
      (prep_lines s1 <= prep_lines s + 1)%nat /\
      (st = STAT_EAGAIN -> prep_lines s1 = (prep_lines s + 1)%nat)
  | Ret None s1 =>
      prep_lines s1 = prep_lines s /\
      (if sectionState_beq (Mr.section_state (mr s)) SECTION_NEW
       then Mr.section_state (mr s1) = SECTION_1st_HALF \/
            Mr.section_state (mr s1) = SECTION_2nd_HALF
       else s1 = s)
  | _ => False
  end.
Proof.
  intros Hv. cbv beta delta [head_section_new].
  destruct (sectionState_beq (Mr.section_state (mr s)) SECTION_NEW) eqn:Hb;
    cbv beta iota delta [negb]; [| now split].
  assert (Hn : Mr.section_state (mr s) = SECTION_NEW)
    by (destruct (Mr.section_state (mr s)); (reflexivity || discriminate)).
  destruct (fp_ZERO _ _).
  - unfold bind.
    lazymatch goal with
    | |- context [_exec_aline_body E bf ?x] =>
        destruct (body_one_shot bf x Hv) as (st & s1 & Heq & Hle & Hex);
        rewrite Heq;
        change (Mr.section_state (mr x)) with (Mr.section_state (mr s)) in Hex
    end.
    rewrite Hn in Hex. cbv beta iota delta [ret].
    split; [exact Hn |]. split; [exact Hle |].
    intros H. now apply Hex.
  - pose (P := fun x : machine => prep_lines x = prep_lines s).
    pose (P' := fun x : machine =>
      prep_lines x = prep_lines s /\
      (Mr.section_state (mr x) = SECTION_1st_HALF \/
       Mr.section_state (mr x) = SECTION_2nd_HALF)).
    assert (H0 : P s) by reflexivity.
    do 3 abstract_let P ltac:(idtac; frame_to P P fail).
    abstract_let P' ltac:(idtac; frame_to P P'
      ltac:(idtac; first [ split; [assumption | right; reflexivity]
                         | split; [assumption | left; reflexivity] ])).
    destruct (Qltb _ _).
    + split; [exact Hn |]. split.
      * rewrite prep_lines_log; cbn [is_prep_line]; cbv iota.
        unfold P' in *; lia.
      * discriminate.
    + match goal with H : P' _ |- _ => split; apply H end.
Qed.

Lemma head_first_half_spec (s : machine) :
  if sectionState_beq (Mr.section_state (mr s)) SECTION_1st_HALF
  then exists s1, head_first_half E s = Ret (Some STAT_EAGAIN) s1 /\
                  prep_lines s1 = S (prep_lines s)
  else head_first_half E s = Ret None s.
Proof.
  cbv beta delta [head_first_half].
  destruct (sectionState_beq _ _); cbv beta iota delta [negb];
    [| reflexivity].
  pose proof (exec_aline_segment_preps s) as Hs.
  destruct (_exec_aline_segment E s) as [status s1]; cbn [snd] in Hs.
  destruct (stat_eqb status STAT_OK); eexists; (split; [reflexivity |]);
    exact Hs.
Qed.

Lemma head_second_half_spec (s : machine) :
  if sectionState_beq (Mr.section_state (mr s)) SECTION_2nd_HALF
  then exists st s1, head_second_half E s = Ret st s1 /\
                     prep_lines s1 = S (prep_lines s)
  else head_second_half E s = Ret STAT_EAGAIN s.
Proof.
  cbv beta delta [head_second_half].
  destruct (sectionState_beq _ _); cbv beta iota delta [negb];
    [| reflexivity].
  abstract_let (fun x : machine => prep_lines x = prep_lines s)
    ltac:(idtac; reflexivity).
  pose proof (exec_aline_segment_preps s0) as Hs.
  destruct (_exec_aline_segment E s0) as [status s1]; cbn [snd] in Hs.
  rewrite H in Hs.
  destruct (stat_eqb status STAT_OK);
    [destruct (fp_ZERO _ _ && fp_ZERO _ _) |];
    eexists _, _; (split; [reflexivity |]).
  - exact Hs.
  - exact Hs.
  - rewrite prep_lines_advance_forward_diffs. exact Hs.
Qed.

Lemma head_one_shot (bf : nat) (s : machine) :
  0 <= Mr.segment_velocity (mr s) ->
  one_shot (negb (sectionState_beq (Mr.section_state (mr s)) SECTION_OFF)) s
    (_exec_aline_head E bf s).
Proof.
  intros Hv.
  unfold _exec_aline_head, fall_through at 1; unfold bind.
  pose proof (head_section_new_spec bf s Hv) as H1.
  destruct (head_section_new E bf s) as [[st |] s1 | |]; try contradiction;
    cbv beta iota delta [ret].
  - destruct H1 as (Hn & Hle & Hex). exists st, s1.
    split; [reflexivity |]. split; [exact Hle |]. intros H _. now apply Hex.
  - destruct H1 as [H1 H2]. unfold fall_through, bind.
    pose proof (head_first_half_spec s1) as H3.
    pose proof (head_second_half_spec s1) as H4.
    destruct (Mr.section_state (mr s)) eqn:Hst; cbn in H2 |- *.
    + subst s1. rewrite Hst in H3, H4; cbn in H3, H4.
      rewrite H3, H4. exists STAT_EAGAIN, s.
      split; [reflexivity |]. split; [lia | discriminate].
    + destruct H2 as [H2 | H2]; rewrite H2 in H3, H4; cbn in H3, H4.
      * destruct H3 as (s2 & -> & H3). exists STAT_EAGAIN, s2.
        split; [reflexivity |]. split; lia.
      * rewrite H3. destruct H4 as (st & s2 & -> & H4). exists st, s2.
        split; [reflexivity |]. split; lia.
    + subst s1. rewrite Hst in H3; cbn in H3.
      destruct H3 as (s2 & -> & H3). exists STAT_EAGAIN, s2.
      split; [reflexivity |]. split; lia.
    + subst s1. rewrite Hst in H3, H4; cbn in H3, H4.
      rewrite H3. destruct H4 as (st & s2 & -> & H4). exists st, s2.
      split; [reflexivity |]. split; lia.
Qed.

(** *** The setup of a new move and the end of a call *)

Lemma new_move_start_frame (bf : nat) (s : machine) :
  same_motion s (new_move_start E bf s) /\
  Mr.section (mr (new_move_start E bf s)) = SECTION_HEAD /\
  Mr.section_state (mr (new_move_start E bf s)) = SECTION_NEW.
Proof.
  split.
  - pose (Inv := same_motion s).
    assert (H0 : Inv s) by (repeat split).
    change (Inv (new_move_start E bf s)).
    cbv beta delta [new_move_start].
    frame Inv.
  - pose (P := fun x : machine => True).
    pose (P1 := fun x : machine => Mr.section (mr x) = SECTION_HEAD).
    pose (P2 := fun x : machine =>
      Mr.section (mr x) = SECTION_HEAD /\
      Mr.section_state (mr x) = SECTION_NEW).
    change (P2 (new_move_start E bf s)).
    cbv beta delta [new_move_start].
    do 4 abstract_let P ltac:(idtac; exact I).
    abstract_let P1 ltac:(idtac; reflexivity).
    abstract_let P2 ltac:(idtac; split; [assumption | reflexivity]).
    frame P2.
Qed.

Lemma new_move_start_trace (bf : nat) (s : machine) :
  trace (new_move_start E bf s)
  = if fp_ZERO (EPSILON E) (Buf.length (buf bf s))
    then trace s ++ [zero_length_report] else trace s.
Proof.
  pose (P := fun x : machine =>
    trace x = if fp_ZERO (EPSILON E) (Buf.length (buf bf s))
              then trace s ++ [zero_length_report] else trace s).
  change (P (new_move_start E bf s)).
  cbv beta delta [new_move_start].
  abstract_let P ltac:(idtac; unfold P;
    destruct (fp_ZERO (EPSILON E) (Buf.length (buf bf s))); reflexivity).
  frame P.
Qed.

Lemma new_move_buffer_links_frame (bf : nat) (s : machine) :
  same_motion s (new_move_buffer_links E bf s) /\
  Mr.section (mr (new_move_buffer_links E bf s)) = Mr.section (mr s) /\
  Mr.section_state (mr (new_move_buffer_links E bf s))
  = Mr.section_state (mr s) /\
  trace (new_move_buffer_links E bf s) = trace s /\
  Mr.executed_body_length (mr (new_move_buffer_links E bf s)) = 0.0.
Proof.
  pose (P := fun x : machine =>
    same_motion s x /\ Mr.section (mr x) = Mr.section (mr s) /\
    Mr.section_state (mr x) = Mr.section_state (mr s) /\
    trace x = trace s).
  pose (P1 := fun x : machine =>
    P x /\ Mr.executed_body_length (mr x) = 0.0).
  assert (H0 : P s) by (repeat split).
  enough (H : P1 (new_move_buffer_links E bf s))
    by (destruct H as ((H1 & H2 & H3 & H4) & H5);
        split; [exact H1 |]; repeat split; assumption).
  cbv beta delta [new_move_buffer_links].
  do 5 abstract_let P ltac:(idtac; frame_to P P fail).
  abstract_let P1 ltac:(idtac; split; [assumption | reflexivity]).
  assumption.
Qed.

Lemma new_move_runtime_frame (bf : nat) (s : machine) :
  same_motion s (new_move_runtime E bf s) /\
  Mr.section (mr (new_move_runtime E bf s)) = SECTION_HEAD /\
  Mr.section_state (mr (new_move_runtime E bf s)) = SECTION_NEW /\
  Mr.executed_body_length (mr (new_move_runtime E bf s)) = 0.0 /\
  trace (new_move_runtime E bf s)
  = if fp_ZERO (EPSILON E) (Buf.length (buf bf s))
    then trace s ++ [zero_length_report] else trace s.
Proof.
  unfold new_move_runtime.
  destruct (new_move_start_frame bf s) as ((Hc & Hv & Hp) & Hs & Hss).
  pose proof (new_move_start_trace bf s) as Ht.
  revert Hc Hv Hp Hs Hss Ht.
  generalize (new_move_start E bf s). intros s1 Hc Hv Hp Hs Hss Ht.
  assert (Hsw : same_motion s1 (new_move_switch_blocks s1) /\
                Mr.section (mr (new_move_switch_blocks s1)) = Mr.section (mr s1) /\
                Mr.section_state (mr (new_move_switch_blocks s1))
                = Mr.section_state (mr s1) /\
                trace (new_move_switch_blocks s1) = trace s1)
    by (repeat split).
  revert Hsw. generalize (new_move_switch_blocks s1).
  intros s2 ((Hc2 & Hv2 & Hp2) & Hs2 & Hss2 & Ht2).
  destruct (new_move_buffer_links_frame bf s2)
    as ((Hc3 & Hv3 & Hp3) & Hs3 & Hss3 & Ht3 & He3).
  repeat split; congruence.
Qed.

Lemma exec_aline_new_move_spec (bf : nat) (s : machine) :
  all_body_too_short E (merge_tail E (merge_head E (mr_p s))) = false ->
  exists s1 b pl,
    exec_aline_new_move E bf s = Ret tt s1 /\
    merge_short_sections E (Mr.entry_velocity (mr s)) (mr_p s) = Some b /\
    mr_r s1 = b <| Blk.planned := pl |> /\
    same_motion s s1 /\
    Mr.section (mr s1) = SECTION_HEAD /\
    Mr.section_state (mr s1) = SECTION_NEW /\
    Mr.executed_body_length (mr s1) = 0.0 /\
    trace s1 = if fp_ZERO (EPSILON E) (Buf.length (buf bf s))
               then trace s ++ [zero_length_report] else trace s.
Proof.
  intros Htrap.
  destruct (new_move_runtime_block E bf s) as (Hev & pl & Hr).
  destruct (new_move_runtime_frame bf s) as (Hm & Hs & Hss & He & Ht).
  pose proof (merge_short_sections_cases E (Mr.entry_velocity (mr s)) (mr_p s))
    as Hc.
  cbv zeta in Hc. rewrite Htrap in Hc. destruct Hc as (b & Hb & _).
  cbv beta delta [exec_aline_new_move].
  revert Hev Hr Hm Hs Hss He Ht.
  generalize (new_move_runtime E bf s). intros s1 Hev Hr Hm Hs Hss He Ht.
  cbv beta zeta.
  rewrite Hr, Hev, merge_short_sections_planned, Hb. cbn [option_map].
  eexists _, b, pl. split; [reflexivity |]. split; [reflexivity |].
  split; [| repeat split; first [ apply Hm | assumption ] ].
  pose (Inv := fun x : machine => mr_r x = b <| Blk.planned := pl |>).
  assert (H0 : Inv (set_mr_r (fun _ => b <| Blk.planned := pl |>) s1)).
  { unfold Inv, mr_r, set_mr_r, set_blk, blk; cbn. apply rd_wr_same. }
  revert H0.
  generalize (set_mr_r (fun _ => b <| Blk.planned := pl |>) s1).
  intros s2 H0. exact H0.
Qed.


Lemma exec_aline_finish_frame (bf : nat) (status : stat_t) (s : machine) :
  prep_lines (exec_aline_finish E bf status s) = prep_lines s /\
  Mr.position (mr (exec_aline_finish E bf status s)) = Mr.position (mr s).
Proof.
  pose (P := fun x : machine =>
    prep_lines x = prep_lines s /\ Mr.position (mr x) = Mr.position (mr s)).
  assert (H0 : P s) by (split; reflexivity).
  change (P (exec_aline_finish E bf status s)).
  cbv beta delta [exec_aline_finish].
  frame_to P P ltac:(idtac; finish_leaf P).
Qed.

(** *** The dispatcher *)

Lemma exec_aline_run_one_shot (bf : nat) (s : machine) :
  Cm.motion_state (cm s) <> MOTION_HOLD ->
  0 <= Mr.segment_velocity (mr s) ->
  one_shot
    (match Mr.section (mr s), Mr.section_state (mr s) with
     | _, SECTION_OFF => false
     | SECTION_BODY, SECTION_1st_HALF => false
     | _, _ => true
     end) s (exec_aline_run E bf s).
Proof.
  intros Hh Hv. cbv beta delta [exec_aline_run].
  assert (Hb : motionState_beq (Cm.motion_state (cm s)) MOTION_HOLD = false)
    by (destruct (Cm.motion_state (cm s)); (reflexivity || contradiction)).
  rewrite Hb.
  pose (s1 := s <| mr; Mr.move_state := MOVE_RUN |>).
  change (one_shot
    (match Mr.section (mr s1), Mr.section_state (mr s1) with
     | _, SECTION_OFF => false
     | SECTION_BODY, SECTION_1st_HALF => false
     | _, _ => true
     end) s1
    ((status <-
        match Mr.section (mr s1) with
        | SECTION_HEAD => _exec_aline_head E bf
        | SECTION_BODY => _exec_aline_body E bf
        | SECTION_TAIL => _exec_aline_tail E bf
        end ;;
      fun s => Ret status (exec_aline_finish E bf status s)) s1)).
  assert (Hv1 : 0 <= Mr.segment_velocity (mr s1)) by exact Hv.
  clearbody s1. clear s Hh Hv Hb.
  unfold bind.
  assert (Hsec : one_shot
    (match Mr.section (mr s1), Mr.section_state (mr s1) with
     | _, SECTION_OFF => false
     | SECTION_BODY, SECTION_1st_HALF => false
     | _, _ => true
     end) s1
    (match Mr.section (mr s1) with
     | SECTION_HEAD => _exec_aline_head E bf
     | SECTION_BODY => _exec_aline_body E bf
     | SECTION_TAIL => _exec_aline_tail E bf
     end s1)).
  { destruct (Mr.section (mr s1)).
    - pose proof (head_one_shot bf s1 Hv1) as H.
      destruct (Mr.section_state (mr s1)); exact H.
    - pose proof (body_one_shot bf s1 Hv1) as H.
      destruct (Mr.section_state (mr s1)); exact H.
    - pose proof (tail_one_shot bf s1) as H.
      destruct (Mr.section_state (mr s1)); exact H. }
  destruct Hsec as (st & s2 & Heq & Hle & Hex). rewrite Heq.
  destruct (exec_aline_finish_frame bf st s2) as (Hp & _).
  exists st, (exec_aline_finish E bf st s2).
  split; [reflexivity |]. rewrite Hp. split; [exact Hle | exact Hex].
Qed.

(** *** A block runtime without sections *)

Lemma fp_ZERO_Qeq (eps a b : Q) : a == b -> fp_ZERO eps a = fp_ZERO eps b.
Proof.
  intros H. unfold fp_ZERO, Qltb. now rewrite H.
Qed.









End OneCall.

(** One call of [mp_exec_aline] outside the three endless loops. *)
Lemma exec_aline_one_shot (E : collaborators) (bf : nat) (s : machine) :
  Buf.move_state (buf bf s) <> MOVE_OFF ->
  Cm.motion_state (cm s) <> MOTION_HOLD ->
  0 <= Mr.segment_velocity (mr s) ->
  (Mr.move_state (mr s) = MOVE_OFF ->
   all_body_too_short E (merge_tail E (merge_head E (mr_p s))) = false) ->
  one_shot (live_section s) s (mp_exec_aline E bf s).
Proof.
  intros Hbuf Hh Hv Htrap. cbv beta delta [mp_exec_aline].
  assert (Hb : moveState_beq (Buf.move_state (buf bf s)) MOVE_OFF = false)
    by (destruct (Buf.move_state (buf bf s)); (reflexivity || contradiction)).
  rewrite Hb. unfold bind, live_section.
  destruct (moveState_beq (Mr.move_state (mr s)) MOVE_OFF) eqn:Hoff.
  - assert (Hms : Mr.move_state (mr s) = MOVE_OFF)
      by (destruct (Mr.move_state (mr s)); (reflexivity || discriminate)).
    destruct (exec_aline_new_move_spec E bf s (Htrap Hms))
      as (s1 & b & pl & Heq & _ & _ & (Hc & Hsv & _) & Hs & Hss & _ & Ht).
    rewrite Heq.
    assert (Hp : prep_lines s1 = prep_lines s).
    { unfold prep_lines. rewrite Ht.
      destruct (fp_ZERO _ _); [| reflexivity].
      rewrite filter_app, length_app. cbn. lia. }
    assert (Hh1 : Cm.motion_state (cm s1) <> MOTION_HOLD) by now rewrite Hc.
    assert (Hv1 : 0 <= Mr.segment_velocity (mr s1)) by now rewrite Hsv.
    pose proof (exec_aline_run_one_shot E bf s1 Hh1 Hv1) as H.
    rewrite Hs, Hss in H. unfold one_shot in H |- *.
    rewrite Hp in H. exact H.
  - cbv beta iota delta [ret].
    exact (exec_aline_run_one_shot E bf s Hh Hv).
Qed.

(** On a run buffer that is an aline and already [RUNNING], the entry
    requests a plan, sets the motion state and runs the callback. *)
Lemma exec_move_running (E : collaborators) (bf : nat) (s : machine) :
  mp_get_run_buffer E s = Some bf ->
  Buf.move_type (buf bf s) = MOVE_TYPE_ALINE ->
  Buf.buffer_state (buf bf s) = MP_BUFFER_RUNNING ->
  Buf.bf_func (buf bf s) = FUNC_mp_exec_aline ->
  mp_exec_move E s = mp_exec_aline E bf (request_plan_and_run s).
Proof.
  intros Hrun Htype Hstate Hfunc.
  unfold mp_exec_move, fall_through, bind, exec_move_aline, bind.
  rewrite Hrun, Htype, Hstate.
  cbn [moveType_beq mpBufferState_beq]. cbv beta iota zeta.
  unfold request_plan_and_run. cbv zeta.
  destruct (negb _ && negb _); cbv beta iota delta [ret].
  - change (Buf.bf_func
              (buf bf (cm_set_motion_state MOTION_RUN
                         (log Ev_st_request_plan_move s))))
      with (Buf.bf_func (buf bf s)).
    rewrite Hfunc. reflexivity.
  - change (Buf.bf_func (buf bf (log Ev_st_request_plan_move s)))
      with (Buf.bf_func (buf bf s)).
    rewrite Hfunc. reflexivity.
Qed.

Lemma request_plan_and_run_frame (s : machine) :
  mr (request_plan_and_run s) = mr s /\
  queue (request_plan_and_run s) = queue s /\
  prep_lines (request_plan_and_run s) = prep_lines s /\
  (Cm.motion_state (cm s) <> MOTION_HOLD ->
   Cm.motion_state (cm (request_plan_and_run s)) <> MOTION_HOLD).
Proof.
  unfold request_plan_and_run. cbv zeta.
  change (cm (log Ev_st_request_plan_move s)) with (cm s).
  destruct (negb _ && negb _).
  - repeat split.
    + unfold cm_set_motion_state. rewrite prep_lines_log. cbn [is_prep_line].
      cbv iota.
      change (prep_lines (log Ev_st_request_plan_move s) = prep_lines s).
      now rewrite prep_lines_log.
    + intros _. discriminate.
  - repeat split.
    + now rewrite prep_lines_log.
    + intros H. exact H.
Qed.

(** One call of [mp_exec_aline] on a buffer that is not [MOVE_OFF]
    returns, unless it enters one of the three endless loops of the source
    - the canonical machine is in [MOTION_HOLD], the block of a new move is
    all body and still too short, or the segment velocity is negative when
    the body runs.  A call that returns has called [st_prep_line] at most
    once; it has called it exactly once if it returns [STAT_EAGAIN] and the
    section it ran was under way (a new move, or a section state other
    than [SECTION_OFF] and, for the body, other than [SECTION_1st_HALF]).
    The same holds of [mp_exec_move] on a run buffer that is an aline,
    already [RUNNING], with [mp_exec_aline] as its callback. *)
Lemma one_segment_per_call (E : collaborators) (bf : nat)
    (s : machine) :
  Buf.move_state (buf bf s) <> MOVE_OFF ->
  Cm.motion_state (cm s) <> MOTION_HOLD ->
  0 <= Mr.segment_velocity (mr s) ->
  (Mr.move_state (mr s) = MOVE_OFF ->
   all_body_too_short E (merge_tail E (merge_head E (mr_p s))) = false) ->
  one_shot (live_section s) s (mp_exec_aline E bf s) /\
  (mp_get_run_buffer E s = Some bf ->
   Buf.move_type (buf bf s) = MOVE_TYPE_ALINE ->
   Buf.buffer_state (buf bf s) = MP_BUFFER_RUNNING ->
   Buf.bf_func (buf bf s) = FUNC_mp_exec_aline ->
   one_shot (live_section s) s (mp_exec_move E s)).
Proof.
  intros Hbuf Hh Hv Htrap. split.
  - now apply exec_aline_one_shot.
  - intros Hrun Htype Hstate Hfunc.
    rewrite (exec_move_running E bf s Hrun Htype Hstate Hfunc).
    destruct (request_plan_and_run_frame s) as (Hmr & Hq & Hp & Hhold).
    assert (Hbuf' : buf bf (request_plan_and_run s) = buf bf s)
      by (unfold buf; now rewrite Hq).
    assert (H : one_shot (live_section (request_plan_and_run s))
                  (request_plan_and_run s)
                  (mp_exec_aline E bf (request_plan_and_run s))).
    { apply exec_aline_one_shot.
      - now rewrite Hbuf'.
      - now apply Hhold.
      - now rewrite Hmr.
      - unfold mr_p, blk. rewrite Hmr. exact Htrap. }
    unfold one_shot, live_section in H |- *.
    rewrite Hmr, Hp in H. exact H.
Qed.

Lemma one_segment_per_call_demo :
  let s := with_planned_block short_head_blk in
  one_shot (live_section s) s (mp_exec_aline demo_env 0 s) /\
  one_shot (live_section s) s (mp_exec_move demo_env s).
Proof.
  intros s.
  assert (H1 : Buf.move_state (buf 0 s) <> MOVE_OFF)
    by (vm_compute; discriminate).
  assert (H2 : Cm.motion_state (cm s) <> MOTION_HOLD)
    by (vm_compute; discriminate).
  assert (H3 : 0 <= Mr.segment_velocity (mr s))
    by (vm_compute; discriminate).
  assert (H4 : Mr.move_state (mr s) = MOVE_OFF ->
               all_body_too_short demo_env
                 (merge_tail demo_env (merge_head demo_env (mr_p s))) = false)
    by (intros _; vm_compute; reflexivity).
  destruct (one_segment_per_call demo_env 0 s H1 H2 H3 H4)
    as [Ha Hm].
  split; [exact Ha |].
  apply Hm; reflexivity.
Defined.

(** C2: the code does not keep to its own rule that each call executes
    and prepares one and only one segment.  At each of its three endless
    loops the call never returns and has prepared nothing: a new move
    while the canonical machine is in [MOTION_HOLD] (through the entry
    [mp_exec_move] and on the callback itself), a new move whose block is
    all body and still too short, and a body that runs with a negative
    segment velocity.  And a call can return without a segment: a new move
    whose block has no sections ends with [STAT_OK] and no call of
    [st_prep_line]. *)
Lemma exec_aline_endless_loops :
  (exists s', mp_exec_move demo_env in_feedhold = Spin s' /\
              prep_lines s' = 0%nat) /\
  (exists s', mp_exec_aline demo_env 0 in_feedhold = Spin s' /\
              prep_lines s' = 0%nat) /\
  (exists s', mp_exec_aline demo_env 0 (with_planned_block short_body_blk)
              = Spin s' /\ prep_lines s' = 0%nat) /\
  (exists s', mp_exec_aline demo_env 0 negative_velocity = Spin s' /\
              prep_lines s' = 0%nat) /\
  (exists s', mp_exec_aline demo_env 0 (with_planned_block (idle_blk false))
              = Ret STAT_OK s' /\ prep_lines s' = 0%nat).
Proof.
  repeat split; eexists; vm_compute; repeat split; reflexivity.
Qed.




(* ================================================================== *)
(** ** Forward differences over the segments of a section *)

Lemma next_segment_velocity_registers (s : machine) :
  let m := mr s in
  let m' := mr (next_segment_velocity s) in
  Mr.segment_velocity m' = Mr.segment_velocity m + Mr.forward_diff_5 m /\
  Mr.forward_diff_5 m' = Mr.forward_diff_5 m + Mr.forward_diff_4 m /\
  Mr.forward_diff_4 m' = Mr.forward_diff_4 m + Mr.forward_diff_3 m /\
  Mr.forward_diff_3 m' = Mr.forward_diff_3 m + Mr.forward_diff_2 m /\
  Mr.forward_diff_2 m' = Mr.forward_diff_2 m + Mr.forward_diff_1 m /\
  Mr.forward_diff_1 m' = Mr.forward_diff_1 m /\
  Mr.segments m' = Mr.segments m.
Proof. repeat split. Qed.

Lemma fd_tracks_init (s : machine) (v_0 v_1 a_0 a_1 j_0 j_1 T : Q) :
  let h := 1 / Mr.segments (mr s) in
  fd_tracks (power_basis (control v_0 v_1 a_0 a_1 j_0 j_1 T)) h (h / 2)
    (mr (_init_forward_diffs v_0 v_1 a_0 a_1 j_0 j_1 T s)).
Proof.
  intros h. unfold fd_tracks, _init_forward_diffs. cbn.
  fold h. clearbody h. quintic_unfold.
  repeat split; field.
Qed.

Lemma fd_tracks_next (c : quintic) (h t : Q) (s : machine) :
  fd_tracks c h t (mr s) ->
  fd_tracks c h (t + h) (mr (next_segment_velocity s)).
Proof.
  intros (Hv & H5 & H4 & H3 & H2 & H1).
  destruct (next_segment_velocity_registers s)
    as (Ev & E5 & E4 & E3 & E2 & E1 & _).
  unfold fd_tracks. rewrite Ev, E5, E4, E3, E2, E1.
  rewrite Hv, H5, H4, H3, H2, H1.
  unfold V. repeat split; ring.
Qed.

Lemma fd_tracks_iter (c : quintic) (h t : Q) (k : nat) (s : machine) :
  fd_tracks c h t (mr s) ->
  fd_tracks c h (t + inject_Z (Z.of_nat k) * h)
    (mr (Nat.iter k next_segment_velocity s)).
Proof.
  intros H0. induction k as [| k IH].
  - cbn [Nat.iter]. destruct H0 as (Hv & H5 & H4 & H3 & H2 & H1).
    assert (Et : t + inject_Z (Z.of_nat 0) * h == t) by (cbn; ring).
    unfold fd_tracks, V in *. rewrite !Et. repeat split; assumption.
  - cbn [Nat.iter]. apply fd_tracks_next in IH.
    destruct IH as (Hv & H5 & H4 & H3 & H2 & H1).
    assert (Et : t + inject_Z (Z.of_nat (S k)) * h
                 == t + inject_Z (Z.of_nat k) * h + h).
    { rewrite Nat2Z.inj_succ. unfold Z.succ. rewrite inject_Z_plus. ring. }
    unfold fd_tracks, V in *. rewrite !Et. repeat split; assumption.
Qed.

(** X1: Forward differencing walks the curve: [k] register steps after
    [_init_forward_diffs], the segment velocity is the quintic Bezier curve
    through the six control points at the middle of segment [k], for any
    number of segments and any [k]. *)
Theorem forward_diffs_follow_curve (s : machine)
    (v_0 v_1 a_0 a_1 j_0 j_1 T : Q) (k : nat) :
  let h := 1 / Mr.segments (mr s) in
  Mr.segment_velocity
    (mr (Nat.iter k next_segment_velocity
           (_init_forward_diffs v_0 v_1 a_0 a_1 j_0 j_1 T s)))
  == bernstein (control v_0 v_1 a_0 a_1 j_0 j_1 T) (midpoint k h).
Proof.
  intros h.
  pose proof (fd_tracks_init s v_0 v_1 a_0 a_1 j_0 j_1 T) as H0.
  cbv zeta in H0. fold h in H0.
  apply (fd_tracks_iter _ _ _ k) in H0.
  destruct H0 as (Hv & _). rewrite Hv, bernstein_power_basis.
  assert (Et : h / 2 + inject_Z (Z.of_nat k) * h == midpoint k h)
    by (unfold midpoint; field).
  unfold V. rewrite Et. reflexivity.
Qed.

(* ================================================================== *)
(** ** The segment runner *)

Lemma outside_segment_fields (m m' : Mr.t) :
  outside_segment m = outside_segment m' ->
  (Mr.section m = Mr.section m' /\
   Mr.section_state m = Mr.section_state m' /\
   Mr.waypoint m = Mr.waypoint m') /\
  (Mr.segment_velocity m = Mr.segment_velocity m' /\
   Mr.segment_time m = Mr.segment_time m' /\
   Mr.unit m = Mr.unit m').
Proof.
  intros H.
  change ((Mr.section (outside_segment m) = Mr.section (outside_segment m') /\
           Mr.section_state (outside_segment m)
           = Mr.section_state (outside_segment m') /\
           Mr.waypoint (outside_segment m) = Mr.waypoint (outside_segment m')) /\
          (Mr.segment_velocity (outside_segment m)
           = Mr.segment_velocity (outside_segment m') /\
           Mr.segment_time (outside_segment m)
           = Mr.segment_time (outside_segment m') /\
           Mr.unit (outside_segment m) = Mr.unit (outside_segment m'))).
  now rewrite H.
Qed.

Lemma outside_segment_runtime (m m' : Mr.t) :
  outside_segment m = outside_segment m' ->
  (Mr.bf m = Mr.bf m' /\ Mr.r m = Mr.r m' /\
   Mr.groups m = Mr.groups m' /\ Mr.r_group m = Mr.r_group m') /\
  (Mr.executed_body_length m = Mr.executed_body_length m' /\
   Mr.executed_body_time m = Mr.executed_body_time m' /\
   Mr.segments m = Mr.segments m' /\ Mr.move_state m = Mr.move_state m') /\
  (Mr.forward_diff_5 m = Mr.forward_diff_5 m' /\
   Mr.forward_diff_4 m = Mr.forward_diff_4 m' /\
   Mr.forward_diff_3 m = Mr.forward_diff_3 m' /\
   Mr.forward_diff_2 m = Mr.forward_diff_2 m' /\
   Mr.forward_diff_1 m = Mr.forward_diff_1 m').
Proof.
  intros H.
  change
    ((Mr.bf (outside_segment m) = Mr.bf (outside_segment m') /\
      Mr.r (outside_segment m) = Mr.r (outside_segment m') /\
      Mr.groups (outside_segment m) = Mr.groups (outside_segment m') /\
      Mr.r_group (outside_segment m) = Mr.r_group (outside_segment m')) /\
     (Mr.executed_body_length (outside_segment m)
      = Mr.executed_body_length (outside_segment m') /\
      Mr.executed_body_time (outside_segment m)
      = Mr.executed_body_time (outside_segment m') /\
      Mr.segments (outside_segment m) = Mr.segments (outside_segment m') /\
      Mr.move_state (outside_segment m) = Mr.move_state (outside_segment m')) /\
     (Mr.forward_diff_5 (outside_segment m)
      = Mr.forward_diff_5 (outside_segment m') /\
      Mr.forward_diff_4 (outside_segment m)
      = Mr.forward_diff_4 (outside_segment m') /\
      Mr.forward_diff_3 (outside_segment m)
      = Mr.forward_diff_3 (outside_segment m') /\
      Mr.forward_diff_2 (outside_segment m)
      = Mr.forward_diff_2 (outside_segment m') /\
      Mr.forward_diff_1 (outside_segment m)
      = Mr.forward_diff_1 (outside_segment m'))).
  now rewrite H.
Qed.

Lemma stat_eqb_eq (a b : stat_t) : stat_eqb a b = true <-> a = b.
Proof.
  split.
  - destruct a, b; cbn; try discriminate; try reflexivity.
    intros H. apply Z.eqb_eq in H. now subst.
  - intros <-. destruct a; cbn; try reflexivity. apply Z.eqb_refl.
Qed.

Lemma uint32_dec_succ (m : nat) :
  (Z.of_nat (S m) <= 2 ^ 32)%Z -> uint32_dec (Z.of_nat (S m)) = Z.of_nat m.
Proof.
  intros H. unfold uint32_dec.
  rewrite Nat2Z.inj_succ in *. unfold Z.succ in *.
  replace (Z.of_nat m + 1 - 1)%Z with (Z.of_nat m) by lia.
  apply Z.mod_small. lia.
Qed.

Section Segment.
Variable E : collaborators.

(** The segment runner in one piece: what it leaves alone, what it
    writes, and what it returns. *)
Lemma exec_aline_segment_spec (s : machine) :
  let status := segment_status E s in
  let r := _exec_aline_segment E s in
  (outside_segment (mr (snd r)) = outside_segment (mr s) /\
   cm (snd r) = cm s /\ queue (snd r) = queue s) /\
  (Mr.segment_count (mr (snd r)) = uint32_dec (Mr.segment_count (mr s)) /\
   Gm.target (Mr.gm (mr (snd r))) = segment_target s) /\
  (Mr.commanded_steps (mr (snd r)) = Mr.position_steps (mr s) /\
   Mr.position_steps (mr (snd r)) = Mr.target_steps (mr s) /\
   Mr.target_steps (mr (snd r))
   = kn_inverse_kinematics E (segment_target s) /\
   Mr.following_error (mr (snd r)) = segment_following_error E s) /\
  (Mb.run_time_remaining (mb (snd r)) = segment_time_left s /\
   trace (snd r)
   = trace s ++ [Ev_st_prep_line (segment_travel E s)
                   (segment_following_error E s) (Mr.segment_time (mr s))]) /\
  (if stat_eqb status STAT_OK
   then fst r = (if last_segment s then STAT_OK else STAT_EAGAIN) /\
        Mr.position (mr (snd r)) = segment_target s
   else fst r = status /\ Mr.position (mr (snd r)) = Mr.position (mr s)).
Proof.
  intros status r. subst r.
  pose (G := fun r : stat_t * machine =>
    (outside_segment (mr (snd r)) = outside_segment (mr s) /\
     cm (snd r) = cm s /\ queue (snd r) = queue s) /\
    (Mr.segment_count (mr (snd r)) = uint32_dec (Mr.segment_count (mr s)) /\
     Gm.target (Mr.gm (mr (snd r))) = segment_target s) /\
    (Mr.commanded_steps (mr (snd r)) = Mr.position_steps (mr s) /\
     Mr.position_steps (mr (snd r)) = Mr.target_steps (mr s) /\
     Mr.target_steps (mr (snd r))
     = kn_inverse_kinematics E (segment_target s) /\
     Mr.following_error (mr (snd r)) = segment_following_error E s) /\
    (Mb.run_time_remaining (mb (snd r)) = segment_time_left s /\
     trace (snd r)
     = trace s ++ [Ev_st_prep_line (segment_travel E s)
                     (segment_following_error E s) (Mr.segment_time (mr s))]) /\
    (if stat_eqb status STAT_OK
     then fst r = (if last_segment s then STAT_OK else STAT_EAGAIN) /\
          Mr.position (mr (snd r)) = segment_target s
     else fst r = status /\ Mr.position (mr (snd r)) = Mr.position (mr s))).
  change (G (_exec_aline_segment E s)).
  pose (B := fun x : machine =>
    outside_segment (mr x) = outside_segment (mr s) /\
    cm x = cm s /\ queue x = queue s).
  pose (Pp := fun x : machine => Mr.position (mr x) = Mr.position (mr s)).
  pose (Pps := fun x : machine =>
    Mr.position_steps (mr x) = Mr.position_steps (mr s)).
  pose (Pts := fun x : machine =>
    Mr.target_steps (mr x) = Mr.target_steps (mr s)).
  pose (Pmb := fun x : machine => mb x = mb s).
  pose (Ptr := fun x : machine => trace x = trace s).
  pose (Fc := fun x : machine =>
    Mr.segment_count (mr x) = uint32_dec (Mr.segment_count (mr s))).
  pose (Ft := fun x : machine =>
    Gm.target (Mr.gm (mr x)) = segment_target s).
  pose (Fcs := fun x : machine =>
    Mr.commanded_steps (mr x) = Mr.position_steps (mr s)).
  pose (Fps := fun x : machine =>
    Mr.position_steps (mr x) = Mr.target_steps (mr s)).
  pose (Fes := fun x : machine =>
    Mr.encoder_steps (mr x)
    = map (en_read_encoder E (trace s)) (seq 0 (MOTORS E))).
  pose (Ffe := fun x : machine =>
    Mr.following_error (mr x) = segment_following_error E s).
  pose (Fts := fun x : machine =>
    Mr.target_steps (mr x) = kn_inverse_kinematics E (segment_target s)).
  pose (I1 := fun x : machine =>
    B x /\ (Pp x /\ Pps x /\ Pts x /\ Pmb x /\ Ptr x) /\ Fc x).
  pose (I2 := fun x : machine => I1 x /\ Ft x).
  pose (I3 := fun x : machine => I2 x /\ Fcs x).
  pose (I4 := fun x : machine =>
    B x /\ (Pp x /\ Pts x /\ Pmb x /\ Ptr x)
    /\ (Fc x /\ Ft x /\ Fcs x /\ Fps x)).
  pose (I5 := fun x : machine => I4 x /\ Fes x).
  pose (I6 := fun x : machine => I4 x /\ Ffe x).
  pose (I7 := fun x : machine =>
    B x /\ (Pp x /\ Pmb x /\ Ptr x)
    /\ (Fc x /\ Ft x /\ Fcs x /\ Fps x) /\ (Ffe x /\ Fts x)).
  pose (I8 := fun x : machine =>
    B x /\ (Pp x /\ Ptr x)
    /\ (Fc x /\ Ft x /\ Fcs x /\ Fps x) /\ (Ffe x /\ Fts x)
    /\ Mb.run_time_remaining (mb x)
       = Mb.run_time_remaining (mb s) - Mr.segment_time (mr s)).
  pose (I9 := fun x : machine =>
    B x /\ (Pp x /\ Ptr x)
    /\ (Fc x /\ Ft x /\ Fcs x /\ Fps x) /\ (Ffe x /\ Fts x)
    /\ Mb.run_time_remaining (mb x) = segment_time_left s).
  cbv beta delta [_exec_aline_segment].
  (* --mr.segment_count *)
  abstract_let I1 ltac:(idtac; repeat split).
  (* the target *)
  abstract_let I2 ltac:(idtac;
    match goal with
    | Hi : I1 _ |- _ =>
        pose proof Hi
          as ((Ho & Hc & Hq) & (Hp & Hps & Hts & Hmb & Htr) & Hcount)
    end;
    destruct (outside_segment_fields _ _ Ho)
      as ((Hsec & Hst & Hw) & (Hv & Hti & Hu));
    unfold I2, I1, Ft, segment_target, last_segment;
    rewrite Hcount, Hst, Hc, Hw, Hsec, Hv, Hti, Hp, Hu;
    destruct (_ && _ && _); repeat split; assumption).
  (* the steps *)
  abstract_let I3 ltac:(idtac;
    match goal with
    | Hi : I2 _ |- _ =>
        pose proof Hi as ((_ & (_ & Hps & _) & _) & _);
        split; [exact Hi | exact Hps]
    end).
  abstract_let I4 ltac:(idtac;
    match goal with
    | Hi : I3 _ |- _ =>
        destruct Hi
          as ((((Ho & Hc & Hq) & (Hp & Hps & Hts & Hmb & Htr) & Hcount)
               & Ht) & Hcs)
    end;
    repeat split; assumption).
  abstract_let I5 ltac:(idtac;
    match goal with
    | Hi : I4 _ |- _ =>
        pose proof Hi as (_ & (_ & _ & _ & Htr) & _);
        split; [exact Hi |]
    end;
    unfold Fes; unfold Ptr in Htr; rewrite <- Htr; reflexivity).
  abstract_let I6 ltac:(idtac;
    match goal with
    | Hi : I5 _ |- _ =>
        destruct Hi as (Hi & Hes);
        pose proof Hi as (_ & _ & (_ & _ & Hcs & _));
        split; [exact Hi |]
    end;
    unfold Ffe, segment_following_error; unfold Fes in Hes; unfold Fcs in Hcs;
    rewrite <- Hes, <- Hcs; reflexivity).
  abstract_let I7 ltac:(idtac;
    match goal with
    | Hi : I6 _ |- _ =>
        destruct Hi
          as (((Ho & Hc & Hq) & (Hp & Hts & Hmb & Htr) & (Hcount & Ht & Hcs & Hps))
              & Hfe)
    end;
    repeat split; try assumption;
    unfold Fts; unfold Ft in Ht; rewrite <- Ht; reflexivity).
  zeta1.
  (* mb.run_time_remaining *)
  abstract_let I8 ltac:(idtac;
    match goal with
    | Hi : I7 _ |- _ =>
        destruct Hi
          as ((Ho & Hc & Hq) & (Hp & Hmb & Htr) & (Hcount & Ht & Hcs & Hps)
              & (Hfe & Hts))
    end;
    destruct (outside_segment_fields _ _ Ho) as (_ & (_ & Hti & _));
    repeat split; try assumption;
    unfold Pmb in Hmb; rewrite <- Hmb, <- Hti; reflexivity).
  abstract_let I9 ltac:(idtac;
    match goal with
    | Hi : I8 _ |- _ =>
        destruct Hi
          as ((Ho & Hc & Hq) & (Hp & Htr) & (Hcount & Ht & Hcs & Hps)
              & (Hfe & Hts) & Hrt)
    end;
    unfold I9, segment_time_left; rewrite Hrt;
    destruct (Qltb _ 0); repeat split; assumption).
  (* ritorno(st_prep_line(...)) *)
  match goal with
  | H7 : I7 ?x7, H9 : I9 ?x9 |- _ =>
      pose proof H7 as (_ & _ & (_ & _ & _ & Hps7) & (_ & Hts7));
      pose proof H9 as ((Ho9 & _) & _ & _ & (Hfe9 & _) & _);
      destruct (outside_segment_fields _ _ Ho9) as (_ & (_ & Hti9 & _));
      unfold Fps in Hps7; unfold Fts in Hts7; unfold Ffe in Hfe9;
      rewrite Hps7, Hts7, Hfe9, Hti9
  end.
  fold (segment_travel E s). fold (segment_status E s). fold status.
  zeta1.
  pose (I10 := fun x : machine =>
    B x /\ Pp x /\ (Fc x /\ Ft x /\ Fcs x /\ Fps x) /\ (Ffe x /\ Fts x)
    /\ Mb.run_time_remaining (mb x) = segment_time_left s
    /\ trace x
       = trace s ++ [Ev_st_prep_line (segment_travel E s)
                       (segment_following_error E s) (Mr.segment_time (mr s))]).
  abstract_let I10 ltac:(idtac;
    match goal with
    | Hi : I9 _ |- _ =>
        destruct Hi
          as ((Ho & Hc & Hq) & (Hp & Htr) & (Hcount & Ht & Hcs & Hps)
              & (Hfe & Hts) & Hrt)
    end;
    repeat split; try assumption;
    unfold log; cbn [trace set set_trace]; unfold Ptr in Htr;
    rewrite <- Htr; reflexivity).
  match goal with
  | Hi : I10 _ |- _ =>
      destruct Hi
        as ((Ho & Hc & Hq) & Hp & (Hcount & Ht & Hcs & Hps)
            & (Hfe & Hts) & Hrt & Htr)
  end.
  destruct (stat_eqb status STAT_OK) eqn:Hok;
    cbv beta iota delta [negb].
  - pose (I11 := fun x : machine =>
      B x /\ (Fc x /\ Ft x /\ Fcs x /\ Fps x) /\ (Ffe x /\ Fts x)
      /\ Mb.run_time_remaining (mb x) = segment_time_left s
      /\ trace x
         = trace s ++ [Ev_st_prep_line (segment_travel E s)
                         (segment_following_error E s)
                         (Mr.segment_time (mr s))]
      /\ Mr.position (mr x) = segment_target s).
    abstract_let I11 ltac:(idtac; repeat split; assumption).
    match goal with
    | Hi : I11 _ |- _ =>
        destruct Hi
          as ((Ho' & Hc' & Hq') & (Hcount' & Ht' & Hcs' & Hps')
              & (Hfe' & Hts') & Hrt' & Htr' & Hpos')
    end.
    unfold Fc in Hcount'. rewrite Hcount'.
    unfold G, last_segment.
    destruct (_ =? 0)%Z; repeat split; assumption.
  - unfold G. repeat split; assumption.
Qed.

(** X2: What the segment runner never writes: the section and its state, the
    segment velocity and time, the forward differences, the block and
    group runtimes and their pointers (all of [mr] but the segment count,
    the target, the position and the step vectors), [cm] and the queue. *)
Theorem segment_writes (s : machine) :
  let s' := snd (_exec_aline_segment E s) in
  outside_segment (mr s') = outside_segment (mr s) /\
  cm s' = cm s /\ queue s' = queue s.
Proof.
  intros s'. apply (exec_aline_segment_spec s).
Qed.

(** X3: On an error of [st_prep_line] the segment runner hands that error back
    and does not advance [mr.position], although the segment is already
    counted and its target set. *)
Theorem segment_prep_error_keeps_position (s : machine) :
  segment_status E s <> STAT_OK ->
  let r := _exec_aline_segment E s in
  fst r = segment_status E s /\
  Mr.position (mr (snd r)) = Mr.position (mr s) /\
  Mr.segment_count (mr (snd r)) = uint32_dec (Mr.segment_count (mr s)) /\
  Gm.target (Mr.gm (mr (snd r))) = segment_target s.
Proof.
  intros Herr r.
  destruct (exec_aline_segment_spec s) as (_ & (Hc & Ht) & _ & _ & Hres).
  fold r in Hc, Ht, Hres.
  destruct (stat_eqb (segment_status E s) STAT_OK) eqn:Hok.
  - exfalso. apply Herr. now apply stat_eqb_eq.
  - destruct Hres as [Hst Hpos]. repeat split; assumption.
Qed.

(** X4: The last segment of a second half, outside a hold, ends exactly on the
    waypoint of its section; in a hold it ends where velocity and time
    take it. *)
Theorem segment_lands_on_waypoint (s : machine) :
  segment_status E s = STAT_OK ->
  Mr.segment_count (mr s) = 1%Z ->
  Mr.section_state (mr s) = SECTION_2nd_HALF ->
  let r := _exec_aline_segment E s in
  fst r = STAT_OK /\
  Mr.position (mr (snd r))
  = if motionState_beq (Cm.motion_state (cm s)) MOTION_HOLD
    then vmap2 (fun p u => p + u * (Mr.segment_velocity (mr s)
                                    * Mr.segment_time (mr s)))
               (Mr.position (mr s)) (Mr.unit (mr s))
    else Mr.waypoint (mr s) (Mr.section (mr s)).
Proof.
  intros Hok Hcount Hst r.
  destruct (exec_aline_segment_spec s) as (_ & _ & _ & _ & Hres).
  fold r in Hres. rewrite Hok in Hres. cbn [stat_eqb] in Hres.
  unfold segment_target, last_segment in Hres.
  rewrite Hcount, Hst in Hres.
  change (uint32_dec 1 =? 0)%Z with true in Hres.
  cbn [sectionState_beq andb] in Hres.
  destruct Hres as [Hr Hpos]. split; [exact Hr |].
  rewrite Hpos. now destruct (motionState_beq _ _).
Qed.

(** X5: A segment run when [mr.segment_count] is already zero wraps the
    counter round to [2^32 - 1]: the section is reported as still having
    segments to run. *)
Theorem segment_count_wraps (s : machine) :
  segment_status E s = STAT_OK ->
  Mr.segment_count (mr s) = 0%Z ->
  let r := _exec_aline_segment E s in
  fst r = STAT_EAGAIN /\
  Mr.segment_count (mr (snd r)) = 4294967295%Z.
Proof.
  intros Hok Hcount r.
  destruct (exec_aline_segment_spec s) as (_ & (Hc & _) & _ & _ & Hres).
  fold r in Hc, Hres. rewrite Hok in Hres. cbn [stat_eqb] in Hres.
  unfold last_segment in Hres. rewrite Hcount in Hc, Hres.
  destruct Hres as [Hr _]. split; [exact Hr | exact Hc].
Qed.

(** X6: [mb.run_time_remaining] never goes below zero: a segment takes its
    time off, and what would be left below zero is set to zero. *)
Theorem segment_time_remaining_nonneg (s : machine) :
  let s' := snd (_exec_aline_segment E s) in
  let left := Mb.run_time_remaining (mb s) - Mr.segment_time (mr s) in
  0 <= Mb.run_time_remaining (mb s') /\
  Mb.run_time_remaining (mb s') = (if Qltb left 0 then 0 else left).
Proof.
  intros s' left.
  destruct (exec_aline_segment_spec s) as (_ & _ & _ & (Hrt & _) & _).
  fold s' in Hrt. rewrite Hrt. unfold segment_time_left. fold left.
  split; [| reflexivity].
  destruct (Qltb left 0) eqn:Hneg.
  - apply Qle_refl.
  - now apply Qltb_false.
Qed.

(** X7: The step vectors are a delay line: the target steps of one segment are
    the position steps of the next and the commanded steps of the one
    after, whatever [st_prep_line] returns. *)
Theorem commanded_steps_lag_two_segments (s : machine) :
  let s1 := snd (_exec_aline_segment E s) in
  let s2 := snd (_exec_aline_segment E s1) in
  Mr.position_steps (mr s2) = Mr.target_steps (mr s1) /\
  Mr.commanded_steps (mr s2) = Mr.target_steps (mr s) /\
  Mr.following_error (mr s2)
  = vmap2 Qminus (map (en_read_encoder E (trace s1)) (seq 0 (MOTORS E)))
                 (Mr.target_steps (mr s)).
Proof.
  intros s1 s2.
  destruct (exec_aline_segment_spec s) as (_ & _ & (_ & Hps & _) & _).
  destruct (exec_aline_segment_spec s1) as (_ & _ & (Hcs & Hps1 & _ & Hfe) & _).
  fold s1 in Hps. fold s2 in Hcs, Hps1, Hfe.
  split; [exact Hps1 |]. split; [congruence |].
  rewrite Hfe. unfold segment_following_error. now rewrite Hps.
Qed.

End Segment.

Lemma segment_prep_error_keeps_position_witness :
  let s := in_body 3 in
  let r := _exec_aline_segment refusing_env s in
  fst r = STAT_INTERNAL_ERROR /\
  Mr.position (mr (snd r)) = Mr.position (mr s).
Proof.
  intros s r.
  assert (H : segment_status refusing_env s <> STAT_OK) by discriminate.
  destruct (segment_prep_error_keeps_position refusing_env s H)
    as (Hst & Hpos & _).
  split; [exact Hst | exact Hpos].
Defined.

Lemma segment_lands_on_waypoint_witness :
  let s := in_body 1 in
  let r := _exec_aline_segment demo_env s in
  fst r = STAT_OK /\ Mr.position (mr (snd r)) = [7; 0].
Proof.
  intros s r.
  exact (segment_lands_on_waypoint demo_env s eq_refl eq_refl eq_refl).
Defined.

Lemma segment_count_wraps_witness :
  let r := _exec_aline_segment demo_env (in_body 0) in
  fst r = STAT_EAGAIN /\ Mr.segment_count (mr (snd r)) = 4294967295%Z.
Proof.
  exact (segment_count_wraps demo_env (in_body 0) eq_refl eq_refl).
Defined.

(* ================================================================== *)
(** ** A body from its first segment to its last *)

Section BodyRun.
Variable E : collaborators.
Hypothesis prep_ok : prep_always_ok E.
Variable bf : nat.

Lemma body_second_half_call (x : machine) :
  Mr.section_state (mr x) = SECTION_2nd_HALF ->
  0 <= Mr.segment_velocity (mr x) ->
  exists x', _exec_aline_body E bf x = Ret STAT_EAGAIN x' /\
    section_kept x x' /\
    prep_lines x' = S (prep_lines x) /\
    Mr.segment_count (mr x') = uint32_dec (Mr.segment_count (mr x)) /\
    Mr.section_state (mr x')
    = (if last_segment x then SECTION_NEW else SECTION_2nd_HALF) /\
    Mr.position (mr x') = segment_target x.
Proof.
  intros Hst Hv. cbv beta delta [_exec_aline_body].
  rewrite (proj2 (Qltb_false _ _) Hv).
  unfold fall_through, bind.
  cbv beta delta [body_section_new]. rewrite Hst.
  change (negb (sectionState_beq SECTION_2nd_HALF SECTION_NEW)) with true.
  cbv beta iota.
  cbv beta delta [body_second_half]. rewrite Hst.
  change (negb (sectionState_beq SECTION_2nd_HALF SECTION_2nd_HALF))
    with false.
  cbv beta iota.
  pose proof (exec_aline_segment_spec E x) as Hspec.
  pose proof (exec_aline_segment_preps E x) as Hprep.
  cbv zeta in Hspec.
  assert (Hok : segment_status E x = STAT_OK) by apply prep_ok.
  rewrite Hok in Hspec. cbn [stat_eqb] in Hspec.
  destruct (_exec_aline_segment E x) as [st x1]. cbn [fst snd] in Hspec, Hprep.
  destruct Hspec as ((Ho & Hc & _) & (Hcount & _) & _ & _ & (Hres & Hpos)).
  destruct (outside_segment_fields _ _ Ho) as ((Hsec & Hss & Hw) & (Hvel & _)).
  destruct (outside_segment_runtime _ _ Ho)
    as ((Hbf & Hr & _) & (Hex & _) & _).
  assert (Hblk : mr_r x1 = mr_r x) by (unfold mr_r, blk; now rewrite Hbf, Hr).
  subst st.
  destruct (last_segment x); cbn [stat_eqb]; cbv iota;
    eexists; (split; [reflexivity |]); unfold section_kept;
    repeat split; first [ assumption | congruence ].
Qed.

(** A body with [S m] segments left runs them in [S m] calls and ends on
    the waypoint of its section, ready for a new section. *)
Lemma body_second_half_run (m : nat) : forall x : machine,
  Mr.section_state (mr x) = SECTION_2nd_HALF ->
  0 <= Mr.segment_velocity (mr x) ->
  Cm.motion_state (cm x) <> MOTION_HOLD ->
  Mr.segment_count (mr x) = Z.of_nat (S m) ->
  (Z.of_nat (S m) <= 2 ^ 32)%Z ->
  exists x', again (S m) (_exec_aline_body E bf) x = Some x' /\
    section_kept x x' /\
    prep_lines x' = (prep_lines x + S m)%nat /\
    Mr.section_state (mr x') = SECTION_NEW /\
    Mr.position (mr x') = Mr.waypoint (mr x) (Mr.section (mr x)).
Proof.
  induction m as [| m IH]; intros x Hst Hv Hh Hcount Hbound.
  - destruct (body_second_half_call x Hst Hv)
      as (x' & Hcall & Hk & Hp & Hc & Hss & Hpos).
    cbn [again]. rewrite Hcall. exists x'. split; [reflexivity |].
    unfold last_segment in Hss. unfold segment_target, last_segment in Hpos.
    rewrite Hcount in Hss, Hpos.
    change (uint32_dec (Z.of_nat 1) =? 0)%Z with true in Hss, Hpos.
    rewrite Hst in Hpos.
    assert (Hb : motionState_beq (Cm.motion_state (cm x)) MOTION_HOLD = false)
      by (destruct (Cm.motion_state (cm x)); (reflexivity || contradiction)).
    rewrite Hb in Hpos. cbn in Hpos.
    repeat split; first [ apply Hk | assumption | lia ].
  - destruct (body_second_half_call x Hst Hv)
      as (x1 & Hcall & Hk & Hp & Hc & Hss & Hpos).
    change (again (S (S m)) (_exec_aline_body E bf) x)
      with (match _exec_aline_body E bf x with
            | Ret STAT_EAGAIN s' => again (S m) (_exec_aline_body E bf) s'
            | _ => None
            end).
    rewrite Hcall.
    unfold last_segment in Hss.
    rewrite Hcount, (uint32_dec_succ _ Hbound) in Hc, Hss.
    assert (Hnz : (Z.of_nat (S m) =? 0)%Z = false)
      by (apply Z.eqb_neq; lia).
    rewrite Hnz in Hss.
    destruct Hk as ((Hsec & Hw & Hvel) & (Hcm & Hex & Hblk)).
    destruct (IH x1) as (x' & Hrun & Hk' & Hp' & Hss' & Hpos').
    + exact Hss.
    + now rewrite Hvel.
    + now rewrite Hcm.
    + exact Hc.
    + lia.
    + exists x'. split; [exact Hrun |].
      destruct Hk' as ((Hsec' & Hw' & Hvel') & (Hcm' & Hex' & Hblk')).
      unfold section_kept. repeat split; try congruence.
      rewrite Hp', Hp. lia.
Qed.

Lemma body_section_new_start (s : machine) :
  Mr.section_state (mr s) = SECTION_NEW ->
  fp_ZERO (EPSILON E)
    (Blk.body_length (mr_r s) - Mr.executed_body_length (mr s)) = false ->
  Qltb (body_time_left s / body_segments E s) (MIN_SEGMENT_TIME E) = false ->
  exists s1, body_section_new E bf s = Ret None s1 /\
    (Mr.section_state (mr s1) = SECTION_2nd_HALF /\
     Mr.section (mr s1) = SECTION_BODY /\
     Mr.segment_count (mr s1) = to_uint32 (body_segments E s)) /\
    (Mr.segment_velocity (mr s1) = Blk.cruise_velocity (mr_r s) /\
     Mr.waypoint (mr s1) SECTION_BODY = body_end E s /\
     Mr.executed_body_length (mr s1) = Blk.body_length (mr_r s)) /\
    (cm s1 = cm s /\ trace s1 = trace s /\ mr_r s1 = mr_r s).
Proof.
  intros Hst Hrem Hmin.
  cbv beta delta [body_section_new]. rewrite Hst.
  change (negb (sectionState_beq SECTION_NEW SECTION_NEW)) with false.
  cbv beta iota. zeta1. rewrite Hrem. cbv beta iota.
  cbv beta delta [body_end body_time_left body_segments mr_r blk set_waypoint]
    in *.
  destruct (fp_ZERO (EPSILON E) (Mr.executed_body_length (mr s)));
    cbv beta iota delta [negb]; mr_norm; mr_norm_in Hmin; rewrite Hmin;
    (eexists; split; [reflexivity |]); repeat split.
Qed.

(** The first call of a new body is the section set-up followed by what a
    call in the second half does. *)
Lemma body_first_call (s : machine) :
  Mr.section_state (mr s) = SECTION_NEW ->
  0 <= Mr.segment_velocity (mr s) ->
  0 <= Blk.cruise_velocity (mr_r s) ->
  fp_ZERO (EPSILON E)
    (Blk.body_length (mr_r s) - Mr.executed_body_length (mr s)) = false ->
  Qltb (body_time_left s / body_segments E s) (MIN_SEGMENT_TIME E) = false ->
  exists s1, _exec_aline_body E bf s = _exec_aline_body E bf s1 /\
    (Mr.section_state (mr s1) = SECTION_2nd_HALF /\
     Mr.section (mr s1) = SECTION_BODY /\
     Mr.segment_count (mr s1) = to_uint32 (body_segments E s)) /\
    (Mr.segment_velocity (mr s1) = Blk.cruise_velocity (mr_r s) /\
     Mr.waypoint (mr s1) SECTION_BODY = body_end E s /\
     Mr.executed_body_length (mr s1) = Blk.body_length (mr_r s)) /\
    (cm s1 = cm s /\ trace s1 = trace s /\ mr_r s1 = mr_r s).
Proof.
  intros Hst Hv Hcruise Hrem Hmin.
  destruct (body_section_new_start s Hst Hrem Hmin)
    as (s1 & Hnew & (Hss & Hsec & Hcount) & (Hvel & Hw & Hex) & Hrest).
  exists s1. split; [| repeat split; first [ assumption | apply Hrest ] ].
  cbv beta delta [_exec_aline_body].
  rewrite (proj2 (Qltb_false _ _) Hv).
  rewrite Hvel, (proj2 (Qltb_false _ _) Hcruise).
  unfold fall_through, bind. rewrite Hnew.
  cbv beta delta [body_section_new]. rewrite Hss.
  change (negb (sectionState_beq SECTION_2nd_HALF SECTION_NEW)) with true.
  reflexivity.
Qed.

End BodyRun.

(** X8: A body runs in as many calls as it has segments: set up on a machine
    whose section state is [SECTION_NEW], with [S n] segments of at least
    [MIN_SEGMENT_TIME] each, outside a hold and with a stepper that accepts
    every segment, the body returns [STAT_EAGAIN] from each of [S n] calls,
    prepares one segment in each, and leaves the position on the end of the
    body and the section state on [SECTION_NEW]. *)
Theorem body_runs_its_segments (E : collaborators) (bf : nat) (s : machine)
    (n : nat) :
  prep_always_ok E ->
  Mr.section_state (mr s) = SECTION_NEW ->
  0 <= Mr.segment_velocity (mr s) ->
  0 <= Blk.cruise_velocity (mr_r s) ->
  Cm.motion_state (cm s) <> MOTION_HOLD ->
  fp_ZERO (EPSILON E)
    (Blk.body_length (mr_r s) - Mr.executed_body_length (mr s)) = false ->
  Qltb (body_time_left s / body_segments E s) (MIN_SEGMENT_TIME E) = false ->
  to_uint32 (body_segments E s) = Z.of_nat (S n) ->
  exists s', again (S n) (_exec_aline_body E bf) s = Some s' /\
    prep_lines s' = (prep_lines s + S n)%nat /\
    Mr.section (mr s') = SECTION_BODY /\
    Mr.section_state (mr s') = SECTION_NEW /\
    Mr.position (mr s') = body_end E s /\
    Mr.executed_body_length (mr s') = Blk.body_length (mr_r s) /\
    mr_r s' = mr_r s.
Proof.
  intros Hprep Hst Hv Hcruise Hhold Hrem Hmin Hn.
  destruct (body_first_call E bf s Hst Hv Hcruise Hrem Hmin)
    as (s1 & Hcall & (Hss & Hsec & Hcount) & (Hvel & Hw & Hex)
        & (Hcm & Htr & Hblk)).
  assert (Hbound : (Z.of_nat (S n) <= 2 ^ 32)%Z).
  { rewrite <- Hn. unfold to_uint32.
    pose proof (Z.mod_pos_bound (Qfloor (body_segments E s)) (2 ^ 32)). lia. }
  destruct (body_second_half_run E Hprep bf n s1) as (s' & Hrun & Hk & Hp & Hss' & Hpos).
  - exact Hss.
  - now rewrite Hvel.
  - now rewrite Hcm.
  - now rewrite Hcount.
  - exact Hbound.
  - exists s'.
    assert (Hagain : again (S n) (_exec_aline_body E bf) s
                     = again (S n) (_exec_aline_body E bf) s1)
      by (cbn [again]; now rewrite Hcall).
    destruct Hk as ((Hsec' & Hw' & Hvel') & (Hcm' & Hex' & Hblk')).
    rewrite Hagain. split; [exact Hrun |].
    assert (Hprep1 : prep_lines s1 = prep_lines s)
      by (unfold prep_lines; now rewrite Htr).
    repeat split; congruence.
Qed.

Lemma body_runs_its_segments_witness :
  let s := starting_section body_blk SECTION_BODY 4 in
  exists s', again 3 (_exec_aline_body demo_env 0) s = Some s' /\
    prep_lines s' = (prep_lines s + 3)%nat /\
    Mr.section (mr s') = SECTION_BODY /\
    Mr.section_state (mr s') = SECTION_NEW /\
    Mr.position (mr s') = [4; 0] /\
    Mr.executed_body_length (mr s') = 4 /\
    mr_r s' = mr_r s.
Proof.
  intros s.
  apply (body_runs_its_segments demo_env 0 s 2).
  - intros ? ? ?. reflexivity.
  - reflexivity.
  - vm_compute. discriminate.
  - vm_compute. discriminate.
  - vm_compute. discriminate.
  - vm_compute. reflexivity.
  - vm_compute. reflexivity.
  - vm_compute. reflexivity.
Defined.

(* ================================================================== *)
(** ** A tail from its first segment to its last *)

Lemma fd_regs_next (a b : machine) :
  fd_regs (mr a) = fd_regs (mr b) ->
  fd_regs (mr (next_segment_velocity a)) = fd_regs (mr (next_segment_velocity b)).
Proof.
  unfold fd_regs. intros H. injection H as Hv H5 H4 H3 H2 H1.
  destruct (next_segment_velocity_registers a)
    as (Ev & E5 & E4 & E3 & E2 & E1 & _).
  destruct (next_segment_velocity_registers b)
    as (Ev' & E5' & E4' & E3' & E2' & E1' & _).
  rewrite Ev, E5, E4, E3, E2, E1, Ev', E5', E4', E3', E2', E1'.
  now rewrite Hv, H5, H4, H3, H2, H1.
Qed.

Lemma fd_regs_iter (k : nat) (a b : machine) :
  fd_regs (mr a) = fd_regs (mr b) ->
  fd_regs (mr (Nat.iter k next_segment_velocity a))
  = fd_regs (mr (Nat.iter k next_segment_velocity b)).
Proof.
  intros H. induction k as [| k IH]; [exact H |].
  cbn [Nat.iter]. now apply fd_regs_next.
Qed.

Lemma fd_tracks_regs (c : quintic) (h t : Q) (m m' : Mr.t) :
  fd_regs m = fd_regs m' -> fd_tracks c h t m -> fd_tracks c h t m'.
Proof.
  unfold fd_regs, fd_tracks. intros H. injection H as Hv H5 H4 H3 H2 H1.
  now rewrite Hv, H5, H4, H3, H2, H1.
Qed.

Lemma fd_regs_outside_segment (m m' : Mr.t) :
  outside_segment m = outside_segment m' -> fd_regs m = fd_regs m'.
Proof.
  intros H.
  destruct (outside_segment_fields _ _ H) as (_ & (Hv & _)).
  destruct (outside_segment_runtime _ _ H) as (_ & _ & (H5 & H4 & H3 & H2 & H1)).
  unfold fd_regs. now rewrite Hv, H5, H4, H3, H2, H1.
Qed.

Lemma fd_regs_advance (a b : machine) :
  fd_regs (mr a) = fd_regs (mr b) ->
  fd_regs (mr (advance_forward_diffs a)) = fd_regs (mr (advance_forward_diffs b)).
Proof.
  intros H. unfold fd_regs in H. injection H as Hv H5 H4 H3 H2 H1.
  change (fd_regs (mr (advance_forward_diffs a)))
    with [Mr.segment_velocity (mr a);
          Mr.forward_diff_5 (mr a) + Mr.forward_diff_4 (mr a);
          Mr.forward_diff_4 (mr a) + Mr.forward_diff_3 (mr a);
          Mr.forward_diff_3 (mr a) + Mr.forward_diff_2 (mr a);
          Mr.forward_diff_2 (mr a) + Mr.forward_diff_1 (mr a);
          Mr.forward_diff_1 (mr a)].
  change (fd_regs (mr (advance_forward_diffs b)))
    with [Mr.segment_velocity (mr b);
          Mr.forward_diff_5 (mr b) + Mr.forward_diff_4 (mr b);
          Mr.forward_diff_4 (mr b) + Mr.forward_diff_3 (mr b);
          Mr.forward_diff_3 (mr b) + Mr.forward_diff_2 (mr b);
          Mr.forward_diff_2 (mr b) + Mr.forward_diff_1 (mr b);
          Mr.forward_diff_1 (mr b)].
  now rewrite Hv, H5, H4, H3, H2, H1.
Qed.

(** Reads of the running block through a machine whose block runtimes and
    pointer [mr.r] are those of [s]. *)
Ltac same_block s :=
  repeat match goal with
         | |- context [mr_r ?x] =>
             lazymatch x with
             | s => fail
             | _ => change (mr_r x) with (mr_r s)
             end
         end.

Section TailRun.
Variable E : collaborators.
Hypothesis prep_ok : prep_always_ok E.
Variable bf : nat.

(** A call of the tail in its second half. *)
Lemma tail_second_half_call (x : machine) :
  Mr.section_state (mr x) = SECTION_2nd_HALF ->
  exists x',
    _exec_aline_tail E bf x
    = Ret (if last_segment x then STAT_OK else STAT_EAGAIN) x' /\
    ramp_kept x x' /\
    prep_lines x' = S (prep_lines x) /\
    (Mr.segment_count (mr x') = uint32_dec (Mr.segment_count (mr x)) /\
     Mr.section_state (mr x') = SECTION_2nd_HALF /\
     Mr.segment_velocity (mr x')
     = Mr.segment_velocity (mr x) + Mr.forward_diff_5 (mr x)) /\
    (last_segment x = true ->
     Cm.motion_state (cm x) <> MOTION_HOLD ->
     Mr.position (mr x') = Mr.waypoint (mr x) (Mr.section (mr x))) /\
    (last_segment x = false ->
     fd_regs (mr x') = fd_regs (mr (next_segment_velocity x))).
Proof.
  intros Hst.
  unfold _exec_aline_tail, fall_through at 1; unfold bind.
  cbv beta delta [tail_section_new]. rewrite Hst.
  change (negb (sectionState_beq SECTION_2nd_HALF SECTION_NEW)) with true.
  cbv beta iota. unfold fall_through, bind.
  cbv beta delta [tail_first_half]. rewrite Hst.
  change (negb (sectionState_beq SECTION_2nd_HALF SECTION_1st_HALF)) with true.
  cbv beta iota.
  cbv beta delta [tail_second_half]. rewrite Hst.
  change (negb (sectionState_beq SECTION_2nd_HALF SECTION_2nd_HALF))
    with false.
  cbv beta iota. zeta1.
  set (x0 := x <| mr; Mr.segment_velocity ::=
                  fun v => v + Mr.forward_diff_5 (mr x) |>).
  pose proof (exec_aline_segment_spec E x0) as Hspec.
  pose proof (exec_aline_segment_preps E x0) as Hprep.
  cbv zeta in Hspec.
  assert (Hok : segment_status E x0 = STAT_OK) by apply prep_ok.
  rewrite Hok in Hspec. cbn [stat_eqb] in Hspec.
  destruct (_exec_aline_segment E x0) as [st x1]. cbn [fst snd] in Hspec, Hprep.
  destruct Hspec as ((Ho & Hc & _) & (Hcount & _) & _ & _ & (Hres & Hpos)).
  destruct (outside_segment_fields _ _ Ho) as ((Hsec & Hss & Hw) & (Hvel & _)).
  destruct (outside_segment_runtime _ _ Ho)
    as ((Hbf & Hr & _) & (_ & _ & Hsegs & _) & _).
  pose proof (fd_regs_outside_segment _ _ Ho) as Hregs.
  assert (Hblk : mr_r x1 = mr_r x) by (unfold mr_r, blk; now rewrite Hbf, Hr).
  change (last_segment x0) with (last_segment x) in Hres.
  subst st.
  destruct (last_segment x) eqn:Hlast; cbn [stat_eqb]; cbv iota.
  - exists x1. split; [reflexivity |].
    split; [unfold ramp_kept; repeat split;
             [exact Hsec | exact Hw | exact Hsegs | exact Hc | exact Hblk] |].
    split; [exact Hprep |].
    split; [repeat split; [exact Hcount | exact (eq_trans Hss Hst) | exact Hvel] |].
    split; [| discriminate].
    intros _ Hh. rewrite Hpos. unfold segment_target.
    change (last_segment x0) with (last_segment x). rewrite Hlast.
    change (Mr.section_state (mr x0)) with (Mr.section_state (mr x)).
    rewrite Hst.
    assert (Hb : motionState_beq (Cm.motion_state (cm x)) MOTION_HOLD = false)
      by (destruct (Cm.motion_state (cm x)); (reflexivity || contradiction)).
    change (cm x0) with (cm x). rewrite Hb. reflexivity.
  - exists (advance_forward_diffs x1). split; [reflexivity |].
    split; [unfold ramp_kept; repeat split;
             [exact Hsec | exact Hw | exact Hsegs | exact Hc | exact Hblk] |].
    split; [exact Hprep |].
    split; [repeat split; [exact Hcount | exact (eq_trans Hss Hst) | exact Hvel] |].
    split; [discriminate |].
    intros _. unfold next_segment_velocity. fold x0.
    now apply fd_regs_advance.
Qed.

(** [k] calls of the tail in its second half, with more than [k]
    segments left. *)
Lemma tail_second_half_calls (k : nat) : forall (c : nat) (x : machine),
  Mr.section_state (mr x) = SECTION_2nd_HALF ->
  Mr.segment_count (mr x) = Z.of_nat (k + S c) ->
  (Z.of_nat (k + S c) <= 2 ^ 32)%Z ->
  exists xk, again k (_exec_aline_tail E bf) x = Some xk /\
    ramp_kept x xk /\
    prep_lines xk = (prep_lines x + k)%nat /\
    Mr.section_state (mr xk) = SECTION_2nd_HALF /\
    Mr.segment_count (mr xk) = Z.of_nat (S c) /\
    fd_regs (mr xk) = fd_regs (mr (Nat.iter k next_segment_velocity x)).
Proof.
  induction k as [| k IH]; intros c x Hst Hcount Hbound.
  - exists x. cbn [again Nat.iter]. split; [reflexivity |].
    unfold ramp_kept. repeat split; try assumption. lia.
  - destruct (tail_second_half_call x Hst)
      as (x1 & Hcall & Hk & Hp & (Hc & Hss & _) & _ & Hregs).
    change (S k + S c)%nat with (S (k + S c)) in Hcount, Hbound.
    assert (Hlast : last_segment x = false).
    { unfold last_segment. rewrite Hcount, (uint32_dec_succ _ Hbound).
      apply Z.eqb_neq. lia. }
    rewrite Hlast in Hcall. specialize (Hregs Hlast).
    rewrite Hcount, (uint32_dec_succ _ Hbound) in Hc.
    destruct (IH c x1 Hss Hc) as (xk & Hrun & Hk' & Hp' & Hss' & Hc' & Hregs').
    { lia. }
    exists xk.
    change (again (S k) (_exec_aline_tail E bf) x)
      with (match _exec_aline_tail E bf x with
            | Ret STAT_EAGAIN s' => again k (_exec_aline_tail E bf) s'
            | _ => None
            end).
    rewrite Hcall. split; [exact Hrun |].
    destruct Hk as ((Hsec & Hw & Hsegs) & (Hcm & Hblk)).
    destruct Hk' as ((Hsec' & Hw' & Hsegs') & (Hcm' & Hblk')).
    split; [unfold ramp_kept; repeat split; congruence |].
    split; [lia |]. split; [exact Hss' |]. split; [exact Hc' |].
    rewrite Hregs', Nat.iter_succ_r. now apply fd_regs_iter.
Qed.

(** The set-up of a tail of more than one segment. *)
Lemma tail_section_new_start (s : machine) :
  Mr.section_state (mr s) = SECTION_NEW ->
  fp_ZERO (EPSILON E) (Blk.tail_length (mr_r s)) = false ->
  (to_uint32 (tail_segments E s) =? 1)%Z = false ->
  Qltb (Blk.tail_time (mr_r s) / tail_segments E s) (MIN_SEGMENT_TIME E)
  = false ->
  exists s1, tail_section_new E bf s = Ret None s1 /\
    (Mr.section_state (mr s1) = SECTION_1st_HALF /\
     Mr.section (mr s1) = SECTION_TAIL /\
     Mr.segment_count (mr s1) = to_uint32 (tail_segments E s) /\
     Mr.segments (mr s1) = tail_segments E s) /\
    fd_regs (mr s1)
    = fd_regs (mr (_init_forward_diffs
                     (Blk.cruise_velocity (mr_r s)) (Blk.exit_velocity (mr_r s))
                     (Blk.cruise_acceleration (mr_r s))
                     (Blk.exit_acceleration (mr_r s))
                     (Blk.cruise_jerk (mr_r s)) (Blk.exit_jerk (mr_r s))
                     (Blk.tail_time (mr_r s))
                     (s <| mr; Mr.segments := tail_segments E s |>))) /\
    (Mr.waypoint (mr s1) = Mr.waypoint (mr s) /\
     cm s1 = cm s /\ trace s1 = trace s /\ mr_r s1 = mr_r s).
Proof.
  intros Hst Htail Hn1 Hmin.
  cbv beta delta [tail_section_new]. rewrite Hst.
  change (negb (sectionState_beq SECTION_NEW SECTION_NEW)) with false.
  cbv beta iota. zeta1.
  lazymatch goal with
  | |- context [groupState_beq (Grp.group_state (mr_r_group ?x)) GROUP_DONE] =>
      change (mr_r_group x) with (mr_r_group s)
  end.
  destruct (groupState_beq (Grp.group_state (mr_r_group s)) GROUP_DONE);
    zeta1; same_block s; rewrite Htail; cbv beta iota;
    do 3 zeta1;
    lazymatch goal with
    | |- context [(Mr.segment_count (mr ?x) =? 1)%Z] =>
        change (Mr.segment_count (mr x)) with (to_uint32 (tail_segments E s))
    end;
    rewrite Hn1; cbv beta iota; do 2 zeta1;
    lazymatch goal with
    | |- context [Qltb (Mr.segment_time (mr ?x)) (MIN_SEGMENT_TIME E)] =>
        change (Mr.segment_time (mr x))
          with (Blk.tail_time (mr_r s) / tail_segments E s)
    end;
    rewrite Hmin;
    (eexists; split; [reflexivity |]); repeat split.
Qed.

(** The first call of a tail of more than one segment: the set-up and the
    segment of the first half. *)
Lemma tail_first_call (s : machine) (n : nat) :
  Mr.section_state (mr s) = SECTION_NEW ->
  fp_ZERO (EPSILON E) (Blk.tail_length (mr_r s)) = false ->
  Qltb (Blk.tail_time (mr_r s) / tail_segments E s) (MIN_SEGMENT_TIME E)
  = false ->
  to_uint32 (tail_segments E s) = Z.of_nat (S (S n)) ->
  exists x0, _exec_aline_tail E bf s = Ret STAT_EAGAIN x0 /\
    (Mr.section_state (mr x0) = SECTION_2nd_HALF /\
     Mr.section (mr x0) = SECTION_TAIL /\
     Mr.segment_count (mr x0) = Z.of_nat (S n)) /\
    fd_tracks (power_basis (tail_curve s)) (1 / tail_segments E s)
      (1 / tail_segments E s / 2) (mr x0) /\
    prep_lines x0 = S (prep_lines s) /\
    (Mr.waypoint (mr x0) = Mr.waypoint (mr s) /\
     cm x0 = cm s /\ mr_r x0 = mr_r s).
Proof.
  intros Hst Htail Hmin Hn.
  assert (Hbound : (Z.of_nat (S (S n)) <= 2 ^ 32)%Z).
  { rewrite <- Hn. unfold to_uint32.
    pose proof (Z.mod_pos_bound (Qfloor (tail_segments E s)) (2 ^ 32)). lia. }
  assert (Hn1 : (to_uint32 (tail_segments E s) =? 1)%Z = false)
    by (rewrite Hn; apply Z.eqb_neq; lia).
  destruct (tail_section_new_start s Hst Htail Hn1 Hmin)
    as (s1 & Hnew & (Hss & Hsec & Hcount & Hsegs) & Hregs
        & (Hw & Hcm & Htr & Hblk)).
  unfold _exec_aline_tail, fall_through at 1; unfold bind. rewrite Hnew.
  cbv beta iota. unfold fall_through, bind.
  cbv beta delta [tail_first_half]. rewrite Hss.
  change (negb (sectionState_beq SECTION_1st_HALF SECTION_1st_HALF))
    with false.
  cbv beta iota.
  pose proof (exec_aline_segment_spec E s1) as Hspec.
  pose proof (exec_aline_segment_preps E s1) as Hprep.
  cbv zeta in Hspec.
  assert (Hok : segment_status E s1 = STAT_OK) by apply prep_ok.
  rewrite Hok in Hspec. cbn [stat_eqb] in Hspec.
  destruct (_exec_aline_segment E s1) as [st x1]. cbn [fst snd] in Hspec, Hprep.
  destruct Hspec as ((Ho & Hc & _) & (Hcount1 & _) & _ & _ & (Hres & _)).
  destruct (outside_segment_fields _ _ Ho) as ((Hsec1 & Hss1 & Hw1) & _).
  destruct (outside_segment_runtime _ _ Ho) as ((Hbf & Hr & _) & _).
  pose proof (fd_regs_outside_segment _ _ Ho) as Hregs1.
  assert (Hblk1 : mr_r x1 = mr_r s1)
    by (unfold mr_r, blk; now rewrite Hbf, Hr).
  unfold last_segment in Hres.
  rewrite Hcount, Hn, (uint32_dec_succ _ Hbound) in Hcount1, Hres.
  assert (Hnz : (Z.of_nat (S n) =? 0)%Z = false) by (apply Z.eqb_neq; lia).
  rewrite Hnz in Hres. subst st. cbn [stat_eqb]. cbv iota.
  eexists. split; [reflexivity |].
  split; [repeat split; [exact (eq_trans Hsec1 Hsec) | exact Hcount1] |].
  split.
  { apply (fd_tracks_regs _ _ _
             (mr (_init_forward_diffs
                    (Blk.cruise_velocity (mr_r s)) (Blk.exit_velocity (mr_r s))
                    (Blk.cruise_acceleration (mr_r s))
                    (Blk.exit_acceleration (mr_r s))
                    (Blk.cruise_jerk (mr_r s)) (Blk.exit_jerk (mr_r s))
                    (Blk.tail_time (mr_r s))
                    (s <| mr; Mr.segments := tail_segments E s |>)))).
    - symmetry. exact (eq_trans Hregs1 Hregs).
    - pose proof (fd_tracks_init
                    (s <| mr; Mr.segments := tail_segments E s |>)
                    (Blk.cruise_velocity (mr_r s)) (Blk.exit_velocity (mr_r s))
                    (Blk.cruise_acceleration (mr_r s))
                    (Blk.exit_acceleration (mr_r s))
                    (Blk.cruise_jerk (mr_r s)) (Blk.exit_jerk (mr_r s))
                    (Blk.tail_time (mr_r s))) as Hinit.
      cbv zeta in Hinit.
      change (Mr.segments (mr (s <| mr; Mr.segments := tail_segments E s |>)))
        with (tail_segments E s) in Hinit.
      exact Hinit. }
  split.
  { change (prep_lines x1 = S (prep_lines s)). rewrite Hprep.
    unfold prep_lines. now rewrite Htr. }
  repeat split.
  - exact (eq_trans Hw1 Hw).
  - exact (eq_trans Hc Hcm).
  - exact (eq_trans Hblk1 Hblk).
Qed.

End TailRun.

Section TailOne.
Variable E : collaborators.
Hypothesis prep_ok : prep_always_ok E.
Variable bf : nat.

(** The set-up of a tail of one segment. *)
Lemma tail_section_new_one (s : machine) :
  Mr.section_state (mr s) = SECTION_NEW ->
  fp_ZERO (EPSILON E) (Blk.tail_length (mr_r s)) = false ->
  to_uint32 (tail_segments E s) = 1%Z ->
  Qltb (Blk.tail_time (mr_r s) / tail_segments E s) (MIN_SEGMENT_TIME E)
  = false ->
  exists s1, tail_section_new E bf s = Ret None s1 /\
    (Mr.section_state (mr s1) = SECTION_2nd_HALF /\
     Mr.section (mr s1) = SECTION_TAIL /\
     Mr.segment_count (mr s1) = 1%Z) /\
    (Mr.segment_velocity (mr s1)
     = (Blk.cruise_velocity (mr_r s) + Blk.exit_velocity (mr_r s)) / 2 /\
     Mr.forward_diff_5 (mr s1) = 0) /\
    (Mr.waypoint (mr s1) = Mr.waypoint (mr s) /\
     cm s1 = cm s /\ trace s1 = trace s).
Proof.
  intros Hst Htail Hn Hmin.
  cbv beta delta [tail_section_new]. rewrite Hst.
  change (negb (sectionState_beq SECTION_NEW SECTION_NEW)) with false.
  cbv beta iota. zeta1.
  lazymatch goal with
  | |- context [groupState_beq (Grp.group_state (mr_r_group ?x)) GROUP_DONE] =>
      change (mr_r_group x) with (mr_r_group s)
  end.
  destruct (groupState_beq (Grp.group_state (mr_r_group s)) GROUP_DONE);
    zeta1; same_block s; rewrite Htail; cbv beta iota;
    do 3 zeta1;
    lazymatch goal with
    | |- context [(Mr.segment_count (mr ?x) =? 1)%Z] =>
        change (Mr.segment_count (mr x)) with (to_uint32 (tail_segments E s))
    end;
    rewrite Hn; change (1 =? 1)%Z with true; cbv beta iota; do 3 zeta1;
    lazymatch goal with
    | |- context [Qltb (Mr.segment_time (mr ?x)) (MIN_SEGMENT_TIME E)] =>
        change (Mr.segment_time (mr x))
          with (Blk.tail_time (mr_r s) / tail_segments E s)
    end;
    rewrite Hmin;
    (eexists; split; [reflexivity |]); repeat split; exact Hn.
Qed.

End TailOne.

(** X9: A tail of one segment takes one call: it runs at the mean of the
    cruise and the exit velocity, ends on the waypoint of the tail and
    returns [STAT_OK]. *)
Theorem tail_of_one_segment (E : collaborators) (bf : nat) (s : machine) :
  prep_always_ok E ->
  Mr.section_state (mr s) = SECTION_NEW ->
  Cm.motion_state (cm s) <> MOTION_HOLD ->
  fp_ZERO (EPSILON E) (Blk.tail_length (mr_r s)) = false ->
  Qltb (Blk.tail_time (mr_r s) / tail_segments E s) (MIN_SEGMENT_TIME E)
  = false ->
  to_uint32 (tail_segments E s) = 1%Z ->
  exists s', _exec_aline_tail E bf s = Ret STAT_OK s' /\
    prep_lines s' = S (prep_lines s) /\
    Mr.segment_velocity (mr s')
    == (Blk.cruise_velocity (mr_r s) + Blk.exit_velocity (mr_r s)) / 2 /\
    Mr.position (mr s') = Mr.waypoint (mr s) SECTION_TAIL.
Proof.
  intros Hprep Hst Hhold Htail Hmin Hn.
  destruct (tail_section_new_one E bf s Hst Htail Hn Hmin)
    as (s1 & Hnew & (Hss & Hsec & Hcount) & (Hvel & Hf5) & (Hw & Hcm & Htr)).
  destruct (tail_second_half_call E Hprep bf s1 Hss)
    as (s' & Hcall & _ & Hp & (_ & _ & Hvel') & Hpos & _).
  assert (Hlast : last_segment s1 = true)
    by (unfold last_segment; rewrite Hcount; reflexivity).
  rewrite Hlast in Hcall.
  assert (Heq : _exec_aline_tail E bf s = _exec_aline_tail E bf s1).
  { unfold _exec_aline_tail, fall_through at 1 3; unfold bind.
    rewrite Hnew. cbv beta delta [tail_section_new]. rewrite Hss.
    change (negb (sectionState_beq SECTION_2nd_HALF SECTION_NEW)) with true.
    reflexivity. }
  exists s'. rewrite Heq. split; [exact Hcall |].
  split; [rewrite Hp; unfold prep_lines; now rewrite Htr |].
  split; [rewrite Hvel', Hvel, Hf5; ring |].
  rewrite (Hpos Hlast) by (rewrite Hcm; exact Hhold).
  now rewrite Hw, Hsec.
Qed.

(** X10: The tail follows the curve: a tail of [S (S n)] segments, set up on a
    machine whose section state is [SECTION_NEW], outside a hold and with a
    stepper that accepts every segment, returns [STAT_EAGAIN] from its first
    [S n] calls and [STAT_OK] from the last; the velocity of segment [k] is
    the quintic Bezier curve from cruise to exit at the middle of the
    segment, and the last segment ends on the waypoint of the tail. *)
Theorem tail_follows_curve (E : collaborators) (bf : nat) (s : machine)
    (n : nat) :
  prep_always_ok E ->
  Mr.section_state (mr s) = SECTION_NEW ->
  Cm.motion_state (cm s) <> MOTION_HOLD ->
  fp_ZERO (EPSILON E) (Blk.tail_length (mr_r s)) = false ->
  Qltb (Blk.tail_time (mr_r s) / tail_segments E s) (MIN_SEGMENT_TIME E)
  = false ->
  to_uint32 (tail_segments E s) = Z.of_nat (S (S n)) ->
  let h := 1 / tail_segments E s in
  (forall k, (k <= n)%nat ->
     exists sk, again (S k) (_exec_aline_tail E bf) s = Some sk /\
       prep_lines sk = (prep_lines s + S k)%nat /\
       Mr.segment_velocity (mr sk)
       == bernstein (tail_curve s) (midpoint k h)) /\
  (exists s1 s',
     again (S n) (_exec_aline_tail E bf) s = Some s1 /\
     _exec_aline_tail E bf s1 = Ret STAT_OK s' /\
     prep_lines s' = (prep_lines s + S (S n))%nat /\
     Mr.segment_velocity (mr s')
     == bernstein (tail_curve s) (midpoint (S n) h) /\
     Mr.position (mr s') = Mr.waypoint (mr s) SECTION_TAIL).
Proof.
  intros Hprep Hst Hhold Htail Hmin Hn h.
  assert (Hbound : (Z.of_nat (S (S n)) <= 2 ^ 32)%Z).
  { rewrite <- Hn. unfold to_uint32.
    pose proof (Z.mod_pos_bound (Qfloor (tail_segments E s)) (2 ^ 32)). lia. }
  destruct (tail_first_call E Hprep bf s n Hst Htail Hmin Hn)
    as (x0 & Hcall & (Hss & Hsec & Hcount) & Htracks & Hp0
        & (Hw & Hcm & Hblk)).
  fold h in Htracks.
  assert (Hagain : forall k, again (S k) (_exec_aline_tail E bf) s
                             = again k (_exec_aline_tail E bf) x0)
    by (intros k; cbn [again]; now rewrite Hcall).
  assert (Hstep : forall k, (k <= n)%nat ->
            exists sk, again k (_exec_aline_tail E bf) x0 = Some sk /\
              ramp_kept x0 sk /\
              prep_lines sk = (prep_lines x0 + k)%nat /\
              Mr.section_state (mr sk) = SECTION_2nd_HALF /\
              Mr.segment_count (mr sk) = Z.of_nat (S (n - k)) /\
              fd_tracks (power_basis (tail_curve s)) h
                (h / 2 + inject_Z (Z.of_nat k) * h) (mr sk)).
  { intros k Hk.
    destruct (tail_second_half_calls E Hprep bf k (n - k) x0 Hss)
      as (sk & Hrun & Hkept & Hp & Hss' & Hc & Hregs).
    - rewrite Hcount. f_equal. lia.
    - lia.
    - exists sk. split; [exact Hrun |]. split; [exact Hkept |].
      split; [exact Hp |]. split; [exact Hss' |]. split; [exact Hc |].
      eapply fd_tracks_regs; [symmetry; exact Hregs |].
      now apply fd_tracks_iter. }
  split.
  - intros k Hk. destruct (Hstep k Hk) as (sk & Hrun & _ & Hp & _ & _ & Htr).
    exists sk. rewrite Hagain. split; [exact Hrun |]. split; [lia |].
    destruct Htr as (Hv & _). rewrite Hv, bernstein_power_basis.
    assert (Et : h / 2 + inject_Z (Z.of_nat k) * h == midpoint k h)
      by (unfold midpoint; field).
    unfold V. rewrite Et. reflexivity.
  - destruct (Hstep n (Nat.le_refl n))
      as (s1 & Hrun & Hkept & Hp & Hss1 & Hc1 & Htr).
    rewrite Nat.sub_diag in Hc1.
    destruct (tail_second_half_call E Hprep bf s1 Hss1)
      as (s' & Hlastcall & Hkept' & Hp' & (_ & _ & Hvel) & Hpos & _).
    assert (Hlast : last_segment s1 = true)
      by (unfold last_segment; rewrite Hc1; reflexivity).
    rewrite Hlast in Hlastcall.
    destruct Hkept as ((Hsec1 & Hw1 & _) & (Hcm1 & _)).
    exists s1, s'. rewrite Hagain. split; [exact Hrun |].
    split; [exact Hlastcall |]. split; [lia |]. split.
    + rewrite Hvel. destruct Htr as (Hv & H5 & _). rewrite Hv, H5.
      rewrite bernstein_power_basis.
      assert (Et : h / 2 + inject_Z (Z.of_nat n) * h + h
                   == midpoint (S n) h).
      { unfold midpoint. rewrite Nat2Z.inj_succ. unfold Z.succ.
        rewrite inject_Z_plus. field. }
      unfold V. rewrite <- Et. ring.
    + rewrite (Hpos Hlast) by (rewrite Hcm1, Hcm; exact Hhold).
      rewrite Hw1, Hw, Hsec1, Hsec. reflexivity.
Qed.

Lemma tail_follows_curve_witness :
  let s := starting_section tail_blk SECTION_TAIL (5 # 2) in
  let h := 1 / tail_segments demo_env s in
  (forall k, (k <= 2)%nat ->
     exists sk, again (S k) (_exec_aline_tail demo_env 0) s = Some sk /\
       prep_lines sk = (prep_lines s + S k)%nat /\
       Mr.segment_velocity (mr sk)
       == bernstein (tail_curve s) (midpoint k h)) /\
  (exists s1 s',
     again 3 (_exec_aline_tail demo_env 0) s = Some s1 /\
     _exec_aline_tail demo_env 0 s1 = Ret STAT_OK s' /\
     prep_lines s' = (prep_lines s + 4)%nat /\
     Mr.segment_velocity (mr s')
     == bernstein (tail_curve s) (midpoint 3 h) /\
     Mr.position (mr s') = Mr.waypoint (mr s) SECTION_TAIL).
Proof.
  intros s h.
  apply (tail_follows_curve demo_env 0 s 2).
  - intros ? ? ?. reflexivity.
  - reflexivity.
  - vm_compute. discriminate.
  - vm_compute. reflexivity.
  - vm_compute. reflexivity.
  - vm_compute. reflexivity.
Defined.

Lemma tail_of_one_segment_witness :
  let s := starting_section short_tail_blk SECTION_TAIL 1 in
  exists s', _exec_aline_tail demo_env 0 s = Ret STAT_OK s' /\
    prep_lines s' = S (prep_lines s) /\
    Mr.segment_velocity (mr s') == (18000 + 12000) / 2 /\
    Mr.position (mr s') = [1; 0].
Proof.
  intros s.
  apply (tail_of_one_segment demo_env 0 s).
  - intros ? ? ?. reflexivity.
  - reflexivity.
  - vm_compute. discriminate.
  - vm_compute. reflexivity.
  - vm_compute. reflexivity.
  - vm_compute. reflexivity.
Defined.

(* ================================================================== *)
(** ** A head from its first segment to its last *)

Section HeadRun.
Variable E : collaborators.
Hypothesis prep_ok : prep_always_ok E.
Variable bf : nat.

(** A call of the head in its second half. *)
Lemma head_second_half_call (x : machine) :
  Mr.section_state (mr x) = SECTION_2nd_HALF ->
  exists st x', _exec_aline_head E bf x = Ret st x' /\
    (prep_lines x' = S (prep_lines x) /\
     Mr.segment_velocity (mr x')
     = Mr.segment_velocity (mr x) + Mr.forward_diff_5 (mr x)) /\
    ((Mr.waypoint (mr x') = Mr.waypoint (mr x) /\
      Mr.segments (mr x') = Mr.segments (mr x)) /\
     (cm x' = cm x /\ mr_r x' = mr_r x)) /\
    (last_segment x = false ->
     st = STAT_EAGAIN /\
     (Mr.section (mr x') = Mr.section (mr x) /\
      Mr.section_state (mr x') = SECTION_2nd_HALF /\
      Mr.segment_count (mr x') = uint32_dec (Mr.segment_count (mr x))) /\
     fd_regs (mr x') = fd_regs (mr (next_segment_velocity x))) /\
    (last_segment x = true ->
     st = (if fp_ZERO (EPSILON E) (Blk.body_length (mr_r x))
              && fp_ZERO (EPSILON E) (Blk.tail_length (mr_r x))
           then STAT_OK else STAT_EAGAIN) /\
     (Cm.motion_state (cm x) <> MOTION_HOLD ->
      Mr.position (mr x') = Mr.waypoint (mr x) (Mr.section (mr x))) /\
     (fp_ZERO (EPSILON E) (Blk.body_length (mr_r x))
      && fp_ZERO (EPSILON E) (Blk.tail_length (mr_r x)) = false ->
      Mr.section (mr x') = SECTION_BODY /\
      Mr.section_state (mr x') = SECTION_NEW)).
Proof.
  intros Hst.
  unfold _exec_aline_head, fall_through at 1; unfold bind.
  cbv beta delta [head_section_new]. rewrite Hst.
  change (negb (sectionState_beq SECTION_2nd_HALF SECTION_NEW)) with true.
  cbv beta iota. unfold fall_through, bind.
  cbv beta delta [head_first_half]. rewrite Hst.
  change (negb (sectionState_beq SECTION_2nd_HALF SECTION_1st_HALF)) with true.
  cbv beta iota.
  cbv beta delta [head_second_half]. rewrite Hst.
  change (negb (sectionState_beq SECTION_2nd_HALF SECTION_2nd_HALF))
    with false.
  cbv beta iota. zeta1.
  set (x0 := x <| mr; Mr.segment_velocity ::=
                  fun v => v + Mr.forward_diff_5 (mr x) |>).
  pose proof (exec_aline_segment_spec E x0) as Hspec.
  pose proof (exec_aline_segment_preps E x0) as Hprep.
  cbv zeta in Hspec.
  assert (Hok : segment_status E x0 = STAT_OK) by apply prep_ok.
  rewrite Hok in Hspec. cbn [stat_eqb] in Hspec.
  destruct (_exec_aline_segment E x0) as [st x1]. cbn [fst snd] in Hspec, Hprep.
  destruct Hspec as ((Ho & Hc & _) & (Hcount & _) & _ & _ & (Hres & Hpos)).
  destruct (outside_segment_fields _ _ Ho) as ((Hsec & Hss & Hw) & (Hvel & _)).
  destruct (outside_segment_runtime _ _ Ho)
    as ((Hbf & Hr & _) & (_ & _ & Hsegs & _) & _).
  pose proof (fd_regs_outside_segment _ _ Ho) as Hregs.
  assert (Hblk : mr_r x1 = mr_r x) by (unfold mr_r, blk; now rewrite Hbf, Hr).
  change (last_segment x0) with (last_segment x) in Hres.
  subst st.
  destruct (last_segment x) eqn:Hlast; cbn [stat_eqb]; cbv iota.
  - rewrite Hblk.
    assert (Hposw : Cm.motion_state (cm x) <> MOTION_HOLD ->
                    Mr.position (mr x1) = Mr.waypoint (mr x) (Mr.section (mr x))).
    { intros Hh. rewrite Hpos. unfold segment_target.
      change (last_segment x0) with (last_segment x). rewrite Hlast.
      change (Mr.section_state (mr x0)) with (Mr.section_state (mr x)).
      rewrite Hst.
      assert (Hb : motionState_beq (Cm.motion_state (cm x)) MOTION_HOLD = false)
        by (destruct (Cm.motion_state (cm x)); (reflexivity || contradiction)).
      change (cm x0) with (cm x). rewrite Hb. reflexivity. }
    destruct (fp_ZERO (EPSILON E) (Blk.body_length (mr_r x))
              && fp_ZERO (EPSILON E) (Blk.tail_length (mr_r x))).
    + exists STAT_OK, x1. split; [reflexivity |].
      split; [split; [exact Hprep | exact Hvel] |].
      split; [repeat split; [exact Hw | exact Hsegs | exact Hc | exact Hblk] |].
      split; [discriminate |].
      intros _. split; [reflexivity |]. split; [exact Hposw | discriminate].
    + cbv zeta. eexists STAT_EAGAIN, _. split; [reflexivity |].
      split; [split; [exact Hprep | exact Hvel] |].
      split; [repeat split; [exact Hw | exact Hsegs | exact Hc | exact Hblk] |].
      split; [discriminate |].
      intros _. split; [reflexivity |]. split; [exact Hposw |].
      intros _. split; reflexivity.
  - exists STAT_EAGAIN, (advance_forward_diffs x1). split; [reflexivity |].
    split; [split; [exact Hprep | exact Hvel] |].
    split; [repeat split; [exact Hw | exact Hsegs | exact Hc | exact Hblk] |].
    split; [| discriminate].
    intros _. split; [reflexivity |].
    split; [repeat split; [exact Hsec | exact (eq_trans Hss Hst) | exact Hcount] |].
    unfold next_segment_velocity. fold x0.
    now apply fd_regs_advance.
Qed.

(** [k] calls of the head in its second half, with more than [k]
    segments left. *)
Lemma head_second_half_calls (k : nat) : forall (c : nat) (x : machine),
  Mr.section_state (mr x) = SECTION_2nd_HALF ->
  Mr.segment_count (mr x) = Z.of_nat (k + S c) ->
  (Z.of_nat (k + S c) <= 2 ^ 32)%Z ->
  exists xk, again k (_exec_aline_head E bf) x = Some xk /\
    ramp_kept x xk /\
    prep_lines xk = (prep_lines x + k)%nat /\
    Mr.section_state (mr xk) = SECTION_2nd_HALF /\
    Mr.segment_count (mr xk) = Z.of_nat (S c) /\
    fd_regs (mr xk) = fd_regs (mr (Nat.iter k next_segment_velocity x)).
Proof.
  induction k as [| k IH]; intros c x Hst Hcount Hbound.
  - exists x. cbn [again Nat.iter]. split; [reflexivity |].
    unfold ramp_kept. repeat split; try assumption. lia.
  - destruct (head_second_half_call x Hst)
      as (st & x1 & Hcall & (Hp & _) & ((Hw & Hsegs) & (Hcm & Hblk))
          & Hmore & _).
    change (S k + S c)%nat with (S (k + S c)) in Hcount, Hbound.
    assert (Hlast : last_segment x = false).
    { unfold last_segment. rewrite Hcount, (uint32_dec_succ _ Hbound).
      apply Z.eqb_neq. lia. }
    destruct (Hmore Hlast) as (-> & (Hsec & Hss & Hc) & Hregs).
    rewrite Hcount, (uint32_dec_succ _ Hbound) in Hc.
    destruct (IH c x1 Hss Hc) as (xk & Hrun & Hk' & Hp' & Hss' & Hc' & Hregs').
    { lia. }
    exists xk.
    change (again (S k) (_exec_aline_head E bf) x)
      with (match _exec_aline_head E bf x with
            | Ret STAT_EAGAIN s' => again k (_exec_aline_head E bf) s'
            | _ => None
            end).
    rewrite Hcall. split; [exact Hrun |].
    destruct Hk' as ((Hsec' & Hw' & Hsegs') & (Hcm' & Hblk')).
    split; [unfold ramp_kept; repeat split; congruence |].
    split; [lia |]. split; [exact Hss' |]. split; [exact Hc' |].
    rewrite Hregs', Nat.iter_succ_r. now apply fd_regs_iter.
Qed.

(** The set-up of a head of more than one segment. *)
Lemma head_section_new_start (s : machine) :
  Mr.section_state (mr s) = SECTION_NEW ->
  fp_ZERO (EPSILON E) (Blk.head_length (mr_r s)) = false ->
  (to_uint32 (head_segments E s) =? 1)%Z = false ->
  Qltb (Blk.head_time (mr_r s) / head_segments E s) (MIN_SEGMENT_TIME E)
  = false ->
  exists s1, head_section_new E bf s = Ret None s1 /\
    (Mr.section_state (mr s1) = SECTION_1st_HALF /\
     Mr.section (mr s1) = SECTION_HEAD /\
     Mr.segment_count (mr s1) = to_uint32 (head_segments E s) /\
     Mr.segments (mr s1) = head_segments E s) /\
    fd_regs (mr s1)
    = fd_regs (mr (_init_forward_diffs
                     (Mr.entry_velocity (mr s)) (Blk.cruise_velocity (mr_r s))
                     (Mr.entry_acceleration (mr s))
                     (Blk.cruise_acceleration (mr_r s))
                     (Mr.entry_jerk (mr s)) (Blk.cruise_jerk (mr_r s))
                     (Blk.head_time (mr_r s))
                     (s <| mr; Mr.segments := head_segments E s |>))) /\
    (Mr.waypoint (mr s1) = Mr.waypoint (mr s) /\
     cm s1 = cm s /\ trace s1 = trace s /\ mr_r s1 = mr_r s).
Proof.
  intros Hst Hhead Hn1 Hmin.
  cbv beta delta [head_section_new]. rewrite Hst.
  change (negb (sectionState_beq SECTION_NEW SECTION_NEW)) with false.
  cbv beta iota. rewrite Hhead. cbv beta iota.
  do 3 zeta1.
  lazymatch goal with
  | |- context [(Mr.segment_count (mr ?x) =? 1)%Z] =>
      change (Mr.segment_count (mr x)) with (to_uint32 (head_segments E s))
  end.
  rewrite Hn1. cbv beta iota. do 2 zeta1.
  lazymatch goal with
  | |- context [Qltb (Mr.segment_time (mr ?x)) (MIN_SEGMENT_TIME E)] =>
      change (Mr.segment_time (mr x))
        with (Blk.head_time (mr_r s) / head_segments E s)
  end.
  rewrite Hmin.
  eexists. split; [reflexivity |]. repeat split.
Qed.

(** The first call of a head of more than one segment: the set-up and the
    segment of the first half. *)
Lemma head_first_call (s : machine) (n : nat) :
  Mr.section_state (mr s) = SECTION_NEW ->
  fp_ZERO (EPSILON E) (Blk.head_length (mr_r s)) = false ->
  Qltb (Blk.head_time (mr_r s) / head_segments E s) (MIN_SEGMENT_TIME E)
  = false ->
  to_uint32 (head_segments E s) = Z.of_nat (S (S n)) ->
  exists x0, _exec_aline_head E bf s = Ret STAT_EAGAIN x0 /\
    (Mr.section_state (mr x0) = SECTION_2nd_HALF /\
     Mr.section (mr x0) = SECTION_HEAD /\
     Mr.segment_count (mr x0) = Z.of_nat (S n)) /\
    fd_tracks (power_basis (head_curve s)) (1 / head_segments E s)
      (1 / head_segments E s / 2) (mr x0) /\
    prep_lines x0 = S (prep_lines s) /\
    (Mr.waypoint (mr x0) = Mr.waypoint (mr s) /\
     cm x0 = cm s /\ mr_r x0 = mr_r s).
Proof.
  intros Hst Hhead Hmin Hn.
  assert (Hbound : (Z.of_nat (S (S n)) <= 2 ^ 32)%Z).
  { rewrite <- Hn. unfold to_uint32.
    pose proof (Z.mod_pos_bound (Qfloor (head_segments E s)) (2 ^ 32)). lia. }
  assert (Hn1 : (to_uint32 (head_segments E s) =? 1)%Z = false)
    by (rewrite Hn; apply Z.eqb_neq; lia).
  destruct (head_section_new_start s Hst Hhead Hn1 Hmin)
    as (s1 & Hnew & (Hss & Hsec & Hcount & Hsegs) & Hregs
        & (Hw & Hcm & Htr & Hblk)).
  unfold _exec_aline_head, fall_through at 1; unfold bind. rewrite Hnew.
  cbv beta iota. unfold fall_through, bind.
  cbv beta delta [head_first_half]. rewrite Hss.
  change (negb (sectionState_beq SECTION_1st_HALF SECTION_1st_HALF))
    with false.
  cbv beta iota.
  pose proof (exec_aline_segment_spec E s1) as Hspec.
  pose proof (exec_aline_segment_preps E s1) as Hprep.
  cbv zeta in Hspec.
  assert (Hok : segment_status E s1 = STAT_OK) by apply prep_ok.
  rewrite Hok in Hspec. cbn [stat_eqb] in Hspec.
  destruct (_exec_aline_segment E s1) as [st x1]. cbn [fst snd] in Hspec, Hprep.
  destruct Hspec as ((Ho & Hc & _) & (Hcount1 & _) & _ & _ & (Hres & _)).
  destruct (outside_segment_fields _ _ Ho) as ((Hsec1 & Hss1 & Hw1) & _).
  destruct (outside_segment_runtime _ _ Ho) as ((Hbf & Hr & _) & _).
  pose proof (fd_regs_outside_segment _ _ Ho) as Hregs1.
  assert (Hblk1 : mr_r x1 = mr_r s1)
    by (unfold mr_r, blk; now rewrite Hbf, Hr).
  unfold last_segment in Hres.
  rewrite Hcount, Hn, (uint32_dec_succ _ Hbound) in Hcount1, Hres.
  assert (Hnz : (Z.of_nat (S n) =? 0)%Z = false) by (apply Z.eqb_neq; lia).
  rewrite Hnz in Hres. subst st. cbn [stat_eqb]. cbv iota.
  eexists. split; [reflexivity |].
  split; [repeat split; [exact (eq_trans Hsec1 Hsec) | exact Hcount1] |].
  split.
  { apply (fd_tracks_regs _ _ _
             (mr (_init_forward_diffs
                    (Mr.entry_velocity (mr s)) (Blk.cruise_velocity (mr_r s))
                    (Mr.entry_acceleration (mr s))
                    (Blk.cruise_acceleration (mr_r s))
                    (Mr.entry_jerk (mr s)) (Blk.cruise_jerk (mr_r s))
                    (Blk.head_time (mr_r s))
                    (s <| mr; Mr.segments := head_segments E s |>)))).
    - symmetry. exact (eq_trans Hregs1 Hregs).
    - pose proof (fd_tracks_init
                    (s <| mr; Mr.segments := head_segments E s |>)
                    (Mr.entry_velocity (mr s)) (Blk.cruise_velocity (mr_r s))
                    (Mr.entry_acceleration (mr s))
                    (Blk.cruise_acceleration (mr_r s))
                    (Mr.entry_jerk (mr s)) (Blk.cruise_jerk (mr_r s))
                    (Blk.head_time (mr_r s))) as Hinit.
      cbv zeta in Hinit.
      change (Mr.segments (mr (s <| mr; Mr.segments := head_segments E s |>)))
        with (head_segments E s) in Hinit.
      exact Hinit. }
  split.
  { change (prep_lines x1 = S (prep_lines s)). rewrite Hprep.
    unfold prep_lines. now rewrite Htr. }
  repeat split.
  - exact (eq_trans Hw1 Hw).
  - exact (eq_trans Hc Hcm).
  - exact (eq_trans Hblk1 Hblk).
Qed.

End HeadRun.

(** X11: The head follows the curve: a head of [S (S n)] segments, set up on a
    machine whose section state is [SECTION_NEW], outside a hold and with a
    stepper that accepts every segment, returns [STAT_EAGAIN] from its first
    [S n] calls; the velocity of segment [k] is the quintic Bezier curve
    from the entry values to cruise at the middle of the segment.  The
    last segment ends on the waypoint of the head; its call ends the move
    with [STAT_OK] when the block has neither body nor tail, and else
    hands over to a new body with [STAT_EAGAIN]. *)
Theorem head_follows_curve (E : collaborators) (bf : nat) (s : machine)
    (n : nat) :
  prep_always_ok E ->
  Mr.section_state (mr s) = SECTION_NEW ->
  Cm.motion_state (cm s) <> MOTION_HOLD ->
  fp_ZERO (EPSILON E) (Blk.head_length (mr_r s)) = false ->
  Qltb (Blk.head_time (mr_r s) / head_segments E s) (MIN_SEGMENT_TIME E)
  = false ->
  to_uint32 (head_segments E s) = Z.of_nat (S (S n)) ->
  let h := 1 / head_segments E s in
  let ends :=
    fp_ZERO (EPSILON E) (Blk.body_length (mr_r s))
    && fp_ZERO (EPSILON E) (Blk.tail_length (mr_r s)) in
  (forall k, (k <= n)%nat ->
     exists sk, again (S k) (_exec_aline_head E bf) s = Some sk /\
       prep_lines sk = (prep_lines s + S k)%nat /\
       Mr.segment_velocity (mr sk)
       == bernstein (head_curve s) (midpoint k h)) /\
  (exists s1 s',
     again (S n) (_exec_aline_head E bf) s = Some s1 /\
     _exec_aline_head E bf s1
     = Ret (if ends then STAT_OK else STAT_EAGAIN) s' /\
     prep_lines s' = (prep_lines s + S (S n))%nat /\
     Mr.segment_velocity (mr s')
     == bernstein (head_curve s) (midpoint (S n) h) /\
     Mr.position (mr s') = Mr.waypoint (mr s) SECTION_HEAD /\
     (ends = false ->
      Mr.section (mr s') = SECTION_BODY /\
      Mr.section_state (mr s') = SECTION_NEW)).
Proof.
  intros Hprep Hst Hhold Hhead Hmin Hn h ends.
  assert (Hbound : (Z.of_nat (S (S n)) <= 2 ^ 32)%Z).
  { rewrite <- Hn. unfold to_uint32.
    pose proof (Z.mod_pos_bound (Qfloor (head_segments E s)) (2 ^ 32)). lia. }
  destruct (head_first_call E Hprep bf s n Hst Hhead Hmin Hn)
    as (x0 & Hcall & (Hss & Hsec & Hcount) & Htracks & Hp0
        & (Hw & Hcm & Hblk)).
  fold h in Htracks.
  assert (Hagain : forall k, again (S k) (_exec_aline_head E bf) s
                             = again k (_exec_aline_head E bf) x0)
    by (intros k; cbn [again]; now rewrite Hcall).
  assert (Hstep : forall k, (k <= n)%nat ->
            exists sk, again k (_exec_aline_head E bf) x0 = Some sk /\
              ramp_kept x0 sk /\
              prep_lines sk = (prep_lines x0 + k)%nat /\
              Mr.section_state (mr sk) = SECTION_2nd_HALF /\
              Mr.segment_count (mr sk) = Z.of_nat (S (n - k)) /\
              fd_tracks (power_basis (head_curve s)) h
                (h / 2 + inject_Z (Z.of_nat k) * h) (mr sk)).
  { intros k Hk.
    destruct (head_second_half_calls E Hprep bf k (n - k) x0 Hss)
      as (sk & Hrun & Hkept & Hp & Hss' & Hc & Hregs).
    - rewrite Hcount. f_equal. lia.
    - lia.
    - exists sk. split; [exact Hrun |]. split; [exact Hkept |].
      split; [exact Hp |]. split; [exact Hss' |]. split; [exact Hc |].
      eapply fd_tracks_regs; [symmetry; exact Hregs |].
      now apply fd_tracks_iter. }
  split.
  - intros k Hk. destruct (Hstep k Hk) as (sk & Hrun & _ & Hp & _ & _ & Htr).
    exists sk. rewrite Hagain. split; [exact Hrun |]. split; [lia |].
    destruct Htr as (Hv & _). rewrite Hv, bernstein_power_basis.
    assert (Et : h / 2 + inject_Z (Z.of_nat k) * h == midpoint k h)
      by (unfold midpoint; field).
    unfold V. rewrite Et. reflexivity.
  - destruct (Hstep n (Nat.le_refl n))
      as (s1 & Hrun & Hkept & Hp & Hss1 & Hc1 & Htr).
    rewrite Nat.sub_diag in Hc1.
    destruct (head_second_half_call E Hprep bf s1 Hss1)
      as (st & s' & Hlastcall & (Hp' & Hvel) & _ & _ & Hlastfacts).
    assert (Hlast : last_segment s1 = true)
      by (unfold last_segment; rewrite Hc1; reflexivity).
    destruct (Hlastfacts Hlast) as (-> & Hpos & Hnext).
    destruct Hkept as ((Hsec1 & Hw1 & _) & (Hcm1 & Hblk1)).
    rewrite Hblk1, Hblk in Hlastcall, Hnext. fold ends in Hlastcall, Hnext.
    exists s1, s'. rewrite Hagain. split; [exact Hrun |].
    split; [exact Hlastcall |]. split; [lia |]. split; [| split].
    + rewrite Hvel. destruct Htr as (Hv & H5 & _). rewrite Hv, H5.
      rewrite bernstein_power_basis.
      assert (Et : h / 2 + inject_Z (Z.of_nat n) * h + h
                   == midpoint (S n) h).
      { unfold midpoint. rewrite Nat2Z.inj_succ. unfold Z.succ.
        rewrite inject_Z_plus. field. }
      unfold V. rewrite <- Et. ring.
    + rewrite Hpos by (rewrite Hcm1, Hcm; exact Hhold).
      rewrite Hw1, Hw, Hsec1, Hsec. reflexivity.
    + exact Hnext.
Qed.

Lemma head_follows_curve_witness :
  let s := starting_section head_blk SECTION_HEAD (5 # 2) in
  let h := 1 / head_segments demo_env s in
  (forall k, (k <= 2)%nat ->
     exists sk, again (S k) (_exec_aline_head demo_env 0) s = Some sk /\
       prep_lines sk = (prep_lines s + S k)%nat /\
       Mr.segment_velocity (mr sk)
       == bernstein (head_curve s) (midpoint k h)) /\
  (exists s1 s',
     again 3 (_exec_aline_head demo_env 0) s = Some s1 /\
     _exec_aline_head demo_env 0 s1 = Ret STAT_EAGAIN s' /\
     prep_lines s' = (prep_lines s + 4)%nat /\
     Mr.segment_velocity (mr s')
     == bernstein (head_curve s) (midpoint 3 h) /\
     Mr.position (mr s') = Mr.waypoint (mr s) SECTION_HEAD /\
     (false = false ->
      Mr.section (mr s') = SECTION_BODY /\
      Mr.section_state (mr s') = SECTION_NEW)).
Proof.
  intros s h.
  apply (head_follows_curve demo_env 0 s 2).
  - intros ? ? ?. reflexivity.
  - reflexivity.
  - vm_compute. discriminate.
  - vm_compute. reflexivity.
  - vm_compute. reflexivity.
  - vm_compute. reflexivity.
Defined.

(* ================================================================== *)
(** ** The end of a call of [mp_exec_aline] *)

(** The leaves of [exec_aline_finish] for a property of [mr] and [mb]
    that the log, the queue and [cm] do not bear on. *)
Ltac runtime_leaf P :=
  lazymatch goal with
  | |- context [mp_free_run_buffer ?E ?q] =>
      destruct (mp_free_run_buffer E q);
      frame_to P P ltac:(idtac; runtime_leaf P)
  | |- P _ => match goal with H : P _ |- _ => exact H end
  end.

Section Finish.
Variable E : collaborators.

(** A call on a buffer that is not [MOVE_OFF] returns through the
    statements after the dispatcher. *)
Lemma exec_aline_returns (bf : nat) (s s' : machine) (st : stat_t) :
  Buf.move_state (buf bf s) <> MOVE_OFF ->
  mp_exec_aline E bf s = Ret st s' ->
  exists s2, s' = exec_aline_finish E bf st s2.
Proof.
  intros Hbuf. cbv beta delta [mp_exec_aline].
  assert (Hb : moveState_beq (Buf.move_state (buf bf s)) MOVE_OFF = false)
    by (destruct (Buf.move_state (buf bf s)); (reflexivity || contradiction)).
  rewrite Hb. unfold bind.
  destruct ((if moveState_beq (Mr.move_state (mr s)) MOVE_OFF
             then exec_aline_new_move E bf else ret tt) s) as [u s1 | s1 | s1];
    try discriminate.
  cbv beta delta [exec_aline_run].
  destruct (motionState_beq (Cm.motion_state (cm s1)) MOTION_HOLD);
    [discriminate |].
  zeta1. unfold bind.
  match goal with
  | |- match ?r with _ => _ end = _ -> _ =>
      destruct r as [a s2 | s2 | s2]; try discriminate
  end.
  intros H. injection H as <- <-. now exists s2.
Qed.

(** After the dispatcher has returned anything but [STAT_EAGAIN]. *)
Lemma exec_aline_finish_resets (bf : nat) (st : stat_t) (s : machine) :
  stat_eqb st STAT_EAGAIN = false ->
  let s' := exec_aline_finish E bf st s in
  (Mr.move_state (mr s') = MOVE_OFF /\
   Mr.section_state (mr s') = SECTION_OFF /\
   Mb.run_time_remaining (mb s') = 0.0) /\
  (Mr.entry_velocity (mr s') = Blk.exit_velocity (mr_r s') /\
   Mr.entry_acceleration (mr s') = Blk.exit_acceleration (mr_r s') /\
   Mr.entry_jerk (mr s') = Blk.exit_jerk (mr_r s')).
Proof.
  intros Hst s'. subst s'.
  pose (A := fun x : machine =>
    Mr.move_state (mr x) = MOVE_OFF /\
    Mr.section_state (mr x) = SECTION_OFF /\
    Mb.run_time_remaining (mb x) = 0.0).
  pose (A4 := fun x : machine =>
    A x /\ Mr.entry_velocity (mr x) = Blk.exit_velocity (mr_r x)).
  pose (A5 := fun x : machine =>
    A4 x /\ Mr.entry_acceleration (mr x) = Blk.exit_acceleration (mr_r x)).
  pose (A6 := fun x : machine =>
    A5 x /\ Mr.entry_jerk (mr x) = Blk.exit_jerk (mr_r x)).
  enough (H : A6 (exec_aline_finish E bf st s)).
  { destruct H as (((Ha & H4) & H5) & H6). repeat split; first [ apply Ha | assumption ]. }
  pose (T := fun x : machine => True).
  pose (A1 := fun x : machine => Mr.move_state (mr x) = MOVE_OFF).
  pose (A2 := fun x : machine =>
    A1 x /\ Mr.section_state (mr x) = SECTION_OFF).
  cbv beta delta [exec_aline_finish].
  do 2 abstract_let T ltac:(idtac; exact I).
  rewrite Hst. cbv beta iota.
  abstract_let A1 ltac:(idtac; reflexivity).
  abstract_let A2 ltac:(idtac; split; [assumption | reflexivity]).
  abstract_let A ltac:(idtac;
    match goal with Hi : A2 _ |- _ => destruct Hi as [Hi1 Hi2] end;
    repeat split; assumption).
  abstract_let A ltac:(idtac; frame_to A A fail).
  abstract_let A4 ltac:(idtac;
    match goal with Hi : A _ |- _ => split; [exact Hi | reflexivity] end).
  abstract_let A5 ltac:(idtac;
    match goal with Hi : A4 _ |- _ =>
      split; [split; [exact (proj1 Hi) | exact (proj2 Hi)] | reflexivity] end).
  abstract_let A6 ltac:(idtac;
    match goal with Hi : A5 _ |- _ =>
      destruct Hi as [[Hi1 Hi2] Hi3];
      split; [split; [split; [exact Hi1 | exact Hi2] | exact Hi3] | reflexivity]
    end).
  frame_to A6 A6 ltac:(idtac; runtime_leaf A6).
Qed.

End Finish.

(** X12: The end of a move hands over: a call of [mp_exec_aline] on a buffer
    that is not [MOVE_OFF] that returns anything but [STAT_EAGAIN] leaves
    the runtime off ([mr.move_state == MOVE_OFF], the section state off, no
    run time remaining), and the exit velocity, acceleration and jerk of
    the block that ran are the entry values of the move to come. *)
Theorem exec_aline_end_of_move (E : collaborators) (bf : nat)
    (s s' : machine) (st : stat_t) :
  Buf.move_state (buf bf s) <> MOVE_OFF ->
  mp_exec_aline E bf s = Ret st s' ->
  st <> STAT_EAGAIN ->
  (Mr.move_state (mr s') = MOVE_OFF /\
   Mr.section_state (mr s') = SECTION_OFF /\
   Mb.run_time_remaining (mb s') = 0.0) /\
  (Mr.entry_velocity (mr s') = Blk.exit_velocity (mr_r s') /\
   Mr.entry_acceleration (mr s') = Blk.exit_acceleration (mr_r s') /\
   Mr.entry_jerk (mr s') = Blk.exit_jerk (mr_r s')).
Proof.
  intros Hbuf Hcall Hst.
  destruct (exec_aline_returns E bf s s' st Hbuf Hcall) as (s2 & ->).
  apply exec_aline_finish_resets.
  destruct (stat_eqb st STAT_EAGAIN) eqn:Hb; [| reflexivity].
  exfalso. apply Hst. now apply stat_eqb_eq.
Qed.

Lemma exec_aline_end_of_move_witness :
  let s := starting_section short_tail_blk SECTION_TAIL 1 in
  exists s', mp_exec_aline demo_env 0 s = Ret STAT_OK s' /\
    Mr.move_state (mr s') = MOVE_OFF /\
    Mr.entry_velocity (mr s') = 12000.
Proof.
  intros s.
  destruct (mp_exec_aline demo_env 0 s) as [st s' | s' | s'] eqn:Hcall;
    try (vm_compute in Hcall; discriminate).
  assert (Hst : st = STAT_OK) by (vm_compute in Hcall; congruence).
  subst st. exists s'. split; [reflexivity |].
  assert (Hbuf : Buf.move_state (buf 0 s) <> MOVE_OFF)
    by (vm_compute; discriminate).
  destruct (exec_aline_end_of_move demo_env 0 s s' STAT_OK Hbuf Hcall)
    as ((Hoff & _) & (Hv & _)); [discriminate |].
  split; [exact Hoff |].
  rewrite Hv.
  assert (Hs' : s' = final (mp_exec_aline demo_env 0 s))
    by (rewrite Hcall; reflexivity).
  rewrite Hs'. vm_compute. reflexivity.
Defined.

(* ================================================================== *)
(** ** What the section runners leave alone *)

Lemma update_nth_idem {A} (i : nat) (f : A -> A) (l : list A) :
  (forall a, f (f a) = f a) ->
  update_nth i f (update_nth i f l) = update_nth i f l.
Proof.
  intros Hf. revert i. induction l as [| a l IH]; intros [| i]; cbn;
    try reflexivity.
  - now rewrite Hf.
  - now rewrite IH.
Qed.

Lemma unplannable_idem (b : Buf.t) : unplannable (unplannable b) = unplannable b.
Proof. reflexivity. Qed.

Lemma outside_ramp_of_segment (m m' : Mr.t) :
  outside_segment m = outside_segment m' -> outside_ramp m = outside_ramp m'.
Proof. unfold outside_ramp. now intros ->. Qed.

Lemma outside_body_of_ramp (m m' : Mr.t) :
  outside_ramp m = outside_ramp m' -> outside_body m = outside_body m'.
Proof. unfold outside_body. now intros ->. Qed.

Lemma ramp_frame_refl (bf : nat) (x : machine) : ramp_frame bf x x.
Proof. split; [reflexivity |]. split; [reflexivity | now left]. Qed.

Lemma body_frame_refl (bf : nat) (x : machine) : body_frame bf x x.
Proof. split; [reflexivity |]. split; [reflexivity | now left]. Qed.

Lemma ramp_frame_trans (bf : nat) (x y z : machine) :
  ramp_frame bf x y -> ramp_frame bf y z -> ramp_frame bf x z.
Proof.
  intros (Hm & Hc & Hq) (Hm' & Hc' & Hq').
  split; [congruence |]. split; [congruence |].
  destruct Hq as [Hq | Hq], Hq' as [Hq' | Hq']; rewrite Hq', Hq;
    first [ now left | right; try reflexivity ].
  apply update_nth_idem, unplannable_idem.
Qed.

Lemma body_frame_trans (bf : nat) (x y z : machine) :
  body_frame bf x y -> body_frame bf y z -> body_frame bf x z.
Proof.
  intros (Hm & Hc & Hq) (Hm' & Hc' & Hq').
  split; [congruence |]. split; [congruence |].
  destruct Hq as [Hq | Hq], Hq' as [Hq' | Hq']; rewrite Hq', Hq;
    first [ now left | right; try reflexivity ].
  apply update_nth_idem, unplannable_idem.
Qed.

Lemma ramp_frame_body (bf : nat) (x y : machine) :
  ramp_frame bf x y -> body_frame bf x y.
Proof.
  intros (Hm & Hc & Hq). split; [now apply outside_body_of_ramp |].
  now split.
Qed.

Lemma ramp_frame_unplannable (bf : nat) (x y : machine) :
  ramp_frame bf x y ->
  ramp_frame bf x (set_buf bf (fun b => b <| Buf.plannable := false |>) y).
Proof.
  intros H. apply (ramp_frame_trans bf x y); [exact H |].
  split; [reflexivity |]. split; [reflexivity | now right].
Qed.

Lemma ramp_frame_group_off (bf : nat) (x y : machine) :
  ramp_frame bf x y ->
  ramp_frame bf x
    (set_mr_r_group (fun g => g <| Grp.group_state := GROUP_OFF |>) y).
Proof.
  intros H. apply (ramp_frame_trans bf x y); [exact H |].
  split; [| split; [reflexivity | now left]].
  unfold set_mr_r_group, set_grp.
  destruct y as [m b c q t]. destruct m. cbn.
  destruct r_group; reflexivity.
Qed.

Lemma final_bind_ret {A B} (m : M A) (f : A -> B) (s : machine) :
  final ((r <- m ;; ret (f r)) s) = final (m s).
Proof. unfold bind, ret. now destruct (m s). Qed.

Lemma fall_through_frame (R : machine -> machine -> Prop)
    (blk : M (option stat_t)) (rest : M stat_t) :
  (forall x y z, R x y -> R y z -> R x z) ->
  (forall x, R x (final (blk x))) ->
  (forall x, R x (final (rest x))) ->
  forall x, R x (final (fall_through blk rest x)).
Proof.
  intros Htrans Hblk Hrest x. unfold fall_through, bind.
  specialize (Hblk x).
  destruct (blk x) as [[st |] x1 | x1 | x1]; cbn [final] in *;
    try exact Hblk.
  apply (Htrans x x1); [exact Hblk | apply Hrest].
Qed.

Section Frames.
Variable E : collaborators.
Variable bf : nat.

Lemma segment_ramp_frame (x : machine) :
  ramp_frame bf x (snd (_exec_aline_segment E x)).
Proof.
  destruct (exec_aline_segment_spec E x) as ((Ho & Hc & Hq) & _).
  split; [now apply outside_ramp_of_segment |]. split; [exact Hc | now left].
Qed.

Ltac ramp_leaf P :=
  unfold P in *;
  first
    [ apply ramp_frame_unplannable; assumption
    | apply ramp_frame_group_off; assumption ].

Lemma tail_section_new_frame (x : machine) :
  ramp_frame bf x (final (tail_section_new E bf x)).
Proof.
  pose (P := fun y : machine => ramp_frame bf x y).
  pose (Inv := fun r : result (option stat_t) => P (final r)).
  assert (H0 : P x) by apply ramp_frame_refl.
  change (Inv (tail_section_new E bf x)).
  cbv beta delta [tail_section_new].
  frame_to P Inv ltac:(idtac; ramp_leaf P).
Qed.

Lemma tail_first_half_frame (x : machine) :
  ramp_frame bf x (final (tail_first_half E x)).
Proof.
  cbv beta delta [tail_first_half].
  destruct (negb _); [apply ramp_frame_refl |].
  pose proof (segment_ramp_frame x) as H.
  destruct (_exec_aline_segment E x) as [st x1]. cbn [snd] in H.
  destruct (stat_eqb st STAT_OK); exact H.
Qed.

Lemma tail_second_half_frame (x : machine) :
  ramp_frame bf x (final (tail_second_half E x)).
Proof.
  cbv beta delta [tail_second_half].
  destruct (negb _); [apply ramp_frame_refl |].
  zeta1.
  lazymatch goal with
  | |- context [_exec_aline_segment E ?x0] =>
      pose proof (segment_ramp_frame x0) as H;
      destruct (_exec_aline_segment E x0) as [st x1]
  end.
  cbn [snd] in H.
  destruct (stat_eqb st STAT_OK); exact H.
Qed.

Lemma tail_ramp_frame (x : machine) :
  ramp_frame bf x (final (_exec_aline_tail E bf x)).
Proof.
  unfold _exec_aline_tail.
  apply fall_through_frame;
    [apply ramp_frame_trans | apply tail_section_new_frame |].
  apply fall_through_frame;
    [apply ramp_frame_trans | apply tail_first_half_frame
    | apply tail_second_half_frame].
Qed.

Ltac body_leaf P :=
  try (lazymatch goal with |- ?I _ => unfold I end);
  unfold P in *; cbv beta;
  lazymatch goal with
  | |- body_frame bf _ (final ((r <- _exec_aline_tail E bf ;; ret (Some r)) ?y)) =>
      rewrite final_bind_ret;
      apply (body_frame_trans bf _ y); [assumption |];
      apply ramp_frame_body, tail_ramp_frame
  end.

Lemma body_section_new_frame (x : machine) :
  body_frame bf x (final (body_section_new E bf x)).
Proof.
  pose (P := fun y : machine => body_frame bf x y).
  pose (Inv := fun r : result (option stat_t) => P (final r)).
  assert (H0 : P x) by apply body_frame_refl.
  change (Inv (body_section_new E bf x)).
  cbv beta delta [body_section_new].
  frame_to P Inv ltac:(idtac; body_leaf P).
Qed.

Lemma body_second_half_frame (x : machine) :
  body_frame bf x (final (body_second_half E x)).
Proof.
  cbv beta delta [body_second_half].
  destruct (negb _); [apply body_frame_refl |].
  pose proof (ramp_frame_body _ _ _ (segment_ramp_frame x)) as H.
  destruct (_exec_aline_segment E x) as [st x1]. cbn [snd] in H.
  destruct (stat_eqb st STAT_OK); exact H.
Qed.

Lemma body_body_frame (x : machine) :
  body_frame bf x (final (_exec_aline_body E bf x)).
Proof.
  cbv beta delta [_exec_aline_body].
  destruct (Qltb _ _);
    [split; [reflexivity |]; split; [reflexivity | now left] |].
  apply fall_through_frame;
    [apply body_frame_trans | apply body_section_new_frame
    | apply body_second_half_frame].
Qed.

Ltac head_leaf P :=
  try (lazymatch goal with |- ?I _ => unfold I end);
  unfold P in *; cbv beta;
  lazymatch goal with
  | |- body_frame bf _ (final ((r <- _exec_aline_body E bf ;; ret (Some r)) ?y)) =>
      rewrite final_bind_ret;
      apply (body_frame_trans bf _ y); [assumption |];
      apply body_body_frame
  end.

Lemma head_section_new_frame (x : machine) :
  body_frame bf x (final (head_section_new E bf x)).
Proof.
  pose (P := fun y : machine => body_frame bf x y).
  pose (Inv := fun r : result (option stat_t) => P (final r)).
  assert (H0 : P x) by apply body_frame_refl.
  change (Inv (head_section_new E bf x)).
  cbv beta delta [head_section_new].
  frame_to P Inv ltac:(idtac; head_leaf P).
Qed.

(** The set-up of a head that has a length writes no more than a tail. *)
Lemma head_section_new_ramp_frame (x : machine) :
  fp_ZERO (EPSILON E) (Blk.head_length (mr_r x)) = false ->
  ramp_frame bf x (final (head_section_new E bf x)).
Proof.
  intros Hlen.
  pose (P := fun y : machine => ramp_frame bf x y).
  pose (Inv := fun r : result (option stat_t) => P (final r)).
  assert (H0 : P x) by apply ramp_frame_refl.
  change (Inv (head_section_new E bf x)).
  cbv beta delta [head_section_new]. rewrite Hlen.
  frame_to P Inv fail.
Qed.

Lemma head_first_half_frame (x : machine) :
  ramp_frame bf x (final (head_first_half E x)).
Proof.
  cbv beta delta [head_first_half].
  destruct (negb _); [apply ramp_frame_refl |].
  pose proof (segment_ramp_frame x) as H.
  destruct (_exec_aline_segment E x) as [st x1]. cbn [snd] in H.
  destruct (stat_eqb st STAT_OK); exact H.
Qed.

Lemma head_second_half_frame (x : machine) :
  ramp_frame bf x (final (head_second_half E x)).
Proof.
  cbv beta delta [head_second_half].
  destruct (negb _); [apply ramp_frame_refl |].
  zeta1.
  lazymatch goal with
  | |- context [_exec_aline_segment E ?x0] =>
      pose proof (segment_ramp_frame x0) as H;
      destruct (_exec_aline_segment E x0) as [st x1]
  end.
  cbn [snd] in H.
  destruct (stat_eqb st STAT_OK); [destruct (_ && _) |]; exact H.
Qed.

Lemma head_body_frame (x : machine) :
  body_frame bf x (final (_exec_aline_head E bf x)).
Proof.
  unfold _exec_aline_head.
  apply fall_through_frame;
    [apply body_frame_trans | apply head_section_new_frame |].
  intros y. apply ramp_frame_body. revert y.
  apply fall_through_frame;
    [apply ramp_frame_trans | apply head_first_half_frame
    | apply head_second_half_frame].
Qed.

Lemma head_ramp_frame (x : machine) :
  fp_ZERO (EPSILON E) (Blk.head_length (mr_r x)) = false ->
  ramp_frame bf x (final (_exec_aline_head E bf x)).
Proof.
  intros Hlen. unfold _exec_aline_head, fall_through at 1; unfold bind.
  pose proof (head_section_new_ramp_frame x Hlen) as H1.
  destruct (head_section_new E bf x) as [[st |] x1 | x1 | x1];
    cbn [final] in *; try exact H1.
  apply (ramp_frame_trans bf x x1); [exact H1 |].
  revert x1 H1. intros x1 _. revert x1.
  apply fall_through_frame;
    [apply ramp_frame_trans | apply head_first_half_frame
    | apply head_second_half_frame].
Qed.

Lemma head_half_ramp_frame (x : machine) :
  Mr.section_state (mr x) = SECTION_2nd_HALF ->
  ramp_frame bf x (final (_exec_aline_head E bf x)).
Proof.
  intros Hst. unfold _exec_aline_head, fall_through at 1; unfold bind.
  cbv beta delta [head_section_new]. rewrite Hst.
  change (negb (sectionState_beq SECTION_2nd_HALF SECTION_NEW)) with true.
  cbv beta iota. revert x Hst. intros x _. revert x.
  apply fall_through_frame;
    [apply ramp_frame_trans | apply head_first_half_frame
    | apply head_second_half_frame].
Qed.

Lemma section_runners_keep_all (x : machine) :
  body_frame bf x (final (_exec_aline_head E bf x)) /\
  body_frame bf x (final (_exec_aline_body E bf x)) /\
  ramp_frame bf x (final (_exec_aline_tail E bf x)).
Proof.
  split; [apply head_body_frame |].
  split; [apply body_body_frame | apply tail_ramp_frame].
Qed.

End Frames.

(** X13: The section runners keep to the runtime: whatever its state, a call of
    [_exec_aline_head], [_exec_aline_body] or [_exec_aline_tail] - whether
    it returns or stops in a trap - leaves alone the canonical machine, the
    whole queue but for [bf->plannable], which it may clear, and all of
    [mr] but the section and its state, the segment registers, the
    executed body length and time, the waypoints and the states of the
    groups; the tail leaves the executed body and the waypoints alone as
    well. *)
Theorem section_runners_keep (E : collaborators) (bf : nat) (x : machine) :
  body_frame bf x (final (_exec_aline_head E bf x)) /\
  body_frame bf x (final (_exec_aline_body E bf x)) /\
  ramp_frame bf x (final (_exec_aline_tail E bf x)).
Proof.
  split; [apply head_body_frame |].
  split; [apply body_body_frame | apply tail_ramp_frame].
Qed.

(* ================================================================== *)
(** ** A call of [mp_exec_aline] on a move under way *)

Lemma set_move_state_same (x : machine) (v : moveState) :
  Mr.move_state (mr x) = v -> x <| mr; Mr.move_state := v |> = x.
Proof.
  destruct x as [m b c q t]. destruct m. cbn. now intros ->.
Qed.

Lemma move_state_update_nth_unplannable (i j : nat) (q : list Buf.t) :
  Buf.move_state (nth i (update_nth j unplannable q) empty_buf)
  = Buf.move_state (nth i q empty_buf).
Proof.
  revert i j. induction q as [| b q IH]; intros i j.
  - now destruct j.
  - destruct j as [| j], i as [| i]; cbn; try reflexivity. apply IH.
Qed.

Lemma unplannable_step (bf : nat) (q0 q : list Buf.t) :
  q = q0 \/ q = update_nth bf unplannable q0 ->
  update_nth bf unplannable q = update_nth bf unplannable q0.
Proof.
  intros [H | H]; rewrite H; [reflexivity |].
  apply update_nth_idem, unplannable_idem.
Qed.

Lemma move_state_unplannable (bf i : nat) (x x' : machine) :
  queue x' = queue x \/ queue x' = update_nth bf unplannable (queue x) ->
  Buf.move_state (buf i x') = Buf.move_state (buf i x).
Proof.
  unfold buf. intros [-> | ->]; [reflexivity |].
  apply move_state_update_nth_unplannable.
Qed.

(** Fields that the section runners leave alone. *)
Lemma outside_body_fields (m m' : Mr.t) :
  outside_body m = outside_body m' ->
  Mr.move_state m = Mr.move_state m' /\
  (Mr.bf m = Mr.bf m' /\ Mr.r m = Mr.r m') /\
  (Mr.entry_velocity m = Mr.entry_velocity m' /\
   Mr.entry_acceleration m = Mr.entry_acceleration m' /\
   Mr.entry_jerk m = Mr.entry_jerk m') /\
  Mr.unit m = Mr.unit m'.
Proof.
  intros H.
  change
    (Mr.move_state (outside_body m) = Mr.move_state (outside_body m') /\
     (Mr.bf (outside_body m) = Mr.bf (outside_body m') /\
      Mr.r (outside_body m) = Mr.r (outside_body m')) /\
     (Mr.entry_velocity (outside_body m) = Mr.entry_velocity (outside_body m') /\
      Mr.entry_acceleration (outside_body m)
      = Mr.entry_acceleration (outside_body m') /\
      Mr.entry_jerk (outside_body m) = Mr.entry_jerk (outside_body m')) /\
     Mr.unit (outside_body m) = Mr.unit (outside_body m')).
  now rewrite H.
Qed.

Lemma outside_ramp_fields (m m' : Mr.t) :
  outside_ramp m = outside_ramp m' ->
  Mr.executed_body_length m = Mr.executed_body_length m' /\
  Mr.executed_body_time m = Mr.executed_body_time m' /\
  Mr.waypoint m = Mr.waypoint m'.
Proof.
  intros H.
  change
    (Mr.executed_body_length (outside_ramp m)
     = Mr.executed_body_length (outside_ramp m') /\
     Mr.executed_body_time (outside_ramp m)
     = Mr.executed_body_time (outside_ramp m') /\
     Mr.waypoint (outside_ramp m) = Mr.waypoint (outside_ramp m')).
  now rewrite H.
Qed.

Lemma running_kept (bf : nat) (x x' : machine) :
  running bf x -> body_frame bf x x' -> running bf x'.
Proof.
  intros (Hb & Hm & Hh) (Ho & Hc & Hq).
  destruct (outside_body_fields _ _ Ho) as (Hms & _).
  unfold running.
  rewrite (move_state_unplannable bf bf x x' Hq), Hms, Hc. now repeat split.
Qed.

Lemma again_add (m : M stat_t) (a b : nat) : forall (x y : machine),
  again a m x = Some y -> again (a + b) m x = again b m y.
Proof.
  induction a as [| a IH]; intros x y H.
  - cbn in H. now injection H as ->.
  - cbn [again Nat.add] in *.
    destruct (m x) as [st x1 | |]; try discriminate.
    destruct st; try discriminate. now apply IH.
Qed.

Section Call.
Variable E : collaborators.
Variable bf : nat.

(** On a move under way a call is the dispatcher and the statements after
    it. *)
Lemma aline_call (x : machine) :
  running bf x ->
  mp_exec_aline E bf x
  = match exec_aline_section E bf x with
    | Ret st x1 => Ret st (exec_aline_finish E bf st x1)
    | Spin x1 => Spin x1
    | OutOfFuel x1 => OutOfFuel x1
    end.
Proof.
  intros (Hb & Hm & Hh). cbv beta delta [mp_exec_aline].
  assert (Hb' : moveState_beq (Buf.move_state (buf bf x)) MOVE_OFF = false)
    by (destruct (Buf.move_state (buf bf x)); (reflexivity || contradiction)).
  rewrite Hb', Hm.
  change (moveState_beq MOVE_RUN MOVE_OFF) with false. cbv beta iota.
  unfold bind at 1. cbv beta iota delta [ret].
  cbv beta delta [exec_aline_run].
  assert (Hh' : motionState_beq (Cm.motion_state (cm x)) MOTION_HOLD = false)
    by (destruct (Cm.motion_state (cm x)); (reflexivity || contradiction)).
  rewrite Hh'. cbv beta iota. zeta1.
  rewrite (set_move_state_same x MOVE_RUN Hm).
  unfold bind, exec_aline_section.
  destruct (Mr.section (mr x)); reflexivity.
Qed.

(** The statements after the dispatcher when it has returned
    [STAT_EAGAIN]: a status report is requested and the buffer may be
    marked unplannable, nothing else. *)
Lemma finish_eagain (x : machine) :
  let x' := exec_aline_finish E bf STAT_EAGAIN x in
  (mr x' = mr x /\ cm x' = cm x /\ mb x' = mb x) /\
  prep_lines x' = prep_lines x /\
  (queue x' = queue x \/ queue x' = update_nth bf unplannable (queue x)).
Proof.
  intros x'. subst x'.
  pose (P := fun y : machine =>
    (mr y = mr x /\ cm y = cm x /\ mb y = mb x) /\
    prep_lines y = prep_lines x /\
    (queue y = queue x \/ queue y = update_nth bf unplannable (queue x))).
  assert (H0 : P x) by (split; [now repeat split |]; split; [| left]; reflexivity).
  change (P (exec_aline_finish E bf STAT_EAGAIN x)).
  cbv beta delta [exec_aline_finish].
  change (stat_eqb STAT_EAGAIN STAT_OK) with false.
  change (stat_eqb STAT_EAGAIN STAT_EAGAIN) with true.
  cbv iota.
  frame_to P P ltac:(idtac;
    first
      [ match goal with
        | H : _ && false = true |- _ =>
            rewrite andb_false_r in H; discriminate H
        end
      | match goal with
        | H : P ?y |- P (log _ ?y) =>
            destruct H as (Hm & Hp & Hq);
            split; [exact Hm |]; split; [| exact Hq];
            rewrite prep_lines_log; exact Hp
        | H : P ?y |- P (set_buf _ _ ?y) =>
            destruct H as ((Hm & Hc & Hb) & Hp & Hq);
            split; [now repeat split |]; split; [exact Hp |];
            right; exact (unplannable_step _ _ _ Hq)
        end ]).
Qed.

Lemma section_body_frame (x : machine) :
  body_frame bf x (final (exec_aline_section E bf x)).
Proof.
  unfold exec_aline_section.
  destruct (section_runners_keep_all E bf x) as (Hh & Hb & Ht).
  destruct (Mr.section (mr x));
    [exact Hh | exact Hb | now apply ramp_frame_body].
Qed.

(** A call whose dispatcher returns [STAT_EAGAIN]. *)
Lemma aline_eagain (x x1 : machine) :
  running bf x ->
  exec_aline_section E bf x = Ret STAT_EAGAIN x1 ->
  exists x2, mp_exec_aline E bf x = Ret STAT_EAGAIN x2 /\
    (mr x2 = mr x1 /\ cm x2 = cm x1 /\ mb x2 = mb x1) /\
    prep_lines x2 = prep_lines x1 /\
    running bf x2.
Proof.
  intros Hrun Hsec.
  pose proof (section_body_frame x) as Hf. rewrite Hsec in Hf.
  cbn [final] in Hf.
  rewrite (aline_call x Hrun), Hsec.
  destruct (finish_eagain x1) as ((Hmr & Hcm & Hmb) & Hp & Hq).
  eexists. split; [reflexivity |].
  split; [now repeat split |]. split; [exact Hp |].
  apply (running_kept bf x1); [now apply (running_kept bf x) |].
  split; [now rewrite Hmr |]. split; [exact Hcm | exact Hq].
Qed.

(** A call whose dispatcher returns [STAT_OK]. *)
Lemma aline_ok (x x1 : machine) :
  running bf x ->
  exec_aline_section E bf x = Ret STAT_OK x1 ->
  exists x2, mp_exec_aline E bf x = Ret STAT_OK x2 /\
    prep_lines x2 = prep_lines x1 /\
    Mr.position (mr x2) = Mr.position (mr x1) /\
    Mr.move_state (mr x2) = MOVE_OFF.
Proof.
  intros Hrun Hsec.
  rewrite (aline_call x Hrun), Hsec.
  destruct (exec_aline_finish_frame E bf STAT_OK x1) as (Hp & Hpos).
  destruct (exec_aline_finish_resets E bf STAT_OK x1 eq_refl)
    as ((Hoff & _) & _).
  eexists. split; [reflexivity |]. now repeat split.
Qed.

End Call.

(* ================================================================== *)
(** ** A block from its first call to its last *)

Section MoveTail.
Variable E : collaborators.
Hypothesis prep_ok : prep_always_ok E.
Variable bf : nat.

(** A call in the second half of the tail that is not the last one. *)
Lemma aline_tail_call (x : machine) :
  running bf x ->
  Mr.section (mr x) = SECTION_TAIL ->
  Mr.section_state (mr x) = SECTION_2nd_HALF ->
  last_segment x = false ->
  exists x', mp_exec_aline E bf x = Ret STAT_EAGAIN x' /\
    running bf x' /\
    ramp_kept x x' /\
    prep_lines x' = S (prep_lines x) /\
    (Mr.segment_count (mr x') = uint32_dec (Mr.segment_count (mr x)) /\
     Mr.section_state (mr x') = SECTION_2nd_HALF) /\
    fd_regs (mr x') = fd_regs (mr (next_segment_velocity x)).
Proof.
  intros Hrun Hsec Hst Hlast.
  destruct (tail_second_half_call E prep_ok bf x Hst)
    as (x1 & Hcall & Hk & Hp & (Hc & Hss & _) & _ & Hregs).
  rewrite Hlast in Hcall. specialize (Hregs Hlast).
  assert (Hd : exec_aline_section E bf x = Ret STAT_EAGAIN x1)
    by (unfold exec_aline_section; now rewrite Hsec).
  destruct (aline_eagain E bf x x1 Hrun Hd)
    as (x2 & Hcall2 & (Hmr & Hcm & _) & Hp2 & Hrun2).
  exists x2. split; [exact Hcall2 |]. split; [exact Hrun2 |].
  unfold ramp_kept, mr_r, blk in *. rewrite Hmr, Hcm, Hp2.
  now repeat split.
Qed.

(** The last call of the tail. *)
Lemma aline_tail_last (x : machine) :
  running bf x ->
  Mr.section (mr x) = SECTION_TAIL ->
  Mr.section_state (mr x) = SECTION_2nd_HALF ->
  last_segment x = true ->
  exists x', mp_exec_aline E bf x = Ret STAT_OK x' /\
    prep_lines x' = S (prep_lines x) /\
    Mr.position (mr x') = Mr.waypoint (mr x) SECTION_TAIL /\
    Mr.move_state (mr x') = MOVE_OFF.
Proof.
  intros Hrun Hsec Hst Hlast.
  destruct (tail_second_half_call E prep_ok bf x Hst)
    as (x1 & Hcall & _ & Hp & _ & Hpos & _).
  rewrite Hlast in Hcall.
  assert (Hd : exec_aline_section E bf x = Ret STAT_OK x1)
    by (unfold exec_aline_section; now rewrite Hsec).
  destruct (aline_ok E bf x x1 Hrun Hd) as (x2 & Hcall2 & Hp2 & Hpos2 & Hoff).
  exists x2. split; [exact Hcall2 |].
  rewrite Hp2, Hpos2, Hp, (Hpos Hlast (proj2 (proj2 Hrun))), Hsec.
  now repeat split.
Qed.

(** [k] calls in the second half of the tail, with more than [k] segments
    left. *)
Lemma aline_tail_calls (k : nat) : forall (c : nat) (x : machine),
  running bf x ->
  Mr.section (mr x) = SECTION_TAIL ->
  Mr.section_state (mr x) = SECTION_2nd_HALF ->
  Mr.segment_count (mr x) = Z.of_nat (k + S c) ->
  (Z.of_nat (k + S c) <= 2 ^ 32)%Z ->
  exists xk, again k (mp_exec_aline E bf) x = Some xk /\
    running bf xk /\
    ramp_kept x xk /\
    prep_lines xk = (prep_lines x + k)%nat /\
    Mr.section_state (mr xk) = SECTION_2nd_HALF /\
    Mr.segment_count (mr xk) = Z.of_nat (S c).
Proof.
  induction k as [| k IH]; intros c x Hrun Hsec Hst Hcount Hbound.
  - exists x. cbn [again]. split; [reflexivity |]. split; [exact Hrun |].
    unfold ramp_kept. repeat split; try assumption. lia.
  - change (S k + S c)%nat with (S (k + S c)) in Hcount, Hbound.
    assert (Hlast : last_segment x = false).
    { unfold last_segment. rewrite Hcount, (uint32_dec_succ _ Hbound).
      apply Z.eqb_neq. lia. }
    destruct (aline_tail_call x Hrun Hsec Hst Hlast)
      as (x1 & Hcall & Hrun1 & Hk & Hp & (Hc & Hss) & _).
    rewrite Hcount, (uint32_dec_succ _ Hbound) in Hc.
    destruct Hk as ((Hsec1 & Hw & Hsegs) & (Hcm & Hblk)).
    destruct (IH c x1 Hrun1 (eq_trans Hsec1 Hsec) Hss Hc)
      as (xk & Hrun' & Hrunk & Hk' & Hp' & Hss' & Hc').
    { lia. }
    exists xk.
    change (again (S k) (mp_exec_aline E bf) x)
      with (match mp_exec_aline E bf x with
            | Ret STAT_EAGAIN s' => again k (mp_exec_aline E bf) s'
            | _ => None
            end).
    rewrite Hcall. split; [exact Hrun' |]. split; [exact Hrunk |].
    destruct Hk' as ((Hsec' & Hw' & Hsegs') & (Hcm' & Hblk')).
    split; [unfold ramp_kept; repeat split; congruence |].
    split; [lia |]. split; [exact Hss' | exact Hc'].
Qed.

End MoveTail.

Section MoveBody.
Variable E : collaborators.
Hypothesis prep_ok : prep_always_ok E.
Variable bf : nat.

(** A call in the body. *)
Lemma aline_body_call (x : machine) :
  running bf x ->
  Mr.section (mr x) = SECTION_BODY ->
  Mr.section_state (mr x) = SECTION_2nd_HALF ->
  0 <= Mr.segment_velocity (mr x) ->
  exists x', mp_exec_aline E bf x = Ret STAT_EAGAIN x' /\
    running bf x' /\
    section_kept x x' /\
    prep_lines x' = S (prep_lines x) /\
    Mr.segment_count (mr x') = uint32_dec (Mr.segment_count (mr x)) /\
    Mr.section_state (mr x')
    = (if last_segment x then SECTION_NEW else SECTION_2nd_HALF).
Proof.
  intros Hrun Hsec Hst Hv.
  destruct (body_second_half_call E prep_ok bf x Hst Hv)
    as (x1 & Hcall & Hk & Hp & Hc & Hss & _).
  assert (Hd : exec_aline_section E bf x = Ret STAT_EAGAIN x1)
    by (unfold exec_aline_section; now rewrite Hsec).
  destruct (aline_eagain E bf x x1 Hrun Hd)
    as (x2 & Hcall2 & (Hmr & Hcm & _) & Hp2 & Hrun2).
  exists x2. split; [exact Hcall2 |]. split; [exact Hrun2 |].
  unfold section_kept, mr_r, blk in *. rewrite Hmr, Hcm, Hp2.
  now repeat split.
Qed.

(** A body with [S m] segments left runs them in [S m] calls. *)
Lemma aline_body_run (m : nat) : forall x : machine,
  running bf x ->
  Mr.section (mr x) = SECTION_BODY ->
  Mr.section_state (mr x) = SECTION_2nd_HALF ->
  0 <= Mr.segment_velocity (mr x) ->
  Mr.segment_count (mr x) = Z.of_nat (S m) ->
  (Z.of_nat (S m) <= 2 ^ 32)%Z ->
  exists x', again (S m) (mp_exec_aline E bf) x = Some x' /\
    running bf x' /\
    section_kept x x' /\
    prep_lines x' = (prep_lines x + S m)%nat /\
    Mr.section_state (mr x') = SECTION_NEW.
Proof.
  induction m as [| m IH]; intros x Hrun Hsec Hst Hv Hcount Hbound.
  - destruct (aline_body_call x Hrun Hsec Hst Hv)
      as (x' & Hcall & Hrun' & Hk & Hp & Hc & Hss).
    cbn [again]. rewrite Hcall. exists x'. split; [reflexivity |].
    unfold last_segment in Hss. rewrite Hcount in Hss.
    change (uint32_dec (Z.of_nat 1) =? 0)%Z with true in Hss.
    repeat split; first [ apply Hk | assumption | lia | apply Hrun' ].
  - destruct (aline_body_call x Hrun Hsec Hst Hv)
      as (x1 & Hcall & Hrun1 & Hk & Hp & Hc & Hss).
    change (again (S (S m)) (mp_exec_aline E bf) x)
      with (match mp_exec_aline E bf x with
            | Ret STAT_EAGAIN s' => again (S m) (mp_exec_aline E bf) s'
            | _ => None
            end).
    rewrite Hcall.
    unfold last_segment in Hss.
    rewrite Hcount, (uint32_dec_succ _ Hbound) in Hc, Hss.
    assert (Hnz : (Z.of_nat (S m) =? 0)%Z = false)
      by (apply Z.eqb_neq; lia).
    rewrite Hnz in Hss.
    destruct Hk as ((Hsec1 & Hw & Hvel) & (Hcm & Hex & Hblk)).
    destruct (IH x1) as (x' & Hrun' & Hrunk & Hk' & Hp' & Hss').
    + exact Hrun1.
    + now rewrite Hsec1.
    + exact Hss.
    + now rewrite Hvel.
    + exact Hc.
    + lia.
    + exists x'. split; [exact Hrun' |]. split; [exact Hrunk |].
      destruct Hk' as ((Hsec' & Hw' & Hvel') & (Hcm' & Hex' & Hblk')).
      split; [unfold section_kept; repeat split; congruence |].
      split; [lia | exact Hss'].
Qed.

(** The set-up of a body none of which has been run leaves the waypoints
    where they are. *)
Lemma body_section_new_waypoint (s s1 : machine) :
  Mr.section_state (mr s) = SECTION_NEW ->
  fp_ZERO (EPSILON E) (Mr.executed_body_length (mr s)) = true ->
  body_section_new E bf s = Ret None s1 ->
  Mr.waypoint (mr s1) = Mr.waypoint (mr s).
Proof.
  intros Hst Hex.
  cbv beta delta [body_section_new]. rewrite Hst.
  change (negb (sectionState_beq SECTION_NEW SECTION_NEW)) with false.
  cbv beta iota. zeta1.
  destruct (fp_ZERO (EPSILON E)
              (Blk.body_length (mr_r s) - Mr.executed_body_length (mr s))).
  - unfold bind, ret.
    destruct (_exec_aline_tail E bf _); discriminate.
  - rewrite Hex. cbv beta iota delta [negb]. do 6 zeta1.
    destruct (Qltb _ _); [discriminate |].
    intros H. injection H as <-. reflexivity.
Qed.

(** The first call of a new body is the call on the body as it is set
    up. *)
Lemma aline_body_first (s : machine) :
  running bf s ->
  Mr.section (mr s) = SECTION_BODY ->
  Mr.section_state (mr s) = SECTION_NEW ->
  0 <= Mr.segment_velocity (mr s) ->
  0 <= Blk.cruise_velocity (mr_r s) ->
  fp_ZERO (EPSILON E) (Mr.executed_body_length (mr s)) = true ->
  fp_ZERO (EPSILON E)
    (Blk.body_length (mr_r s) - Mr.executed_body_length (mr s)) = false ->
  Qltb (body_time_left s / body_segments E s) (MIN_SEGMENT_TIME E) = false ->
  exists s1, mp_exec_aline E bf s = mp_exec_aline E bf s1 /\
    running bf s1 /\
    (Mr.section_state (mr s1) = SECTION_2nd_HALF /\
     Mr.section (mr s1) = SECTION_BODY /\
     Mr.segment_count (mr s1) = to_uint32 (body_segments E s)) /\
    (Mr.segment_velocity (mr s1) = Blk.cruise_velocity (mr_r s) /\
     Mr.executed_body_length (mr s1) = Blk.body_length (mr_r s) /\
     Mr.waypoint (mr s1) = Mr.waypoint (mr s)) /\
    (cm s1 = cm s /\ prep_lines s1 = prep_lines s /\ mr_r s1 = mr_r s).
Proof.
  intros Hrun Hsec Hst Hv Hcruise Hex Hrem Hmin.
  destruct (body_section_new_start E bf s Hst Hrem Hmin)
    as (s1 & Hnew & (Hss & Hsec1 & Hcount) & (Hvel & _ & Hexl)
        & (Hcm & Htr & Hblk)).
  pose proof (body_section_new_frame E bf s) as Hf.
  rewrite Hnew in Hf. cbn [final] in Hf.
  pose proof (running_kept bf s s1 Hrun Hf) as Hrun1.
  assert (Hbody : _exec_aline_body E bf s = _exec_aline_body E bf s1).
  { cbv beta delta [_exec_aline_body].
    rewrite (proj2 (Qltb_false _ _) Hv).
    rewrite Hvel, (proj2 (Qltb_false _ _) Hcruise).
    unfold fall_through, bind. rewrite Hnew.
    cbv beta delta [body_section_new]. rewrite Hss.
    change (negb (sectionState_beq SECTION_2nd_HALF SECTION_NEW)) with true.
    reflexivity. }
  exists s1. split.
  { rewrite (aline_call E bf s Hrun), (aline_call E bf s1 Hrun1).
    unfold exec_aline_section. now rewrite Hsec, Hsec1, Hbody. }
  split; [exact Hrun1 |].
  split; [now repeat split |].
  split; [repeat split; [exact Hvel | exact Hexl |];
          exact (body_section_new_waypoint s s1 Hst Hex Hnew) |].
  repeat split; [exact Hcm | unfold prep_lines; now rewrite Htr | exact Hblk].
Qed.

(** A new body runs in as many calls as it has segments. *)
Lemma aline_body_phase (s : machine) (n : nat) :
  running bf s ->
  Mr.section (mr s) = SECTION_BODY ->
  Mr.section_state (mr s) = SECTION_NEW ->
  0 <= Mr.segment_velocity (mr s) ->
  0 <= Blk.cruise_velocity (mr_r s) ->
  fp_ZERO (EPSILON E) (Mr.executed_body_length (mr s)) = true ->
  fp_ZERO (EPSILON E)
    (Blk.body_length (mr_r s) - Mr.executed_body_length (mr s)) = false ->
  Qltb (body_time_left s / body_segments E s) (MIN_SEGMENT_TIME E) = false ->
  to_uint32 (body_segments E s) = Z.of_nat (S n) ->
  exists s', again (S n) (mp_exec_aline E bf) s = Some s' /\
    running bf s' /\
    prep_lines s' = (prep_lines s + S n)%nat /\
    (Mr.section (mr s') = SECTION_BODY /\
     Mr.section_state (mr s') = SECTION_NEW /\
     Mr.segment_velocity (mr s') = Blk.cruise_velocity (mr_r s)) /\
    (Mr.executed_body_length (mr s') = Blk.body_length (mr_r s) /\
     Mr.waypoint (mr s') = Mr.waypoint (mr s) /\
     mr_r s' = mr_r s).
Proof.
  intros Hrun Hsec Hst Hv Hcruise Hex Hrem Hmin Hn.
  destruct (aline_body_first s Hrun Hsec Hst Hv Hcruise Hex Hrem Hmin)
    as (s1 & Hcall & Hrun1 & (Hss & Hsec1 & Hcount) & (Hvel & Hexl & Hw)
        & (Hcm & Hp1 & Hblk)).
  assert (Hbound : (Z.of_nat (S n) <= 2 ^ 32)%Z).
  { rewrite <- Hn. unfold to_uint32.
    pose proof (Z.mod_pos_bound (Qfloor (body_segments E s)) (2 ^ 32)). lia. }
  destruct (aline_body_run n s1) as (s' & Hrun' & Hrunk & Hk & Hp & Hss').
  - exact Hrun1.
  - exact Hsec1.
  - exact Hss.
  - now rewrite Hvel.
  - now rewrite Hcount.
  - exact Hbound.
  - exists s'.
    assert (Hagain : again (S n) (mp_exec_aline E bf) s
                     = again (S n) (mp_exec_aline E bf) s1)
      by (cbn [again]; now rewrite Hcall).
    destruct Hk as ((Hsec' & Hw' & Hvel') & (Hcm' & Hex' & Hblk')).
    rewrite Hagain. split; [exact Hrun' |]. split; [exact Hrunk |].
    split; [lia |].
    split; [repeat split; congruence |].
    repeat split; congruence.
Qed.

End MoveBody.

Section MoveRamps.
Variable E : collaborators.
Hypothesis prep_ok : prep_always_ok E.
Variable bf : nat.

(** The first call of the tail, which the body makes when none of it is
    left. *)
Lemma aline_tail_first (s : machine) (n : nat) :
  running bf s ->
  Mr.section (mr s) = SECTION_BODY ->
  Mr.section_state (mr s) = SECTION_NEW ->
  0 <= Mr.segment_velocity (mr s) ->
  fp_ZERO (EPSILON E)
    (Blk.body_length (mr_r s) - Mr.executed_body_length (mr s)) = true ->
  fp_ZERO (EPSILON E) (Blk.tail_length (mr_r s)) = false ->
  Qltb (Blk.tail_time (mr_r s) / tail_segments E s) (MIN_SEGMENT_TIME E)
  = false ->
  to_uint32 (tail_segments E s) = Z.of_nat (S (S n)) ->
  exists x0, mp_exec_aline E bf s = Ret STAT_EAGAIN x0 /\
    running bf x0 /\
    (Mr.section_state (mr x0) = SECTION_2nd_HALF /\
     Mr.section (mr x0) = SECTION_TAIL /\
     Mr.segment_count (mr x0) = Z.of_nat (S n)) /\
    prep_lines x0 = S (prep_lines s) /\
    Mr.waypoint (mr x0) = Mr.waypoint (mr s).
Proof.
  intros Hrun Hsec Hst Hv Hrem Htail Hmin Hn.
  set (s' := s <| mr; Mr.section := SECTION_TAIL |>).
  destruct (tail_first_call E prep_ok bf s' n Hst Htail Hmin Hn)
    as (x1 & Hcall & Hstate & _ & Hp & (Hw & _)).
  assert (Hd : exec_aline_section E bf s = Ret STAT_EAGAIN x1).
  { unfold exec_aline_section. rewrite Hsec.
    cbv beta delta [_exec_aline_body].
    rewrite (proj2 (Qltb_false _ _) Hv).
    unfold fall_through, bind.
    cbv beta delta [body_section_new]. rewrite Hst.
    change (negb (sectionState_beq SECTION_NEW SECTION_NEW)) with false.
    cbv beta iota. zeta1. rewrite Hrem. cbv beta iota.
    unfold bind. fold s'. rewrite Hcall. reflexivity. }
  destruct (aline_eagain E bf s x1 Hrun Hd)
    as (x2 & Hcall2 & (Hmr & _) & Hp2 & Hrun2).
  exists x2. split; [exact Hcall2 |]. split; [exact Hrun2 |].
  rewrite Hmr, Hp2. split; [exact Hstate |]. split; [exact Hp | exact Hw].
Qed.

(** The tail from the call of the body that starts it to the end of the
    move. *)
Lemma aline_tail_phase (s : machine) (n : nat) :
  running bf s ->
  Mr.section (mr s) = SECTION_BODY ->
  Mr.section_state (mr s) = SECTION_NEW ->
  0 <= Mr.segment_velocity (mr s) ->
  fp_ZERO (EPSILON E)
    (Blk.body_length (mr_r s) - Mr.executed_body_length (mr s)) = true ->
  fp_ZERO (EPSILON E) (Blk.tail_length (mr_r s)) = false ->
  Qltb (Blk.tail_time (mr_r s) / tail_segments E s) (MIN_SEGMENT_TIME E)
  = false ->
  to_uint32 (tail_segments E s) = Z.of_nat (S (S n)) ->
  exists s1 s', again (S n) (mp_exec_aline E bf) s = Some s1 /\
    mp_exec_aline E bf s1 = Ret STAT_OK s' /\
    prep_lines s' = (prep_lines s + S (S n))%nat /\
    Mr.position (mr s') = Mr.waypoint (mr s) SECTION_TAIL /\
    Mr.move_state (mr s') = MOVE_OFF.
Proof.
  intros Hrun Hsec Hst Hv Hrem Htail Hmin Hn.
  assert (Hbound : (Z.of_nat (S (S n)) <= 2 ^ 32)%Z).
  { rewrite <- Hn. unfold to_uint32.
    pose proof (Z.mod_pos_bound (Qfloor (tail_segments E s)) (2 ^ 32)). lia. }
  destruct (aline_tail_first s n Hrun Hsec Hst Hv Hrem Htail Hmin Hn)
    as (x0 & Hcall & Hrun0 & (Hss & Hsec0 & Hcount) & Hp0 & Hw0).
  destruct (aline_tail_calls E prep_ok bf n 0 x0 Hrun0 Hsec0 Hss)
    as (s1 & Hcalls & Hrun1 & Hk & Hp1 & Hss1 & Hc1).
  { rewrite Hcount. f_equal. lia. }
  { lia. }
  destruct Hk as ((Hsec1 & Hw1 & _) & _).
  destruct (aline_tail_last E prep_ok bf s1 Hrun1 (eq_trans Hsec1 Hsec0) Hss1)
    as (s' & Hlast & Hp' & Hpos & Hoff).
  { unfold last_segment. rewrite Hc1. reflexivity. }
  exists s1, s'. split.
  { cbn [again]. now rewrite Hcall. }
  split; [exact Hlast |]. split; [lia |].
  split; [| exact Hoff]. now rewrite Hpos, Hw1, Hw0.
Qed.

(** The first call of a head of more than one segment. *)
Lemma aline_head_first (s : machine) (n : nat) :
  running bf s ->
  Mr.section (mr s) = SECTION_HEAD ->
  Mr.section_state (mr s) = SECTION_NEW ->
  fp_ZERO (EPSILON E) (Blk.head_length (mr_r s)) = false ->
  Qltb (Blk.head_time (mr_r s) / head_segments E s) (MIN_SEGMENT_TIME E)
  = false ->
  to_uint32 (head_segments E s) = Z.of_nat (S (S n)) ->
  exists x0, mp_exec_aline E bf s = Ret STAT_EAGAIN x0 /\
    running bf x0 /\
    (Mr.section_state (mr x0) = SECTION_2nd_HALF /\
     Mr.section (mr x0) = SECTION_HEAD /\
     Mr.segment_count (mr x0) = Z.of_nat (S n)) /\
    fd_tracks (power_basis (head_curve s)) (1 / head_segments E s)
      (1 / head_segments E s / 2) (mr x0) /\
    prep_lines x0 = S (prep_lines s) /\
    (Mr.waypoint (mr x0) = Mr.waypoint (mr s) /\ mr_r x0 = mr_r s) /\
    (Mr.executed_body_length (mr x0) = Mr.executed_body_length (mr s) /\
     Mr.executed_body_time (mr x0) = Mr.executed_body_time (mr s)).
Proof.
  intros Hrun Hsec Hst Hhead Hmin Hn.
  destruct (head_first_call E prep_ok bf s n Hst Hhead Hmin Hn)
    as (x1 & Hcall & Hstate & Htr & Hp & (Hw & _ & Hblk)).
  pose proof (head_ramp_frame E bf s Hhead) as Hf.
  rewrite Hcall in Hf. cbn [final] in Hf.
  destruct Hf as (Ho & _).
  destruct (outside_ramp_fields _ _ Ho) as (Hel & Het & _).
  assert (Hd : exec_aline_section E bf s = Ret STAT_EAGAIN x1)
    by (unfold exec_aline_section; now rewrite Hsec).
  destruct (aline_eagain E bf s x1 Hrun Hd)
    as (x2 & Hcall2 & (Hmr & _) & Hp2 & Hrun2).
  exists x2. split; [exact Hcall2 |]. split; [exact Hrun2 |].
  unfold mr_r, blk in *. rewrite Hmr, Hp2.
  split; [exact Hstate |]. split; [exact Htr |]. split; [exact Hp |].
  split; split; assumption.
Qed.

(** A call in the second half of the head that is not the last one. *)
Lemma aline_head_call (x : machine) :
  running bf x ->
  Mr.section (mr x) = SECTION_HEAD ->
  Mr.section_state (mr x) = SECTION_2nd_HALF ->
  last_segment x = false ->
  exists x', mp_exec_aline E bf x = Ret STAT_EAGAIN x' /\
    running bf x' /\
    ramp_kept x x' /\
    prep_lines x' = S (prep_lines x) /\
    (Mr.segment_count (mr x') = uint32_dec (Mr.segment_count (mr x)) /\
     Mr.section_state (mr x') = SECTION_2nd_HALF) /\
    fd_regs (mr x') = fd_regs (mr (next_segment_velocity x)) /\
    (Mr.executed_body_length (mr x') = Mr.executed_body_length (mr x) /\
     Mr.executed_body_time (mr x') = Mr.executed_body_time (mr x)).
Proof.
  intros Hrun Hsec Hst Hlast.
  destruct (head_second_half_call E prep_ok bf x Hst)
    as (st & x1 & Hcall & (Hp & _) & ((Hw & Hsegs) & (Hcm & Hblk))
        & Hmore & _).
  destruct (Hmore Hlast) as (-> & (Hsec1 & Hss & Hc) & Hregs).
  pose proof (head_half_ramp_frame E bf x Hst) as Hf.
  rewrite Hcall in Hf. cbn [final] in Hf.
  destruct Hf as (Ho & _).
  destruct (outside_ramp_fields _ _ Ho) as (Hel & Het & _).
  assert (Hd : exec_aline_section E bf x = Ret STAT_EAGAIN x1)
    by (unfold exec_aline_section; now rewrite Hsec).
  destruct (aline_eagain E bf x x1 Hrun Hd)
    as (x2 & Hcall2 & (Hmr & Hcm2 & _) & Hp2 & Hrun2).
  exists x2. split; [exact Hcall2 |]. split; [exact Hrun2 |].
  unfold ramp_kept, mr_r, blk in *. rewrite Hmr, Hcm2, Hp2.
  repeat split; assumption.
Qed.

(** The last call of a head that a body or a tail follows. *)
Lemma aline_head_last (x : machine) :
  running bf x ->
  Mr.section (mr x) = SECTION_HEAD ->
  Mr.section_state (mr x) = SECTION_2nd_HALF ->
  last_segment x = true ->
  fp_ZERO (EPSILON E) (Blk.body_length (mr_r x))
  && fp_ZERO (EPSILON E) (Blk.tail_length (mr_r x)) = false ->
  exists x', mp_exec_aline E bf x = Ret STAT_EAGAIN x' /\
    running bf x' /\
    prep_lines x' = S (prep_lines x) /\
    (Mr.section (mr x') = SECTION_BODY /\
     Mr.section_state (mr x') = SECTION_NEW /\
     Mr.segment_velocity (mr x')
     = Mr.segment_velocity (mr x) + Mr.forward_diff_5 (mr x)) /\
    (Mr.waypoint (mr x') = Mr.waypoint (mr x) /\ mr_r x' = mr_r x) /\
    (Mr.executed_body_length (mr x') = Mr.executed_body_length (mr x) /\
     Mr.executed_body_time (mr x') = Mr.executed_body_time (mr x)).
Proof.
  intros Hrun Hsec Hst Hlast Hends.
  destruct (head_second_half_call E prep_ok bf x Hst)
    as (st & x1 & Hcall & (Hp & Hvel) & ((Hw & Hsegs) & (Hcm & Hblk))
        & _ & Hend).
  destruct (Hend Hlast) as (Hstat & _ & Hnext).
  rewrite Hends in Hstat. subst st.
  destruct (Hnext Hends) as (Hsec1 & Hss).
  pose proof (head_half_ramp_frame E bf x Hst) as Hf.
  rewrite Hcall in Hf. cbn [final] in Hf.
  destruct Hf as (Ho & _).
  destruct (outside_ramp_fields _ _ Ho) as (Hel & Het & _).
  assert (Hd : exec_aline_section E bf x = Ret STAT_EAGAIN x1)
    by (unfold exec_aline_section; now rewrite Hsec).
  destruct (aline_eagain E bf x x1 Hrun Hd)
    as (x2 & Hcall2 & (Hmr & Hcm2 & _) & Hp2 & Hrun2).
  exists x2. split; [exact Hcall2 |]. split; [exact Hrun2 |].
  unfold mr_r, blk in *. rewrite Hmr, Hp2.
  repeat split; assumption.
Qed.

(** [k] calls in the second half of the head, with more than [k] segments
    left. *)
Lemma aline_head_calls (k : nat) : forall (c : nat) (x : machine),
  running bf x ->
  Mr.section (mr x) = SECTION_HEAD ->
  Mr.section_state (mr x) = SECTION_2nd_HALF ->
  Mr.segment_count (mr x) = Z.of_nat (k + S c) ->
  (Z.of_nat (k + S c) <= 2 ^ 32)%Z ->
  exists xk, again k (mp_exec_aline E bf) x = Some xk /\
    running bf xk /\
    ramp_kept x xk /\
    prep_lines xk = (prep_lines x + k)%nat /\
    (Mr.section_state (mr xk) = SECTION_2nd_HALF /\
     Mr.segment_count (mr xk) = Z.of_nat (S c)) /\
    fd_regs (mr xk) = fd_regs (mr (Nat.iter k next_segment_velocity x)) /\
    (Mr.executed_body_length (mr xk) = Mr.executed_body_length (mr x) /\
     Mr.executed_body_time (mr xk) = Mr.executed_body_time (mr x)).
Proof.
  induction k as [| k IH]; intros c x Hrun Hsec Hst Hcount Hbound.
  - exists x. cbn [again Nat.iter]. split; [reflexivity |].
    split; [exact Hrun |].
    unfold ramp_kept. repeat split; try assumption. lia.
  - change (S k + S c)%nat with (S (k + S c)) in Hcount, Hbound.
    assert (Hlast : last_segment x = false).
    { unfold last_segment. rewrite Hcount, (uint32_dec_succ _ Hbound).
      apply Z.eqb_neq. lia. }
    destruct (aline_head_call x Hrun Hsec Hst Hlast)
      as (x1 & Hcall & Hrun1 & Hk & Hp & (Hc & Hss) & Hregs & (Hel & Het)).
    rewrite Hcount, (uint32_dec_succ _ Hbound) in Hc.
    destruct Hk as ((Hsec1 & Hw & Hsegs) & (Hcm & Hblk)).
    destruct (IH c x1 Hrun1 (eq_trans Hsec1 Hsec) Hss Hc)
      as (xk & Hrun' & Hrunk & Hk' & Hp' & (Hss' & Hc') & Hregs'
          & (Hel' & Het')).
    { lia. }
    exists xk.
    change (again (S k) (mp_exec_aline E bf) x)
      with (match mp_exec_aline E bf x with
            | Ret STAT_EAGAIN s' => again k (mp_exec_aline E bf) s'
            | _ => None
            end).
    rewrite Hcall. split; [exact Hrun' |]. split; [exact Hrunk |].
    destruct Hk' as ((Hsec' & Hw' & Hsegs') & (Hcm' & Hblk')).
    split; [unfold ramp_kept; repeat split; congruence |].
    split; [lia |]. split; [split; [exact Hss' | exact Hc'] |].
    split; [| split; congruence].
    rewrite Hregs', Nat.iter_succ_r. now apply fd_regs_iter.
Qed.

(** The head from its first call to the call that hands over to the
    body. *)
Lemma aline_head_phase (s : machine) (n : nat) :
  running bf s ->
  Mr.section (mr s) = SECTION_HEAD ->
  Mr.section_state (mr s) = SECTION_NEW ->
  fp_ZERO (EPSILON E) (Blk.head_length (mr_r s)) = false ->
  Qltb (Blk.head_time (mr_r s) / head_segments E s) (MIN_SEGMENT_TIME E)
  = false ->
  to_uint32 (head_segments E s) = Z.of_nat (S (S n)) ->
  fp_ZERO (EPSILON E) (Blk.body_length (mr_r s))
  && fp_ZERO (EPSILON E) (Blk.tail_length (mr_r s)) = false ->
  exists s', again (S (S n)) (mp_exec_aline E bf) s = Some s' /\
    running bf s' /\
    prep_lines s' = (prep_lines s + S (S n))%nat /\
    (Mr.section (mr s') = SECTION_BODY /\
     Mr.section_state (mr s') = SECTION_NEW /\
     Mr.segment_velocity (mr s')
     == bernstein (head_curve s)
          (midpoint (S n) (1 / head_segments E s))) /\
    (Mr.waypoint (mr s') = Mr.waypoint (mr s) /\ mr_r s' = mr_r s) /\
    (Mr.executed_body_length (mr s') = Mr.executed_body_length (mr s) /\
     Mr.executed_body_time (mr s') = Mr.executed_body_time (mr s)).
Proof.
  intros Hrun Hsec Hst Hhead Hmin Hn Hends.
  set (h := 1 / head_segments E s).
  assert (Hbound : (Z.of_nat (S (S n)) <= 2 ^ 32)%Z).
  { rewrite <- Hn. unfold to_uint32.
    pose proof (Z.mod_pos_bound (Qfloor (head_segments E s)) (2 ^ 32)). lia. }
  destruct (aline_head_first s n Hrun Hsec Hst Hhead Hmin Hn)
    as (x0 & Hcall & Hrun0 & (Hss & Hsec0 & Hcount) & Htracks & Hp0
        & (Hw0 & Hblk0) & (Hel0 & Het0)).
  fold h in Htracks.
  destruct (aline_head_calls n 0 x0 Hrun0 Hsec0 Hss)
    as (s1 & Hcalls & Hrun1 & Hk & Hp1 & (Hss1 & Hc1) & Hregs
        & (Hel1 & Het1)).
  { rewrite Hcount. f_equal. lia. }
  { lia. }
  destruct Hk as ((Hsec1 & Hw1 & _) & (_ & Hblk1)).
  destruct (aline_head_last s1 Hrun1 (eq_trans Hsec1 Hsec0) Hss1)
    as (s' & Hlast & Hrun' & Hp' & (Hsec' & Hss' & Hvel) & (Hw' & Hblk')
        & (Hel' & Het')).
  { unfold last_segment. rewrite Hc1. reflexivity. }
  { now rewrite Hblk1, Hblk0. }
  exists s'. split.
  { change (S (S n)) with (1 + S n)%nat.
    rewrite (again_add _ 1 (S n) s x0) by (cbn [again]; now rewrite Hcall).
    replace (S n) with (n + 1)%nat by lia.
    rewrite (again_add _ n 1 x0 s1 Hcalls).
    cbn [again]. now rewrite Hlast. }
  split; [exact Hrun' |]. split; [lia |].
  split.
  { split; [exact Hsec' |]. split; [exact Hss' |].
    rewrite Hvel.
    assert (Ht : fd_tracks (power_basis (head_curve s)) h
                   (h / 2 + inject_Z (Z.of_nat n) * h) (mr s1)).
    { eapply fd_tracks_regs; [symmetry; exact Hregs |].
      now apply fd_tracks_iter. }
    destruct Ht as (Hv & H5 & _). rewrite Hv, H5.
    rewrite bernstein_power_basis.
    assert (Et : h / 2 + inject_Z (Z.of_nat n) * h + h == midpoint (S n) h).
    { unfold midpoint. rewrite Nat2Z.inj_succ. unfold Z.succ.
      rewrite inject_Z_plus. field. }
    unfold V. rewrite <- Et. ring. }
  split; split; congruence.
Qed.

End MoveRamps.

Lemma fp_ZERO_diff_self (eps a : Q) : 0 < eps -> fp_ZERO eps (a - a) = true.
Proof.
  intros Heps. rewrite (fp_ZERO_Qeq eps (a - a) 0) by ring.
  unfold fp_ZERO. apply Qltb_true. exact Heps.
Qed.

(** X14: A block runs in as many calls as it has segments: on a move under way
    that is about to start a block with a head, a body and a tail (head and
    tail of at least two segments, every segment at least
    [MIN_SEGMENT_TIME] long, velocities that are not negative, a stepper
    that accepts every segment), [mp_exec_aline] returns [STAT_EAGAIN] from
    every call but the last and [STAT_OK] from the last, prepares one
    segment in each call, and ends on the waypoint of the tail with the
    runtime switched off. *)
Theorem aline_runs_block (E : collaborators) (bf : nat) (s : machine)
    (nh nb nt : nat) :
  prep_always_ok E ->
  0 < EPSILON E ->
  running bf s ->
  Mr.section (mr s) = SECTION_HEAD ->
  Mr.section_state (mr s) = SECTION_NEW ->
  (* the head *)
  fp_ZERO (EPSILON E) (Blk.head_length (mr_r s)) = false ->
  Qltb (Blk.head_time (mr_r s) / head_segments E s) (MIN_SEGMENT_TIME E)
  = false ->
  to_uint32 (head_segments E s) = Z.of_nat (S (S nh)) ->
  0 <= bernstein (head_curve s) (midpoint (S nh) (1 / head_segments E s)) ->
  (* the body *)
  fp_ZERO (EPSILON E) (Mr.executed_body_length (mr s)) = true ->
  fp_ZERO (EPSILON E)
    (Blk.body_length (mr_r s) - Mr.executed_body_length (mr s)) = false ->
  Qltb (body_time_left s / body_segments E s) (MIN_SEGMENT_TIME E) = false ->
  to_uint32 (body_segments E s) = Z.of_nat (S nb) ->
  0 <= Blk.cruise_velocity (mr_r s) ->
  (* the tail *)
  fp_ZERO (EPSILON E) (Blk.tail_length (mr_r s)) = false ->
  Qltb (Blk.tail_time (mr_r s) / tail_segments E s) (MIN_SEGMENT_TIME E)
  = false ->
  to_uint32 (tail_segments E s) = Z.of_nat (S (S nt)) ->
  let calls := (S (S nh) + S nb + S (S nt))%nat in
  exists s1 s',
    again (calls - 1) (mp_exec_aline E bf) s = Some s1 /\
    mp_exec_aline E bf s1 = Ret STAT_OK s' /\
    prep_lines s' = (prep_lines s + calls)%nat /\
    Mr.position (mr s') = Mr.waypoint (mr s) SECTION_TAIL /\
    Mr.move_state (mr s') = MOVE_OFF.
Proof.
  intros Hprep Heps Hrun Hsec Hst Hhl Hhmin Hhn Hvh Hex Hbl Hbmin Hbn
    Hcruise Htl Htmin Htn calls.
  destruct (aline_head_phase E Hprep bf s nh Hrun Hsec Hst Hhl Hhmin Hhn)
    as (xH & HrunH & HrH & HpH & (HsecH & HssH & HvelH) & (HwH & HblkH)
        & (HelH & HetH)).
  { rewrite Htl. apply andb_false_r. }
  assert (HbtH : body_time_left xH = body_time_left s)
    by (unfold body_time_left; now rewrite HblkH, HetH).
  assert (HbsH : body_segments E xH = body_segments E s)
    by (unfold body_segments; now rewrite HbtH).
  destruct (aline_body_phase E Hprep bf xH nb HrH HsecH HssH)
    as (xB & HrunB & HrB & HpB & (HsecB & HssB & HvelB)
        & (HelB & HwB & HblkB)).
  { rewrite HvelH. exact Hvh. }
  { now rewrite HblkH. }
  { now rewrite HelH. }
  { now rewrite HblkH, HelH. }
  { now rewrite HbtH, HbsH. }
  { now rewrite HbsH. }
  assert (HtsB : tail_segments E xB = tail_segments E s)
    by (unfold tail_segments; now rewrite HblkB, HblkH).
  destruct (aline_tail_phase E Hprep bf xB nt HrB HsecB HssB)
    as (s1 & s' & HrunT & Hlast & HpT & Hpos & Hoff).
  { now rewrite HvelB, HblkH. }
  { rewrite HelB, HblkB. now apply fp_ZERO_diff_self. }
  { now rewrite HblkB, HblkH. }
  { now rewrite HblkB, HblkH, HtsB. }
  { now rewrite HtsB. }
  exists s1, s'. split.
  { replace (calls - 1)%nat with (S (S nh) + (S nb + S nt))%nat
      by (unfold calls; lia).
    rewrite (again_add _ (S (S nh)) (S nb + S nt) s xH HrunH).
    now rewrite (again_add _ (S nb) (S nt) xH xB HrunB). }
  split; [exact Hlast |]. split; [unfold calls; lia |].
  split; [| exact Hoff]. now rewrite Hpos, HwB, HwH.
Qed.

Lemma aline_runs_block_witness :
  let s := starting_full_blk in
  exists s1 s',
    again 10 (mp_exec_aline demo_env 0) s = Some s1 /\
    mp_exec_aline demo_env 0 s1 = Ret STAT_OK s' /\
    prep_lines s' = (prep_lines s + 11)%nat /\
    Mr.position (mr s') = [9; 0] /\
    Mr.move_state (mr s') = MOVE_OFF.
Proof.
  intros s.
  apply (aline_runs_block demo_env 0 s 2 2 2).
  - intros ? ? ?. reflexivity.
  - reflexivity.
  - repeat split; vm_compute; discriminate.
  - reflexivity.
  - reflexivity.
  - vm_compute. reflexivity.
  - vm_compute. reflexivity.
  - vm_compute. reflexivity.
  - vm_compute. discriminate.
  - vm_compute. reflexivity.
  - vm_compute. reflexivity.
  - vm_compute. reflexivity.
  - vm_compute. reflexivity.
  - vm_compute. discriminate.
  - vm_compute. reflexivity.
  - vm_compute. reflexivity.
  - vm_compute. reflexivity.
Defined.

(* ================================================================== *)
(** ** The lookahead loop of [mp_plan_move] *)

Lemma lookahead_spec (fuel : nat) : forall (s : machine) (b : nat) (L : Q)
    (r : nat),
  lookahead fuel s b L = Some r ->
  exists k, (k < fuel)%nat /\ r = ring_walk k s b /\
    ~ locks_on s b L k /\
    forall j, (j < k)%nat -> locks_on s b L j.
Proof.
  induction fuel as [| fuel IH]; intros s b L r H; [discriminate |].
  cbn [lookahead] in H.
  destruct (Qltb (Buf.length (buf b s) + 0.0001) L) eqn:Hc.
  - destruct (IH s _ _ r H) as (k & Hk & Hr & Hstop & Hgo).
    exists (S k). split; [lia |]. split; [exact Hr |].
    unfold locks_on in *. cbn [ring_walk ring_length].
    split.
    + intros Hlock. apply Hstop.
      eapply Qlt_le_trans; [exact Hlock |]. lra.
    + intros [| j] Hj.
      * cbn [ring_walk ring_length]. apply Qltb_true in Hc. lra.
      * assert (Hj' : (j < k)%nat) by lia.
        specialize (Hgo j Hj'). cbn [ring_walk ring_length].
        eapply Qlt_le_trans; [exact Hgo |]. lra.
  - injection H as <-. exists 0%nat. split; [lia |].
    split; [reflexivity |]. unfold locks_on. cbn [ring_walk ring_length].
    split; [| intros j Hj; lia].
    apply Qltb_false in Hc. lra.
Qed.

Lemma lookahead_total (fuel : nat) : forall (s : machine) (b : nat) (L m : Q),
  0 < m ->
  (forall k, m <= Buf.length (buf (ring_walk k s b) s)) ->
  L <= inject_Z (Z.of_nat fuel) * m ->
  exists r, lookahead (S fuel) s b L = Some r.
Proof.
  induction fuel as [| fuel IH]; intros s b L m Hm Hlen Hfuel.
  - cbn [lookahead].
    destruct (Qltb (Buf.length (buf b s) + 0.0001) L) eqn:Hc;
      [| now eexists].
    exfalso. apply Qltb_true in Hc.
    pose proof (Hlen 0%nat) as H0. cbn [ring_walk] in H0.
    change (inject_Z (Z.of_nat 0)) with 0 in Hfuel. lra.
  - change (lookahead (S (S fuel)) s b L)
      with (if Qltb (Buf.length (buf b s) + 0.0001) L
            then lookahead (S fuel) s (Buf.nx (buf b s))
                   (L - Buf.length (buf b s))
            else Some b).
    destruct (Qltb (Buf.length (buf b s) + 0.0001) L) eqn:Hc;
      [| now eexists].
    apply (IH s _ _ m Hm).
    + intros k. apply (Hlen (S k)).
    + pose proof (Hlen 0%nat) as H0. cbn [ring_walk] in H0.
      rewrite Nat2Z.inj_succ in Hfuel. unfold Z.succ in Hfuel.
      rewrite inject_Z_plus in Hfuel.
      change (inject_Z 1) with 1 in Hfuel. lra.
Qed.

(** X15: The lookahead loop of the planner finds the first block of the tail:
    when every buffer down the ring from [bf] is at least [m > 0] long, the
    loop ends after at most [lock_length / m] steps, on the first buffer at
    which the loop condition
    [bf_lookahead->length + 0.0001 < lock_length_left] fails, where
    [lock_length_left] is the lock length less the lengths of the buffers
    passed. *)
Theorem lookahead_finds_first_tail_block (s : machine) (bf : nat)
    (lock_length m : Q) (steps : nat) :
  0 < m ->
  (forall k, m <= Buf.length (buf (ring_walk k s bf) s)) ->
  lock_length <= inject_Z (Z.of_nat steps) * m ->
  exists k : nat,
    (k <= steps)%nat /\
    lookahead (S steps) s bf lock_length = Some (ring_walk k s bf) /\
    ~ locks_on s bf lock_length k /\
    (forall j, (j < k)%nat -> locks_on s bf lock_length j).
Proof.
  intros Hm Hlen Hsteps.
  destruct (lookahead_total steps s bf lock_length m Hm Hlen Hsteps)
    as (r & Hr).
  destruct (lookahead_spec _ _ _ _ _ Hr) as (k & Hk & -> & Hstop & Hgo).
  exists k. split; [lia |]. now repeat split.
Qed.

(** A ring of two buffers of length 10 each. *)
Lemma ring_walk_two_alines (k : nat) : forall b : nat,
  (b < 2)%nat ->
  Buf.length
    (buf (ring_walk k (two_alines MP_BUFFER_RUNNING MP_BUFFER_PREPPED MOVE_RUN) b)
       (two_alines MP_BUFFER_RUNNING MP_BUFFER_PREPPED MOVE_RUN))
  = 10.
Proof.
  induction k as [| k IH]; intros b Hb.
  - destruct b as [| [| b]]; [reflexivity | reflexivity | lia].
  - cbn [ring_walk].
    destruct b as [| [| b]]; [apply IH; cbn; lia | apply IH; cbn; lia | lia].
Qed.

Lemma lookahead_finds_first_tail_block_witness :
  let s := two_alines MP_BUFFER_RUNNING MP_BUFFER_PREPPED MOVE_RUN in
  exists k : nat,
    (k <= 3)%nat /\
    lookahead 4 s 0 25 = Some (ring_walk k s 0) /\
    ~ locks_on s 0 25 k /\
    (forall j, (j < k)%nat -> locks_on s 0 25 j).
Proof.
  intros s.
  apply (lookahead_finds_first_tail_block s 0 25 10 3).
  - reflexivity.
  - intros k. unfold s. rewrite ring_walk_two_alines by lia.
    apply Qle_refl.
  - vm_compute. discriminate.
Defined.

(* ================================================================== *)
(** ** The handler lists of gpio.h *)

Lemma handler_chain_functional (nx : Gpio.handler -> option Gpio.handler)
    (p : option Gpio.handler) (l l' : list Gpio.handler) :
  handler_chain nx p l -> handler_chain nx p l' -> l = l'.
Proof.
  intros H. revert l'. induction H as [| a l H IH]; intros l' H'.
  - now inversion H'.
  - inversion H' as [| a' l'' H'']; subst. f_equal. now apply IH.
Qed.

Lemma handler_chain_length_suffix (nx : Gpio.handler -> option Gpio.handler)
    (p : option Gpio.handler) (l : list Gpio.handler) :
  handler_chain nx p l ->
  forall a, In a l -> exists l', handler_chain nx (Some a) (a :: l') /\
                                 (List.length l' < List.length l)%nat.
Proof.
  induction 1 as [| b l H IH]; intros a Ha; [contradiction |].
  destruct Ha as [-> | Ha].
  - exists l. split; [now constructor | cbn; lia].
  - destruct (IH a Ha) as (l' & Hc & Hlen). exists l'. split; [exact Hc |].
    cbn. lia.
Qed.

(** A list that ends has no handler twice. *)
Lemma handler_chain_NoDup (nx : Gpio.handler -> option Gpio.handler)
    (p : option Gpio.handler) (l : list Gpio.handler) :
  handler_chain nx p l -> NoDup l.
Proof.
  induction 1 as [| a l H IH]; constructor; [| exact IH].
  intros Ha.
  destruct (handler_chain_length_suffix nx _ l H a Ha) as (l' & Hc & Hlen).
  assert (Heq : a :: l = a :: l')
    by (apply (handler_chain_functional nx (Some a)); [now constructor | exact Hc]).
  injection Heq as ->. lia.
Qed.

Lemma handler_chain_write_other (nx : Gpio.handler -> option Gpio.handler)
    (h : Gpio.handler) (v : option Gpio.handler)
    (p : option Gpio.handler) (l : list Gpio.handler) :
  handler_chain nx p l -> ~ In h l ->
  handler_chain (Gpio.write_next h v nx) p l.
Proof.
  induction 1 as [| a l H IH]; intros Hh; constructor.
  unfold Gpio.write_next at 2.
  destruct (Nat.eqb_spec a h) as [-> | Hne].
  - exfalso. apply Hh. now left.
  - apply IH. intros Hin. apply Hh. now right.
Qed.

Lemma write_next_same (nx : Gpio.handler -> option Gpio.handler)
    (h : Gpio.handler) (v : option Gpio.handler) :
  Gpio.write_next h v nx h = v.
Proof. unfold Gpio.write_next. now rewrite Nat.eqb_refl. Qed.

Lemma write_next_other (nx : Gpio.handler -> option Gpio.handler)
    (h a : Gpio.handler) (v : option Gpio.handler) :
  a <> h -> Gpio.write_next h v nx a = nx a.
Proof.
  intros H. unfold Gpio.write_next.
  now destruct (Nat.eqb_spec a h).
Qed.

Lemma register_on_handlers (priority : Gpio.handler -> Z)
    (fuel : nat) (new_handler f : Gpio.handler) (rest : list Gpio.handler)
    (hl : Gpio.gpioDigitalInputHandlerList) :
  handlers_of hl (f :: rest) ->
  ~ In new_handler (f :: rest) ->
  exists hl',
    Gpio.registerHandler priority (S fuel) new_handler hl = Some hl' /\
    handlers_of hl'
      (if (priority new_handler >? priority f)%Z
       then new_handler :: f :: rest
       else f :: new_handler :: rest).
Proof.
  unfold handlers_of. intros Hc Hnew.
  inversion Hc as [| a l Hrest Hfirst]; subst.
  unfold Gpio.registerHandler. rewrite <- Hfirst.
  destruct (priority new_handler >? priority f)%Z eqn:Hp.
  - eexists. split; [reflexivity |]. cbn.
    constructor. rewrite write_next_same.
    apply handler_chain_write_other; [| exact Hnew].
    now constructor.
  - cbn [Gpio.register_walk].
    assert (Hle : (priority new_handler <=? priority f)%Z = true)
      by (apply Z.leb_le; rewrite Z.gtb_ltb in Hp; apply Z.ltb_ge in Hp; lia).
    rewrite Hle. eexists. split; [reflexivity |]. cbn.
    assert (Hne : new_handler <> f) by (intros ->; apply Hnew; now left).
    assert (Hnr : ~ In new_handler rest)
      by (intros Hin; apply Hnew; now right).
    assert (Hfr : ~ In f rest).
    { pose proof (handler_chain_NoDup _ _ _ Hc) as Hnd.
      now inversion Hnd. }
    rewrite <- Hfirst.
    constructor. rewrite write_next_same.
    constructor. rewrite (write_next_other _ f new_handler) by exact Hne.
    rewrite write_next_same.
    apply handler_chain_write_other; [| exact Hfr].
    apply handler_chain_write_other; [exact Hrest | exact Hnr].
Qed.

(** X16: [registerHandler] puts the new handler first or second: on a list
    that has handlers and does not have the new one, the new handler
    becomes the first when its priority is higher than that of the first,
    and else the second, whatever the priorities of the handlers further
    down; the loop ends in its first turn. *)
Theorem register_handler_first_or_second (priority : Gpio.handler -> Z)
    (fuel : nat) (new_handler f : Gpio.handler) (rest : list Gpio.handler)
    (hl : Gpio.gpioDigitalInputHandlerList) :
  handlers_of hl (f :: rest) ->
  ~ In new_handler (f :: rest) ->
  exists hl',
    Gpio.registerHandler priority (S fuel) new_handler hl = Some hl' /\
    handlers_of hl'
      (if (priority new_handler >? priority f)%Z
       then new_handler :: f :: rest
       else f :: new_handler :: rest).
Proof. apply register_on_handlers. Qed.

Lemma register_handler_first_or_second_witness :
  exists hl',
    Gpio.registerHandler demo_priority 1 3%nat two_handlers = Some hl' /\
    handlers_of hl' [1%nat; 3%nat; 2%nat].
Proof.
  apply (register_handler_first_or_second demo_priority 0 3%nat 1%nat
           [2%nat] two_handlers).
  - repeat constructor.
  - cbn. intros [H | [H | H]]; (discriminate || contradiction).
Defined.

Lemma call_walk_chain (callback : Gpio.handler -> bool -> Gpio.inputEdgeFlag -> Z -> bool)
    (nx : Gpio.handler -> option Gpio.handler)
    (state : bool) (edge : Gpio.inputEdgeFlag) (pin : Z)
    (p : option Gpio.handler) (l : list Gpio.handler) :
  handler_chain nx p l ->
  forall fuel, (List.length l < fuel)%nat ->
  Gpio.call_walk callback fuel nx p state edge pin
  = Some (existsb (fun h => callback h state edge pin) l,
          upto_first (fun h => callback h state edge pin) l).
Proof.
  induction 1 as [| a l H IH]; intros fuel Hfuel.
  - destruct fuel; [lia | reflexivity].
  - destruct fuel as [| fuel]; [cbn in Hfuel; lia |].
    cbn [Gpio.call_walk existsb upto_first].
    destruct (callback a state edge pin); [reflexivity |].
    rewrite IH by (cbn in Hfuel; lia). reflexivity.
Qed.

(** X17: [call] stops at the first handler that takes the event: the callbacks
    are called in the order of the list up to and with the first that
    returns [true], the handlers after it are not called, and [call]
    returns whether there was one. *)
Theorem call_stops_at_first_taker
    (callback : Gpio.handler -> bool -> Gpio.inputEdgeFlag -> Z -> bool)
    (hl : Gpio.gpioDigitalInputHandlerList) (l : list Gpio.handler)
    (fuel : nat) (state : bool) (edge : Gpio.inputEdgeFlag) (pin : Z) :
  handlers_of hl l ->
  (List.length l < fuel)%nat ->
  Gpio.call callback fuel hl state edge pin
  = Some (existsb (fun h => callback h state edge pin) l,
          upto_first (fun h => callback h state edge pin) l).
Proof.
  intros Hc Hfuel. unfold Gpio.call. now apply call_walk_chain.
Qed.

Lemma handlers_of_three :
  handlers_of
    {| Gpio._first_handler := Some 1%nat;
       Gpio.next := fun a =>
         match a with
         | 1%nat => Some 2%nat | 2%nat => Some 3%nat | _ => None
         end |}
    [1%nat; 2%nat; 3%nat].
Proof. repeat constructor. Qed.

Lemma call_stops_at_first_taker_witness :
  Gpio.call demo_callback 4
    {| Gpio._first_handler := Some 1%nat;
       Gpio.next := fun a =>
         match a with
         | 1%nat => Some 2%nat | 2%nat => Some 3%nat | _ => None
         end |}
    true Gpio.INPUT_EDGE_LEADING 7
  = Some (true, [1%nat; 2%nat]).
Proof.
  apply (call_stops_at_first_taker demo_callback _ [1%nat; 2%nat; 3%nat] 4
           true Gpio.INPUT_EDGE_LEADING 7).
  - exact handlers_of_three.
  - cbn. lia.
Defined.

Lemma last_cons {A} (l : list A) : forall x d : A,
  last (x :: l) d = last l x.
Proof.
  induction l as [| y l IH]; intros x d; [reflexivity |].
  change (last (x :: y :: l) d) with (last (y :: l) d).
  change (last (y :: l) x) with (last (y :: l) x).
  now rewrite (IH y d), (IH y x).
Qed.

(** The loop of [deregisterHandler] on a list that has the handler: the
    handler before it is linked to the handler after it. *)
Lemma deregister_walk_unlinks (old_handler : Gpio.handler)
    (l2 : list Gpio.handler) (hl : Gpio.gpioDigitalInputHandlerList)
    (l1 : list Gpio.handler) :
  forall (c : Gpio.handler) (fuel : nat),
  handler_chain (Gpio.next hl) (Some c) (c :: l1 ++ old_handler :: l2) ->
  ~ In old_handler (c :: l1) ->
  (List.length l1 < fuel)%nat ->
  Gpio.deregister_walk fuel old_handler c hl
  = Some (hl <| Gpio.next ::=
                  Gpio.write_next (last l1 c) (Gpio.next hl old_handler) |>).
Proof.
  induction l1 as [| b l1 IH]; intros c fuel Hc Hold Hfuel.
  - destruct fuel as [| fuel]; [lia |].
    cbn [app] in Hc.
    inversion Hc as [| ? ? Hc1]; subst.
    inversion Hc1 as [| ? ? Hc2 Hn]; subst.
    cbn [Gpio.deregister_walk last]. rewrite <- Hn, Nat.eqb_refl.
    reflexivity.
  - destruct fuel as [| fuel]; [lia |].
    cbn [app] in Hc.
    inversion Hc as [| ? ? Hc1]; subst.
    inversion Hc1 as [| ? ? Hc2 Hn]; subst.
    cbn [Gpio.deregister_walk]. rewrite <- Hn.
    assert (Hb : (b =? old_handler)%nat = false).
    { apply Nat.eqb_neq. intros ->. apply Hold. right. now left. }
    rewrite Hb.
    rewrite (IH b fuel).
    + now rewrite last_cons.
    + now constructor.
    + intros Hin. apply Hold. now right.
    + cbn in Hfuel. lia.
Qed.

Lemma handler_chain_unlink (nx : Gpio.handler -> option Gpio.handler)
    (old_handler : Gpio.handler) (l2 : list Gpio.handler)
    (l1 : list Gpio.handler) :
  forall c : Gpio.handler,
  handler_chain nx (Some c) (c :: l1 ++ old_handler :: l2) ->
  handler_chain (Gpio.write_next (last l1 c) (nx old_handler) nx)
    (Some c) (c :: l1 ++ l2).
Proof.
  induction l1 as [| b l1 IH]; intros c Hc.
  - cbn [app last] in *.
    pose proof (handler_chain_NoDup _ _ _ Hc) as Hnd.
    inversion Hc as [| ? ? Hc1]; subst.
    inversion Hc1 as [| ? ? Hc2 Hn]; subst.
    constructor. rewrite write_next_same.
    apply handler_chain_write_other; [exact Hc2 |].
    inversion Hnd as [| ? ? Hnc Hnd1]; subst.
    intros Hin. apply Hnc. now right.
  - cbn [app] in *.
    pose proof (handler_chain_NoDup _ _ _ Hc) as Hnd.
    inversion Hc as [| ? ? Hc1]; subst.
    inversion Hc1 as [| ? ? Hc2 Hn]; subst.
    assert (Hlast : last (b :: l1) c = last l1 b) by apply last_cons.
    rewrite Hlast.
    constructor.
    assert (Hne : c <> last l1 b).
    { inversion Hnd as [| ? ? Hnc Hnd1]; subst.
      intros ->. apply Hnc.
      destruct l1 as [| x l1]; [now left |].
      right. apply in_or_app. left.
      change (In (last (x :: l1) b) (x :: l1)).
      clear. revert x. induction l1 as [| y l1 IHl]; intros x; [now left |].
      right. apply (IHl y). }
    rewrite write_next_other by exact Hne.
    rewrite <- Hn. apply IH. now constructor.
Qed.

Lemma deregister_present (old_handler : Gpio.handler)
    (l1 l2 : list Gpio.handler) (hl : Gpio.gpioDigitalInputHandlerList)
    (fuel : nat) :
  handlers_of hl (l1 ++ old_handler :: l2) ->
  (List.length l1 < fuel)%nat ->
  exists hl',
    Gpio.deregisterHandler fuel old_handler hl = Some hl' /\
    handlers_of hl' (l1 ++ l2).
Proof.
  unfold handlers_of. intros Hc Hfuel.
  pose proof (handler_chain_NoDup _ _ _ Hc) as Hnd.
  unfold Gpio.deregisterHandler.
  destruct l1 as [| c l1].
  - cbn [app] in *. inversion Hc as [| ? ? Hc1 Hf]; subst.
    rewrite Nat.eqb_refl. eexists. split; [reflexivity |]. exact Hc1.
  - cbn [app] in *. inversion Hc as [| ? ? Hc1 Hf]; subst.
    assert (Hold : ~ In old_handler (c :: l1)).
    { intros Hin. apply NoDup_remove_2 with (l := c :: l1) in Hnd.
      apply Hnd. apply in_or_app. now left. }
    assert (Hb : (c =? old_handler)%nat = false).
    { apply Nat.eqb_neq. intros ->. apply Hold. now left. }
    rewrite Hb.
    rewrite (deregister_walk_unlinks old_handler l2 hl l1 c fuel).
    + eexists. split; [reflexivity |]. cbn.
      rewrite <- Hf. apply handler_chain_unlink. rewrite Hf. exact Hc.
    + now constructor.
    + exact Hold.
    + cbn in Hfuel. lia.
Qed.

(** X18: [deregisterHandler] unlinks the handler and nothing else: on a list
    that has the handler, the list afterwards is the list before without
    it, in the same order. *)
Theorem deregister_handler_unlinks (old_handler : Gpio.handler)
    (l1 l2 : list Gpio.handler) (hl : Gpio.gpioDigitalInputHandlerList)
    (fuel : nat) :
  handlers_of hl (l1 ++ old_handler :: l2) ->
  (List.length l1 < fuel)%nat ->
  exists hl',
    Gpio.deregisterHandler fuel old_handler hl = Some hl' /\
    handlers_of hl' (l1 ++ l2).
Proof. apply deregister_present. Qed.

Lemma deregister_handler_unlinks_witness :
  exists hl',
    Gpio.deregisterHandler 2 2%nat
      {| Gpio._first_handler := Some 1%nat;
         Gpio.next := fun a =>
           match a with
           | 1%nat => Some 2%nat | 2%nat => Some 3%nat | _ => None
           end |} = Some hl' /\
    handlers_of hl' [1%nat; 3%nat].
Proof.
  apply (deregister_handler_unlinks 2%nat [1%nat] [3%nat] _ 2).
  - exact handlers_of_three.
  - cbn. lia.
Defined.

Lemma deregister_walk_absent (old_handler : Gpio.handler)
    (hl : Gpio.gpioDigitalInputHandlerList) (l : list Gpio.handler) :
  forall (c : Gpio.handler) (fuel : nat),
  handler_chain (Gpio.next hl) (Some c) (c :: l) ->
  ~ In old_handler l ->
  (List.length l < fuel)%nat ->
  Gpio.deregister_walk fuel old_handler c hl = Some hl.
Proof.
  induction l as [| b l IH]; intros c fuel Hc Hold Hfuel.
  - destruct fuel as [| fuel]; [lia |].
    inversion Hc as [| ? ? Hc1]; subst. inversion Hc1 as [Hn |]; subst.
    cbn [Gpio.deregister_walk]. now rewrite <- Hn.
  - destruct fuel as [| fuel]; [lia |].
    inversion Hc as [| ? ? Hc1]; subst.
    inversion Hc1 as [| ? ? Hc2 Hn]; subst.
    cbn [Gpio.deregister_walk]. rewrite <- Hn.
    assert (Hb : (b =? old_handler)%nat = false).
    { apply Nat.eqb_neq. intros ->. apply Hold. now left. }
    rewrite Hb. apply IH.
    + now constructor.
    + intros Hin. apply Hold. now right.
    + cbn in Hfuel. lia.
Qed.

(** X19: [deregisterHandler] of a handler that is not on the list changes
    nothing. *)
Theorem deregister_absent_handler (old_handler : Gpio.handler)
    (l : list Gpio.handler) (hl : Gpio.gpioDigitalInputHandlerList)
    (fuel : nat) :
  handlers_of hl l ->
  ~ In old_handler l ->
  (List.length l <= fuel)%nat ->
  Gpio.deregisterHandler fuel old_handler hl = Some hl.
Proof.
  unfold handlers_of. intros Hc Hold Hfuel.
  unfold Gpio.deregisterHandler.
  inversion Hc as [Hf | c l' Hc1 Hf]; subst; [reflexivity |].
  assert (Hb : (c =? old_handler)%nat = false).
  { apply Nat.eqb_neq. intros ->. apply Hold. now left. }
  rewrite Hb.
  apply (deregister_walk_absent old_handler hl l').
  - now constructor.
  - intros Hin. apply Hold. now right.
  - cbn in Hfuel. lia.
Qed.

Lemma deregister_absent_handler_witness :
  Gpio.deregisterHandler 2 3%nat two_handlers = Some two_handlers.
Proof.
  apply (deregister_absent_handler 3%nat [1%nat; 2%nat] two_handlers 2).
  - repeat constructor.
  - cbn. intros [H | [H | H]]; (discriminate || contradiction).
  - cbn. lia.
Defined.

(** X20: [deregisterHandler] undoes [registerHandler]: a handler that is
    registered on a list that has handlers and then deregistered leaves the
    list as it was. *)
Theorem deregister_undoes_register (priority : Gpio.handler -> Z)
    (new_handler f : Gpio.handler) (rest : list Gpio.handler)
    (hl : Gpio.gpioDigitalInputHandlerList) :
  handlers_of hl (f :: rest) ->
  ~ In new_handler (f :: rest) ->
  exists hl1 hl2,
    Gpio.registerHandler priority 1 new_handler hl = Some hl1 /\
    Gpio.deregisterHandler 2 new_handler hl1 = Some hl2 /\
    handlers_of hl2 (f :: rest).
Proof.
  intros Hc Hnew.
  destruct (register_on_handlers priority 0 new_handler f rest hl Hc Hnew)
    as (hl1 & Hreg & Hc1).
  exists hl1.
  destruct (priority new_handler >? priority f)%Z.
  - destruct (deregister_present new_handler [] (f :: rest) hl1 2 Hc1)
      as (hl2 & Hd & Hc2); [cbn; lia |].
    exists hl2. now repeat split.
  - destruct (deregister_present new_handler [f] rest hl1 2 Hc1)
      as (hl2 & Hd & Hc2); [cbn; lia |].
    exists hl2. now repeat split.
Qed.

Lemma deregister_undoes_register_witness :
  exists hl1 hl2,
    Gpio.registerHandler demo_priority 1 3%nat two_handlers = Some hl1 /\
    Gpio.deregisterHandler 2 3%nat hl1 = Some hl2 /\
    handlers_of hl2 [1%nat; 2%nat].
Proof.
  apply (deregister_undoes_register demo_priority 3%nat 1%nat [2%nat]
           two_handlers).
  - repeat constructor.
  - cbn. intros [H | [H | H]]; (discriminate || contradiction).
Defined.

Lemma call_walk_self_loop
    (callback : Gpio.handler -> bool -> Gpio.inputEdgeFlag -> Z -> bool)
    (nx : Gpio.handler -> option Gpio.handler) (f : Gpio.handler)
    (state : bool) (edge : Gpio.inputEdgeFlag) (pin : Z) (fuel : nat) :
  nx f = Some f ->
  callback f state edge pin = false ->
  Gpio.call_walk callback fuel nx (Some f) state edge pin = None.
Proof.
  intros Hnx Hcb. induction fuel as [| fuel IH]; [reflexivity |].
  cbn [Gpio.call_walk]. now rewrite Hcb, Hnx, IH.
Qed.

(** X21: Registering the first handler of a list again closes the list on
    itself: the handler becomes its own successor, and an event that its
    callback does not take keeps [call] in its loop for ever. *)
Theorem register_first_handler_again_loops
    (priority : Gpio.handler -> Z)
    (callback : Gpio.handler -> bool -> Gpio.inputEdgeFlag -> Z -> bool)
    (f : Gpio.handler) (hl : Gpio.gpioDigitalInputHandlerList)
    (fuel : nat) :
  Gpio._first_handler hl = Some f ->
  exists hl',
    Gpio.registerHandler priority (S fuel) f hl = Some hl' /\
    Gpio._first_handler hl' = Some f /\
    Gpio.next hl' f = Some f /\
    forall steps state edge pin,
      callback f state edge pin = false ->
      Gpio.call callback steps hl' state edge pin = None.
Proof.
  intros Hf. unfold Gpio.registerHandler. rewrite Hf.
  assert (Hgt : (priority f >? priority f)%Z = false)
    by (rewrite Z.gtb_ltb; apply Z.ltb_irrefl).
  rewrite Hgt. cbn [Gpio.register_walk]. rewrite Z.leb_refl.
  eexists. split; [reflexivity |]. cbn.
  split; [exact Hf |]. split; [apply write_next_same |].
  intros steps state edge pin Hcb. unfold Gpio.call. cbn. rewrite Hf.
  apply call_walk_self_loop; [apply write_next_same | exact Hcb].
Qed.

Lemma register_first_handler_again_loops_witness :
  exists hl',
    Gpio.registerHandler demo_priority 1 1%nat two_handlers = Some hl' /\
    Gpio._first_handler hl' = Some 1%nat /\
    Gpio.next hl' 1%nat = Some 1%nat /\
    forall steps state edge pin,
      demo_callback 1%nat state edge pin = false ->
      Gpio.call demo_callback steps hl' state edge pin = None.
Proof.
  apply (register_first_handler_again_loops demo_priority demo_callback
           1%nat two_handlers 0).
  reflexivity.
Defined.

Lemma deregister_each_from_head (fuel : nat) (l : list Gpio.handler) :
  forall hl : Gpio.gpioDigitalInputHandlerList,
  handlers_of hl l ->
  deregister_each fuel l hl = Some (hl <| Gpio._first_handler := None |>).
Proof.
  unfold handlers_of.
  induction l as [| c l IH]; intros hl Hc.
  - inversion Hc as [Hf |]. destruct hl as [first nx]. cbn in *.
    now rewrite <- Hf.
  - inversion Hc as [| ? ? Hc1 Hf]; subst.
    cbn [deregister_each]. unfold Gpio.deregisterHandler.
    rewrite <- Hf, Nat.eqb_refl.
    rewrite IH by exact Hc1. reflexivity.
Qed.

(** X22: A handler that was deregistered can come back: [registerHandler] on
    an empty list does not clear [new_handler->next], and
    [deregisterHandler] of the first handler does not clear its [next]
    either.  When the handlers of a list are deregistered from the first
    to the last the list is empty, and registering the first of them again
    gives the whole list back. *)
Theorem deregistered_handlers_return (priority : Gpio.handler -> Z)
    (fuel : nat) (a : Gpio.handler) (rest : list Gpio.handler)
    (hl : Gpio.gpioDigitalInputHandlerList) :
  handlers_of hl (a :: rest) ->
  exists hl2 hl3,
    deregister_each fuel (a :: rest) hl = Some hl2 /\
    handlers_of hl2 [] /\
    Gpio.registerHandler priority fuel a hl2 = Some hl3 /\
    handlers_of hl3 (a :: rest).
Proof.
  intros Hc.
  exists (hl <| Gpio._first_handler := None |>).
  exists (hl <| Gpio._first_handler := Some a |>).
  split; [now apply deregister_each_from_head |].
  split; [constructor |].
  split; [reflexivity |].
  unfold handlers_of in *. inversion Hc as [| ? ? Hc1 Hf]; subst.
  cbn. now constructor.
Qed.

Lemma deregistered_handlers_return_witness :
  exists hl2 hl3,
    deregister_each 0 [1%nat; 2%nat] two_handlers = Some hl2 /\
    handlers_of hl2 [] /\
    Gpio.registerHandler demo_priority 0 1%nat hl2 = Some hl3 /\
    handlers_of hl3 [1%nat; 2%nat].
Proof.
  apply (deregistered_handlers_return demo_priority 0 1%nat [2%nat]
           two_handlers).
  repeat constructor.
Defined.

(* ================================================================== *)
(** ** The digital inputs of gpio.h *)

Lemma trunc_unit_interval (v : Q) :
  0 <= v -> v <= 1 ->
  Gpio.trunc v = (if Qltb v 1 then 0 else 1)%Z.
Proof.
  intros H0 H1. unfold Gpio.trunc.
  rewrite (proj2 (Qle_bool_iff 0 v) H0).
  destruct (Qltb v 1) eqn:Hlt.
  - apply Qltb_true in Hlt.
    assert (Hf : (0 <= Qfloor v)%Z)
      by (change 0%Z with (Qfloor 0); now apply Qfloor_resp_le).
    assert (Hf' : (Qfloor v < 1)%Z).
    { apply Z.lt_nge. intros Hge.
      pose proof (Qfloor_le v) as Hle.
      assert (inject_Z 1 <= inject_Z (Qfloor v))
        by (rewrite <- Zle_Qle; exact Hge).
      change (inject_Z 1) with 1 in *. lra. }
    lia.
  - apply Qltb_false in Hlt.
    assert (Heq : v == 1) by lra.
    rewrite Heq. reflexivity.
Qed.

(** X23: [setEnabled(nv)] in full: it always returns; a value outside
    [0 .. 1] is a range error and a pin that is unavailable is read-only,
    and neither changes the pin; every other value is accepted with its
    fraction dropped, so that only 1 enables.  A pin is unavailable
    afterwards exactly when it was before. *)
Theorem set_enabled_nv_outcomes (Timeout : Type) (nv : Gpio.nvObj_t)
    (p : Gpio.gpioDigitalInputPin Timeout) :
  exists p' st,
    Gpio.setEnabled_nv nv p = Some (p', st) /\
    (Gpio.enabled p' = Gpio.IO_UNAVAILABLE
     <-> Gpio.enabled p = Gpio.IO_UNAVAILABLE) /\
    (st = (if Qltb (Gpio.value nv) 0 || Qltb 1 (Gpio.value nv)
           then Gpio.STAT_INPUT_VALUE_RANGE_ERROR
           else match Gpio.enabled p with
                | Gpio.IO_UNAVAILABLE => Gpio.STAT_PARAMETER_IS_READ_ONLY
                | _ => Gpio.STAT_OK
                end)) /\
    (p' = (match st with
           | Gpio.STAT_OK =>
               p <| Gpio.enabled :=
                      if Qltb (Gpio.value nv) 1
                      then Gpio.IO_DISABLED else Gpio.IO_ENABLED |>
           | _ => p
           end)).
Proof.
  unfold Gpio.setEnabled_nv.
  change (inject_Z (Gpio.ioEnabled_value Gpio.IO_DISABLED)) with 0.
  change (inject_Z (Gpio.ioEnabled_value Gpio.IO_ENABLED)) with 1.
  destruct (Qltb (Gpio.value nv) 0) eqn:H0;
    [cbn [orb]; exists p, Gpio.STAT_INPUT_VALUE_RANGE_ERROR; now repeat split |].
  destruct (Qltb 1 (Gpio.value nv)) eqn:H1;
    [cbn [orb]; exists p, Gpio.STAT_INPUT_VALUE_RANGE_ERROR; now repeat split |].
  cbn [orb].
  apply Qltb_false in H0, H1.
  rewrite (trunc_unit_interval _ H0 H1).
  unfold Gpio.setEnabled.
  destruct (Qltb (Gpio.value nv) 1); cbn [Gpio.ioEnabled_of Z.eqb];
    destruct (Gpio.enabled p) eqn:He; cbn [negb];
    eexists _, _; (split; [reflexivity |]);
    (split; [cbn; rewrite ?He; split; (discriminate || reflexivity || congruence) |]);
    (split; reflexivity).
Qed.

Lemma update_nth_setPin (i : nat) (new_pin : option Gpio.pin_ptr)
    (l : list Gpio.gpioDigitalInputReader) :
  update_nth i (fun r => fst (Gpio.setPin r new_pin)) l = l.
Proof.
  revert i. induction l as [| r l IH]; intros [| i]; cbn; try reflexivity.
  now rewrite IH.
Qed.

Lemma reader_setPin_keeps (in_r : list Gpio.gpioDigitalInputReader) (i : Z)
    (new_pin : option Gpio.pin_ptr) :
  (0 <= i < Z.of_nat (List.length in_r))%Z ->
  Gpio.reader_setPin in_r i new_pin = Some in_r.
Proof.
  intros Hi. unfold Gpio.reader_setPin.
  assert (H : ((0 <=? i)%Z && (i <? Z.of_nat (List.length in_r))%Z) = true)
    by (apply andb_true_iff; split; [apply Z.leb_le | apply Z.ltb_lt]; lia).
  rewrite H. now rewrite update_nth_setPin.
Qed.

Lemma trunc_range (v : Q) :
  0 <= v -> v <= 14 -> (0 <= Gpio.trunc v <= 14)%Z.
Proof.
  intros H0 H14. unfold Gpio.trunc.
  rewrite (proj2 (Qle_bool_iff 0 v) H0).
  split.
  - change 0%Z with (Qfloor 0). now apply Qfloor_resp_le.
  - change 14%Z with (Qfloor 14). now apply Qfloor_resp_le.
Qed.

(** X24: [setExternalNumber(nv)] never binds a reader: [setPin] assigns to its
    parameter, so the array [in_r] of the fourteen readers is after the
    call what it was before, whatever number the pin is given.  The call
    stays inside the array, a value outside [0 .. 14] is a range error,
    and any other value becomes the number of the pin with its fraction
    dropped. *)
Theorem set_external_number_nv_keeps_readers (Timeout : Type)
    (this : Gpio.pin_ptr) (nv : Gpio.nvObj_t)
    (in_r : list Gpio.gpioDigitalInputReader)
    (p : Gpio.gpioDigitalInputPin Timeout) :
  List.length in_r = 14%nat ->
  (0 <= Gpio.proxy_pin_number p <= 14)%Z ->
  exists p' st,
    Gpio.setExternalNumber_nv this nv in_r p = Some (in_r, p', st) /\
    (0 <= Gpio.proxy_pin_number p' <= 14)%Z /\
    (if Qltb (Gpio.value nv) 0 || Qltb 14 (Gpio.value nv)
     then st = Gpio.STAT_INPUT_VALUE_RANGE_ERROR /\ p' = p
     else st = Gpio.STAT_OK /\
          p' = p <| Gpio.proxy_pin_number := Gpio.trunc (Gpio.value nv) |>).
Proof.
  intros Hlen Hproxy. unfold Gpio.setExternalNumber_nv.
  destruct (Qltb (Gpio.value nv) 0 || Qltb 14 (Gpio.value nv)) eqn:Hr.
  - exists p, Gpio.STAT_INPUT_VALUE_RANGE_ERROR. now repeat split.
  - apply orb_false_iff in Hr. destruct Hr as [H0 H14].
    apply Qltb_false in H0, H14.
    pose proof (trunc_range _ H0 H14) as Ht.
    rewrite (Z.mod_small (Gpio.trunc (Gpio.value nv)) 256) by lia.
    set (e := Gpio.trunc (Gpio.value nv)) in *.
    unfold Gpio.setExternalNumber.
    destruct (e =? Gpio.proxy_pin_number p)%Z eqn:He.
    + apply Z.eqb_eq in He. cbn [negb].
      exists p, Gpio.STAT_OK. split; [reflexivity |].
      split; [exact Hproxy |]. split; [reflexivity |].
      destruct p; cbn in *. now subst.
    + assert (Hold : (if (Gpio.proxy_pin_number p >? 0)%Z
                      then Gpio.reader_setPin in_r
                             (Gpio.proxy_pin_number p - 1) None
                      else Some in_r) = Some in_r).
      { destruct (Gpio.proxy_pin_number p >? 0)%Z eqn:Hp; [| reflexivity].
        apply reader_setPin_keeps. rewrite Hlen.
        rewrite Z.gtb_ltb in Hp. apply Z.ltb_lt in Hp. lia. }
      rewrite Hold.
      change (Gpio.proxy_pin_number (p <| Gpio.proxy_pin_number := e |>))
        with e.
      assert (Hnew : (if (e >? 0)%Z
                      then Gpio.reader_setPin in_r (e - 1) (Some this)
                      else Some in_r) = Some in_r).
      { destruct (e >? 0)%Z eqn:Hp; [| reflexivity].
        apply reader_setPin_keeps. rewrite Hlen.
        rewrite Z.gtb_ltb in Hp. apply Z.ltb_lt in Hp. lia. }
      cbv zeta. rewrite Hnew. cbn [negb].
      eexists _, _. split; [reflexivity |].
      split; [exact Ht |]. now split.
Qed.

Lemma set_external_number_nv_keeps_readers_witness :
  exists p' st,
    Gpio.setExternalNumber_nv 7%nat
      {| Gpio.value := 5; Gpio.valuetype := Gpio.TYPE_INT;
         Gpio.precision := 0 |} demo_readers demo_input
    = Some (demo_readers, p', st) /\
    (0 <= Gpio.proxy_pin_number p' <= 14)%Z /\
    st = Gpio.STAT_OK /\
    p' = demo_input <| Gpio.proxy_pin_number := 5%Z |>.
Proof.
  destruct (set_external_number_nv_keeps_readers demo_timer 7%nat
              {| Gpio.value := 5; Gpio.valuetype := Gpio.TYPE_INT;
                 Gpio.precision := 0 |} demo_readers demo_input)
    as (p' & st & Hcall & Hrange & Hst).
  - reflexivity.
  - cbn. lia.
  - exists p', st. split; [exact Hcall |]. split; [exact Hrange |].
    exact Hst.
Defined.

(** X25: [pin_changed] on an input that is not disabled and not in its
    lockout: the lockout is started and the edge is recorded - leading when
    the pin reads active with the polarity taken into account, trailing
    else; the handlers for [INPUT_ACTION_INTERNAL] are called first, in the
    order of their list up to the first that takes the event; the handlers
    for the action of the pin are called after them, and only when no
    internal handler took the event; a status report is requested in the
    end, whoever took the event. *)
Theorem pin_changed_calls_internal_first (Timeout : Type)
    (isSet isPast : Timeout -> bool) (timer_set : Z -> Timeout -> Timeout)
    (callback : Gpio.handler -> bool -> Gpio.inputEdgeFlag -> Z -> bool)
    (fuel : nat) (d : Gpio.din_handlers_t)
    (p : Gpio.gpioDigitalInputPin Timeout)
    (internal actions : list Gpio.handler) :
  Gpio.enabled p <> Gpio.IO_DISABLED ->
  isSet (Gpio.lockout_timer p) && negb (isPast (Gpio.lockout_timer p))
  = false ->
  handlers_of (Gpio.din_list d Gpio.INPUT_ACTION_INTERNAL) internal ->
  handlers_of (Gpio.din_list d (Gpio.action p)) actions ->
  (List.length internal < fuel)%nat ->
  (List.length actions < fuel)%nat ->
  let active := corrected_level p in
  let taken h :=
    callback h active (edge_of active) (Gpio.ext_pin_number p) in
  Gpio.pin_changed isSet isPast timer_set callback fuel d p
  = Some
      (p <| Gpio.lockout_timer ::= timer_set (Gpio.lockout_ms p) |>
         <| Gpio.edge := edge_of active |>,
       map (fun h => Gpio.Ev_callback h active (edge_of active)
                       (Gpio.ext_pin_number p))
           (upto_first taken internal
            ++ (if existsb taken internal then []
                else upto_first taken actions))
       ++ [Gpio.Ev_sr_request_status_report_timed]).
Proof.
  intros Hen Hlock Hi Ha Hfi Hfa active taken.
  unfold Gpio.pin_changed. rewrite Hlock.
  fold (corrected_level p). fold active.
  assert (Hp : (if active
                then (p <| Gpio.lockout_timer ::= timer_set (Gpio.lockout_ms p) |>)
                       <| Gpio.edge := Gpio.INPUT_EDGE_LEADING |>
                else (p <| Gpio.lockout_timer ::= timer_set (Gpio.lockout_ms p) |>)
                       <| Gpio.edge := Gpio.INPUT_EDGE_TRAILING |>)
               = p <| Gpio.lockout_timer ::= timer_set (Gpio.lockout_ms p) |>
                   <| Gpio.edge := edge_of active |>)
    by (destruct active; reflexivity).
  destruct (Gpio.enabled p) eqn:He; [| contradiction |];
    cbv zeta; rewrite Hp;
    change (Gpio.edge (p <| Gpio.lockout_timer ::= timer_set (Gpio.lockout_ms p) |>
                         <| Gpio.edge := edge_of active |>))
      with (edge_of active);
    change (Gpio.ext_pin_number
              (p <| Gpio.lockout_timer ::= timer_set (Gpio.lockout_ms p) |>
                 <| Gpio.edge := edge_of active |>))
      with (Gpio.ext_pin_number p);
    change (Gpio.action
              (p <| Gpio.lockout_timer ::= timer_set (Gpio.lockout_ms p) |>
                 <| Gpio.edge := edge_of active |>))
      with (Gpio.action p);
    rewrite (call_walk_chain callback _ active (edge_of active)
               (Gpio.ext_pin_number p) _ internal Hi fuel Hfi
             : Gpio.call callback fuel _ _ _ _ = _);
    fold taken;
    (destruct (existsb taken internal);
     [ now rewrite app_nil_r
     | rewrite (call_walk_chain callback _ active (edge_of active)
                  (Gpio.ext_pin_number p) _ actions Ha fuel Hfa
                : Gpio.call callback fuel _ _ _ _ = _);
       fold taken; now rewrite map_app, app_assoc ]).
Qed.

Lemma pin_changed_calls_internal_first_witness :
  Gpio.pin_changed timer_isSet timer_isPast demo_timer_set demo_callback 3
    demo_din_handlers demo_input
  = Some
      (demo_input
         <| Gpio.lockout_timer := {| timer_isSet := true; timer_isPast := false |} |>
         <| Gpio.edge := Gpio.INPUT_EDGE_LEADING |>,
       [Gpio.Ev_callback 1%nat true Gpio.INPUT_EDGE_LEADING 3;
        Gpio.Ev_callback 3%nat true Gpio.INPUT_EDGE_LEADING 3;
        Gpio.Ev_callback 2%nat true Gpio.INPUT_EDGE_LEADING 3;
        Gpio.Ev_sr_request_status_report_timed]).
Proof.
  apply (pin_changed_calls_internal_first demo_timer timer_isSet timer_isPast
           demo_timer_set demo_callback 3 demo_din_handlers demo_input
           [1%nat; 3%nat] [2%nat]).
  - discriminate.
  - reflexivity.
  - repeat constructor.
  - repeat constructor.
  - cbn. lia.
  - cbn. lia.
Defined.

(* ================================================================== *)
(** ** The analog inputs of gpio.h *)

Lemma Qfloor_between (v : Q) (k : Z) :
  inject_Z k <= v -> v < inject_Z (k + 1) -> Qfloor v = k.
Proof.
  intros Hle Hlt.
  pose proof (Qfloor_le v) as H1. pose proof (Qlt_floor v) as H2.
  assert (Ha : (k < Qfloor v + 1)%Z)
    by (rewrite Zlt_Qlt; eapply Qle_lt_trans; [exact Hle | exact H2]).
  assert (Hb : (Qfloor v < k + 1)%Z)
    by (rewrite Zlt_Qlt; eapply Qle_lt_trans; [exact H1 | exact Hlt]).
  lia.
Qed.

Lemma trunc_between (v : Q) (k : Z) (lo hi : Q) :
  lo = inject_Z k -> hi = inject_Z (k + 1) ->
  (0 <= k)%Z -> lo <= v -> v < hi -> Gpio.trunc v = k.
Proof.
  intros -> -> Hk Hle Hlt. unfold Gpio.trunc.
  assert (H0 : 0 <= v).
  { eapply Qle_trans; [| exact Hle].
    change 0 with (inject_Z 0). now rewrite <- Zle_Qle. }
  rewrite (proj2 (Qle_bool_iff 0 v) H0). now apply Qfloor_between.
Qed.

(** X26: An analog input cannot be made external through its configuration:
    [setType(nv)] and [setCircuit(nv)] always return, and a value whose
    integer part is 2 - [AIN_TYPE_EXTERNAL], [AIN_CIRCUIT_EXTERNAL] - passes
    the range check and is then refused as read-only; a value outside the
    range is a range error; neither changes the input.  Every other value
    sets the type or the circuit to its integer part. *)
Theorem analog_external_is_read_only (nv : Gpio.nvObj_t)
    (a : Gpio.gpioAnalogInputPin) :
  let v := Gpio.value nv in
  Gpio.setType_nv nv a
  = Some
      (if Qltb v 0 || Qltb 2 v then (a, Gpio.STAT_INPUT_VALUE_RANGE_ERROR)
       else if Qltb v 1
       then (a <| Gpio.type := Gpio.AIN_TYPE_DISABLED |>, Gpio.STAT_OK)
       else if Qltb v 2
       then (a <| Gpio.type := Gpio.AIN_TYPE_INTERNAL |>, Gpio.STAT_OK)
       else (a, Gpio.STAT_PARAMETER_IS_READ_ONLY)) /\
  Gpio.setCircuit_nv nv a
  = Some
      (if Qltb v 0 || Qltb 4 v then (a, Gpio.STAT_INPUT_VALUE_RANGE_ERROR)
       else if Qltb v 1
       then (a <| Gpio.circuit := Gpio.AIN_CIRCUIT_DISABLED |>, Gpio.STAT_OK)
       else if Qltb v 2
       then (a <| Gpio.circuit := Gpio.AIN_CIRCUIT_PULLUP |>, Gpio.STAT_OK)
       else if Qltb v 3
       then (a, Gpio.STAT_PARAMETER_IS_READ_ONLY)
       else if Qltb v 4
       then (a <| Gpio.circuit := Gpio.AIN_CIRCUIT_INV_OPAMP |>, Gpio.STAT_OK)
       else (a <| Gpio.circuit := Gpio.AIN_CIRCUIT_CC_INV_OPAMP |>,
             Gpio.STAT_OK)).
Proof.
  intros v. split.
  - unfold Gpio.setType_nv. fold v.
    change (inject_Z (Gpio.AnalogInputType_value Gpio.AIN_TYPE_DISABLED))
      with 0.
    change (inject_Z (Gpio.AnalogInputType_value Gpio.AIN_TYPE_EXTERNAL))
      with 2.
    destruct (Qltb v 0) eqn:H0; [reflexivity |].
    destruct (Qltb 2 v) eqn:H2; [reflexivity |].
    cbn [orb]. apply Qltb_false in H0, H2.
    destruct (Qltb v 1) eqn:H1.
    { apply Qltb_true in H1. rewrite (trunc_between v 0 0 1 eq_refl eq_refl); [reflexivity | lia | |];
        lra. }
    apply Qltb_false in H1.
    destruct (Qltb v 2) eqn:H2'.
    { apply Qltb_true in H2'.
      rewrite (trunc_between v 1 1 2 eq_refl eq_refl); [reflexivity | lia | |];
        lra. }
    apply Qltb_false in H2'.
    rewrite (trunc_between v 2 2 3 eq_refl eq_refl); [reflexivity | lia | |];
        lra.
  - unfold Gpio.setCircuit_nv. fold v.
    change (inject_Z (Gpio.AnalogCircuit_value Gpio.AIN_CIRCUIT_DISABLED))
      with 0.
    change (inject_Z (Gpio.AnalogCircuit_value Gpio.AIN_CIRCUIT_MAX)) with 4.
    destruct (Qltb v 0) eqn:H0; [reflexivity |].
    destruct (Qltb 4 v) eqn:H4; [reflexivity |].
    cbn [orb]. apply Qltb_false in H0, H4.
    destruct (Qltb v 1) eqn:H1.
    { apply Qltb_true in H1. rewrite (trunc_between v 0 0 1 eq_refl eq_refl); [reflexivity | lia | |];
        lra. }
    apply Qltb_false in H1.
    destruct (Qltb v 2) eqn:H2.
    { apply Qltb_true in H2.
      rewrite (trunc_between v 1 1 2 eq_refl eq_refl); [reflexivity | lia | |];
        lra. }
    apply Qltb_false in H2.
    destruct (Qltb v 3) eqn:H3.
    { apply Qltb_true in H3.
      rewrite (trunc_between v 2 2 3 eq_refl eq_refl); [reflexivity | lia | |];
        lra. }
    apply Qltb_false in H3.
    destruct (Qltb v 4) eqn:H4'.
    { apply Qltb_true in H4'.
      rewrite (trunc_between v 3 3 4 eq_refl eq_refl); [reflexivity | lia | |];
        lra. }
    apply Qltb_false in H4'.
    rewrite (trunc_between v 4 4 5 eq_refl eq_refl); [reflexivity | lia | |];
        lra.
Qed.

Lemma nth_update_nth_eq {A} (i j : nat) (f : A -> A) (l : list A) (d : A) :
  nth j (update_nth i f l) d
  = if (j =? i)%nat && (j <? List.length l)%nat
    then f (nth j l d) else nth j l d.
Proof.
  revert i j. induction l as [| a l IH]; intros i j.
  - destruct i, j; cbn; rewrite ?andb_false_r; reflexivity.
  - destruct i as [| i], j as [| j]; cbn [update_nth nth]; try reflexivity.
    rewrite IH. reflexivity.
Qed.

(** X27: The six parameters are a small store: [setParameter(p, v)] writes
    parameter [p] and no other when [p] is below 6 and refuses else, and
    [getParameter] reads back what was written, and 0 outside the
    array. *)
Theorem set_parameter_get_parameter (a : Gpio.gpioAnalogInputPin)
    (p q : Z) (v : Q) :
  List.length (Gpio.parameters a) = 6%nat ->
  (0 <= p)%Z -> (0 <= q)%Z ->
  let r := Gpio.setParameter p v a in
  snd r = (p <? 6)%Z /\
  Gpio.getParameter q (fst r)
  = (if (q =? p)%Z && (p <? 6)%Z then v else Gpio.getParameter q a) /\
  ((6 <= q)%Z -> Gpio.getParameter q (fst r) = 0).
Proof.
  intros Hlen Hp Hq r. subst r.
  unfold Gpio.setParameter, Gpio.getParameter.
  assert (Hp0 : (p <? 0)%Z = false) by (apply Z.ltb_ge; lia).
  assert (Hq0 : (q <? 0)%Z = false) by (apply Z.ltb_ge; lia).
  rewrite Hp0, Hq0. cbn [orb].
  rewrite !Z.geb_leb.
  destruct (6 <=? p)%Z eqn:Hp6.
  - apply Z.leb_le in Hp6.
    assert (Hlt : (p <? 6)%Z = false) by (apply Z.ltb_ge; lia).
    rewrite Hlt, andb_false_r. cbn [fst snd].
    split; [reflexivity |]. split; [reflexivity |].
    intros Hq6. apply Z.leb_le in Hq6. now rewrite Hq6.
  - apply Z.leb_gt in Hp6.
    assert (Hlt : (p <? 6)%Z = true) by (apply Z.ltb_lt; lia).
    rewrite Hlt, andb_true_r. cbn [fst snd].
    split; [reflexivity |].
    split.
    + destruct (6 <=? q)%Z eqn:Hq6.
      * apply Z.leb_le in Hq6.
        assert (Hne : (q =? p)%Z = false) by (apply Z.eqb_neq; lia).
        now rewrite Hne.
      * apply Z.leb_gt in Hq6.
        cbn [Gpio.parameters set Gpio.set_parameters].
        rewrite nth_update_nth_eq, Hlen.
        assert (Hql : (Z.to_nat q <? 6)%nat = true)
          by (apply Nat.ltb_lt; lia).
        rewrite Hql, andb_true_r.
        destruct (q =? p)%Z eqn:Hqp.
        -- apply Z.eqb_eq in Hqp. subst q. now rewrite Nat.eqb_refl.
        -- apply Z.eqb_neq in Hqp.
           assert (Hn : (Z.to_nat q =? Z.to_nat p)%nat = false)
             by (apply Nat.eqb_neq; lia).
           now rewrite Hn.
    + intros Hq6. apply Z.leb_le in Hq6. now rewrite Hq6.
Qed.

Lemma set_parameter_get_parameter_witness :
  let r := Gpio.setParameter 2 10000 demo_analog in
  snd r = true /\
  Gpio.getParameter 2 (fst r) = 10000 /\
  Gpio.getParameter 0 (fst r) = 4700.
Proof.
  intros r.
  destruct (set_parameter_get_parameter demo_analog 2 2 10000)
    as (Hok & Hget & _); [reflexivity | lia | lia |].
  destruct (set_parameter_get_parameter demo_analog 2 0 10000)
    as (_ & Hget0 & _); [reflexivity | lia | lia |].
  split; [exact Hok |]. split; [exact Hget | exact Hget0].
Defined.

(* ================================================================== *)
(** ** [ValueHistory] *)








Section HistoryStep.
Variable N : nat.
Hypothesis N_pos : (0 < N)%nat.
Hypothesis N_uint16 : (Z.of_nat N < 65536)%Z.



End HistoryStep.






